(* ===== verification/_CoqProject ===== *)
-Q . S2P
Prelude.v
Double.v
Proto.v
Text.v
Json.v
AlertRule.v
AlertManager.v
AgentRegistry.v
Schedules.v
Scheduler.v
Cancel.v
Storage.v
Kafka.v
MetricsService.v
Dists.v
DiskBuffer.v
ProbeRunner.v
Shutdown.v
AgentMain.v
CommandStore.v
Http.v
HttpSpec.v
Exporter.v
GetOpt.v
AgentConfig.v
Stod.v
Commands.v
CommandsSpec.v
EndToEnd.v
Scheduled.v
Resolver.v
Net.v
Probes.v
Capture.v
ProbesSpec.v
Platform.v
Trace.v
CollectorMain.v
JsonRead.v
JsonSpec.v
Logger.v
Notifier.v
Journey.v
AgentStart.v
WinService.v
Sntp.v
Server.v
ConsumerMain.v
KafkaJourney.v
Unreadable.v
