(* ===== verification/Prelude.v ===== *)
(** * PudimNetMon: a verification library

    PudimNetMon is a distributed network monitor.  An _agent_
    ([agent/src]) measures the network from where it runs and delivers batches
    of metrics; a _collector_ ([collector/src]) receives them, stores them (in
    TimescaleDB, directly or through Kafka), raises alerts, keeps track of the
    agents, runs diagnostic commands on them on a schedule, and serves agent
    binaries and installers.  This library models the core of both programs as
    executable Rocq definitions, one file per component, and proves what makes
    them correct.

    ** How the parts interact

<<
  agent                                   collector
  GetOpt, AgentConfig                     CollectorMain (starts all below)
      |
  AgentStart (WinService on Windows)
      |
  Resolver -> Probes, Capture (over Net)
      |
  ProbeRunner -> MainLoop (AgentMain)
               |        \-------gRPC-----> Endpoints (MetricsService)
               |  ^                           |         |
            DiskBuffer                     Storage    Kafka.Producer
                                              |         |   (broker)
                                              |     Kafka.Consumer -> Storage
                                              +-> AlertManager -> Notifier
  heartbeat --------------gRPC-----------> AgentService / AgentRegistry
  Commands.Diagnostic <---gRPC------------ Scheduler.Execute (Schedules rows)
  (Commands.Catalog)  <---gRPC------------ Http <- dashboard
                       (routed by Server)  Exporter -> Prometheus
                                           Dists: staged binaries, mirror
>>

    ** The files

    - [Prelude] (this file): results that may throw ([outcome]), machine
      integers ([Int]: the wrap-around and the conversions are written out),
      strings ([Str]: the parts of the C++ library the sources use, such as
      [std::stoi], [find], [substr] and [std::to_string]), finite executions
      ([Steps]), the tactic [bool_hyps] and other generic lemmas.
    - [Double]: C++ [double] as the Standard Library's executable binary64.
    - [Proto]: the protobuf messages of [api/proto].
    - [Text]: JSON text built by concatenation, [logger::escape] and
      [EscapeJson], against a reference reader of JSON strings.
    - [Json]: the interface to nlohmann::json (third-party), whose laws ask for
      the values that it can print (UTF-8 texts, finite numbers), and a
      reference instance that shows they can hold.
    - [AlertRule], [AlertManager]: [collector/src/alerting].  The specification
      is the abstract alarm of one (rule, agent, target) key.
    - [AgentRegistry]: [agent_endpoint.cpp], [agent_registry.cpp] and
      [agent_service.cpp].  The specification is the history of heartbeats.
    - [Schedules]: the tables of command schedules and runs as the SQL
      statements change them, and [NextSlot].
    - [Scheduler]: [command_scheduler.cpp]; [Execute] is one run, [Threads] the
      interleavings of the dispatcher and the workers as a step relation.
      [Cancel]: how its [Stop] cancels the calls under way.
    - [Storage]: [timescale_storage.cpp] over the libpq interface [Libpq].
    - [Kafka]: the producer, the consumer loop, the storage consumer.
    - [MetricsService]: [metrics_service.cpp]; the RPC handlers are proved
      against the interface [Sink], which [Pipeline] implements.
    - [Dists]: [agent_dist.cpp], [installer_dist.cpp], [release_mirror.cpp].
    - [DiskBuffer]: the agent's [disk_buffer.cpp]; [SpillStore] is what it
      promises to the main loop, with its laws discharged for every failure
      pattern of SQLite.
    - [AgentMain]: [failover_client.cpp], the clients' answers and the loop of
      [RunAgent] in [agent/src/main.cpp], proved against the interfaces
      [SpillStore] and [Uplink].
    - [ProbeRunner]: [probe_runner.cpp]; [Pool] is the thread pool of one cycle
      as a step relation, [Cycle] the order of its metrics, [Runner] the loop
      around it with its queue and sequence numbers.  [Shutdown]: [Stop] against
      the loop thread and the workers.
    - [GetOpt]: [platform/getopt.cpp].  [AgentConfig]: [config_file.h] and
      [agent_config.cpp], with the option loop as an argument.
    - [CommandStore]: what the HTTP handlers need of the storage, as a class
      with laws; [memory] discharges them, [timescale_store] is the program's.
    - [Http], [HttpSpec]: the handlers of [http_server.cpp] and what they
      promise.  [Exporter]: its Prometheus text, against a reference reader.
    - [Stod]: [std::stod].  [Commands], [CommandsSpec]: the agent's
      [commands.cpp] (Linux build) and [diagnostic_service.cpp] over an
      interface to the machine, and what they promise.
    - [EndToEnd]: a configuration from the HTTP body to the agent's store.
      [Scheduled]: a scheduled command from the HTTP body through the scheduler
      to the agent's command, and its answer back into the history.
    - [Resolver]: [dns_resolver.cpp]; the cache and the lookups in flight under
      any interleaving of callers and workers, and the copied address lists.
    - [Net]: the interface to sockets, OpenSSL, libcurl, libpcap and the clocks,
      the monad of the probes, and [tls_context.cpp].
    - [Probes]: [probes.cpp] and [ntp_probe.cpp]; [Capture]: [pcap_probe.cpp]
      in both its builds; [ProbesSpec]: what they promise.
    - [Platform]: the advertised endpoint of [platform.cpp].  [Trace]:
      [trace_context.cpp].
    - [CollectorMain]: [main] of the collector: its settings, and the order in
      which its components start and stop.
    - [JsonRead]: a reader of JSON texts, the reference the texts the collector
      writes by concatenation are held against; [JsonSpec]: what it makes of the
      list of agents, of the alert pages and of the attributes of a metric.
    - [Logger]: [agent/src/logger.h], its lines as the same reader reads them.
    - [Notifier]: [alerting/notifier.cpp], the log line and the webhook request
      of an alert and their delivery.
    - [Journey]: the agent's gRPC clients ([Wire]) over a network that loses
      calls, replies and the ends of streams, composed with the handlers of any
      number of collectors: [Agent], over any sink that keeps what it accepts,
      and [Database], with TimescaleDB as that sink.
    - [KafkaJourney]: the table network_metrics under its primary key
      ([MetricsTable]), the storage consumer under any redelivery ([Redelivery]),
      the producer's queue as a sink ([Queue]), and all of them composed with
      the agents ([Whole]).
    - [Unreadable]: what a metric that the database refuses does to its agent.
    - [AgentStart]: the start-up of [agent/src/main.cpp] ([Startup]), its signal
      handler, [tls_credentials.cpp] and the watchdog of [systemd_notify.cpp].
    - [WinService]: [platform/win_service.cpp], the threads of the Windows
      service as a step relation.  [Sntp]: the SNTP client of the Windows build
      in [ntp_probe.cpp].
    - [Server]: the routing table of [http_server.cpp], the components behind it
      and the dispatch of a request; its theorems combine those of [HttpSpec].
    - [ConsumerMain]: the process of the storage consumer around its loop:
      [CreateConsumer], [main], and its two threads as a step relation.

    Each definition keeps the name of the C++ function, method or field it
    translates; a C++ object is a [Record] of its fields and a method a function
    from the record to its result and the new record.  A method that holds a
    mutex for its whole body is one atomic step.

    ** What the theorems show

    - Every batch of the probes is sent, held in memory or on disk, counted as
      dropped, or was on disk and deleted by the trimming of the disk queue,
      which nothing counts, whatever the network and the disk do; the buffer,
      interval and endpoint of the agent stay in bounds.  The disk queue is a
      FIFO whose byte counter never falls below the rows it holds, while a scan
      that fails half-way lets it rise above them.  Failover visits all the
      endpoints.
    - Composed with the collectors: what a collector acknowledged is among the
      rows its database completed, and every batch of the probes is accounted for
      as above.  After an outage the backlog is worked off.  Through Kafka: once
      the consumer has committed what the collectors queued, every acknowledged
      metric is a row of the table, as the texts that could be escaped, and the
      table is the same however often and in whatever order the broker delivers.
    - The agent starts as it is configured, advertises the configured address or
      its own towards the collector, and only talks to configured endpoints; the
      Windows service reports the states of its life in order, and a stop puts
      down the agent's flag and completes.  The NTP time stamp is exact within its era.
    - A request changes only the component its route names, a GET request
      nothing; the prefix /api is optional on all routes but those listed.
    - The RPC handlers account for every metric they receive, and alerts are
      evaluated whether or not persistence works; the Kafka consumer accounts
      for every polled message.
    - [AlertManager::Evaluate] refines the abstract alarm; rule changes are
      all-or-nothing and survive a restart through the mirrored rules file.
    - The registry's answers are a function of its history of events.
    - The scheduler runs at most one heavy command per agent under every
      interleaving, a queued run can always start, each run leaves one row of the
      history that tells how it ended (one without a result when the second
      write failed), each slot is claimed once, and the SQL rebase agrees with [NextSlot].
      Stopping it waits for no call but those that were still being prepared,
      and stopping the probe runner ends unless a cycle lost its wakeup.
    - Rows survive the trip through the database; the insert statement lists
      exactly the metrics of the batch.
    - Staged binaries are recognised by exactly their layout; a mirror download
      replaces a file atomically or not at all.

    - A measurement cycle delivers its results in configuration order under
      every interleaving of the pool; its queue is bounded, ordered, and every
      drop is visible in the sequence numbers.
    - The option parser ends on every command line and reads back what was
      written; a configuration file means its settings; for every field, by a
      table of its option, letter and default, the command line wins over the
      file, the file over the defaults.
    - HTTP requests keep the schedule table well formed, change exactly what
      they are answered to have changed, and an alert rule sent comes back.
      The Prometheus text is read back as exactly the counters.
    - A schedule created over HTTP becomes due, is claimed, calls the agent once
      with the parameters it was created with, and the answer of the agent's
      command is the row a client reads, while the storage is up, the window
      open and the agent known and dialled.
    - The agent answers every command request, reads the numbers of [ping] as
      printed, and takes over exactly the configuration the client sent.

    - A DNS lookup ends in time with an answer that was given for its own key,
      and from the cache only while it is fresh.
    - A round of probes makes the calls of a measurement cycle and gives back
      every descriptor, TLS object, certificate and capture handle on every path;
      a ping takes the first reply with its number; a captured handshake is timed whatever else is
      on the wire; the verdicts on DNS records are exactly the expectations.
    - Each alert raised is delivered once per channel; the pages and requests
      the collector writes by hand are JSON exactly when their data has no
      control character left unescaped and no number that is not finite.
    - Generated trace headers are well formed; the collector's settings are those
      of its command line.

    Some theorems state a defect of the code, as it is: the second statement of
    a large insert ([InsertMetrics_second_statement_has_no_header]), the reply to
    an unknown schedule ([schedule_update_replies]), a slot claimed before its
    time ([early_claim_keeps_the_slot]), a failed Kafka batch skipped by a later
    commit ([failed_batch_is_skipped]), control characters in log lines
    ([escape_is_json_string_iff]), unnamed check types ([check_type_names]), a
    cycle that waits for ever ([lost_wakeup]), the Windows ping that is not read
    ([windows_ping_not_read]), targets that reach the shell unquoted
    ([ping_burst_shell]), the byte read after a short packet
    ([packet_reads_captured_bytes]), the wrong reason of a refused connection
    ([refused_connection_misreported]), the certificate attribute with its sign
    reversed ([valid_certificate_marked]), a clock that is never reported as not
    synchronised ([unsynchronised_clock_fails]), two concurrent lookups of one
    name ([concurrent_lookups]), a span that is not replaced
    ([NextSpanId_appends]), a list of agents that one agent makes unreadable
    ([DumpAgents_reads_back]), a webhook scheme without effect
    ([webhook_scheme_ignored]), a batch too large to be ever stored
    ([oversized_batch_blocks]), one metric that stops its agent for good
    ([unreadable_batch_blocks]), a batch stored twice when its reply was lost
    ([retry_rows]), a call that [Stop] does not cancel ([late_call_is_waited_for]),
    a [Stop] that hangs with a lost cycle ([Stop_can_hang]), insecure credentials announced as mTLS
    ([announced_but_insecure]), a watchdog that does not watch
    ([watchdog_ignores_the_loop]), a Windows service that outlives its agent
    ([dead_agent_stays_running]), NTP replies taken from anyone
    ([RunSntpOffset_accepts_any_reply]), routes without their alias
    ([prefix_aliases]), an option character that ends the command line
    ([last_char_ends_loop]) and a storage consumer that hangs when it is stopped
    ([stopped_consumer_never_exits]).

    ** Fuel and bounds

    No result depends on fuel running out.  Loops over data are structural
    recursion on it.  A loop with a counter in the source (ten disk batches per
    sent batch, eight batches per cycle, twenty due schedules, retry attempts)
    recurses on that counter.  The option loop has [GetOpt.enough] fuel, proved
    enough for every command line; the collector's argument loop has the number
    of arguments, of which every iteration takes one; the checksum is folded two
    rounds, proved enough for an echo request.  The consumer loop and the agent's main loop
    run on the finite list of what their environment delivers.  Integers are
    [Z] with [Int.to_int32], [Int.to_int64] and [Int.u64] where a C++ type
    limits them; where a theorem assumes that a counter has not wrapped, the
    bound is a hypothesis.

    ** What is not modelled

    Clocks, random numbers, generated identifiers, the file system, SQLite,
    libpq, librdkafka, gRPC, OpenSSL, libcurl, libpcap, sockets and
    nlohmann::json are arguments, interfaces (some with laws), or oracles (a list
    of outcomes of the next calls).  Output to the log is left out, except for
    the text of log lines.  Not modelled: the Windows branches of the commands
    and of the ICMP and TCP probes and the conversions of wide strings, which
    are calls of the Windows API; constructors, getters, header declarations and
    single system calls (the clock, reading a whole file or pipe); the
    dashboard, tests, scripts and packaging. *)
From stdpp Require Import base gmap strings list pretty.
From Stdlib Require Import ZArith Lia DecimalString DecimalZ.

(** ** Results of fallible C++ code

    A C++ operation of this program ends in one of two ways: it returns a value
    or it throws.  [Throws what] carries the exception's text. *)
Inductive outcome (A : Type) : Type :=
  | Returns (a : A)
  | Throws (what : string).
Arguments Returns {A} a.
Arguments Throws {A} what.

Definition obind {A B} (m : outcome A) (f : A -> outcome B) : outcome B :=
  match m with
  | Returns a => f a
  | Throws w => Throws w
  end.

Declare Scope pudim_scope.
Delimit Scope pudim_scope with pudim.
Notation "'let!' x ':=' m 'in' k" := (obind m (fun x => k))
  (at level 10, x name, m at level 100, k at level 200) : pudim_scope.
Open Scope pudim_scope.

(** ** Machine integers *)
Module Int.
#[local] Open Scope Z_scope.

Definition int32_min : Z := - 2 ^ 31.
Definition int32_max : Z := 2 ^ 31 - 1.
Definition int64_min : Z := - 2 ^ 63.
Definition int64_max : Z := 2 ^ 63 - 1.

Definition in_int32 (z : Z) : Prop := int32_min <= z <= int32_max.
Definition in_int64 (z : Z) : Prop := int64_min <= z <= int64_max.
Definition in_uint64 (z : Z) : Prop := 0 <= z < 2 ^ 64.

Definition in_int32b (z : Z) : bool := (int32_min <=? z) && (z <=? int32_max).
Definition in_int64b (z : Z) : bool := (int64_min <=? z) && (z <=? int64_max).

(** Unsigned 64-bit arithmetic wraps around. *)
Definition u64 (z : Z) : Z := z mod 2 ^ 64.
(** Two's complement conversion, as [static_cast<int>] of a wider value. *)
Definition to_int32 (z : Z) : Z := (z + 2 ^ 31) mod 2 ^ 32 - 2 ^ 31.
Definition to_int64 (z : Z) : Z := (z + 2 ^ 63) mod 2 ^ 64 - 2 ^ 63.

Lemma in_int32b_spec z : in_int32b z = true <-> in_int32 z.
Proof. unfold in_int32b, in_int32. rewrite andb_true_iff, !Z.leb_le. done. Qed.

Lemma in_int64b_spec z : in_int64b z = true <-> in_int64 z.
Proof. unfold in_int64b, in_int64. rewrite andb_true_iff, !Z.leb_le. done. Qed.

Lemma u64_range z : in_uint64 (u64 z).
Proof. unfold u64, in_uint64. apply Z.mod_pos_bound. lia. Qed.

Lemma u64_small z : in_uint64 z -> u64 z = z.
Proof. apply Z.mod_small. Qed.

Lemma to_int32_small z : in_int32 z -> to_int32 z = z.
Proof.
  unfold in_int32, int32_min, int32_max, to_int32. intros ?.
  rewrite Z.mod_small; lia.
Qed.
End Int.

(** ** Byte strings: the operations of [std::string] the program uses

    A [std::string] is a sequence of bytes, here Rocq's [string].  [npos] is
    [None].  All positions are [nat]. *)
Module Str.
#[local] Open Scope string_scope.

Definition c_of (n : nat) : Ascii.ascii := Ascii.ascii_of_nat n.
Definition dquote : Ascii.ascii := c_of 34.
Definition bslash : Ascii.ascii := c_of 92.
Definition nl : Ascii.ascii := c_of 10.
Definition cr : Ascii.ascii := c_of 13.
Definition tab : Ascii.ascii := c_of 9.
(** The separator ['\x1f'] used in the alert state keys and the DNS cache keys. *)
Definition unit_sep : Ascii.ascii := c_of 31.

Definition chr (c : Ascii.ascii) : string := String c EmptyString.
(** A one-character string holding a double quote. *)
Definition dq : string := chr dquote.

Fixpoint stake (n : nat) (s : string) : string :=
  match n, s with
  | S n', String c s' => String c (stake n' s')
  | _, _ => EmptyString
  end.

Fixpoint sdrop (n : nat) (s : string) : string :=
  match n, s with
  | O, _ => s
  | S n', String _ s' => sdrop n' s'
  | S _, EmptyString => EmptyString
  end.

(** [s.substr(pos, len)] for [pos <= s.size()]. *)
Definition substr (s : string) (pos len : nat) : string := stake len (sdrop pos s).

Definition is_empty (s : string) : bool :=
  match s with EmptyString => true | String _ _ => false end.

(** [s.find(c)]. *)
Fixpoint sfind (c : Ascii.ascii) (s : string) : option nat :=
  match s with
  | EmptyString => None
  | String d s' => if Ascii.eqb c d then Some 0 else S <$> sfind c s'
  end.

(** [s.find(c, pos)]. *)
Definition sfind_from (c : Ascii.ascii) (s : string) (pos : nat) : option nat :=
  Nat.add pos <$> sfind c (sdrop pos s).

(** [s.rfind(c)]: the last occurrence. *)
Fixpoint srfind (c : Ascii.ascii) (s : string) : option nat :=
  match s with
  | EmptyString => None
  | String d s' =>
      match srfind c s' with
      | Some i => Some (S i)
      | None => if Ascii.eqb c d then Some 0 else None
      end
  end.

(** [s.find(needle)]. *)
Fixpoint sfind_str (needle s : string) : option nat :=
  if String.prefix needle s then Some 0 else
  match s with
  | EmptyString => None
  | String _ s' => S <$> sfind_str needle s'
  end.

Definition sfind_str_from (needle s : string) (pos : nat) : option nat :=
  Nat.add pos <$> sfind_str needle (sdrop pos s).

Definition scontains (needle s : string) : bool := bool_decide (is_Some (sfind_str needle s)).

(** [s.rfind(p, 0) == 0]. *)
Definition has_prefix (p s : string) : bool := String.prefix p s.

Definition has_suffix (p s : string) : bool :=
  Nat.leb (String.length p) (String.length s) &&
  String.eqb (sdrop (String.length s - String.length p) s) p.

(** [std::isspace] in the C locale. *)
Definition is_space (c : Ascii.ascii) : bool :=
  let n := Ascii.nat_of_ascii c in
  Nat.eqb n 32 || (Nat.leb 9 n && Nat.leb n 13).

Definition is_digit (c : Ascii.ascii) : bool :=
  let n := Ascii.nat_of_ascii c in Nat.leb 48 n && Nat.leb n 57.

(** [std::tolower] in the C locale. *)
Definition to_lower_char (c : Ascii.ascii) : Ascii.ascii :=
  let n := Ascii.nat_of_ascii c in
  if Nat.leb 65 n && Nat.leb n 90 then c_of (n + 32) else c.

Fixpoint map_chars (f : Ascii.ascii -> Ascii.ascii) (s : string) : string :=
  match s with
  | EmptyString => EmptyString
  | String c s' => String (f c) (map_chars f s')
  end.

Definition to_lower : string -> string := map_chars to_lower_char.

Fixpoint drop_while (p : Ascii.ascii -> bool) (s : string) : string :=
  match s with
  | EmptyString => EmptyString
  | String c s' => if p c then drop_while p s' else s
  end.

Fixpoint take_while (p : Ascii.ascii -> bool) (s : string) : string :=
  match s with
  | EmptyString => EmptyString
  | String c s' => if p c then String c (take_while p s') else EmptyString
  end.

(** Drops the longest suffix of characters satisfying [p]. *)
Fixpoint drop_while_end (p : Ascii.ascii -> bool) (s : string) : string :=
  match s with
  | EmptyString => EmptyString
  | String c s' =>
      match drop_while_end p s' with
      | EmptyString => if p c then EmptyString else chr c
      | r => String c r
      end
  end.

(** The two-index trimming loop of the program's [Trim] functions. *)
Definition trim (s : string) : string := drop_while_end is_space (drop_while is_space s).

Fixpoint sall (p : Ascii.ascii -> bool) (s : string) : bool :=
  match s with
  | EmptyString => true
  | String c s' => p c && sall p s'
  end.

Definition has_char (c : Ascii.ascii) (s : string) : bool := negb (sall (fun d => negb (Ascii.eqb c d)) s).

Fixpoint last_char (s : string) : option Ascii.ascii :=
  match s with
  | EmptyString => None
  | String c EmptyString => Some c
  | String _ s' => last_char s'
  end.

(** [s.pop_back()]. *)
Fixpoint pop_back (s : string) : string :=
  match s with
  | EmptyString => EmptyString
  | String _ EmptyString => EmptyString
  | String c s' => String c (pop_back s')
  end.

Definition sjoin (sep : string) (l : list string) : string := String.concat sep l.

(** [std::to_string] of an integer. *)
Definition of_Z (z : Z) : string := NilZero.string_of_int (Z.to_int z).
Definition of_nat (n : nat) : string := of_Z (Z.of_nat n).
Definition of_bool (b : bool) : string := if b then "true" else "false".

(** *** Numbers read from text: [std::stoi] and [std::stoll] *)

Definition digit_val (c : Ascii.ascii) : Z := Z.of_nat (Ascii.nat_of_ascii c - 48).

Fixpoint digits_val (acc : Z) (s : string) : Z :=
  match s with
  | EmptyString => acc
  | String c s' => digits_val (acc * 10 + digit_val c) s'
  end.

(** Leading blanks, an optional sign, then at least one digit; whatever
    follows the digits is ignored.  [None] is [std::invalid_argument]. *)
Definition parse_int (s : string) : option Z :=
  let s := drop_while is_space s in
  let '(neg, s) :=
    match s with
    | String c s' =>
        if Ascii.eqb c (c_of 45) then (true, s')
        else if Ascii.eqb c (c_of 43) then (false, s') else (false, s)
    | EmptyString => (false, s)
    end in
  let ds := take_while is_digit s in
  if is_empty ds then None
  else Some (if neg then (- digits_val 0 ds)%Z else digits_val 0 ds).

(** [None] is any exception of [std::stoi]: no number, or out of range. *)
Definition stoi (s : string) : option Z :=
  match parse_int s with
  | Some z => if Int.in_int32b z then Some z else None
  | None => None
  end.

Definition stoll (s : string) : option Z :=
  match parse_int s with
  | Some z => if Int.in_int64b z then Some z else None
  | None => None
  end.

(** *** Lemmas *)

#[global] Arguments String.append !_ _ / : simpl nomatch.

Lemma sapp_nil_r (s : string) : s +:+ "" = s.
Proof. induction s; simpl; congruence. Qed.

Lemma sapp_assoc (a b c : string) : (a +:+ b) +:+ c = a +:+ (b +:+ c).
Proof. induction a; simpl; congruence. Qed.

Lemma slength_app (a b : string) :
  String.length (a +:+ b) = String.length a + String.length b.
Proof. induction a; simpl; congruence. Qed.

Lemma stake_app (a b : string) : stake (String.length a) (a +:+ b) = a.
Proof. induction a as [|c a IH]; simpl; [by destruct b|by rewrite IH]. Qed.

Lemma sdrop_0 (s : string) : sdrop 0 s = s.
Proof. by destruct s. Qed.

Lemma sdrop_app (a b : string) : sdrop (String.length a) (a +:+ b) = b.
Proof. induction a; simpl; [apply sdrop_0|done]. Qed.

Lemma sdrop_S_app (a b : string) (c : Ascii.ascii) :
  sdrop (S (String.length a)) (a +:+ String c b) = b.
Proof. induction a as [|d a IH]; [apply sdrop_0|]. exact IH. Qed.

Lemma slength_sdrop (n : nat) (s : string) : String.length (sdrop n s) = String.length s - n.
Proof. revert s. induction n as [|n IH]; intros [|c s]; [done..|]. apply IH. Qed.
Lemma stake_sdrop (n : nat) (s : string) : stake n s +:+ sdrop n s = s.
Proof.
  revert s; induction n as [|n IH]; intros [|c s]; simpl; try done.
  by rewrite IH.
Qed.

Lemma sapp_inj_l (a b c : string) : a +:+ b = a +:+ c -> b = c.
Proof. induction a; simpl; [done|]. intros [= ?]; auto. Qed.

Lemma sapp_inj_r (a b c : string) : a +:+ c = b +:+ c -> a = b.
Proof.
  revert b. induction a as [|x a IH]; intros [|y b] H; simpl in *; try done.
  - exfalso. apply (f_equal String.length) in H. simpl in H.
    rewrite slength_app in H. lia.
  - exfalso. apply (f_equal String.length) in H. simpl in H.
    rewrite slength_app in H. lia.
  - injection H as -> H. f_equal. by apply IH.
Qed.

Lemma sall_app p (a b : string) : sall p (a +:+ b) = sall p a && sall p b.
Proof. induction a as [|c a IH]; simpl; [done|]. by rewrite IH, andb_assoc. Qed.

Lemma has_char_app c (a b : string) : has_char c (a +:+ b) = has_char c a || has_char c b.
Proof. unfold has_char. by rewrite sall_app, negb_andb. Qed.

Lemma has_char_cons c d (s : string) : has_char c (String d s) = Ascii.eqb c d || has_char c s.
Proof. unfold has_char. simpl. by rewrite negb_andb, negb_involutive. Qed.

Lemma sfind_none c (s : string) : has_char c s = false -> sfind c s = None.
Proof.
  induction s as [|d s IH]; [done|]. rewrite has_char_cons, orb_false_iff.
  intros [H1 H2]. simpl. by rewrite H1, IH.
Qed.

Lemma sfind_app_sep c (a b : string) :
  has_char c a = false -> sfind c (a +:+ String c b) = Some (String.length a).
Proof.
  induction a as [|d a IH]; intros H; simpl.
  - by rewrite Ascii.eqb_refl.
  - rewrite has_char_cons, orb_false_iff in H. destruct H as [-> H2]. by rewrite IH.
Qed.

Lemma sfind_Some c (s : string) i :
  sfind c s = Some i ->
  has_char c (stake i s) = false /\ s = stake i s +:+ String c (sdrop (S i) s).
Proof.
  revert i. induction s as [|d s IH]; intros i; simpl; [done|].
  destruct (Ascii.eqb c d) eqn:E.
  - intros [= <-]. apply Ascii.eqb_eq in E as ->. done.
  - destruct (sfind c s) as [j|] eqn:F; [|done]. intros [= <-].
    destruct (IH j eq_refl) as [H1 H2]. split.
    + simpl. by rewrite has_char_cons, E, H1.
    + simpl. by f_equal.
Qed.

Lemma sfind_None c (s : string) : sfind c s = None -> has_char c s = false.
Proof.
  induction s as [|d s IH]; [done|]. simpl. rewrite has_char_cons.
  destruct (Ascii.eqb c d); [done|]. by destruct (sfind c s); [|rewrite IH].
Qed.

(** A separator splits a string in one way only. *)
Lemma sep_inj c (a b a' b' : string) :
  has_char c a = false -> has_char c a' = false ->
  a +:+ String c b = a' +:+ String c b' -> a = a' /\ b = b'.
Proof.
  intros H H' E. pose proof (f_equal (sfind c) E) as F.
  rewrite !sfind_app_sep in F by done. injection F as F.
  pose proof (f_equal (stake (String.length a)) E) as T.
  rewrite stake_app, F, stake_app in T. subst a'. split; [done|].
  by apply sapp_inj_l in E as [= ->].
Qed.

Lemma srfind_none c (s : string) : has_char c s = false -> srfind c s = None.
Proof.
  induction s as [|d s IH]; [done|]. rewrite has_char_cons, orb_false_iff.
  intros [H1 H2]. simpl. by rewrite IH, H1.
Qed.

Lemma srfind_app_sep c (a b : string) :
  has_char c b = false -> srfind c (a +:+ String c b) = Some (String.length a).
Proof.
  intros H. induction a as [|d a IH]; simpl.
  - by rewrite srfind_none, Ascii.eqb_refl.
  - by rewrite IH.
Qed.

(** *** Lines: what [std::getline] reads, with the line read so far *)
Fixpoint lines (line s : string) : list string :=
  match s with
  | "" => if is_empty line then [] else [line]
  | String c s => if Ascii.eqb c nl then line :: lines "" s else lines (line +:+ chr c) s
  end.

Lemma lines_app line a s :
  has_char nl a = false -> lines line (a +:+ chr nl +:+ s) = (line +:+ a) :: lines "" s.
Proof.
  revert line. induction a as [|c a IH]; intros line Ha.
  - cbn. by rewrite sapp_nil_r.
  - rewrite has_char_cons, orb_false_iff in Ha. destruct Ha as [Hc Ha]. change (String c a +:+ chr nl +:+ s) with
      (String c (a +:+ chr nl +:+ s)). cbn [lines].
    destruct (Ascii.eqb c nl) eqn:E; [by apply Ascii.eqb_eq in E as ->|].
    rewrite IH by done. by rewrite sapp_assoc.
Qed.

Lemma sprefix_app (p s : string) : String.prefix p (p +:+ s) = true.
Proof.
  induction p as [|c p IH]; simpl; [by destruct s|].
  by destruct (Ascii.ascii_dec c c).
Qed.

Lemma sprefix_spec (p s : string) : String.prefix p s = true <-> exists t, s = p +:+ t.
Proof.
  split; [|intros [t ->]; apply sprefix_app].
  revert s. induction p as [|c p IH]; intros s; simpl.
  - intros _. by exists s.
  - destruct s as [|d s]; [done|]. simpl.
    destruct (Ascii.ascii_dec c d) as [->|]; [|done].
    intros H. destruct (IH s H) as [t ->]. by exists t.
Qed.

Lemma is_empty_spec (s : string) : is_empty s = true <-> s = "".
Proof. destruct s; simpl; split; done. Qed.

Lemma is_empty_false (s : string) : is_empty s = false <-> s <> "".
Proof. destruct s; simpl; split; done. Qed.

Lemma substr_app (a b c : string) :
  substr (a +:+ b +:+ c) (String.length a) (String.length b) = b.
Proof. unfold substr. rewrite sdrop_app, stake_app. done. Qed.

Lemma has_suffix_app (a p : string) : has_suffix p (a +:+ p) = true.
Proof.
  unfold has_suffix. rewrite slength_app, andb_true_iff. split.
  - apply Nat.leb_le. lia.
  - replace (_ + _ - _) with (String.length a) by lia. rewrite sdrop_app.
    apply String.eqb_refl.
Qed.

Lemma has_suffix_spec (p s : string) :
  has_suffix p s = true <-> exists a, s = a +:+ p.
Proof.
  split; [|intros [a ->]; apply has_suffix_app].
  unfold has_suffix. rewrite andb_true_iff. intros [_ H%String.eqb_eq].
  exists (stake (String.length s - String.length p) s).
  etransitivity; [symmetry; apply (stake_sdrop (String.length s - String.length p))|].
  by rewrite H.
Qed.

Lemma sall_impl (p q : Ascii.ascii -> bool) (s : string) :
  (forall c, p c = true -> q c = true) -> sall p s = true -> sall q s = true.
Proof.
  intros Hpq. induction s as [|c s IH]; simpl; [done|].
  rewrite !andb_true_iff. intros [? ?]. auto.
Qed.

Lemma to_int_not_nil (z : Z) :
  Z.to_int z = Decimal.Pos Decimal.Nil \/ Z.to_int z = Decimal.Neg Decimal.Nil -> False.
Proof.
  destruct z as [|p|p]; simpl; intros [H|H]; try done; injection H;
    by apply DecimalPos.Unsigned.to_uint_nonnil.
Qed.

Lemma of_Z_inj (a b : Z) : of_Z a = of_Z b -> a = b.
Proof.
  unfold of_Z. intros H. apply (f_equal NilZero.int_of_string) in H.
  rewrite !NilZero.isi in H by eauto using to_int_not_nil.
  injection H. apply DecimalZ.to_int_inj.
Qed.

Lemma digits_val_acc (u : Decimal.uint) (acc : positive) :
  digits_val (Z.pos acc) (NilEmpty.string_of_uint u) = Z.pos (Pos.of_uint_acc u acc).
Proof.
  revert acc. induction u as [|u IH|u IH|u IH|u IH|u IH|u IH|u IH|u IH|u IH|u IH];
    intros acc; [done|..]; cbn -[Z.mul Pos.mul Z.add Pos.add]; rewrite <- IH; f_equal;
    unfold digit_val; simpl Z.of_nat; lia.
Qed.

Lemma digits_val_uint (u : Decimal.uint) :
  digits_val 0 (NilEmpty.string_of_uint u) = Z.of_N (Pos.of_uint u).
Proof.
  induction u as [|u IH|u _|u _|u _|u _|u _|u _|u _|u _|u _]; [done|exact IH|..];
    cbn -[Z.mul Z.add]; rewrite <- digits_val_acc; f_equal.
Qed.

Lemma take_while_all p (s : string) : sall p s = true -> take_while p s = s.
Proof. induction s as [|c s IH]; simpl; [done|]. intros [-> ?]%andb_true_iff. by rewrite IH. Qed.

Lemma uint_digits (u : Decimal.uint) : sall is_digit (NilEmpty.string_of_uint u) = true.
Proof. induction u; simpl; done. Qed.

Lemma nilzero_digits (u : Decimal.uint) :
  sall is_digit (NilZero.string_of_uint u) = true /\ is_empty (NilZero.string_of_uint u) = false /\
  digits_val 0 (NilZero.string_of_uint u) = Z.of_N (Pos.of_uint u).
Proof.
  destruct u as [|u|u|u|u|u|u|u|u|u|u]; (split; [|split]); try done;
    try (apply (uint_digits (_ u))); apply (digits_val_uint (_ u)).
Qed.

Lemma drop_while_digit (s : string) :
  sall is_digit s = true -> drop_while is_space s = s.
Proof.
  destruct s as [|c s]; [done|]. simpl. intros [Hc _]%andb_true_iff.
  destruct (is_space c) eqn:E; [|done]. exfalso. unfold is_digit, is_space in *. revert Hc E.
  generalize (Ascii.nat_of_ascii c). intros n.
  rewrite andb_true_iff, orb_true_iff, andb_true_iff, !Nat.leb_le, Nat.eqb_eq. lia.
Qed.

Lemma digit_not_sign (c : Ascii.ascii) :
  is_digit c = true -> Ascii.eqb c (c_of 45) = false /\ Ascii.eqb c (c_of 43) = false.
Proof. intros H. split; destruct (Ascii.eqb_spec c (c_of 45)), (Ascii.eqb_spec c (c_of 43)); subst; done. Qed.

(** [std::stoll(std::to_string(z))] gives the number back. *)
Lemma parse_int_minus (s : string) :
  parse_int (String (c_of 45) s) =
  if is_empty (take_while is_digit s) then None else Some (- digits_val 0 (take_while is_digit s))%Z.
Proof. reflexivity. Qed.

Lemma parse_int_of_Z (z : Z) : parse_int (of_Z z) = Some z.
Proof.
  unfold of_Z. rewrite <- (DecimalZ.of_to z) at 2.
  destruct (Z.to_int z) as [u|u]; cbn [NilZero.string_of_int Z.of_int];
    destruct (nilzero_digits u) as (H1 & H2 & H3).
  - unfold parse_int. rewrite drop_while_digit by done.
    destruct (NilZero.string_of_uint u) as [|c s] eqn:E; [done|].
    simpl in H1. apply andb_true_iff in H1 as [Hc Hs].
    destruct (digit_not_sign c Hc) as [-> ->].
    rewrite take_while_all by (simpl; by rewrite Hc, Hs). rewrite H2, H3. done.
  - rewrite parse_int_minus, take_while_all, H2, H3 by done. done.
Qed.

(** A number's text has no other characters than digits and a minus sign. *)
Lemma of_Z_chars (p : Ascii.ascii -> bool) (z : Z) :
  (forall c, is_digit c = true -> p c = true) -> p (c_of 45) = true -> sall p (of_Z z) = true.
Proof.
  intros Hd Hm. unfold of_Z. destruct (Z.to_int z) as [u|u]; cbn [NilZero.string_of_int sall].
  - eapply sall_impl; [exact Hd|]. apply nilzero_digits.
  - change (p (Ascii.Ascii true false true true false true false false)) with (p (c_of 45)). rewrite Hm.
    eapply sall_impl; [exact Hd|]. apply nilzero_digits.
Qed.

(** *** Trimming *)

Lemma drop_while_app_blank p a b : sall p a = true -> drop_while p (a +:+ b) = drop_while p b.
Proof. induction a as [|c a IH]; [done|]. cbn. intros [-> H]%andb_true_iff. auto. Qed.

Lemma drop_while_end_app_blank p a b : sall p b = true -> drop_while_end p (a +:+ b) = drop_while_end p a.
Proof.
  intros Hb. assert (forall b, sall p b = true -> drop_while_end p b = "") as Hn.
  { clear. induction b as [|c b IH]; [done|]. cbn. intros [Hc Hb]%andb_true_iff. by rewrite IH, Hc. }
  induction a as [|c a IH]; [by apply Hn|]. cbn. by rewrite IH.
Qed.

Lemma drop_while_idem p s : drop_while p (drop_while p s) = drop_while p s.
Proof. induction s as [|c s IH]; [done|]. cbn. destruct (p c) eqn:E; [done|]. cbn. by rewrite E. Qed.

Lemma drop_while_end_cons p c s :
  p c = false -> drop_while_end p (String c s) = String c (drop_while_end p s).
Proof. intros E. cbn. destruct (drop_while_end p s); [by rewrite E|done]. Qed.

Lemma drop_while_end_app p a c b :
  p c = false -> drop_while_end p (a +:+ String c b) = a +:+ String c (drop_while_end p b).
Proof.
  intros E. induction a as [|d a IH]; [by apply drop_while_end_cons|].
  change ((String d a) +:+ String c b) with (String d (a +:+ String c b)). cbn [drop_while_end].
  rewrite IH. by destruct a.
Qed.

Lemma drop_while_end_idem p s : drop_while_end p (drop_while_end p s) = drop_while_end p s.
Proof.
  induction s as [|c s IH]; [done|]. cbn. destruct (drop_while_end p s) as [|d r] eqn:E.
  - destruct (p c) eqn:Ec; [done|]. cbn. by rewrite Ec.
  - change (String c (String d r)) with ("" +:+ String c (String d r)). cbn in *. rewrite IH. done.
Qed.

Lemma drop_while_swap p s : drop_while p (drop_while_end p s) = drop_while_end p (drop_while p s).
Proof.
  induction s as [|c s IH]; [done|]. cbn. destruct (p c) eqn:E.
  - rewrite <- IH. destruct (drop_while_end p s); [done|]. cbn. by rewrite E.
  - rewrite drop_while_end_cons by done. destruct (drop_while_end p s); cbn; by rewrite E.
Qed.

Lemma trim_fixed s : trim s = s -> drop_while is_space s = s /\ drop_while_end is_space s = s.
Proof.
  unfold trim. intros H. split.
  - rewrite <- H. by rewrite drop_while_swap, drop_while_idem.
  - rewrite <- H at 1. by rewrite drop_while_end_idem.
Qed.

Lemma drop_while_blank p s : sall p s = true -> drop_while p s = "".
Proof. intros H. rewrite <- (sapp_nil_r s). by rewrite drop_while_app_blank. Qed.

Lemma drop_while_app p a b : a <> "" -> drop_while p a = a -> drop_while p (a +:+ b) = a +:+ b.
Proof.
  destruct a as [|c a]; [done|]. intros _ H. cbn in *. destruct (p c) eqn:E; [|done].
  exfalso. assert (forall s, String.length (drop_while p s) <= String.length s) as Hl.
  { clear. induction s as [|c s IH]; [done|]. cbn. destruct (p c); cbn; lia. }
  pose proof (Hl a) as L. rewrite H in L. cbn in L. lia.
Qed.

(** Outer white space does not change the trimmed text. *)
Lemma trim_blank a s b :
  sall is_space a = true -> sall is_space b = true -> trim s = s -> trim (a +:+ s +:+ b) = s.
Proof.
  intros Ha Hb Hs. destruct (trim_fixed s Hs) as [H1 H2]. unfold trim.
  rewrite drop_while_app_blank by done. destruct s as [|c s].
  - change ("" +:+ b) with b. by rewrite drop_while_blank.
  - rewrite drop_while_app by done. by rewrite drop_while_end_app_blank.
Qed.

Lemma trim_drop_while_end s : trim (drop_while_end is_space s) = trim s.
Proof. unfold trim. by rewrite drop_while_swap, drop_while_end_idem. Qed.

Lemma last_char_app s c : last_char (s +:+ chr c) = Some c.
Proof.
  induction s as [|d s IH]; [done|]. change (String d s +:+ chr c) with (String d (s +:+ chr c)).
  cbn. rewrite IH. by destruct (s +:+ chr c) eqn:E; [destruct s|].
Qed.

Lemma pop_last s c : last_char s = Some c -> s = pop_back s +:+ chr c.
Proof.
  induction s as [|d s IH]; [done|]. cbn. destruct s as [|e s]; [by intros [= ->]|].
  intros H. change (String d (pop_back (String e s)) +:+ chr c) with
    (String d (pop_back (String e s) +:+ chr c)). f_equal. by apply IH.
Qed.

Lemma blank_char c s : is_space c = false -> sall is_space s = true -> has_char c s = false.
Proof.
  intros Hc. induction s as [|d s IH]; [done|]. cbn. intros [Hd Hs]%andb_true_iff.
  rewrite has_char_cons, IH by done. destruct (Ascii.eqb c d) eqn:E; [|done].
  apply Ascii.eqb_eq in E as ->. congruence.
Qed.

Lemma stoll_of_Z (z : Z) : Int.in_int64 z -> stoll (of_Z z) = Some z.
Proof. intros H. unfold stoll. rewrite parse_int_of_Z. by rewrite (proj2 (Int.in_int64b_spec z)). Qed.

Lemma stoi_of_Z (z : Z) : Int.in_int32 z -> stoi (of_Z z) = Some z.
Proof. intros H. unfold stoi. rewrite parse_int_of_Z. by rewrite (proj2 (Int.in_int32b_spec z)). Qed.

(** The loop "if (!first) out += sep; first = false; out += x". *)
Fixpoint sep_loop (sep : string) (first : bool) (out : string) (l : list string) : string :=
  match l with
  | [] => out
  | x :: l' => sep_loop sep false ((if first then out else out +:+ sep) +:+ x) l'
  end.

Lemma sep_loop_join sep first out l :
  sep_loop sep first out l =
  match l with
  | [] => out
  | _ => (if first then out else out +:+ sep) +:+ sjoin sep l
  end.
Proof.
  revert first out. induction l as [|x l IH]; intros first out; [done|].
  cbn [sep_loop]. rewrite IH. destruct l as [|y l]; [done|].
  cbn [sjoin String.concat]. by rewrite !sapp_assoc.
Qed.

Lemma sep_loop_app sep first out l k :
  sep_loop sep first out (app l k) = sep_loop sep (first && match l with nil => true | _ => false end)
                                   (sep_loop sep first out l) k.
Proof.
  revert first out. induction l as [|x l IH]; intros first out; simpl; [by rewrite andb_true_r|].
  rewrite IH. by rewrite andb_false_r.
Qed.

#[global] Arguments stake : simpl never.
#[global] Arguments sdrop : simpl never.
(** Skipping text in which a marker cannot start. *)
Lemma sfind_str_skip_char c m a s :
  has_char c a = false -> sfind_str (String c m) (a +:+ s) = (fun n => (String.length a + n)%nat) <$> sfind_str (String c m) s.
Proof.
  induction a as [|d a IH]; intros Ha.
  - change ("" +:+ s) with s. by destruct (sfind_str _ s).
  - rewrite has_char_cons, orb_false_iff in Ha. destruct Ha as [Hc Ha].
    change (String d a +:+ s) with (String d (a +:+ s)). cbn [sfind_str String.prefix String.length].
    destruct (Ascii.ascii_dec c d) as [->|_]; [by rewrite Ascii.eqb_refl in Hc|].
    rewrite IH by done. by destruct (sfind_str _ s).
Qed.

Lemma sfind_str_here m s : sfind_str m (m +:+ s) = Some 0.
Proof.
  assert (String.prefix m (m +:+ s) = true) as E by apply sprefix_app.
  destruct (m +:+ s); cbn [sfind_str]; by rewrite E.
Qed.

End Str.

(** ** Lists *)
Module Lists.
Section Lists.
Context {A : Type}.

(** Keeps the last [n] elements: the shape of every bounded buffer here. *)
Definition last_n (n : nat) (l : list A) : list A := drop (length l - n) l.

Lemma last_n_length n l : length (last_n n l) = Nat.min n (length l).
Proof. unfold last_n. rewrite length_drop. lia. Qed.

Lemma last_n_all n l : length l <= n -> last_n n l = l.
Proof. unfold last_n. intros. by replace (length l - n) with 0 by lia. Qed.

Lemma last_n_app n l k : last_n n (last_n n l ++ k) = last_n n (l ++ k).
Proof.
  unfold last_n. rewrite !length_app, length_drop.
  destruct (decide (length l <= n)).
  - replace (length l - n) with 0 by lia. rewrite drop_0. f_equal; lia.
  - rewrite <- (drop_app_le l k (length l - n)) by lia.
    rewrite drop_drop. f_equal; lia.
Qed.

Lemma last_n_suffix n l : exists k, l = k ++ last_n n l.
Proof. exists (take (length l - n) l). unfold last_n. by rewrite take_drop. Qed.

Lemma filter_all (P : A -> Prop) `{!forall x, Decision (P x)} (l : list A) :
  (forall x, x ∈ l -> P x) -> filter P l = l.
Proof.
  induction l as [|x l IH]; intros Hl; [done|].
  rewrite filter_cons_True by (apply Hl; left). f_equal. apply IH. intros y Hy.
  apply Hl. by right.
Qed.

(** The order in which C++ iterates over an unordered container: some list
    of its elements, each exactly once. *)
Definition iteration_of {K V : Type} `{Countable K} (m : gmap K V) (l : list (K * V)) : Prop :=
  l ≡ₚ map_to_list m.

(** How often [x] occurs. *)
Fixpoint occurs `{EqDecision A} (x : A) (l : list A) : nat :=
  match l with [] => 0 | y :: l => (if decide (y = x) then 1 else 0) + occurs x l end.
Lemma occurs_app `{EqDecision A} (x : A) l k : occurs x (l ++ k) = occurs x l + occurs x k.
Proof. induction l as [|y l IH]; cbn; lia. Qed.
Lemma occurs_count `{EqDecision A} (x : A) l : occurs x l = count_occ (fun x y => decide (x = y)) l x.
Proof. induction l as [|y l IH]; cbn; [done|]. rewrite IH. by destruct (decide (y = x)). Qed.
Lemma perm_occurs `{EqDecision A} (l k : list A) : l ≡ₚ k <-> forall x, occurs x l = occurs x k.
Proof.
  rewrite (Permutation_count_occ (fun x y => decide (x = y))).
  by split; intros E x; [rewrite !occurs_count|rewrite <- !occurs_count].
Qed.
End Lists.
End Lists.

(** ** Transition systems

    Components with several threads are step relations; an invariant is shown
    for the reachable states by induction on the steps. *)
Module Steps.
Section Steps.
Context {S : Type} (init : S -> Prop) (step : S -> S -> Prop).

Inductive reachable : S -> Prop :=
  | reach_init s : init s -> reachable s
  | reach_step s t : reachable s -> step s t -> reachable t.

Inductive steps : S -> S -> Prop :=
  | steps_refl s : steps s s
  | steps_cons s t u : step s t -> steps t u -> steps s u.

Lemma reachable_invariant (I : S -> Prop) :
  (forall s, init s -> I s) ->
  (forall s t, reachable s -> I s -> step s t -> I t) ->
  forall s, reachable s -> I s.
Proof. intros Hi Hs s. induction 1; eauto. Qed.

Lemma steps_reachable s t : reachable s -> steps s t -> reachable t.
Proof. intros Hr. induction 1; eauto using reach_step. Qed.

Lemma steps_trans s t u : steps s t -> steps t u -> steps s u.
Proof. induction 1; eauto using steps_cons. Qed.

Lemma steps_one s t : step s t -> steps s t.
Proof. eauto using steps_cons, steps_refl. Qed.
End Steps.
End Steps.

(** ** Automation *)

Create HintDb pudim.
Create Rewrite HintDb pudim.
#[export] Hint Rewrite @last_snoc @length_app @app_nil_r @fmap_app : pudim.
#[export] Hint Resolve Int.u64_range Str.sprefix_app Str.has_suffix_app : pudim.

(** Splits a boolean conjunction or disjunction in the hypotheses. *)
Ltac bool_hyps :=
  repeat match goal with
  | H : andb _ _ = true |- _ => apply andb_true_iff in H as [? ?]
  | H : orb _ _ = false |- _ => apply orb_false_iff in H as [? ?]
  | H : negb _ = true |- _ => apply negb_true_iff in H
  | H : negb _ = false |- _ => apply negb_false_iff in H
  | H : String.eqb _ _ = true |- _ => apply String.eqb_eq in H
  | H : String.eqb _ _ = false |- _ => apply String.eqb_neq in H
  | H : Str.is_empty _ = true |- _ => apply Str.is_empty_spec in H
  | H : Str.is_empty _ = false |- _ => apply Str.is_empty_false in H
  | H : (_ <=? _)%Z = true |- _ => apply Z.leb_le in H
  | H : (_ <=? _)%Z = false |- _ => apply Z.leb_gt in H
  | H : (_ <? _)%Z = true |- _ => apply Z.ltb_lt in H
  | H : (_ <? _)%Z = false |- _ => apply Z.ltb_ge in H
  | H : (_ =? _)%Z = true |- _ => apply Z.eqb_eq in H
  | H : (_ =? _)%Z = false |- _ => apply Z.eqb_neq in H
  | H : Nat.leb _ _ = true |- _ => apply Nat.leb_le in H
  | H : Nat.leb _ _ = false |- _ => apply Nat.leb_gt in H
  | H : Nat.ltb _ _ = true |- _ => apply Nat.ltb_lt in H
  | H : Nat.ltb _ _ = false |- _ => apply Nat.ltb_ge in H
  end.

(** Permutations of concatenations, from others, by counting. *)
Ltac perm :=
  apply Lists.perm_occurs; let x := fresh "x" in intros x;
  repeat match goal with
  | H : _ ≡ₚ _ |- _ => let E := fresh "E" in pose proof (proj1 (Lists.perm_occurs _ _) H x) as E; clear H
  end;
  repeat progress (rewrite ?Lists.occurs_app in *; cbn [Lists.occurs map] in *); lia.

(** A property kept by every step is kept by the whole fold. *)
Lemma fold_left_invariant {A B} (P : A -> Prop) (f : A -> B -> A) :
  (forall a b, P a -> P (f a b)) -> forall l a, P a -> P (fold_left f l a).
Proof. intros H l. induction l as [|b l IH]; intros a Ha; [done|]. apply IH, H, Ha. Qed.

(** Cases on the scrutinee of a [match] or [if] of the goal or a hypothesis. *)
Ltac case_match_goal :=
  match goal with
  | |- context [match ?x with _ => _ end] => destruct x eqn:?
  end.
Ltac case_match_hyp H :=
  match type of H with
  | context [match ?x with _ => _ end] => destruct x eqn:?
  end.
