(* ===== verification/Double.v ===== *)
(** * Double: IEEE 754 binary64 as the program uses it

    A C++ [double] is a [spec_float] of the Standard Library's executable
    IEEE 754 model, with 53 bits of precision and maximal exponent 1024. *)
From stdpp Require Import base strings.
From Stdlib Require Import ZArith Lia SpecFloat.
From S2P Require Import Prelude.
#[local] Open Scope Z_scope.

Module Double.
Abbreviation double := spec_float.

Definition prec : Z := 53.
Definition emax : Z := 1024.

Definition zero : double := S754_zero false.
Definition nan : double := S754_nan.

#[global] Instance double_eq_dec : EqDecision double.
Proof. solve_decision. Defined.

(** The comparison operators: false as soon as an operand is a NaN. *)
Definition lt (a b : double) : bool := SFltb a b.
Definition gt (a b : double) : bool := SFltb b a.
Definition le (a b : double) : bool := SFleb a b.
Definition ge (a b : double) : bool := SFleb b a.
Definition eq (a b : double) : bool := SFeqb a b.

Definition mul (a b : double) : double := SFmul prec emax a b.
Definition div (a b : double) : double := SFdiv prec emax a b.
Definition add (a b : double) : double := SFadd prec emax a b.
Definition sub (a b : double) : double := SFsub prec emax a b.

Definition sqrt (a : double) : double := SFsqrt prec emax a.

(** [static_cast<double>] of an integer: correctly rounded. *)
Definition of_Z (z : Z) : double := binary_normalize prec emax z 0 false.

(** A number: neither an infinity nor NaN. *)
Definition is_finite (d : double) : bool :=
  valid_binary prec emax d && match d with S754_zero _ | S754_finite _ _ _ => true | _ => false end.

(** The integer part, towards zero. *)
Definition trunc (m : positive) (e : Z) : Z :=
  if 0 <=? e then Z.pos m * 2 ^ e else Z.pos m / 2 ^ (- e).

(** [static_cast<long long>] of a double.  Out of range (undefined in C++)
    the amd64 instruction the collector is built for yields [INT64_MIN]. *)
Definition to_long_long (d : double) : Z :=
  match d with
  | S754_zero _ => 0
  | S754_finite s m e =>
      let t := if s then - trunc m e else trunc m e in
      if Int.in_int64b t then t else Int.int64_min
  | _ => Int.int64_min
  end.

(** The integer nearest to [num / den], ties to even. *)
Definition round_half_even (num den : Z) : Z :=
  let q := num / den in
  let r := num mod den in
  if 2 * r <? den then q
  else if den <? 2 * r then q + 1
  else if Z.even q then q else q + 1.

Fixpoint pad_left (n : nat) (s : string) : string :=
  match n with
  | O => s
  | S n' => if Nat.ltb (String.length s) n then String (Str.c_of 48) (pad_left n' s) else s
  end.

(** [%.<p>f] of a finite non-negative value, from the exact binary value. *)
Definition fixed_pos (p : nat) (m : positive) (e : Z) : string :=
  let n := if 0 <=? e then Z.pos m * 2 ^ e * 10 ^ Z.of_nat p
           else round_half_even (Z.pos m * 10 ^ Z.of_nat p) (2 ^ (- e)) in
  let ip := n / 10 ^ Z.of_nat p in
  let fp := n mod 10 ^ Z.of_nat p in
  Str.of_Z ip +:+ "." +:+ pad_left p (Str.of_Z fp).

Fixpoint zeros (n : nat) : string :=
  match n with O => "" | S n' => String (Str.c_of 48) (zeros n') end.

(** [%.<p>f], for [p > 0]. *)
Definition fixed (p : nat) (d : double) : string :=
  match d with
  | S754_zero s => (if s then "-" else "") +:+ "0." +:+ zeros p
  | S754_infinity s => if s then "-inf" else "inf"
  | S754_nan => "nan"
  | S754_finite s m e => (if s then "-" else "") +:+ fixed_pos p m e
  end.

(** [std::to_string(double)] is [%f]. *)
Definition to_string (d : double) : string := fixed 6 d.

Lemma lt_gt_exclusive a b : lt a b = true -> gt a b = false.
Proof.
  unfold lt, gt, SFltb.
  enough (forall c, SFcompare a b = Some c -> SFcompare b a = Some (CompOpp c)) as H.
  { destruct (SFcompare a b) as [[]|]; try done. intros _. by rewrite (H Lt). }
  intros c.
  destruct a as [ |[]| |[] m1 e1], b as [ |[]| |[] m2 e2]; simpl;
    try (intros [= <-]; done); try done;
    rewrite (Z.compare_antisym e1 e2), (Pos.compare_antisym m1 m2 : Pos.compare_cont Eq m2 m1 = _);
    intros [= <-];
    change (Pos.compare_cont Eq m1 m2) with (Pos.compare m1 m2);
    destruct (Z.compare e1 e2); simpl; try done; by destruct (Pos.compare m1 m2).
Qed.

Example to_string_12_5 : to_string (div (of_Z 25) (of_Z 2)) = "12.500000".
Proof. reflexivity. Qed.
Example to_string_0_1 : to_string (div (of_Z 1) (of_Z 10)) = "0.100000".
Proof. reflexivity. Qed.
Example to_string_neg : to_string (of_Z (-3)) = "-3.000000".
Proof. reflexivity. Qed.
Example to_ll : to_long_long (div (of_Z (-7)) (of_Z 2)) = -3.
Proof. reflexivity. Qed.
End Double.
Abbreviation double := Double.double.
