(* ===== verification/Proto.v ===== *)
(** * Proto: the messages of [api/proto]

    The records mirror the protobuf messages of [metrics.proto],
    [heartbeat.proto] and [diagnostic.proto] that the modelled code reads or
    fills.  proto3 enums are open, so [CheckType] keeps unrecognised numbers. *)
From stdpp Require Import base gmap strings.
From Stdlib Require Import ZArith.
From S2P Require Import Prelude Double.

Inductive CheckType : Type :=
  | CHECK_TYPE_UNSPECIFIED
  | CHECK_TYPE_DNS_RESOLUTION
  | CHECK_TYPE_TCP_CONNECT
  | CHECK_TYPE_TLS_HANDSHAKE
  | CHECK_TYPE_HTTP_REQUEST
  | CHECK_TYPE_ICMP_PING
  | CHECK_TYPE_JITTER
  | CHECK_TYPE_TLS_CERTIFICATE
  | CHECK_TYPE_TCP_RETRANSMIT
  | CHECK_TYPE_DNS_RECORD
  | CHECK_TYPE_TCP_HANDSHAKE
  | CHECK_TYPE_NTP_OFFSET
  | CHECK_TYPE_UNRECOGNIZED (n : Z).

#[global] Instance CheckType_eq_dec : EqDecision CheckType.
Proof. solve_decision. Defined.

(** The [oneof value] of a metric. *)
Inductive MetricValue : Type :=
  | VALUE_NOT_SET
  | kLatencyMs (d : double)
  | kPacketLossPct (d : double)
  | kJitterMs (d : double)
  | kRttMs (d : double).

Record Metric : Type := mkMetric {
  check_type : CheckType;
  target : string;
  success : bool;
  detail : string;
  value : MetricValue;
  status_code : option Z;
  attributes : gmap string string;
  seq : Z;
  monotonic_us : Z;
}.

(** The [has_x()]/[x()] accessors of the oneof. *)
Definition latency_ms (m : Metric) : option double :=
  match value m with kLatencyMs d => Some d | _ => None end.
Definition packet_loss_pct (m : Metric) : option double :=
  match value m with kPacketLossPct d => Some d | _ => None end.
Definition jitter_ms (m : Metric) : option double :=
  match value m with kJitterMs d => Some d | _ => None end.
Definition rtt_ms (m : Metric) : option double :=
  match value m with kRttMs d => Some d | _ => None end.

Definition empty_Metric : Metric :=
  mkMetric CHECK_TYPE_UNSPECIFIED "" false "" VALUE_NOT_SET None ∅ 0 0.

Definition set_seq (n : Z) (m : Metric) : Metric :=
  mkMetric (check_type m) (target m) (success m) (detail m) (value m)
    (status_code m) (attributes m) n (monotonic_us m).

Record MetricsBatch : Type := mkBatch {
  b_agent_id : string;
  b_timestamp_unix_ms : Z;
  b_metrics : list Metric;
}.

#[global] Instance MetricValue_eq_dec : EqDecision MetricValue.
Proof. solve_decision. Defined.
#[global] Instance Metric_eq_dec : EqDecision Metric.
Proof. solve_decision. Defined.
#[global] Instance MetricsBatch_eq_dec : EqDecision MetricsBatch.
Proof. solve_decision. Defined.

Record MetricsResponse : Type := mkMetricsResponse {
  r_ack : bool;
  r_accepted_count : Z;
  r_rejected_count : Z;
  r_status_message : string;
}.

Record HeartbeatRequest : Type := mkHeartbeat {
  hb_agent_id : string;
  hb_timestamp_unix_ms : Z;
  hb_interval_ms : Z;
  hb_version : string;
  hb_diagnostic_endpoint : string;
}.

Record HeartbeatResponse : Type := mkHeartbeatResponse {
  hr_ack : bool;
  hr_collector_time_unix_ms : Z;
  hr_status_message : string;
}.

Record CommandResponse : Type := mkCommandResponse {
  c_success : bool;
  c_command_id : string;
  c_error : string;
  c_timestamp_unix_ms : Z;
  c_summary : string;
  c_fields : gmap string string;
  c_issues : list string;
  c_detail : string;
}.

Definition empty_CommandResponse : CommandResponse :=
  mkCommandResponse false "" "" 0 "" ∅ [] "".

(** gRPC status codes the program names. *)
Inductive StatusCode : Type :=
  | OK | INVALID_ARGUMENT | UNAVAILABLE | UNIMPLEMENTED | DEADLINE_EXCEEDED | OTHER_CODE (n : Z).
#[global] Instance StatusCode_eq_dec : EqDecision StatusCode.
Proof. solve_decision. Defined.

Record Status : Type := mkStatus { st_code : StatusCode; st_message : string }.
Definition Status_OK : Status := mkStatus OK "".

Record DiagnosticRequest : Type := mkDiagnosticRequest {
  dq_agent_id : string;
  dq_trace_target : string;
  dq_pcap_duration_s : Z;
  dq_pcap_filter : string;
}.

Record DiagnosticResponse : Type := mkDiagnosticResponse {
  dr_success : bool;
  dr_result : string;
  dr_timestamp_unix_ms : Z;
  dr_error : string;
}.

Record AgentConfigRequest : Type := mkAgentConfigRequest {
  aq_agent_id : string;
  aq_dns_targets : list string;
  aq_tcp_targets : list string;
  aq_tls_targets : list string;
  aq_http_targets : list string;
  aq_ping_targets : list string;
  aq_ping_count : Z;
  aq_ping_gap_ms : Z;
  aq_tls_cert_check : option bool;
  aq_tcp_retransmit_check : option bool;
  aq_tcp_handshake_capture : option bool;
  aq_http_protocols : list string;
}.

Record AgentConfigResponse : Type := mkAgentConfigResponse {
  ar_success : bool;
  ar_error : string;
  ar_applied : string;
}.

Record CommandInfo : Type := mkCommandInfo {
  ci_command_id : string;
  ci_description : string;
  ci_param_names : list string;
}.

Record ListCommandsResponse : Type := mkListCommandsResponse {
  lc_success : bool;
  lc_error : string;
  lc_commands : list CommandInfo;
}.
