(* ===== verification/Text.v ===== *)
(** * Text: JSON text produced by hand and the structured log lines

    Both programs build JSON by concatenation.  [escape] is [logger::escape]
    (agent [logger.h], collector [logging.h]); [EscapeJson] is the variant of
    [alert_manager.cpp], [notifier.cpp] and, as [JsonEscape],
    [timescale_storage.cpp].  [unescape] is the reference reader of a JSON
    string body (RFC 8259): it rejects bare quotes and raw control characters. *)
From stdpp Require Import base strings.
From Stdlib Require Import ZArith Lia Ascii.
From S2P Require Import Prelude Double.
Import Str.
#[local] Open Scope string_scope.
#[local] Open Scope list_scope.

Module Text.
Definition bs (c : Ascii.ascii) : string := String bslash (chr c).

Definition escape_char (c : Ascii.ascii) : string :=
  if Ascii.eqb c dquote then bs dquote
  else if Ascii.eqb c bslash then bs bslash
  else if Ascii.eqb c nl then bs "n"%char
  else if Ascii.eqb c tab then bs "t"%char
  else chr c.

Fixpoint escape (s : string) : string :=
  match s with
  | EmptyString => ""
  | String c s' => escape_char c +:+ escape s'
  end.

Definition EscapeJson_char (c : Ascii.ascii) : string :=
  if Ascii.eqb c dquote then bs dquote
  else if Ascii.eqb c bslash then bs bslash
  else if Ascii.eqb c nl then bs "n"%char
  else if Ascii.eqb c cr then bs "r"%char
  else if Ascii.eqb c tab then bs "t"%char
  else chr c.

Fixpoint EscapeJson (s : string) : string :=
  match s with
  | EmptyString => ""
  | String c s' => EscapeJson_char c +:+ EscapeJson s'
  end.

Definition is_control (c : Ascii.ascii) : bool := Nat.ltb (Ascii.nat_of_ascii c) 32.

(** The two-character escapes of RFC 8259 without [\u]. *)
Definition unescape_code (c : Ascii.ascii) : option Ascii.ascii :=
  if Ascii.eqb c dquote then Some dquote
  else if Ascii.eqb c bslash then Some bslash
  else if Ascii.eqb c "/"%char then Some ("/"%char)
  else if Ascii.eqb c "n"%char then Some nl
  else if Ascii.eqb c "r"%char then Some cr
  else if Ascii.eqb c "t"%char then Some tab
  else if Ascii.eqb c "b"%char then Some (c_of 8)
  else if Ascii.eqb c "f"%char then Some (c_of 12)
  else None.

(** Decodes the body of a JSON string literal. *)
Fixpoint unescape (s : string) : option string :=
  match s with
  | EmptyString => Some ""
  | String c s' =>
      if Ascii.eqb c bslash then
        match s' with
        | EmptyString => None
        | String d s'' =>
            match unescape_code d with
            | Some x => String x <$> unescape s''
            | None => None
            end
        end
      else if Ascii.eqb c dquote || is_control c then None
      else String c <$> unescape s'
  end.

(** [FormatDouble]: a compact decimal ("12.5", not "12.500000"). *)
Definition FormatDouble (v : double) : string :=
  if Double.eq v (Double.of_Z (Double.to_long_long v)) then of_Z (Double.to_long_long v)
  else
    let s := drop_while_end (fun c => Ascii.eqb c "0"%char) (Double.to_string v) in
    match last_char s with
    | Some c => if Ascii.eqb c "."%char then pop_back s else s
    | None => s
    end.

(** [logger::write] of the agent, as the line it prints at time [now]. *)
Definition write_line (level_name node_id trace_id message : string) (now : Z) : string :=
  "{" +:+ dq +:+ "timestamp" +:+ dq +:+ ":" +:+ of_Z now +:+ ","
  +:+ dq +:+ "level" +:+ dq +:+ ":" +:+ dq +:+ level_name +:+ dq +:+ ","
  +:+ dq +:+ "component" +:+ dq +:+ ":" +:+ dq +:+ "agent" +:+ dq +:+ ","
  +:+ dq +:+ "message" +:+ dq +:+ ":" +:+ dq +:+ escape message +:+ dq
  +:+ (if is_empty node_id then "" else
         "," +:+ dq +:+ "agent_id" +:+ dq +:+ ":" +:+ dq +:+ escape node_id +:+ dq)
  +:+ (if is_empty trace_id then "" else
         "," +:+ dq +:+ "trace_id" +:+ dq +:+ ":" +:+ dq +:+ escape trace_id +:+ dq)
  +:+ "}" +:+ chr nl.

(** [logger::emit] of the collector. *)
Definition emit_line (level message agent_id trace_id : string) (now : Z) : string :=
  "{" +:+ dq +:+ "timestamp" +:+ dq +:+ ":" +:+ of_Z now +:+ ","
  +:+ dq +:+ "level" +:+ dq +:+ ":" +:+ dq +:+ level +:+ dq +:+ ","
  +:+ dq +:+ "component" +:+ dq +:+ ":" +:+ dq +:+ "collector" +:+ dq +:+ ","
  +:+ dq +:+ "message" +:+ dq +:+ ":" +:+ dq +:+ escape message +:+ dq
  +:+ (if is_empty agent_id then "" else
         "," +:+ dq +:+ "agent_id" +:+ dq +:+ ":" +:+ dq +:+ escape agent_id +:+ dq)
  +:+ (if is_empty trace_id then "" else
         "," +:+ dq +:+ "trace_id" +:+ dq +:+ ":" +:+ dq +:+ escape trace_id +:+ dq)
  +:+ "}" +:+ chr nl.

(** Characters the escapers handle: everything but control characters
    outside their table. *)
Definition json_safe (c : Ascii.ascii) : bool :=
  negb (is_control c) || Ascii.eqb c nl || Ascii.eqb c cr || Ascii.eqb c tab.
Definition log_safe (c : Ascii.ascii) : bool :=
  negb (is_control c) || Ascii.eqb c nl || Ascii.eqb c tab.

Lemma unescape_EscapeJson_char c r :
  json_safe c = true ->
  unescape (EscapeJson_char c +:+ r) = String c <$> unescape r.
Proof.
  destruct c as [[] [] [] [] [] [] [] []]; intros H; try discriminate H;
    reflexivity.
Qed.

Lemma unescape_escape_char c r :
  log_safe c = true ->
  unescape (escape_char c +:+ r) = String c <$> unescape r.
Proof.
  destruct c as [[] [] [] [] [] [] [] []]; intros H; try discriminate H;
    reflexivity.
Qed.

Lemma unescape_raw_control c r :
  log_safe c = false -> unescape (escape_char c +:+ r) = None.
Proof. destruct c as [[] [] [] [] [] [] [] []]; intros H; try discriminate H;
  reflexivity. Qed.

Lemma EscapeJson_app a b : EscapeJson (a +:+ b) = EscapeJson a +:+ EscapeJson b.
Proof. induction a as [|c a IH]; simpl; [done|]. by rewrite IH, sapp_assoc. Qed.

Lemma escape_app a b : escape (a +:+ b) = escape a +:+ escape b.
Proof. induction a as [|c a IH]; simpl; [done|]. by rewrite IH, sapp_assoc. Qed.

Lemma unescape_EscapeJson s :
  sall json_safe s = true -> unescape (EscapeJson s) = Some s.
Proof.
  induction s as [|c s IH]; simpl; [done|]. intros [Hc Hs]%andb_true_iff.
  by rewrite unescape_EscapeJson_char, IH.
Qed.

(** What [escape] writes between quotes in a log line is a JSON
    string that reads back as the original text exactly when the text has no
    control character other than those it escapes; for any other text the
    line is not JSON at all. *)
Theorem escape_is_json_string_iff (s : string) :
  unescape (escape s) = (if sall log_safe s then Some s else None).
Proof.
  induction s as [|c s IH]; simpl; [done|]. destruct (log_safe c) eqn:E; simpl.
  - rewrite unescape_escape_char, IH by done. by destruct (sall log_safe s).
  - by apply unescape_raw_control.
Qed.
End Text.
