(* ===== verification/Json.v ===== *)
(** * Json: the interface to the JSON library

    nlohmann::json is third-party code.  The development uses it through the
    operations of [JsonOps] (construction, type tests, lookup, conversion) and
    [JsonText] (parsing and serialisation); [JsonLaws] and [JsonTextLaws] state
    the documented behaviour that theorems rely on.  [Reference] is a concrete
    instance, used to show that the hypotheses can hold. *)
From stdpp Require Import base gmap strings list.
From Stdlib Require Import ZArith Lia SpecFloat Ascii.
From S2P Require Import Prelude Double.

Class JsonOps (J : Type) : Type := {
  jnull : J;
  jempty_object : J;
  jarray : list J -> J;
  jset : string -> J -> J -> J;          (* j[key] = v *)
  j_of_string : string -> J;
  j_of_bool : bool -> J;
  j_of_int : Z -> J;
  j_of_double : double -> J;
  jis_object : J -> bool;
  jis_array : J -> bool;
  jis_null : J -> bool;
  jis_string : J -> bool;
  jis_integer : J -> bool;
  jlookup : J -> string -> option J;     (* find(key) on an object *)
  jelements : J -> list J;               (* iteration over an array *)
  jitems : J -> list (string * J);       (* iteration over an object *)
  jget_string : J -> outcome string;
  jget_double : J -> outcome double;
  jget_int32 : J -> outcome Z;
  jget_int64 : J -> outcome Z;
  jget_bool : J -> outcome bool;
}.

Class JsonLaws (J : Type) `{JsonOps J} : Prop := {
  jlookup_set_eq k v j : jlookup (jset k v j) k = Some v;
  jlookup_set_ne k k' v j : k <> k' -> jlookup (jset k v j) k' = jlookup j k';
  jlookup_null k : jlookup jnull k = None;
  jis_object_set k v j : jis_object j = true \/ j = jnull -> jis_object (jset k v j) = true;
  jget_string_of s : jget_string (j_of_string s) = Returns s;
  jget_double_of d : jget_double (j_of_double d) = Returns d;
  jget_int32_of z : Int.in_int32 z -> jget_int32 (j_of_int z) = Returns z;
  jget_bool_of b : jget_bool (j_of_bool b) = Returns b;
  jelements_array l : jelements (jarray l) = l;
  jis_array_array l : jis_array (jarray l) = true;
  jis_null_array l : jis_null (jarray l) = false;
  jis_null_object j : jis_object j = true -> jis_null j = false;
}.

Class JsonText (J : Type) : Type := {
  jparse : string -> string + J;         (* inl what: parse_error *)
  jdump : J -> string;
  jdump2 : J -> string;                  (* dump(2) *)
}.

(** Well-formed UTF-8, as the library's serializer demands of a string: no
    overlong form, no surrogate, nothing past U+10FFFF. *)
Fixpoint utf8 (s : string) : bool :=
  let within lo hi c := let v := Ascii.nat_of_ascii c in Nat.leb lo v && Nat.leb v hi in
  match s with
  | EmptyString => true
  | String a s1 =>
      if within 0 127 a then utf8 s1 else
      match s1 with
      | EmptyString => false
      | String b s2 =>
          if within 194 223 a then within 128 191 b && utf8 s2 else
          match s2 with
          | EmptyString => false
          | String c s3 =>
              if within 224 239 a then
                within (if within 224 224 a then 160 else 128) (if within 237 237 a then 159 else 191) b &&
                within 128 191 c && utf8 s3
              else
              match s3 with
              | EmptyString => false
              | String d s4 =>
                  within 240 244 a && within (if within 240 240 a then 144 else 128) (if within 244 244 a then 143 else 191) b &&
                  within 128 191 c && within 128 191 d && utf8 s4
              end
          end
      end
  end.

(** The values [printable] are those that dumping and parsing brings back:
    what was parsed, and what is built from finite numbers and strings in
    UTF-8.  The library dumps NaN and the infinities as [null], and throws on
    other strings. *)
Class JsonTextLaws (J : Type) `{JsonOps J, JsonText J} : Type := {
  printable : J -> Prop;
  jparse_dump j : printable j -> jparse (jdump j) = inr j;
  jparse_dump2 j : printable j -> jparse (jdump2 j +:+ Str.chr Str.nl) = inr j;
  printable_parsed t j : jparse t = inr j -> printable j;
  printable_member j k v : printable j -> jlookup j k = Some v -> printable v;
  printable_null : printable jnull;
  printable_array l : Forall printable l -> printable (jarray l);
  printable_set k v j :
    utf8 k = true -> printable v -> printable j -> jis_object j = true \/ j = jnull -> printable (jset k v j);
  printable_string s : utf8 s = true -> printable (j_of_string s);
  printable_bool b : printable (j_of_bool b);
  printable_int z : Int.in_int64 z -> printable (j_of_int z);
  printable_double d : Double.is_finite d = true -> printable (j_of_double d);
}.

(** An object that was built up member by member. *)
Ltac printable_object :=
  repeat first
    [ apply printable_set; [reflexivity| | |first [right; reflexivity|left; repeat (apply jis_object_set; first [right; reflexivity|left])]]
    | apply printable_null | apply printable_bool ].

Module Json.
Section Json.
Context {J : Type} `{JsonOps J}.

Definition contains (j : J) (k : string) : bool := bool_decide (is_Some (jlookup j k)).

(** [j.value(key, default)]: the converted member, the default when the key
    is absent; throws when [j] is not an object or the conversion fails. *)
Definition value_as {T} (get : J -> outcome T) (j : J) (k : string) (d : T) : outcome T :=
  if jis_object j then
    match jlookup j k with
    | Some v => get v
    | None => Returns d
    end
  else Throws "type_error.306".

Definition value_string := value_as jget_string.
Definition value_double := value_as jget_double.
Definition value_int32 := value_as jget_int32.
Definition value_bool := value_as jget_bool.

Lemma value_as_set_eq {T} (get : J -> outcome T) `{!JsonLaws J} k v j (d : T) :
  jis_object (jset k v j) = true -> value_as get (jset k v j) k d = get v.
Proof. intros E. unfold value_as. by rewrite E, jlookup_set_eq. Qed.

Lemma value_as_lookup {T} (get : J -> outcome T) j k v (d : T) :
  jis_object j = true -> jlookup j k = Some v -> value_as get j k d = get v.
Proof. intros E L. unfold value_as. by rewrite E, L. Qed.
End Json.
End Json.

#[local] Set Warnings "-register-all".

(** A concrete JSON data type satisfying the laws. *)
Module Reference.
Inductive jval : Type :=
  | JNull
  | JBool (b : bool)
  | JInt (z : Z)
  | JDouble (d : double)
  | JString (s : string)
  | JArray (l : list jval)
  | JObject (l : list (string * jval)).

Fixpoint assoc (l : list (string * jval)) (k : string) : option jval :=
  match l with
  | [] => None
  | (k', v) :: l' => if String.eqb k k' then Some v else assoc l' k
  end.

Definition lookup (j : jval) (k : string) : option jval :=
  match j with JObject l => assoc l k | _ => None end.

(** Keys keep their first position; assignment to a null makes an object. *)
Fixpoint update (l : list (string * jval)) (k : string) (v : jval) : list (string * jval) :=
  match l with
  | [] => [(k, v)]
  | (k', v') :: l' => if String.eqb k k' then (k, v) :: l' else (k', v') :: update l' k v
  end.

Definition set (k : string) (v j : jval) : jval :=
  match j with
  | JObject l => JObject (update l k v)
  | _ => JObject [(k, v)]
  end.

Definition get_string (j : jval) : outcome string :=
  match j with JString s => Returns s | _ => Throws "type_error.302" end.
Definition get_double (j : jval) : outcome double :=
  match j with
  | JDouble d => Returns d
  | JInt z => Returns (Double.of_Z z)
  | _ => Throws "type_error.302"
  end.
Definition get_int (f : Z -> Z) (j : jval) : outcome Z :=
  match j with
  | JInt z => Returns (f z)
  | JDouble d => Returns (f (Double.to_long_long d))
  | _ => Throws "type_error.302"
  end.
Definition get_bool (j : jval) : outcome bool :=
  match j with JBool b => Returns b | _ => Throws "type_error.302" end.

#[global] Instance jval_ops : JsonOps jval := {|
  jnull := JNull; jempty_object := JObject []; jarray := JArray; jset := set;
  j_of_string := JString; j_of_bool := JBool; j_of_int := JInt; j_of_double := JDouble;
  jis_object j := match j with JObject _ => true | _ => false end;
  jis_array j := match j with JArray _ => true | _ => false end;
  jis_null j := match j with JNull => true | _ => false end;
  jis_string j := match j with JString _ => true | _ => false end;
  jis_integer j := match j with JInt _ => true | _ => false end;
  jlookup := lookup;
  jelements j := match j with JArray l => l | _ => [] end;
  jitems j := match j with JObject l => l | _ => [] end;
  jget_string := get_string; jget_double := get_double;
  jget_int32 := get_int Int.to_int32; jget_int64 := get_int Int.to_int64;
  jget_bool := get_bool |}.

Lemma assoc_update_eq l k v : assoc (update l k v) k = Some v.
Proof.
  induction l as [|[k' v'] l IH]; simpl; [by rewrite String.eqb_refl|].
  destruct (String.eqb k k') eqn:E; simpl; [by rewrite String.eqb_refl|by rewrite E].
Qed.

Lemma assoc_update_ne l k k' v : k <> k' -> assoc (update l k v) k' = assoc l k'.
Proof.
  intros Hne. assert (String.eqb k' k = false) as E by (apply String.eqb_neq; congruence).
  induction l as [|[k2 v2] l IH]; simpl; [by rewrite E|].
  destruct (String.eqb k k2) eqn:E2; simpl.
  - apply String.eqb_eq in E2 as <-. by rewrite E.
  - by rewrite IH.
Qed.

#[global] Instance jval_laws : JsonLaws jval.
Proof.
  split; simpl; try done.
  - intros k v []; simpl; rewrite ?String.eqb_refl; auto using assoc_update_eq.
  - intros k k' v j Hne. assert (String.eqb k' k = false) as E by (apply String.eqb_neq; congruence).
    destruct j; simpl; rewrite ?E; auto using assoc_update_ne.
  - intros k v [] [|]; done.
  - intros z Hz. by rewrite Int.to_int32_small.
  - by intros [].
Qed.

(** A codec: a JSON value as a tree of scalars, the tree as a positive, the
    positive as a string of binary digits. *)
Abbreviation scalar := (bool + Z + string + (bool + bool * positive * Z + bool + unit))%type.

Definition enc_double (d : double) : bool + bool * positive * Z + bool + unit :=
  match d with
  | S754_zero s => inl (inl (inl s))
  | S754_finite s m e => inl (inl (inr (s, m, e)))
  | S754_infinity s => inl (inr s)
  | S754_nan => inr tt
  end.
Definition dec_double (x : bool + bool * positive * Z + bool + unit) : double :=
  match x with
  | inl (inl (inl s)) => S754_zero s
  | inl (inl (inr (s, m, e))) => S754_finite s m e
  | inl (inr s) => S754_infinity s
  | inr _ => S754_nan
  end.

Fixpoint enc (j : jval) : gen_tree scalar :=
  match j with
  | JNull => GenNode 0 []
  | JBool b => GenLeaf (inl (inl (inl b)))
  | JInt z => GenLeaf (inl (inl (inr z)))
  | JString t => GenLeaf (inl (inr t))
  | JDouble d => GenLeaf (inr (enc_double d))
  | JArray l => GenNode 1 (map enc l)
  | JObject l => GenNode 2 (map (fun kv => GenNode 3 [GenLeaf (inl (inr (fst kv))); enc (snd kv)]) l)
  end.

Fixpoint dec (t : gen_tree scalar) : jval :=
  match t with
  | GenLeaf (inl (inl (inl b))) => JBool b
  | GenLeaf (inl (inl (inr z))) => JInt z
  | GenLeaf (inl (inr t)) => JString t
  | GenLeaf (inr d) => JDouble (dec_double d)
  | GenNode 1 l => JArray (map dec l)
  | GenNode 2 l =>
      JObject (map (fun t => match t with
                             | GenNode 3 [GenLeaf (inl (inr k)); v] => (k, dec v)
                             | _ => ("", JNull)
                             end) l)
  | GenNode _ _ => JNull
  end.

Fixpoint bits (p : positive) : string :=
  match p with
  | xH => "1"
  | xO p' => "0" +:+ bits p'
  | xI p' => "1" +:+ bits p'
  end.
Fixpoint unbits (s : string) : option positive :=
  match s with
  | "1" => Some xH
  | String c s' =>
      if Ascii.eqb c (Str.c_of 48) then xO <$> unbits s'
      else if Ascii.eqb c (Str.c_of 49) then xI <$> unbits s' else None
  | "" => None
  end.

Definition dump (j : jval) : string := bits (encode (enc j)).
Definition parse (s : string) : string + jval :=
  match unbits (Str.drop_while_end (Ascii.eqb Str.nl) s) ≫= decode with
  | Some t => inr (dec t)
  | None => inl "parse_error.101"
  end.

Section JvalInd.
Context (P : jval -> Prop) (HN : P JNull) (HB : forall b, P (JBool b))
  (HI : forall z, P (JInt z)) (HD : forall d, P (JDouble d)) (HS : forall s, P (JString s))
  (HA : forall l, Forall P l -> P (JArray l))
  (HO : forall l, Forall (fun kv => P (snd kv)) l -> P (JObject l)).
Fixpoint jval_ind' (j : jval) : P j :=
  match j with
  | JNull => HN | JBool b => HB b | JInt z => HI z | JDouble d => HD d | JString s => HS s
  | JArray l => HA l ((fix go l := match l return Forall P l with
      | [] => Forall_nil_2 _ | j :: l' => Forall_cons_2 _ _ _ (jval_ind' j) (go l') end) l)
  | JObject l => HO l ((fix go l := match l return Forall (fun kv => P (snd kv)) l with
      | [] => Forall_nil_2 _
      | kv :: l' => Forall_cons_2 _ _ _ (jval_ind' (snd kv)) (go l') end) l)
  end.
End JvalInd.

Lemma dec_enc j : dec (enc j) = j.
Proof.
  induction j as [|b|z|d|t|l IH|l IH] using jval_ind'; simpl; try done.
  - by destruct d.
  - f_equal. induction IH as [|j l E _ IH]; simpl; congruence.
  - f_equal. induction IH as [|[k j] l E _ IH]; simpl in *; congruence.
Qed.

Lemma unbits_bits p : unbits (bits p) = Some p.
Proof.
  induction p as [p IH|p IH|]; simpl; [..|done]; rewrite IH; by destruct p.
Qed.

Lemma trim_bits p s :
  Str.drop_while_end (Ascii.eqb Str.nl) s = "" ->
  Str.drop_while_end (Ascii.eqb Str.nl) (bits p +:+ s) = bits p.
Proof.
  intros Hs. induction p as [p IH|p IH|]; simpl; rewrite ?IH, ?Hs; by try destruct p.
Qed.

Lemma parse_dump j s :
  Str.drop_while_end (Ascii.eqb Str.nl) s = "" -> parse (dump j +:+ s) = inr j.
Proof.
  intros Hs. unfold parse, dump. rewrite trim_bits, unbits_bits by done. simpl.
  by rewrite decode_encode, dec_enc.
Qed.

#[global] Instance jval_text : JsonText jval :=
  {| jparse := parse; jdump := dump; jdump2 := dump |}.

#[global] Instance jval_text_laws : JsonTextLaws jval.
Proof.
  refine {| printable _ := True |}; try done; intros j _; simpl; [|by apply parse_dump].
  rewrite <- (Str.sapp_nil_r (dump j)). by apply parse_dump.
Defined.
End Reference.
