(* ===== verification/AlertRule.v ===== *)
(** * AlertRule: rules, check types and metric values

    Models [collector/src/alerting/alert_rule.h] and [alert_rule.cpp], and the
    SQL name table of [timescale_storage.cpp]. *)
From stdpp Require Import base gmap strings list.
From Stdlib Require Import ZArith.
From S2P Require Import Prelude Double Proto.
#[local] Open Scope string_scope.
#[local] Open Scope list_scope.

Module AlertRule.
Record AlertRule : Type := mkRule {
  id : string;
  name : string;
  agent_id : string;
  check_type : string;
  target : string;
  metric_field : string;
  greater_than : bool;
  threshold : double;
  repeat_interval_sec : Z;
  severity : string;
  on_failure : bool;
}.

#[global] Instance AlertRule_eq_dec : EqDecision AlertRule.
Proof. solve_decision. Defined.

Definition MatchesAgent (r : AlertRule) (agent : string) : bool :=
  Str.is_empty (agent_id r) || String.eqb (agent_id r) agent.
Definition MatchesTarget (r : AlertRule) (t : string) : bool :=
  Str.is_empty (target r) || String.eqb (target r) t.

Definition CheckTypeToString (t : CheckType) : string :=
  match t with
  | CHECK_TYPE_DNS_RESOLUTION => "dns_resolution"
  | CHECK_TYPE_TCP_CONNECT => "tcp_connect"
  | CHECK_TYPE_TLS_HANDSHAKE => "tls_handshake"
  | CHECK_TYPE_HTTP_REQUEST => "http_request"
  | CHECK_TYPE_ICMP_PING => "icmp_ping"
  | CHECK_TYPE_JITTER => "jitter"
  | _ => "unspecified"
  end.

Definition CheckTypeFromString (s : string) : option CheckType :=
  if String.eqb s "dns_resolution" then Some CHECK_TYPE_DNS_RESOLUTION
  else if String.eqb s "tcp_connect" then Some CHECK_TYPE_TCP_CONNECT
  else if String.eqb s "tls_handshake" then Some CHECK_TYPE_TLS_HANDSHAKE
  else if String.eqb s "http_request" then Some CHECK_TYPE_HTTP_REQUEST
  else if String.eqb s "icmp_ping" then Some CHECK_TYPE_ICMP_PING
  else if String.eqb s "jitter" then Some CHECK_TYPE_JITTER
  else if String.eqb s "tls_certificate" then Some CHECK_TYPE_TLS_CERTIFICATE
  else if String.eqb s "tcp_retransmit" then Some CHECK_TYPE_TCP_RETRANSMIT
  else if String.eqb s "dns_record" then Some CHECK_TYPE_DNS_RECORD
  else if String.eqb s "tcp_handshake" then Some CHECK_TYPE_TCP_HANDSHAKE
  else if String.eqb s "ntp_offset" then Some CHECK_TYPE_NTP_OFFSET
  else None.

(** The storage's own table, for the SQL column. *)
Definition SqlCheckTypeToString (t : CheckType) : string :=
  match t with
  | CHECK_TYPE_DNS_RESOLUTION => "dns_resolution"
  | CHECK_TYPE_TCP_CONNECT => "tcp_connect"
  | CHECK_TYPE_TLS_HANDSHAKE => "tls_handshake"
  | CHECK_TYPE_HTTP_REQUEST => "http_request"
  | CHECK_TYPE_ICMP_PING => "icmp_ping"
  | CHECK_TYPE_JITTER => "jitter"
  | CHECK_TYPE_TLS_CERTIFICATE => "tls_certificate"
  | CHECK_TYPE_TCP_RETRANSMIT => "tcp_retransmit"
  | CHECK_TYPE_DNS_RECORD => "dns_record"
  | CHECK_TYPE_TCP_HANDSHAKE => "tcp_handshake"
  | CHECK_TYPE_NTP_OFFSET => "ntp_offset"
  | _ => "unspecified"
  end.

(** [field == name && m.has_name()]. *)
Definition when_field (field name : string) (v : option double) : option double :=
  if String.eqb field name then v else None.

Definition GetMetricValue (m : Metric) (field : string) : option double :=
  when_field field "latency_ms" (latency_ms m)
  ∪ when_field field "packet_loss_pct" (packet_loss_pct m)
  ∪ when_field field "jitter_ms" (jitter_ms m)
  ∪ when_field field "rtt_ms" (rtt_ms m)
  ∪ when_field field "status_code" (Double.of_Z <$> status_code m).

(** The check types a metric can carry, apart from [UNSPECIFIED]. *)
Definition named_check_types : list CheckType :=
  [ CHECK_TYPE_DNS_RESOLUTION; CHECK_TYPE_TCP_CONNECT; CHECK_TYPE_TLS_HANDSHAKE;
    CHECK_TYPE_HTTP_REQUEST; CHECK_TYPE_ICMP_PING; CHECK_TYPE_JITTER;
    CHECK_TYPE_TLS_CERTIFICATE; CHECK_TYPE_TCP_RETRANSMIT; CHECK_TYPE_DNS_RECORD;
    CHECK_TYPE_TCP_HANDSHAKE; CHECK_TYPE_NTP_OFFSET ].

(** The two name tables against [CheckTypeFromString].  The names the
    storage writes read back as their check type for every named type; those
    [CheckTypeToString] gives do so only for the first six types. *)
Theorem check_type_names (t : CheckType) :
  (t ∈ named_check_types -> CheckTypeFromString (SqlCheckTypeToString t) = Some t) /\
  (CheckTypeFromString (CheckTypeToString t) = Some t <-> t ∈ take 6 named_check_types).
Proof.
  split.
  - intros H. unfold named_check_types in H.
    repeat (apply elem_of_cons in H as [->|H]; [reflexivity|]). by apply elem_of_nil in H.
  - split; [|intros H; simpl in H;
      repeat (apply elem_of_cons in H as [->|H]; [reflexivity|]); by apply elem_of_nil in H].
    destruct t; intros H; vm_compute in H; try discriminate H; simpl; set_solver.
Qed.
End AlertRule.
Abbreviation AlertRule := AlertRule.AlertRule.
