(* ===== verification/AlertManager.v ===== *)
(** * AlertManager: the in-process alert state machine

    Models [collector/src/alerting/alert_manager.h], [alert_manager.cpp] and the
    notification records of [notifier.h].  One [Definition] per method; the
    mutex makes each method one atomic step, so a method is a function from
    state to state (and, for [Evaluate], the notifications sent after the lock
    is released).  [Alarm] is the abstract machine one (rule, agent, target)
    key promises to follow. *)
From stdpp Require Import base gmap strings list.
From Stdlib Require Import ZArith Lia.
From S2P Require Import Prelude Double Proto Text Json AlertRule.
Import Str.
#[local] Open Scope string_scope.
#[local] Open Scope list_scope.

(** ** The abstract alarm of one (rule, agent, target) key *)
Module Alarm.
#[local] Open Scope Z_scope.

(** What one matching metric says about the rule. *)
Inductive observation : Type :=
  | Violated (value : double) (detail : string)
  | Satisfied.

Inductive event : Type :=
  | Firing (value : double)
  | Resolved (value : double) (detail : string).

Inductive alarm : Type :=
  | Quiet
  | Alarming (first_fired last_notified : Z) (acknowledged : bool)
      (value : double) (detail : string).

Definition step (interval_ms now : Z) (a : alarm) (o : observation) : alarm * option event :=
  match a, o with
  | Quiet, Violated v d => (Alarming now now false v d, Some (Firing v))
  | Quiet, Satisfied => (Quiet, None)
  | Alarming f l ack v d, Violated v' d' =>
      if interval_ms <=? now - l then (Alarming f now ack v' d', Some (Firing v'))
      else (a, None)
  | Alarming _ _ _ v d, Satisfied => (Quiet, Some (Resolved v d))
  end.

(** A run over timed observations, with the timed events it emits. *)
Fixpoint run (interval_ms : Z) (a : alarm) (l : list (Z * observation)) :
    alarm * list (Z * event) :=
  match l with
  | [] => (a, [])
  | (now, o) :: l' =>
      let '(a', e) := step interval_ms now a o in
      let '(a'', es) := run interval_ms a' l' in
      (a'', match e with Some e => (now, e) :: es | None => es end)
  end.

Lemma run_app i a l k :
  run i a (l ++ k) =
  (let '(a', es) := run i a l in
   let '(a'', es') := run i a' k in (a'', es ++ es')).
Proof.
  revert a. induction l as [|[now o] l IH]; intros a; simpl.
  - by destruct (run i a k).
  - destruct (step i now a o) as [a1 e]. rewrite IH.
    destruct (run i a1 l) as [a2 es]. destruct (run i a2 k) as [a3 es'].
    by destruct e.
Qed.

Definition is_firing (a : alarm) : bool :=
  match a with Quiet => false | Alarming _ _ _ _ _ => true end.

(** The discipline of an event sequence: a [Resolved] only follows a
    [Firing], and firing again without a resolution waits the interval. *)
Fixpoint disciplined (interval_ms : Z) (last : option Z) (es : list (Z * event)) : Prop :=
  match es with
  | [] => True
  | (now, Firing _) :: es' =>
      match last with Some l => interval_ms <= now - l | None => True end
      /\ disciplined interval_ms (Some now) es'
  | (_, Resolved _ _) :: es' => is_Some last /\ disciplined interval_ms None es'
  end.

Definition last_notified (a : alarm) : option Z :=
  match a with Quiet => None | Alarming _ l _ _ _ => Some l end.

Lemma run_disciplined i a l : disciplined i (last_notified a) (snd (run i a l)).
Proof.
  revert a. induction l as [|[now o] l IH]; intros a; [done|].
  cbn [run]. destruct (step i now a o) as [a' e] eqn:E.
  specialize (IH a'). destruct (run i a' l) as [a'' es]. simpl in *.
  destruct a as [|f n ack v d], o as [v' d'|]; simpl in E.
  - injection E as <- <-. simpl. auto.
  - injection E as <- <-. done.
  - destruct (i <=? now - n) eqn:Ei; injection E as <- <-; simpl in *; [|done].
    bool_hyps. auto.
  - injection E as <- <-. simpl. eauto.
Qed.
End Alarm.

Module AlertManager.
Import AlertRule.

Definition kMaxHistory : nat := 1000.

Record AlertRecord : Type := mkRecord {
  rec_rule_id : string;
  rec_rule_name : string;
  rec_agent_id : string;
  rec_check_type : string;
  rec_target : string;
  rec_severity : string;
  rec_status : string;
  rec_value : double;
  rec_threshold : double;
  rec_detail : string;
  rec_time_ms : Z;
}.

Record AlertNotification : Type := mkNotification {
  n_rule_id : string;
  n_rule_name : string;
  n_severity : string;
  n_agent_id : string;
  n_check_type : string;
  n_target : string;
  n_status : string;
  n_value : double;
  n_threshold : double;
  n_detail : string;
  n_time_ms : Z;
}.

(** [LogNotifier] and [WebhookNotifier]; the webhook keeps its default timeout. *)
Inductive Notifier : Type :=
  | LogNotifier
  | WebhookNotifier (url : string).

Definition MakeNotifier (url : string) : Notifier :=
  if is_empty url || String.eqb url "log" then LogNotifier else WebhookNotifier url.

Record FiringState : Type := mkFiring {
  firing : bool;
  acknowledged : bool;
  first_fired_ms : Z;
  last_notified_ms : Z;
  last_value : double;
  last_detail : string;
}.

(** [FiringState{}]. *)
Definition FiringState0 : FiringState := mkFiring false false 0 0 Double.zero "".

Record state : Type := mkState {
  m_rules : list AlertRule;
  m_states : gmap string FiringState;
  m_notifiers : list Notifier;
  m_history : list AlertRecord;
  m_alerts_fired_total : Z;
  m_rules_path : string;
  m_webhook_url : string;
}.

Definition init : state := mkState [] ∅ [] [] 0 "" "".

Definition StateKey (rule_id agent target : string) : string :=
  rule_id +:+ chr unit_sep +:+ agent +:+ chr unit_sep +:+ target.

Definition MakeRecordFor (rule : AlertRule) (agent : string) (m : Metric) (value : double)
    (status : string) (now : Z) : AlertRecord :=
  mkRecord (id rule) (name rule) agent (CheckTypeToString (Proto.check_type m))
    (Proto.target m) (severity rule) status value (threshold rule) (detail m) now.

Definition MakeNotification (rec : AlertRecord) : AlertNotification :=
  mkNotification (rec_rule_id rec) (rec_rule_name rec) (rec_severity rec)
    (rec_agent_id rec) (rec_check_type rec) (rec_target rec) (rec_status rec)
    (rec_value rec) (rec_threshold rec) (rec_detail rec) (rec_time_ms rec).

Definition set_detail (d : string) (rec : AlertRecord) : AlertRecord :=
  mkRecord (rec_rule_id rec) (rec_rule_name rec) (rec_agent_id rec) (rec_check_type rec)
    (rec_target rec) (rec_severity rec) (rec_status rec) (rec_value rec)
    (rec_threshold rec) d (rec_time_ms rec).

Definition TrimHistory (h : list AlertRecord) : list AlertRecord :=
  if Nat.ltb kMaxHistory (length h) then drop (length h - kMaxHistory) h else h.

(** Which metrics a rule looks at: the three [continue]s of the loop. *)
Definition rule_matches (agent : string) (m : Metric) (rule : AlertRule) : bool :=
  MatchesAgent rule agent
  && (if is_empty (check_type rule) then true
      else match CheckTypeFromString (check_type rule) with
           | Some ct => bool_decide (ct = Proto.check_type m)
           | None => true
           end)
  && MatchesTarget rule (Proto.target m).

(** [violated], [value] and [detail] as the loop computes them. *)
Definition assess (m : Metric) (rule : AlertRule) : bool * double * string :=
  if on_failure rule then
    if success m then (false, Double.zero, "") else (true, Double.zero, detail m)
  else if success m then
    match GetMetricValue m (metric_field rule) with
    | Some v =>
        (if greater_than rule then Double.gt v (threshold rule)
         else Double.lt v (threshold rule), v, "")
    | None => (false, Double.zero, "")
    end
  else (false, Double.zero, "").

(** What the loop body accumulates: the mutable members and the pending
    notifications. *)
Record loop : Type := mkLoop {
  l_states : gmap string FiringState;
  l_history : list AlertRecord;
  l_fired : Z;
  l_notifications : list AlertNotification;
}.

Definition push_record (rec : AlertRecord) (l : loop) : loop :=
  mkLoop (l_states l) (TrimHistory (l_history l ++ [rec])) (l_fired l)
    (l_notifications l ++ [MakeNotification rec]).
Definition put_state (k : string) (st : FiringState) (l : loop) : loop :=
  mkLoop (<[k := st]> (l_states l)) (l_history l) (l_fired l) (l_notifications l).
Definition count_fired (l : loop) : loop :=
  mkLoop (l_states l) (l_history l) (Int.u64 (l_fired l + 1)) (l_notifications l).

(** The body of the inner loop, for one metric and one rule. *)
Definition eval_rule (now : Z) (agent : string) (m : Metric) (l : loop) (rule : AlertRule) : loop :=
  if negb (rule_matches agent m rule) then l else
  let key := StateKey (id rule) agent (Proto.target m) in
  let st := default FiringState0 (l_states l !! key) in
  let '(violated, value, det) := assess m rule in
  if violated then
    if negb (firing st) then
      push_record (MakeRecordFor rule agent m value "firing" now)
        (count_fired (put_state key (mkFiring true (acknowledged st) now now value det) l))
    else if (repeat_interval_sec rule * 1000 <=? now - last_notified_ms st)%Z then
      push_record (MakeRecordFor rule agent m value "firing" now)
        (count_fired (put_state key
           (mkFiring true (acknowledged st) (first_fired_ms st) now value det) l))
    else put_state key st l
  else if firing st then
    push_record (set_detail (last_detail st)
                   (MakeRecordFor rule agent m (last_value st) "resolved" now))
      (put_state key FiringState0 l)
  else put_state key st l.

Definition eval_metric (rules : list AlertRule) (now : Z) (agent : string) (l : loop) (m : Metric) : loop :=
  foldl (eval_rule now agent m) l rules.

Definition eval_loop (rules : list AlertRule) (now : Z) (agent : string) (metrics : list Metric)
    (l : loop) : loop :=
  foldl (eval_metric rules now agent) l metrics.

(** [Evaluate] while it holds the lock: the new state and the pending
    notifications. *)
Definition Evaluate_locked (now : Z) (agent : string) (metrics : list Metric) (s : state) :
    state * list AlertNotification :=
  match m_rules s with
  | [] => (s, [])
  | rules =>
      let l := eval_loop rules now agent metrics
                 (mkLoop (m_states s) (m_history s) (m_alerts_fired_total s) []) in
      (mkState rules (l_states l) (m_notifiers s) (l_history l) (l_fired l)
         (m_rules_path s) (m_webhook_url s), l_notifications l)
  end.

(** The notification loop after the lock: every alert to every notifier. *)
Definition notify_all (notifiers : list Notifier) (alerts : list AlertNotification) :
    list (Notifier * AlertNotification) :=
  flat_map (fun alert => map (fun n => (n, alert)) notifiers) alerts.

Definition Evaluate (now : Z) (agent : string) (metrics : list Metric) (s : state) :
    state * list (Notifier * AlertNotification) :=
  let '(s', alerts) := Evaluate_locked now agent metrics s in
  (s', notify_all (m_notifiers s) alerts).

Definition AddNotifier (n : Notifier) (s : state) : state :=
  mkState (m_rules s) (m_states s) (m_notifiers s ++ [n]) (m_history s)
    (m_alerts_fired_total s) (m_rules_path s) (m_webhook_url s).

Definition Ack (rule_id agent target : string) (s : state) : state * bool :=
  let key := StateKey rule_id agent target in
  match m_states s !! key with
  | Some st =>
      if negb (firing st) || acknowledged st then (s, false)
      else
        (mkState (m_rules s)
           (<[key := mkFiring (firing st) true (first_fired_ms st) (last_notified_ms st)
                       (last_value st) (last_detail st)]> (m_states s))
           (m_notifiers s) (m_history s) (m_alerts_fired_total s) (m_rules_path s)
           (m_webhook_url s), true)
  | None => (s, false)
  end.

Definition FindRule (rules : list AlertRule) (rid : string) : option AlertRule :=
  list_find (fun r => id r = rid) rules ≫= fun p => Some (snd p).

Definition ActiveAlertCount (s : state) : nat :=
  size (filter (fun kv : string * FiringState => firing (snd kv) = true) (m_states s)).
Definition TotalAlertsFired (s : state) : Z := m_alerts_fired_total s.
Definition RuleCount (s : state) : nat := length (m_rules s).
Definition Enabled (s : state) : bool := negb (Nat.eqb (length (m_rules s)) 0).

(** *** Keys *)

Definition sep_free (s : string) : Prop := has_char unit_sep s = false.

Lemma StateKey_inj_agent r r' agent t t' :
  sep_free r -> sep_free r' ->
  StateKey r agent t = StateKey r' agent t' -> r = r' /\ t = t'.
Proof.
  unfold StateKey. intros Hr Hr' E. simpl in E.
  apply sep_inj in E as [-> E]; [|done..]. split; [done|].
  by apply sapp_inj_l in E as [= ->].
Qed.

Lemma StateKey_inj r r' agent agent' t t' :
  sep_free r -> sep_free r' -> sep_free agent -> sep_free agent' ->
  StateKey r agent t = StateKey r' agent' t' -> r = r' /\ agent = agent' /\ t = t'.
Proof.
  unfold StateKey. intros ???? E. simpl in E.
  apply sep_inj in E as [-> E]; [|done..].
  by apply sep_inj in E as [-> ->].
Qed.

(** *** One key of the manager is one alarm *)

Definition alarm_of (st : option FiringState) : Alarm.alarm :=
  match st with
  | Some st =>
      if firing st then
        Alarm.Alarming (first_fired_ms st) (last_notified_ms st) (acknowledged st)
          (last_value st) (last_detail st)
      else Alarm.Quiet
  | None => Alarm.Quiet
  end.

(** States of keys that do not fire are reset ([FiringState{}]). *)
Definition states_ok (m : gmap string FiringState) : Prop :=
  forall k st, m !! k = Some st -> firing st = false -> st = FiringState0.

Definition observe (m : Metric) (rule : AlertRule) : Alarm.observation :=
  let '(violated, value, det) := assess m rule in
  if violated then Alarm.Violated value det else Alarm.Satisfied.

Definition interval_ms (rule : AlertRule) : Z := repeat_interval_sec rule * 1000.

(** The alarm event a notification reports. *)
Definition event_of (n : AlertNotification) : Z * Alarm.event :=
  (n_time_ms n,
   if String.eqb (n_status n) "firing" then Alarm.Firing (n_value n)
   else Alarm.Resolved (n_value n) (n_detail n)).

Definition concerns (rid t : string) (n : AlertNotification) : Prop :=
  n_rule_id n = rid /\ n_target n = t.
#[global] Instance concerns_dec rid t n : Decision (concerns rid t n).
Proof. unfold concerns. apply _. Defined.

Definition events_of (rid t : string) (ns : list AlertNotification) : list (Z * Alarm.event) :=
  event_of <$> filter (concerns rid t) ns.

Lemma events_of_app rid t ns ns' :
  events_of rid t (ns ++ ns') = events_of rid t ns ++ events_of rid t ns'.
Proof. unfold events_of. by rewrite filter_app, fmap_app. Qed.

Lemma events_of_other rid t n :
  ~ concerns rid t n -> events_of rid t [n] = [].
Proof. intros H. unfold events_of. by rewrite filter_cons_False, filter_nil. Qed.

Lemma events_of_this rid t n :
  concerns rid t n -> events_of rid t [n] = [event_of n].
Proof. intros H. unfold events_of. by rewrite filter_cons_True, filter_nil. Qed.

Lemma TrimHistory_last_n h : TrimHistory h = Lists.last_n kMaxHistory h.
Proof.
  unfold TrimHistory, Lists.last_n. destruct (Nat.ltb_spec kMaxHistory (length h)); [done|].
  by replace (length h - kMaxHistory) with 0 by lia.
Qed.

(** What one inner iteration does to the alarm of [rid] and [t]. *)
Definition alarm_at (agent rid t : string) (l : loop) : Alarm.alarm :=
  alarm_of (l_states l !! StateKey rid agent t).
Definition events_at (rid t : string) (l : loop) : list (Z * Alarm.event) :=
  events_of rid t (l_notifications l).

Lemma eval_rule_ok now agent m l rule :
  states_ok (l_states l) -> states_ok (l_states (eval_rule now agent m l rule)).
Proof.
  intros Hok k st. unfold eval_rule. destruct (rule_matches agent m rule); [|apply Hok].
  simpl. destruct (assess m rule) as [[violated v] d].
  set (key := StateKey _ _ _).
  destruct (l_states l !! key) as [st0|] eqn:E; simpl.
  - destruct violated, (firing st0) eqn:F; simpl.
    + destruct (_ <=? _)%Z; simpl; intros [[<- <-]|[_ H]]%lookup_insert_Some; simpl; try done;
        try congruence; eauto.
    + intros [[<- <-]|[_ H]]%lookup_insert_Some; simpl; eauto; done.
    + intros [[<- <-]|[_ H]]%lookup_insert_Some; simpl; eauto; done.
    + intros [[<- <-]|[_ H]]%lookup_insert_Some; eauto.
  - destruct violated; simpl; intros [[<- <-]|[_ H]]%lookup_insert_Some; eauto; done.
Qed.

Lemma eval_rule_frame now agent m l rule rid t :
  (StateKey (id rule) agent (Proto.target m) <> StateKey rid agent t) ->
  alarm_at agent rid t (eval_rule now agent m l rule) = alarm_at agent rid t l /\
  events_at rid t (eval_rule now agent m l rule) = events_at rid t l.
Proof.
  intros Hne.
  assert (Hnc : forall v s n d, ~ concerns rid t
    (MakeNotification (set_detail d (MakeRecordFor rule agent m v s n)))).
  { intros v s n d [E1 E2]. simpl in *. congruence. }
  assert (Hnc' : forall v s n, ~ concerns rid t
    (MakeNotification (MakeRecordFor rule agent m v s n))).
  { intros v s n [E1 E2]. simpl in *. congruence. }
  unfold eval_rule, alarm_at, events_at. destruct (rule_matches agent m rule); [|done]. simpl.
  destruct (assess m rule) as [[violated v] d].
  destruct (default _ _) as [f a ff ln lv ld]; simpl.
  destruct violated, f; try destruct (_ <=? _)%Z; simpl;
    rewrite lookup_insert_ne by done;
    rewrite ?events_of_app, ?events_of_other by auto;
    by rewrite ?app_nil_r.
Qed.

Lemma eval_rule_step now agent m l rule a' e :
  states_ok (l_states l) ->
  rule_matches agent m rule = true ->
  Alarm.step (interval_ms rule) now (alarm_at agent (id rule) (Proto.target m) l)
    (observe m rule) = (a', e) ->
  alarm_at agent (id rule) (Proto.target m) (eval_rule now agent m l rule) = a' /\
  events_at (id rule) (Proto.target m) (eval_rule now agent m l rule) =
    events_at (id rule) (Proto.target m) l ++ match e with Some e => [(now, e)] | None => [] end.
Proof.
  intros Hok Hm. unfold eval_rule, alarm_at, events_at, observe, interval_ms.
  rewrite Hm. simpl. destruct (assess m rule) as [[violated v] d].
  set (key := StateKey _ _ _).
  destruct (l_states l !! key) as [st|] eqn:E; simpl.
  - destruct (firing st) eqn:F; simpl.
    + destruct violated; simpl; [destruct (_ <=? _)%Z; simpl|];
        intros [= <- <-]; rewrite lookup_insert_eq; simpl;
        rewrite ?F, ?events_of_app, ?events_of_this, ?app_nil_r by done; done.
    + apply Hok in E as ->; [|done].
      destruct violated; simpl; intros [= <- <-]; rewrite lookup_insert_eq; simpl;
        rewrite ?events_of_app, ?events_of_this, ?app_nil_r by done; done.
  - destruct violated; simpl; intros [= <- <-]; rewrite lookup_insert_eq; simpl;
      rewrite ?events_of_app, ?events_of_this, ?app_nil_r by done; done.
Qed.

(** The timed observations one batch makes for a rule and a target. *)
Definition observations (now : Z) (agent t : string) (rule : AlertRule) (metrics : list Metric) :
    list (Z * Alarm.observation) :=
  (fun m => (now, observe m rule)) <$>
    filter (fun m => rule_matches agent m rule = true /\ Proto.target m = t) metrics.

Lemma eval_loop_ok rules now agent metrics l :
  states_ok (l_states l) -> states_ok (l_states (eval_loop rules now agent metrics l)).
Proof.
  revert l. induction metrics as [|m metrics IH]; intros l Hl; simpl; [done|].
  apply IH. clear IH. unfold eval_metric. revert l Hl.
  induction rules as [|r rules IHr]; intros l Hl; simpl; auto using eval_rule_ok.
Qed.

Lemma eval_metric_frame rules now agent m l rid t :
  (forall r, r ∈ rules -> StateKey (id r) agent (Proto.target m) <> StateKey rid agent t) ->
  alarm_at agent rid t (eval_metric rules now agent l m) = alarm_at agent rid t l /\
  events_at rid t (eval_metric rules now agent l m) = events_at rid t l.
Proof.
  unfold eval_metric. revert l. induction rules as [|r rules IH]; intros l H; simpl; [done|].
  destruct (eval_rule_frame now agent m l r rid t) as [E1 E2]; [apply H; left|].
  rewrite <- E1, <- E2. apply IH. intros r' Hr'. apply H. by right.
Qed.

(** One metric moves the alarm of [rule] by at most one step. *)
Lemma eval_metric_alarm rules now agent m l rule t a' es :
  NoDup (id <$> rules) -> (forall r, r ∈ rules -> sep_free (id r)) ->
  rule ∈ rules -> states_ok (l_states l) ->
  Alarm.run (interval_ms rule) (alarm_at agent (id rule) t l)
    (observations now agent t rule [m]) = (a', es) ->
  alarm_at agent (id rule) t (eval_metric rules now agent l m) = a' /\
  events_at (id rule) t (eval_metric rules now agent l m) = events_at (id rule) t l ++ es.
Proof.
  intros Hnd Hsep [pre [post ->]]%list_elem_of_split Hok.
  assert (Hother : forall r, r ∈ pre ++ post -> id r <> id rule).
  { intros r Hr E. rewrite fmap_app, fmap_cons in Hnd.
    apply NoDup_app in Hnd as (_ & H1 & H2). apply NoDup_cons in H2 as [H2 _].
    apply elem_of_app in Hr as [Hr|Hr].
    - apply (H1 (id r)); [by apply list_elem_of_fmap_2|]. rewrite E. left.
    - apply H2. rewrite <- E. by apply list_elem_of_fmap_2. }
  assert (Hframe : forall r, r ∈ pre ++ post ->
    StateKey (id r) agent (Proto.target m) <> StateKey (id rule) agent t).
  { intros r Hr E. apply StateKey_inj_agent in E as [E _].
    - by apply (Hother r).
    - apply Hsep. rewrite elem_of_app, elem_of_cons.
      apply elem_of_app in Hr as [?|?]; auto.
    - apply Hsep. rewrite elem_of_app, elem_of_cons. auto. }
  unfold eval_metric. rewrite foldl_app. simpl.
  change (foldl (eval_rule now agent m) l pre) with (eval_metric pre now agent l m).
  destruct (eval_metric_frame pre now agent m l (id rule) t) as [E1 E2].
  { intros r Hr. apply Hframe. rewrite elem_of_app. auto. }
  assert (Hok1 : states_ok (l_states (eval_metric pre now agent l m))).
  { exact (eval_loop_ok pre now agent [m] l Hok). }
  set (l1 := eval_metric pre now agent l m) in *.
  set (l2 := eval_rule now agent m l1 rule).
  change (foldl (eval_rule now agent m) l2 post) with (eval_metric post now agent l2 m).
  destruct (eval_metric_frame post now agent m l2 (id rule) t) as [E3 E4].
  { intros r Hr. apply Hframe. rewrite elem_of_app. auto. }
  rewrite E3, E4, <- E1, <- E2. unfold observations. rewrite filter_cons, filter_nil.
  destruct (decide _) as [[Hm <-]|Hn]; simpl.
  - destruct (Alarm.step _ _ _ _) as [a1 e] eqn:Es. intros [= <- <-].
    apply eval_rule_step in Es as [F3 F4]; [|done..].
    unfold l2. rewrite F3, F4. by destruct e.
  - intros [= <- <-]. rewrite app_nil_r.
    destruct (rule_matches agent m rule) eqn:Hm.
    + apply eval_rule_frame. intros E.
      apply StateKey_inj_agent in E as [_ E].
      * apply Hn. done.
      * apply Hsep. rewrite elem_of_app, elem_of_cons. auto.
      * apply Hsep. rewrite elem_of_app, elem_of_cons. auto.
    + unfold l2, eval_rule. by rewrite Hm.
Qed.

Lemma eval_loop_alarm rules now agent metrics l rule t a' es :
  NoDup (id <$> rules) -> (forall r, r ∈ rules -> sep_free (id r)) ->
  rule ∈ rules -> states_ok (l_states l) ->
  Alarm.run (interval_ms rule) (alarm_at agent (id rule) t l)
    (observations now agent t rule metrics) = (a', es) ->
  alarm_at agent (id rule) t (eval_loop rules now agent metrics l) = a' /\
  events_at (id rule) t (eval_loop rules now agent metrics l) = events_at (id rule) t l ++ es.
Proof.
  intros Hnd Hsep Hr. revert l a' es.
  induction metrics as [|m metrics IH]; intros l a' es Hok; simpl.
  - intros [= <- <-]. by rewrite app_nil_r.
  - assert (observations now agent t rule (m :: metrics) =
            observations now agent t rule [m] ++ observations now agent t rule metrics) as ->.
    { unfold observations. rewrite <- fmap_app, <- filter_app. done. }
    rewrite Alarm.run_app.
    destruct (Alarm.run _ _ (observations now agent t rule [m])) as [a1 es1] eqn:E1.
    destruct (Alarm.run _ a1 _) as [a2 es2] eqn:E2. intros [= <- <-].
    destruct (eval_metric_alarm rules now agent m l rule t a1 es1) as [F1 F2]; [done..|].
    rewrite app_assoc, <- F2. apply IH.
    + exact (eval_loop_ok rules now agent [m] l Hok).
    + by rewrite F1.
Qed.

Lemma Evaluate_locked_alarm now agent metrics s s' alerts rule t a' es :
  NoDup (id <$> m_rules s) -> (forall r, r ∈ m_rules s -> sep_free (id r)) ->
  rule ∈ m_rules s -> states_ok (m_states s) ->
  Evaluate_locked now agent metrics s = (s', alerts) ->
  Alarm.run (interval_ms rule) (alarm_of (m_states s !! StateKey (id rule) agent t))
    (observations now agent t rule metrics) = (a', es) ->
  alarm_of (m_states s' !! StateKey (id rule) agent t) = a' /\
  events_of (id rule) t alerts = es /\ states_ok (m_states s').
Proof.
  intros Hnd Hsep Hr Hok HE Hrun. unfold Evaluate_locked in HE.
  destruct (m_rules s) as [|r0 rs] eqn:Er; [by apply elem_of_nil in Hr|].
  rewrite <- Er in *. injection HE as <- <-. simpl.
  set (l0 := mkLoop (m_states s) (m_history s) (m_alerts_fired_total s) []).
  destruct (eval_loop_alarm (m_rules s) now agent metrics l0 rule t a' es) as [F1 F2]; [done..|].
  split; [exact F1|]. split; [|by apply eval_loop_ok].
  exact F2.
Qed.

(** *** History and counters *)

Definition firing_count (recs : list AlertRecord) : Z :=
  Z.of_nat (length (filter (fun r => rec_status r = "firing") recs)).

Definition history_ok (h : list AlertRecord) : Prop := (length h <= kMaxHistory)%nat.

(** [l'] extends [l] by the records [recs]. *)
Definition extends (l l' : loop) (recs : list AlertRecord) : Prop :=
  l_history l' = Lists.last_n kMaxHistory (l_history l ++ recs) /\
  l_notifications l' = l_notifications l ++ (MakeNotification <$> recs) /\
  l_fired l' = Int.u64 (l_fired l + firing_count recs).

Lemma extends_nil l :
  history_ok (l_history l) -> Int.in_uint64 (l_fired l) -> extends l l [].
Proof.
  intros H1 H2. unfold extends. rewrite app_nil_r, Lists.last_n_all by done.
  split; [done|]. split; [by rewrite app_nil_r|]. unfold firing_count. simpl.
  rewrite Z.add_0_r. symmetry. by apply Int.u64_small.
Qed.

Lemma extends_put l k st :
  history_ok (l_history l) -> Int.in_uint64 (l_fired l) -> extends l (put_state k st l) [].
Proof. intros H1 H2. exact (extends_nil l H1 H2). Qed.

Lemma extends_trans l1 l2 l3 r1 r2 :
  extends l1 l2 r1 -> extends l2 l3 r2 -> extends l1 l3 (r1 ++ r2).
Proof.
  intros (H1 & H2 & H3) (G1 & G2 & G3). unfold extends.
  rewrite G1, H1, Lists.last_n_app, app_assoc. split; [done|].
  rewrite G2, H2, fmap_app, app_assoc. split; [done|].
  rewrite G3, H3. unfold firing_count, Int.u64. rewrite filter_app, length_app.
  rewrite Nat2Z.inj_add, Z.add_assoc, Zplus_mod_idemp_l. done.
Qed.

Lemma extends_ok l l' recs :
  extends l l' recs -> history_ok (l_history l') /\ Int.in_uint64 (l_fired l').
Proof.
  intros (H1 & _ & H3). split; [|rewrite H3; apply Int.u64_range].
  unfold history_ok. rewrite H1, Lists.last_n_length. lia.
Qed.

Lemma extends_firing l k st rec :
  rec_status rec = "firing" ->
  extends l (push_record rec (count_fired (put_state k st l))) [rec].
Proof.
  intros E. unfold extends, push_record, count_fired, put_state. simpl.
  rewrite TrimHistory_last_n. split; [done|]. split; [done|].
  unfold firing_count. by rewrite filter_cons_True by done.
Qed.

Lemma extends_resolved l k st rec :
  Int.in_uint64 (l_fired l) -> rec_status rec <> "firing" ->
  extends l (push_record rec (put_state k st l)) [rec].
Proof.
  intros Hu E. unfold extends, push_record, put_state. simpl.
  rewrite TrimHistory_last_n. split; [done|]. split; [done|].
  unfold firing_count. rewrite filter_cons_False by done. simpl.
  rewrite Z.add_0_r. symmetry. by apply Int.u64_small.
Qed.

Lemma eval_rule_extends now agent m l rule :
  history_ok (l_history l) -> Int.in_uint64 (l_fired l) ->
  exists recs, extends l (eval_rule now agent m l rule) recs.
Proof.
  intros H1 H2. unfold eval_rule.
  destruct (rule_matches agent m rule); [|by eauto using extends_nil]. simpl.
  destruct (assess m rule) as [[violated v] d].
  destruct (default _ _) as [f a ff ln lv ld]; simpl.
  destruct violated, f; simpl; try destruct (_ <=? _)%Z;
    eauto using extends_firing; try (eexists; by apply extends_resolved);
    by eauto using extends_put.
Qed.

Lemma fold_extends {A} (f : loop -> A -> loop) (xs : list A) l :
  (forall l x, history_ok (l_history l) -> Int.in_uint64 (l_fired l) ->
     exists recs, extends l (f l x) recs) ->
  history_ok (l_history l) -> Int.in_uint64 (l_fired l) ->
  exists recs, extends l (foldl f l xs) recs.
Proof.
  intros Hf. revert l. induction xs as [|x xs IH]; intros l H1 H2; simpl.
  - eauto using extends_nil.
  - destruct (Hf l x H1 H2) as [r1 E1]. destruct (extends_ok _ _ _ E1) as [H1' H2'].
    destruct (IH _ H1' H2') as [r2 E2]. eauto using extends_trans.
Qed.

(** [Evaluate] appends its records to the history, of which the last
    1000 are kept, queues exactly one notification per record, in order, and
    counts the "firing" ones in the 64-bit total. *)
Theorem Evaluate_records now agent metrics s :
  history_ok (m_history s) -> Int.in_uint64 (m_alerts_fired_total s) ->
  let '(s', alerts) := Evaluate_locked now agent metrics s in
  exists recs,
    m_history s' = Lists.last_n kMaxHistory (m_history s ++ recs) /\
    alerts = MakeNotification <$> recs /\
    m_alerts_fired_total s' = Int.u64 (m_alerts_fired_total s + firing_count recs) /\
    history_ok (m_history s').
Proof.
  intros H1 H2. unfold Evaluate_locked.
  set (l0 := mkLoop (m_states s) (m_history s) (m_alerts_fired_total s) []).
  destruct (m_rules s) as [|r0 rs] eqn:Er.
  - exists []. destruct (extends_nil l0 H1 H2) as (G1 & G2 & G3). eauto.
  - destruct (fold_extends (eval_metric (r0 :: rs) now agent) metrics l0) as [recs E]; [|done..|].
    { intros l m G1 G2. apply fold_extends; eauto using eval_rule_extends. }
    pose proof (extends_ok _ _ _ E) as [Hok _].
    destruct E as (G1 & G2 & G3). exists recs. auto.
Qed.

(** *** Sequences of evaluations *)

(** Consecutive [Evaluate] calls with the rules unchanged: the alerts they
    queue, in order. *)
Fixpoint evaluations (agent : string) (batches : list (Z * list Metric)) (s : state) :
    state * list AlertNotification :=
  match batches with
  | [] => (s, [])
  | (now, metrics) :: batches' =>
      let '(s1, a1) := Evaluate_locked now agent metrics s in
      let '(s2, a2) := evaluations agent batches' s1 in
      (s2, a1 ++ a2)
  end.

Lemma Evaluate_locked_rules now agent metrics s :
  m_rules (fst (Evaluate_locked now agent metrics s)) = m_rules s.
Proof. unfold Evaluate_locked. by destruct (m_rules s) eqn:E. Qed.

Lemma evaluations_run agent batches s rule t :
  NoDup (id <$> m_rules s) -> (forall r, r ∈ m_rules s -> sep_free (id r)) ->
  rule ∈ m_rules s -> states_ok (m_states s) ->
  events_of (id rule) t (snd (evaluations agent batches s)) =
    snd (Alarm.run (interval_ms rule) (alarm_of (m_states s !! StateKey (id rule) agent t))
           (flat_map (fun b => observations (fst b) agent t rule (snd b)) batches)).
Proof.
  intros Hnd Hsep Hr. revert s Hnd Hsep Hr.
  induction batches as [|[now metrics] batches IH]; intros s Hnd Hsep Hr Hok; [done|].
  cbn [evaluations flat_map fst snd].
  destruct (Evaluate_locked now agent metrics s) as [s1 a1] eqn:E1.
  destruct (Alarm.run (interval_ms rule) (alarm_of (m_states s !! StateKey (id rule) agent t))
    (observations now agent t rule metrics)) as [al es] eqn:Er.
  pose proof (Evaluate_locked_rules now agent metrics s) as Hrs. rewrite E1 in Hrs. simpl in Hrs.
  destruct (Evaluate_locked_alarm now agent metrics s s1 a1 rule t al es)
    as (Ha & He & Hok1); [done..|].
  rewrite Alarm.run_app, Er.
  specialize (IH s1). rewrite Hrs, Ha in IH. specialize (IH Hnd Hsep Hr Hok1).
  destruct (evaluations agent batches s1) as [s2 a2].
  destruct (Alarm.run _ al _) as [al2 es2]. simpl in *.
  by rewrite events_of_app, He, IH.
Qed.

(** Over any sequence of [Evaluate] calls the alerts of one rule and
    target are disciplined: a "resolved" only follows a "firing", and a rule
    that is still violated fires again only after [repeat_interval_sec]. *)
Theorem evaluations_disciplined agent batches s rule t :
  NoDup (id <$> m_rules s) -> (forall r, r ∈ m_rules s -> sep_free (id r)) ->
  rule ∈ m_rules s -> m_states s = ∅ ->
  Alarm.disciplined (interval_ms rule) None
    (events_of (id rule) t (snd (evaluations agent batches s))).
Proof.
  intros Hnd Hsep Hr He. rewrite evaluations_run by (rewrite ?He; done).
  rewrite He, lookup_empty. apply (Alarm.run_disciplined _ Alarm.Quiet).
Qed.

(** *** Rules as JSON, and the rules file *)
Section Rules.
Context {J : Type} `{JsonOps J} `{JsonText J}.

(** The file system as seen by the rules file: its contents, whether a path
    opens for writing, and whether the writes to it go through.  A write that
    fails leaves some other content. *)
Record disk : Type := mkDisk {
  contents : gmap string string;
  opens : string -> bool;
  writes : string -> bool;
  torn : string -> string;
}.

Definition RuleToJson (r : AlertRule) : J :=
  jset "on_failure" (j_of_bool (on_failure r))
  (jset "severity" (j_of_string (severity r))
  (jset "repeat_interval_sec" (j_of_int (repeat_interval_sec r))
  (jset "threshold" (j_of_double (threshold r))
  (jset "op" (j_of_string (if greater_than r then ">" else "<"))
  (jset "metric" (j_of_string (metric_field r))
  (jset "target" (j_of_string (target r))
  (jset "check_type" (j_of_string (check_type r))
  (jset "agent_id" (j_of_string (agent_id r))
  (jset "name" (j_of_string (name r))
  (jset "id" (j_of_string (id r)) jnull)))))))))).

(** [ParseRule]: an exception of [value], an error, or the rule. *)
Definition ParseRule (r : J) : outcome (string + AlertRule) :=
  let! rid := Json.value_string r "id" "" in
  if is_empty rid then Returns (inl "rule missing required 'id'") else
  let! nm := Json.value_string r "name" rid in
  let! agent := Json.value_string r "agent_id" "" in
  let! ct := Json.value_string r "check_type" "" in
  let! tgt := Json.value_string r "target" "" in
  let! metric := Json.value_string r "metric" "" in
  let! sev := Json.value_string r "severity" "warning" in
  let! thr := Json.value_double r "threshold" Double.zero in
  let! rep := Json.value_int32 r "repeat_interval_sec" 300 in
  let! onf := Json.value_bool r "on_failure" false in
  let! op := Json.value_string r "op" ">" in
  if negb (String.eqb op ">") && negb (String.eqb op "<") then
    Returns (inl ("rule '" +:+ rid +:+ "' has invalid op '" +:+ op +:+ "' (expected '>' or '<')"))
  else if negb onf && is_empty metric then
    Returns (inl ("rule '" +:+ rid +:+ "' missing required 'metric' field"))
  else
    Returns (inr (mkRule rid nm agent ct tgt metric (String.eqb op ">") thr rep sev onf)).

(** The loop over [doc["rules"]]: stops at the first error. *)
Fixpoint ParseRules (l : list J) : outcome (string + list AlertRule) :=
  match l with
  | [] => Returns (inr [])
  | j :: l' =>
      let! r := ParseRule j in
      match r with
      | inl e => Returns (inl e)
      | inr rule =>
          let! rs := ParseRules l' in
          match rs with
          | inl e => Returns (inl e)
          | inr rules => Returns (inr (rule :: rules))
          end
      end
  end.

Definition notifiers_for (url : string) : list Notifier :=
  LogNotifier :: (if negb (is_empty url) && negb (String.eqb url "log")
                  then [WebhookNotifier url] else []).

Definition LoadRulesFromJson (json : string) (s : state) : outcome (state * option string) :=
  match jparse json with
  | inl what => Returns (s, Some ("JSON parse error: " +:+ what))
  | inr doc =>
      let! parsed :=
        match jlookup doc "rules" with
        | Some rs =>
            if jis_null rs then Returns (inr [])
            else if negb (jis_array rs) then Returns (inl "'rules' must be an array")
            else ParseRules (jelements rs)
        | None => Returns (inr [])
        end in
      match parsed with
      | inl e => Returns (s, Some e)
      | inr rules =>
          let! url := Json.value_string doc "webhook_url" "" in
          Returns (mkState rules ∅ (notifiers_for url) (m_history s)
                     (m_alerts_fired_total s) (m_rules_path s) url, None)
      end
  end.

(** [LoadRulesFromFile]: [None] contents is a file that cannot be opened. *)
Definition LoadRulesFromFile (path : string) (d : disk) (s : state) : outcome (state * option string) :=
  match contents d !! path with
  | None => Returns (s, Some ("cannot open rules file: " +:+ path))
  | Some text =>
      let! r := LoadRulesFromJson text s in
      match r with
      | (s', Some e) => Returns (s', Some e)
      | (s', None) =>
          Returns (mkState (m_rules s') (m_states s') (m_notifiers s') (m_history s')
                     (m_alerts_fired_total s') path (m_webhook_url s'), None)
      end
  end.

Definition rules_document (url : string) (rules : list AlertRule) : J :=
  jset "rules" (jarray (RuleToJson <$> rules)) (jset "webhook_url" (j_of_string url) jnull).

Definition WriteRulesFileLocked (rules : list AlertRule) (path : string) (s : state) (d : disk) :
    disk * option string :=
  if negb (opens d path) then (d, Some ("cannot write alert rules file: " +:+ path)) else
  let text := jdump2 (rules_document (m_webhook_url s) rules) +:+ chr nl in
  if writes d path then
    (mkDisk (<[path := text]> (contents d)) (opens d) (writes d) (torn d), None)
  else
    (mkDisk (<[path := torn d text]> (contents d)) (opens d) (writes d) (torn d),
     Some ("error writing alert rules file: " +:+ path)).

Definition set_rules (rules : list AlertRule) (s : state) : state :=
  mkState rules (m_states s) (m_notifiers s) (m_history s) (m_alerts_fired_total s)
    (m_rules_path s) (m_webhook_url s).

(** Replaces the first rule with the same id, else appends. *)
Fixpoint replace_rule (rule : AlertRule) (rules : list AlertRule) : list AlertRule :=
  match rules with
  | [] => [rule]
  | r :: rs => if String.eqb (id r) (id rule) then rule :: rs else r :: replace_rule rule rs
  end.

(** Persists [candidate] when a file backs the rules. *)
Definition persist (candidate : list AlertRule) (s : state) (d : disk) : disk * option string :=
  if is_empty (m_rules_path s) then (d, None)
  else WriteRulesFileLocked candidate (m_rules_path s) s d.

Definition UpsertRule (rule_json : string) (s : state) (d : disk) :
    outcome (state * disk * option string) :=
  match jparse rule_json with
  | inl what => Returns (s, d, Some ("invalid rule JSON: " +:+ what))
  | inr doc =>
      if negb (jis_object doc) then Returns (s, d, Some "rule must be a JSON object") else
      let! parsed := ParseRule doc in
      match parsed with
      | inl e => Returns (s, d, Some e)
      | inr rule =>
          let candidate := replace_rule rule (m_rules s) in
          match persist candidate s d with
          | (d', Some e) => Returns (s, d', Some e)
          | (d', None) => Returns (set_rules candidate s, d', None)
          end
      end
  end.

Definition DeleteRule (rule_id : string) (s : state) (d : disk) : state * disk * option string :=
  if is_empty rule_id then (s, d, Some "rule_id is required") else
  let candidate := filter (fun r => id r <> rule_id) (m_rules s) in
  if Nat.eqb (length candidate) (length (m_rules s)) then
    (s, d, Some ("no rule with id '" +:+ rule_id +:+ "'"))
  else
    match persist candidate s d with
    | (d', Some e) => (s, d', Some e)
    | (d', None) =>
        let prefix := rule_id +:+ chr unit_sep in
        (mkState candidate
           (filter (fun kv : string * FiringState => has_prefix prefix (fst kv) = false) (m_states s))
           (m_notifiers s) (m_history s) (m_alerts_fired_total s) (m_rules_path s)
           (m_webhook_url s), d', None)
    end.

Definition SaveRulesFile (s : state) (d : disk) : disk * option string :=
  if is_empty (m_rules_path s) then
    (d, Some "no alert rules file configured (--alert-rules-path unset)")
  else WriteRulesFileLocked (m_rules s) (m_rules_path s) s d.

Definition RulesJson (s : state) : string :=
  jdump (jset "rules" (jarray (RuleToJson <$> m_rules s)) jnull).

(** The texts of a rule. *)
Definition texts (r : AlertRule) : list string :=
  [id r; name r; agent_id r; check_type r; target r; metric_field r; severity r].
(** What [ParseRule] accepts and the rules file can hold: the texts in UTF-8,
    the threshold a number. *)
Definition valid_rule (r : AlertRule) : Prop :=
  id r <> "" /\ (on_failure r = true \/ metric_field r <> "") /\
  Int.in_int32 (repeat_interval_sec r) /\
  Forall (fun t => utf8 t = true) (texts r) /\ Double.is_finite (threshold r) = true.

Section Laws.
Context `{!JsonLaws J} `{!JsonTextLaws J}.

Lemma is_object_RuleToJson r : jis_object (RuleToJson r) = true.
Proof. unfold RuleToJson. repeat (apply jis_object_set; first [right; reflexivity | left]). Qed.

Ltac json_lookup :=
  repeat first [rewrite jlookup_set_eq | rewrite jlookup_set_ne by (intros [=])].

Lemma parse_RuleToJson r : valid_rule r -> ParseRule (RuleToJson r) = Returns (inr r).
Proof.
  intros (Hid & Hm & Hrep & _).
  pose proof (is_object_RuleToJson r) as Ho.
  unfold ParseRule, Json.value_string, Json.value_double, Json.value_int32, Json.value_bool.
  unfold Json.value_as. rewrite !Ho. unfold RuleToJson. json_lookup.
  rewrite !jget_string_of. cbn [obind].
  rewrite (proj2 (is_empty_false _) Hid), jget_double_of, jget_int32_of, jget_bool_of by done.
  cbn [obind].
  destruct r as [rid nm ag ct tgt mf gt thr rep sev onf]; simpl in *.
  destruct gt, onf; simpl; try done;
    (destruct Hm as [?|Hm]; [done|]); by rewrite (proj2 (is_empty_false _) Hm).
Qed.

Lemma ParseRules_map rules :
  Forall valid_rule rules -> ParseRules (RuleToJson <$> rules) = Returns (inr rules).
Proof.
  induction 1 as [|r rules Hr _ IH]; [done|].
  cbn [fmap list_fmap map ParseRules]. rewrite parse_RuleToJson by done. simpl.
  change (map RuleToJson rules) with (RuleToJson <$> rules). by rewrite IH.
Qed.

Lemma in_int32_int64 z : Int.in_int32 z -> Int.in_int64 z.
Proof. unfold Int.in_int32, Int.in_int64, Int.int32_min, Int.int32_max, Int.int64_min, Int.int64_max. lia. Qed.

Lemma printable_RuleToJson r : valid_rule r -> printable (RuleToJson r).
Proof.
  intros (_ & _ & Hrep & Ht & Hd). unfold texts in Ht. decompose_Forall. unfold RuleToJson. printable_object.
  all: first [by apply printable_string | by apply printable_int, in_int32_int64 | by apply printable_double | idtac].
  destruct (greater_than r); by apply printable_string.
Qed.
Lemma printable_rules rules : Forall valid_rule rules -> printable (jarray (RuleToJson <$> rules)).
Proof.
  intros Hv. apply printable_array, Forall_fmap. eapply Forall_impl; [exact Hv|]. apply printable_RuleToJson.
Qed.

(** Claim C40: rules survive a restart.  Take any rules [ParseRule] accepts (an
    identifier, a metric unless the rule is about failures, a repeat interval
    of 32 bits) whose texts are UTF-8 and whose thresholds are numbers, and a
    file that can be opened and written: writing them to the rules
    file and loading that file gives back exactly these rules, the webhook
    URL (UTF-8) and its notifiers, with the firing states reset. *)
Theorem save_then_load rules path s d s0 :
  Forall valid_rule rules -> utf8 (m_webhook_url s) = true -> opens d path = true -> writes d path = true ->
  exists d' s',
    WriteRulesFileLocked rules path s d = (d', None) /\
    LoadRulesFromFile path d' s0 = Returns (s', None) /\
    m_rules s' = rules /\ m_webhook_url s' = m_webhook_url s /\
    m_rules_path s' = path /\ m_states s' = ∅ /\
    m_notifiers s' = notifiers_for (m_webhook_url s).
Proof.
  intros Hv Hu Ho Hw. unfold WriteRulesFileLocked. rewrite Ho, Hw. cbn [negb].
  eexists _, _. split; [done|]. unfold LoadRulesFromFile. simpl. rewrite lookup_insert_eq.
  unfold LoadRulesFromJson. rewrite jparse_dump2
    by (unfold rules_document; printable_object; [by apply printable_rules|by apply printable_string]).
  unfold rules_document.
  rewrite jlookup_set_eq, jis_null_array, jis_array_array, jelements_array. cbn [negb].
  rewrite ParseRules_map by done. cbn [obind].
  unfold Json.value_string. rewrite Json.value_as_lookup with (v := j_of_string (m_webhook_url s)).
  - rewrite jget_string_of. simpl. done.
  - apply jis_object_set. left. apply jis_object_set. by right.
  - rewrite jlookup_set_ne by (intros [=]). apply jlookup_set_eq.
Qed.
End Laws.

Lemma replace_rule_ids rule rules :
  NoDup (id <$> rules) -> NoDup (id <$> replace_rule rule rules).
Proof.
  assert (Hin : forall rules x, x ∈ (id <$> replace_rule rule rules) ->
    x = id rule \/ x ∈ (id <$> rules)).
  { clear. induction rules as [|r rs IH]; simpl; intros x.
    - rewrite elem_of_cons, elem_of_nil. tauto.
    - destruct (String.eqb _ _); simpl; rewrite !elem_of_cons; [tauto|].
      intros [?|?%IH]; tauto. }
  induction rules as [|r rs IH]; simpl; intros Hnd.
  - apply NoDup_singleton.
  - apply NoDup_cons in Hnd as [H1 H2].
    destruct (String.eqb (id r) (id rule)) eqn:E; simpl; apply NoDup_cons; bool_hyps.
    + by rewrite <- E.
    + split; [|by apply IH]. intros [?|?]%Hin; [done|]. by apply H1.
Qed.

Lemma replace_rule_lookup rule rules : FindRule (replace_rule rule rules) (id rule) = Some rule.
Proof.
  unfold FindRule. induction rules as [|r rs IH]; simpl.
  - by rewrite decide_True.
  - destruct (String.eqb (id r) (id rule)) eqn:E; bool_hyps; simpl.
    + by rewrite decide_True.
    + rewrite decide_False by done. by destruct (list_find _ _) as [[]|].
Qed.

Lemma replace_rule_other rule rules rid :
  rid <> id rule -> FindRule (replace_rule rule rules) rid = FindRule rules rid.
Proof.
  intros Hne. unfold FindRule. induction rules as [|r rs IH]; simpl.
  - by rewrite decide_False.
  - destruct (String.eqb (id r) (id rule)) eqn:E; bool_hyps; simpl.
    + repeat case_decide; congruence.
    + destruct (decide (id r = rid)); [done|].
      by destruct (list_find _ rs) as [[]|], (list_find _ (replace_rule _ _)) as [[]|].
Qed.

(** The rules file mirrors the rules in memory. *)
Definition mirrors (s : state) (d : disk) : Prop :=
  m_rules_path s = "" \/
  contents d !! m_rules_path s =
    Some (jdump2 (rules_document (m_webhook_url s) (m_rules s)) +:+ chr nl).

Lemma persist_ok candidate s d d' :
  persist candidate s d = (d', None) -> mirrors (set_rules candidate s) d'.
Proof.
  unfold persist, mirrors. destruct (is_empty (m_rules_path s)) eqn:E; bool_hyps; [auto|].
  unfold WriteRulesFileLocked. destruct (opens d _), (writes d _); simpl; try done.
  intros [= <-]. right. simpl. apply lookup_insert_eq.
Qed.

(** [UpsertRule] leaves the manager unchanged on every error; on
    success the parsed rule is the one found under its id, every other id is
    found as before, unique ids stay unique, firing states are kept, and the
    rules file (when there is one) mirrors the rules in memory. *)
Theorem UpsertRule_spec json s d s' d' err :
  UpsertRule json s d = Returns (s', d', err) ->
  match err with
  | Some _ => s' = s
  | None =>
      exists doc rule,
        jparse json = inr doc /\ ParseRule doc = Returns (inr rule) /\
        FindRule (m_rules s') (id rule) = Some rule /\
        (forall rid, rid <> id rule -> FindRule (m_rules s') rid = FindRule (m_rules s) rid) /\
        (NoDup (id <$> m_rules s) -> NoDup (id <$> m_rules s')) /\
        m_states s' = m_states s /\ mirrors s' d'
  end.
Proof.
  unfold UpsertRule. destruct (jparse json) as [what|doc]; [by intros [= <- <- <-]|].
  destruct (jis_object doc); simpl; [|by intros [= <- <- <-]].
  destruct (ParseRule doc) as [[e|rule]|w] eqn:Ep; simpl; [by intros [= <- <- <-]| |done].
  destruct (persist _ s d) as [d1 [e|]] eqn:Eper; [by intros [= <- <- <-]|].
  intros [= <- <- <-]. exists doc, rule. simpl.
  split_and!; eauto using replace_rule_lookup, replace_rule_other, replace_rule_ids, persist_ok.
Qed.

Lemma has_prefix_StateKey rid r agent t :
  sep_free rid -> sep_free r ->
  has_prefix (rid +:+ chr unit_sep) (StateKey r agent t) = bool_decide (r = rid).
Proof.
  intros H1 H2. unfold has_prefix, StateKey. case_bool_decide as E.
  - subst r. rewrite <- sapp_assoc. apply sprefix_app.
  - apply not_true_is_false. intros [u Hu]%sprefix_spec. apply E.
    rewrite sapp_assoc in Hu. simpl in Hu. by apply sep_inj in Hu as [-> _].
Qed.

(** [DeleteRule] leaves the manager unchanged on every error; on
    success the rule existed and is gone, all its firing and acknowledgement
    state is forgotten, the states of all other rules are kept, and the rules
    file mirrors the remaining rules. *)
Theorem DeleteRule_spec rid s d s' d' err :
  sep_free rid ->
  DeleteRule rid s d = (s', d', err) ->
  match err with
  | Some _ => s' = s
  | None =>
      FindRule (m_rules s') rid = None /\
      (exists r, r ∈ m_rules s /\ id r = rid) /\
      (forall agent t, m_states s' !! StateKey rid agent t = None) /\
      (forall r agent t, sep_free r -> r <> rid ->
         m_states s' !! StateKey r agent t = m_states s !! StateKey r agent t) /\
      mirrors s' d'
  end.
Proof.
  intros Hsep. unfold DeleteRule. destruct (is_empty rid); [by intros [= <- <- <-]|].
  destruct (Nat.eqb _ _) eqn:El; [by intros [= <- <- <-]|].
  destruct (persist _ s d) as [d1 [e|]] eqn:Eper; [by intros [= <- <- <-]|].
  intros [= <- <- <-]. simpl. split_and!.
  - unfold FindRule. destruct (list_find _ _) as [[i r]|] eqn:E; [|done].
    apply list_find_Some in E as (Hi & Hid & _).
    by apply list_elem_of_lookup_2, list_elem_of_filter in Hi as [? _].
  - destruct (decide (Exists (fun r => id r = rid) (m_rules s))) as [Hex|Hn].
    + apply Exists_exists in Hex as (r & Hr & E). eauto.
    + exfalso. apply Nat.eqb_neq in El. apply El. f_equal.
      apply Lists.filter_all. intros r Hr E. apply Hn, Exists_exists. eauto.
  - intros agent t. apply map_lookup_filter_None. right. simpl. intros st _.
    by rewrite has_prefix_StateKey, bool_decide_true.
  - intros r agent t Hr Hne. apply option_eq. intros st.
    rewrite map_lookup_filter_Some. simpl.
    rewrite has_prefix_StateKey, bool_decide_false by done. tauto.
  - by apply (persist_ok _ s d).
Qed.
End Rules.


(** *** JSON views *)

Definition ToJson (r : AlertRecord) : string :=
  "{" +:+ dq +:+ "rule_id" +:+ dq +:+ ":" +:+ dq +:+ Text.EscapeJson (rec_rule_id r) +:+ dq +:+ ","
  +:+ dq +:+ "rule_name" +:+ dq +:+ ":" +:+ dq +:+ Text.EscapeJson (rec_rule_name r) +:+ dq +:+ ","
  +:+ dq +:+ "agent_id" +:+ dq +:+ ":" +:+ dq +:+ Text.EscapeJson (rec_agent_id r) +:+ dq +:+ ","
  +:+ dq +:+ "check_type" +:+ dq +:+ ":" +:+ dq +:+ Text.EscapeJson (rec_check_type r) +:+ dq +:+ ","
  +:+ dq +:+ "target" +:+ dq +:+ ":" +:+ dq +:+ Text.EscapeJson (rec_target r) +:+ dq +:+ ","
  +:+ dq +:+ "severity" +:+ dq +:+ ":" +:+ dq +:+ Text.EscapeJson (rec_severity r) +:+ dq +:+ ","
  +:+ dq +:+ "status" +:+ dq +:+ ":" +:+ dq +:+ Text.EscapeJson (rec_status r) +:+ dq +:+ ","
  +:+ dq +:+ "value" +:+ dq +:+ ":" +:+ Text.FormatDouble (rec_value r) +:+ ","
  +:+ dq +:+ "threshold" +:+ dq +:+ ":" +:+ Text.FormatDouble (rec_threshold r) +:+ ","
  +:+ dq +:+ "detail" +:+ dq +:+ ":" +:+ dq +:+ Text.EscapeJson (rec_detail r) +:+ dq +:+ ","
  +:+ dq +:+ "time_ms" +:+ dq +:+ ":" +:+ of_Z (rec_time_ms r)
  +:+ "}".

(** [WriteField] and [AlertNotification::ToJson] of [notifier.cpp]. *)
Definition WriteField (nm v : string) (first : bool) : string :=
  (if first then "" else ",") +:+ dq +:+ nm +:+ dq +:+ ":" +:+ dq +:+ Text.EscapeJson v +:+ dq.

Definition NotificationToJson (n : AlertNotification) : string :=
  "{" +:+ WriteField "rule_id" (n_rule_id n) true
  +:+ WriteField "rule_name" (n_rule_name n) false
  +:+ WriteField "severity" (n_severity n) false
  +:+ WriteField "agent_id" (n_agent_id n) false
  +:+ WriteField "check_type" (n_check_type n) false
  +:+ WriteField "target" (n_target n) false
  +:+ WriteField "status" (n_status n) false
  +:+ WriteField "detail" (n_detail n) false
  +:+ "," +:+ dq +:+ "value" +:+ dq +:+ ":" +:+ Text.FormatDouble (n_value n)
  +:+ "," +:+ dq +:+ "threshold" +:+ dq +:+ ":" +:+ Text.FormatDouble (n_threshold n)
  +:+ "," +:+ dq +:+ "time_ms" +:+ dq +:+ ":" +:+ of_Z (n_time_ms n)
  +:+ "}".

(** [AlertHistoryJson]: at most [max_events] records, newest first. *)
Definition AlertHistoryJson (max_events : nat) (s : state) : string :=
  "[" +:+ sjoin "," (ToJson <$> take max_events (reverse (m_history s))) +:+ "]".

(** The key split of [ActiveAlertsJson]; positions wrap as [size_t] does
    when a separator is missing, which [None] stands for. *)
Definition split_key (key : string) : option (string * string * string) :=
  match sfind unit_sep key with
  | Some sep1 =>
      match sfind_from unit_sep key (S sep1) with
      | Some sep2 =>
          Some (stake sep1 key, substr key (S sep1) (sep2 - sep1 - 1), sdrop (S sep2) key)
      | None => None
      end
  | None => None
  end.

Definition active_alert_json (rules : list AlertRule) (rule_id agent target : string)
    (st : FiringState) : string :=
  let rule := FindRule rules rule_id in
  "{" +:+ dq +:+ "rule_id" +:+ dq +:+ ":" +:+ dq +:+ Text.EscapeJson rule_id +:+ dq +:+ ","
  +:+ dq +:+ "rule_name" +:+ dq +:+ ":" +:+ dq
    +:+ Text.EscapeJson (match rule with Some r => name r | None => rule_id end) +:+ dq +:+ ","
  +:+ dq +:+ "severity" +:+ dq +:+ ":" +:+ dq
    +:+ Text.EscapeJson (match rule with Some r => severity r | None => "unknown" end) +:+ dq +:+ ","
  +:+ dq +:+ "agent_id" +:+ dq +:+ ":" +:+ dq +:+ Text.EscapeJson agent +:+ dq +:+ ","
  +:+ dq +:+ "target" +:+ dq +:+ ":" +:+ dq +:+ Text.EscapeJson target +:+ dq +:+ ","
  +:+ dq +:+ "value" +:+ dq +:+ ":" +:+ Text.FormatDouble (last_value st) +:+ ","
  +:+ dq +:+ "threshold" +:+ dq +:+ ":"
    +:+ (match rule with Some r => Text.FormatDouble (threshold r) | None => "0" end) +:+ ","
  +:+ dq +:+ "acknowledged" +:+ dq +:+ ":" +:+ of_bool (acknowledged st) +:+ ","
  +:+ dq +:+ "fired_ms" +:+ dq +:+ ":" +:+ of_Z (first_fired_ms st)
  +:+ "}".

(** [ActiveAlertsJson], iterating over [m_states] in the order [entries]. *)
Definition ActiveAlertsJson (entries : list (string * FiringState)) (s : state) : string :=
  let item (e : string * FiringState) :=
    if firing (snd e) then
      match split_key (fst e) with
      | Some (rid, agent, tgt) => Some (active_alert_json (m_rules s) rid agent tgt (snd e))
      | None => None
      end
    else None in
  "[" +:+ sjoin "," (omap item entries) +:+ "]".

Lemma split_StateKey rid agent t :
  sep_free rid -> sep_free agent -> split_key (StateKey rid agent t) = Some (rid, agent, t).
Proof.
  intros H1 H2. unfold split_key, StateKey. simpl.
  rewrite sfind_app_sep by done. unfold sfind_from. rewrite sdrop_S_app, sfind_app_sep by done.
  simpl. rewrite stake_app. f_equal. f_equal; [f_equal|].
  - unfold substr. rewrite sdrop_S_app.
    match goal with |- stake ?n _ = _ => replace n with (String.length agent) by lia end.
    apply stake_app.
  - change (rid +:+ String unit_sep (agent +:+ String unit_sep t))
      with (rid +:+ (String unit_sep agent +:+ String unit_sep t)).
    rewrite <- sapp_assoc. etransitivity; [|apply (sdrop_S_app (rid +:+ String unit_sep agent))].
    f_equal. rewrite slength_app. cbn [String.length]. lia.
Qed.

(** *** Concrete inputs *)
Module Demo.
Definition rule1 : AlertRule :=
  mkRule "r1" "High latency" "" "tcp_connect" "" "latency_ms" true (Double.of_Z 100) 300
    "critical" false.
Definition metric (t : string) (v : Z) : Metric :=
  mkMetric CHECK_TYPE_TCP_CONNECT t true "" (kLatencyMs (Double.of_Z v)) None ∅ 0 0.
Definition manager : state := mkState [rule1] ∅ [LogNotifier] [] 0 "rules.json" "".
Definition fired : state := fst (Evaluate_locked 1000 "a1" [metric "h:1" 150] manager).
Definition disk1 : disk := mkDisk ∅ (fun _ => true) (fun _ => true) (fun s => s).

Lemma rule1_ids : NoDup (id <$> m_rules manager).
Proof. apply NoDup_singleton. Defined.
Lemma rule1_sep : forall r, r ∈ m_rules manager -> sep_free (id r).
Proof. intros r Hr. apply list_elem_of_singleton in Hr as ->. reflexivity. Defined.
Lemma rule1_in : rule1 ∈ m_rules manager.
Proof. left. Defined.
Lemma rule1_valid : Forall valid_rule [rule1].
Proof.
  repeat constructor; simpl; try (intros [=]); try (by right; intros [=]);
    unfold Int.int32_min, Int.int32_max; lia.
Defined.
End Demo.
Import Demo.


Lemma evaluations_disciplined_witness :
  Alarm.disciplined 300000 None
    (events_of "r1" "h:1"
      (snd (evaluations "a1" [(1000%Z, [metric "h:1" 150]); (2000%Z, [metric "h:1" 160]);
                              (400000%Z, [metric "h:1" 170])] manager))) /\
  length (snd (evaluations "a1" [(1000%Z, [metric "h:1" 150]); (2000%Z, [metric "h:1" 160]);
                              (400000%Z, [metric "h:1" 170])] manager)) = 2.
Proof.
  split; [|vm_compute; reflexivity].
  exact (evaluations_disciplined "a1" _ manager rule1 "h:1" rule1_ids rule1_sep rule1_in eq_refl).
Defined.

Lemma Evaluate_records_witness :
  exists recs, m_history fired = Lists.last_n kMaxHistory ([] ++ recs) /\
    snd (Evaluate_locked 1000 "a1" [metric "h:1" 150] manager) = MakeNotification <$> recs /\
    m_alerts_fired_total fired = Int.u64 (0 + firing_count recs) /\ history_ok (m_history fired).
Proof.
  refine (Evaluate_records 1000 "a1" [metric "h:1" 150] manager _ _).
  - vm_compute. apply le_0_n.
  - split; [discriminate|reflexivity].
Defined.

Lemma save_then_load_witness :
  exists d' s',
    WriteRulesFileLocked (J := Reference.jval) [rule1] "rules.json" manager disk1 = (d', None) /\
    LoadRulesFromFile (J := Reference.jval) "rules.json" d' init = Returns (s', None) /\
    m_rules s' = [rule1] /\ m_webhook_url s' = "" /\ m_rules_path s' = "rules.json" /\
    m_states s' = ∅ /\ m_notifiers s' = notifiers_for "".
Proof. exact (save_then_load [rule1] "rules.json" manager disk1 init rule1_valid eq_refl eq_refl eq_refl). Defined.

Lemma UpsertRule_spec_witness :
  exists s' d',
    UpsertRule (J := Reference.jval) (jdump (RuleToJson rule1)) manager disk1 = Returns (s', d', None) /\
    exists doc rule,
      jparse (J := Reference.jval) (jdump (RuleToJson rule1)) = inr doc /\
      ParseRule doc = Returns (inr rule) /\
      FindRule (m_rules s') (id rule) = Some rule /\
      (forall rid, rid <> id rule -> FindRule (m_rules s') rid = FindRule (m_rules manager) rid) /\
      (NoDup (id <$> m_rules manager) -> NoDup (id <$> m_rules s')) /\
      m_states s' = m_states manager /\ mirrors (J := Reference.jval) s' d'.
Proof.
  eexists _, _. split; [vm_compute; reflexivity|].
  refine (UpsertRule_spec (J := Reference.jval) (jdump (RuleToJson rule1)) manager disk1 _ _ None _).
  vm_compute. reflexivity.
Defined.

Lemma DeleteRule_spec_witness :
  FindRule (m_rules (fst (fst (DeleteRule (J := Reference.jval) "r1" fired disk1)))) "r1" = None /\
  is_Some (m_states fired !! StateKey "r1" "a1" "h:1").
Proof.
  split; [|vm_compute; eauto].
  exact (proj1 (DeleteRule_spec (J := Reference.jval) "r1" fired disk1 _ _ None eq_refl eq_refl)).
Defined.
End AlertManager.
