(* ===== verification/AgentRegistry.v ===== *)
(** * AgentRegistry: the agents the collector knows from their heartbeats

    [AgentEndpoint] models [collector/src/agent_endpoint.cpp], [AgentRegistry]
    models [agent_registry.cpp] and [AgentService] models [agent_service.cpp].
    The abstract specification of the registry is its history of heartbeats and
    removals ([event], [session]), from which every answer can be read off. *)
From stdpp Require Import base gmap strings list.
From Stdlib Require Import ZArith Lia Ascii.
From S2P Require Import Prelude Double Proto Text.
Import Str.
#[local] Open Scope string_scope.
#[local] Open Scope list_scope.

Module AgentEndpoint.
Definition kDefaultAgentDiagnosticPort : string := "50052".

(** The scheme handling: [None] is the early [return ""] for unix peers. *)
Definition strip_scheme (peer : string) : option string :=
  match sfind ":"%char peer with
  | Some scheme_end =>
      let scheme := stake scheme_end peer in
      if String.eqb scheme "unix" || String.eqb scheme "unix-abstract" then None
      else if String.eqb scheme "ipv4" || String.eqb scheme "ipv6" then
        Some (sdrop (S scheme_end) peer)
      else Some peer
  | None => Some peer
  end.

(** The bracketed branch: inl is an early return, inr the host kept. *)
Definition bracketed_host (hostport port : string) : string + string :=
  match sfind "]"%char hostport with
  | None => inl ""
  | Some close =>
      let host := stake (S close) hostport in
      let inner := substr host 1 (String.length host - 2) in
      let lower := to_lower inner in
      if has_prefix "fe80:" lower then inl ""
      else if has_prefix "::ffff:" lower then
        let v4 := sdrop 7 inner in
        if match sfind "."%char v4 with Some _ => true | None => false end
        then inl (v4 +:+ ":" +:+ port)
        else inr host
      else inr host
  end.

Definition plain_host (hostport : string) : string :=
  match srfind ":"%char hostport with
  | Some sep => stake sep hostport
  | None => hostport
  end.

Definition DiagnosticEndpointFromPeer (peer port : string) : string :=
  match strip_scheme peer with
  | None => ""
  | Some hostport =>
      match hostport with
      | EmptyString => ""
      | String c _ =>
          let r := if Ascii.eqb c "["%char then bracketed_host hostport port
                   else inr (plain_host hostport) in
          match r with
          | inl result => result
          | inr host =>
              if is_empty host || String.eqb host "0.0.0.0" || String.eqb host "[::]" then ""
              else host +:+ ":" +:+ port
          end
      end
  end.

(** What the documented peer forms map to. *)
Definition hosted (host port : string) : string :=
  if is_empty host || String.eqb host "0.0.0.0" || String.eqb host "[::]" then ""
  else host +:+ ":" +:+ port.

Definition endpoint_of_ipv6 (addr port : string) : string :=
  if has_prefix "fe80:" (to_lower addr) then ""
  else if has_prefix "::ffff:" (to_lower addr) && has_char "."%char (sdrop 7 addr) then
    sdrop 7 addr +:+ ":" +:+ port
  else hosted ("[" +:+ addr +:+ "]") port.

Lemma find_is_has_char c s :
  match sfind c s with Some _ => true | None => false end = has_char c s.
Proof.
  destruct (sfind c s) as [i|] eqn:E.
  - apply sfind_Some in E as [_ ->]. rewrite has_char_app, has_char_cons, Ascii.eqb_refl.
    by rewrite orb_true_r.
  - by rewrite sfind_None.
Qed.

Lemma strip_ipv4 x : strip_scheme ("ipv4:" +:+ x) = Some x.
Proof. reflexivity. Qed.
Lemma strip_ipv6 x : strip_scheme ("ipv6:" +:+ x) = Some x.
Proof. reflexivity. Qed.
Lemma strip_unix x : strip_scheme ("unix:" +:+ x) = None.
Proof. reflexivity. Qed.

Lemma bracketed_parts addr rest :
  has_char "]"%char addr = false ->
  sfind "]"%char ("[" +:+ addr +:+ "]" +:+ rest) = Some (S (String.length addr)) /\
  stake (S (S (String.length addr))) ("[" +:+ addr +:+ "]" +:+ rest) = "[" +:+ addr +:+ "]".
Proof.
  intros H. split.
  - change (S <$> sfind "]"%char (addr +:+ String "]"%char rest) = Some (S (String.length addr))).
    by rewrite sfind_app_sep.
  - rewrite <- !sapp_assoc. rewrite <- (stake_app (("[" +:+ addr) +:+ "]") rest) at 2.
    f_equal. rewrite !slength_app. simpl. lia.
Qed.

Lemma bracketed_inner addr :
  substr ("[" +:+ addr +:+ "]") 1 (String.length ("[" +:+ addr +:+ "]") - 2) = addr.
Proof.
  unfold substr. change (sdrop 1 ("[" +:+ addr +:+ "]")) with (addr +:+ "]").
  rewrite !slength_app. cbn [String.length].
  match goal with |- stake ?n _ = _ => replace n with (String.length addr) by lia end.
  apply stake_app.
Qed.

(** What every documented form of gRPC peer address gives: the
    IPv4 or host name with the diagnostic port, the bracketed IPv6 address,
    the IPv4 address inside a mapped IPv6 one, and nothing for unix peers,
    link-local addresses (in either case) and wildcards. *)
Theorem DiagnosticEndpointFromPeer_forms (host addr p port rest : string) :
  has_char ":"%char p = false ->
  has_prefix "[" host = false ->
  has_char "]"%char addr = false ->
  (host +:+ p <> "" -> DiagnosticEndpointFromPeer ("ipv4:" +:+ host +:+ ":" +:+ p) port = hosted host port) /\
  DiagnosticEndpointFromPeer ("ipv6:[" +:+ addr +:+ "]:" +:+ p) port = endpoint_of_ipv6 addr port /\
  DiagnosticEndpointFromPeer ("unix:" +:+ rest) port = "".
Proof.
  intros Hp Hh Ha. split_and!; [..|reflexivity].
  - intros _. unfold DiagnosticEndpointFromPeer. rewrite strip_ipv4.
    assert (plain_host (host +:+ String ":"%char p) = host) as Hplain.
    { unfold plain_host. rewrite srfind_app_sep by done. apply stake_app. }
    change (":" +:+ p) with (String ":"%char p). unfold hosted.
    destruct (host +:+ String ":"%char p) as [|c r] eqn:E; [by destruct host|].
    assert (Ascii.eqb c "["%char = false) as ->; [|by rewrite Hplain].
    destruct host as [|c' host]; injection E as <- <-; [done|].
    destruct (Ascii.eqb_spec c' "["%char) as [->|]; [|done]. simpl in Hh. by destruct host.
  - unfold DiagnosticEndpointFromPeer.
    change ("ipv6:[" +:+ addr +:+ "]:" +:+ p) with ("ipv6:" +:+ ("[" +:+ addr +:+ "]" +:+ (":" +:+ p))).
    rewrite strip_ipv6.
    destruct (bracketed_parts addr (":" +:+ p) Ha) as [E1 E2].
    assert (Hb : bracketed_host ("[" +:+ addr +:+ "]" +:+ (":" +:+ p)) port =
      if has_prefix "fe80:" (to_lower addr) then inl ""
      else if has_prefix "::ffff:" (to_lower addr) && has_char "."%char (sdrop 7 addr)
      then inl (sdrop 7 addr +:+ ":" +:+ port) else inr ("[" +:+ addr +:+ "]")).
    { unfold bracketed_host. rewrite E1, E2. cbv zeta.
      rewrite bracketed_inner, find_is_has_char.
      destruct (has_prefix "fe80:" _); [done|]. by destruct (has_prefix "::ffff:" _). }
    change (("[" +:+ addr +:+ "]" +:+ (":" +:+ p))) with (String "["%char (addr +:+ "]" +:+ (":" +:+ p))) in *.
    cbv iota beta zeta. rewrite Ascii.eqb_refl, Hb. unfold endpoint_of_ipv6, hosted.
    destruct (has_prefix "fe80:" _); [done|]. by destruct (has_prefix "::ffff:" _ && _).
Qed.

Lemma DiagnosticEndpointFromPeer_forms_witness :
  DiagnosticEndpointFromPeer "ipv4:10.0.0.5:54321" "50052" = "10.0.0.5:50052" /\
  DiagnosticEndpointFromPeer "ipv6:[::FFFF:10.0.0.5]:54321" "50052" = "10.0.0.5:50052" /\
  DiagnosticEndpointFromPeer "ipv6:[FE80::1]:54321" "50052" = "" /\
  DiagnosticEndpointFromPeer "ipv6:[2001:db8::1]:54321" "50052" = "[2001:db8::1]:50052".
Proof.
  pose proof (fun a => DiagnosticEndpointFromPeer_forms "10.0.0.5" a "54321" "50052" "/tmp/s"
    eq_refl eq_refl) as T.
  split_and!.
  - apply (T "" eq_refl). intros [=].
  - apply (T "::FFFF:10.0.0.5" eq_refl).
  - apply (T "FE80::1" eq_refl).
  - apply (T "2001:db8::1" eq_refl).
Defined.
End AgentEndpoint.

Module AgentRegistry.
#[local] Open Scope Z_scope.

Record AgentEntry : Type := mkEntry {
  agent_id : string;
  last_seen_unix_ms : Z;
  interval_ms : Z;
  version : string;
  first_seen_unix_ms : Z;
  diagnostic_endpoint : string;
}.

Record state : Type := mkState {
  m_agents : gmap string AgentEntry;
  m_heartbeat_count : Z;
}.
Definition empty : state := mkState ∅ 0.

Definition endpoint_or (req : HeartbeatRequest) (fallback_endpoint : string) : string :=
  if is_empty (hb_diagnostic_endpoint req) then fallback_endpoint
  else hb_diagnostic_endpoint req.

(** [RecordHeartbeat] at clock reading [now]. *)
Definition RecordHeartbeat (now : Z) (req : HeartbeatRequest) (fallback_endpoint : string)
    (s : state) : state :=
  let endpoint := endpoint_or req fallback_endpoint in
  let entry :=
    match m_agents s !! hb_agent_id req with
    | None => mkEntry (hb_agent_id req) now (hb_interval_ms req) (hb_version req) now endpoint
    | Some e => mkEntry (agent_id e) now (hb_interval_ms req) (hb_version req)
                  (first_seen_unix_ms e) endpoint
    end in
  mkState (<[hb_agent_id req := entry]> (m_agents s)) (Int.u64 (m_heartbeat_count s + 1)).

Definition fresh (now timeout_ms : Z) (e : AgentEntry) : bool :=
  now - last_seen_unix_ms e <? timeout_ms.

Definition GetDiagnosticEndpoint (s : state) (id : string) : string :=
  match m_agents s !! id with Some e => diagnostic_endpoint e | None => "" end.

Definition IsAgentAlive (now : Z) (s : state) (id : string) (timeout_ms : Z) : bool :=
  match m_agents s !! id with Some e => fresh now timeout_ms e | None => false end.

Definition TotalAgentCount (s : state) : nat := size (m_agents s).

Definition RemoveAgent (id : string) (s : state) : bool * state :=
  match m_agents s !! id with
  | None => (false, s)
  | Some _ => (true, mkState (delete id (m_agents s)) (m_heartbeat_count s))
  end.

Definition HeartbeatCount (s : state) : Z := m_heartbeat_count s.

(** [iter] is the order in which the [unordered_map] is traversed. *)
Section Iteration.
Variable iter : gmap string AgentEntry -> list (string * AgentEntry).
Hypothesis iter_ok : forall m, Lists.iteration_of m (iter m).

Fixpoint count_active (now timeout_ms : Z) (l : list (string * AgentEntry)) (count : nat) : nat :=
  match l with
  | [] => count
  | (_, e) :: l' => count_active now timeout_ms l' (if fresh now timeout_ms e then S count else count)
  end.

Definition ActiveAgentCount (now : Z) (s : state) (timeout_ms : Z) : nat :=
  count_active now timeout_ms (iter (m_agents s)) 0.

Definition agent_json (now : Z) (e : AgentEntry) : string :=
  "{" +:+ dq +:+ "agent_id" +:+ dq +:+ ":" +:+ dq +:+ Text.escape (agent_id e) +:+ dq +:+ ","
  +:+ dq +:+ "last_seen_unix_ms" +:+ dq +:+ ":" +:+ of_Z (last_seen_unix_ms e) +:+ ","
  +:+ dq +:+ "interval_ms" +:+ dq +:+ ":" +:+ of_Z (interval_ms e) +:+ ","
  +:+ dq +:+ "version" +:+ dq +:+ ":" +:+ dq +:+ Text.escape (version e) +:+ dq +:+ ","
  +:+ dq +:+ "diagnostic_endpoint" +:+ dq +:+ ":" +:+ dq
      +:+ Text.escape (diagnostic_endpoint e) +:+ dq +:+ ","
  +:+ dq +:+ "first_seen_unix_ms" +:+ dq +:+ ":" +:+ of_Z (first_seen_unix_ms e) +:+ ","
  +:+ dq +:+ "alive" +:+ dq +:+ ":" +:+ of_bool (fresh now 30000 e) +:+ "}".

Definition DumpAgents (now : Z) (s : state) : string :=
  sep_loop "," true ("{" +:+ dq +:+ "agents" +:+ dq +:+ ":[")
    (map (fun p => agent_json now (snd p)) (iter (m_agents s))) +:+ "]}".

(** *** The history of the registry and what it promises *)

Inductive event : Type :=
  | Beat (now : Z) (req : HeartbeatRequest) (fallback : string)
  | Removal (id : string).

Definition step (s : state) (e : event) : state :=
  match e with
  | Beat now req fb => RecordHeartbeat now req fb s
  | Removal id => snd (RemoveAgent id s)
  end.
Definition run (h : list event) : state := fold_left step h empty.

(** The heartbeats of [id] since its last removal, oldest first. *)
Definition session_step (id : string) (acc : list (Z * HeartbeatRequest * string)) (e : event) :=
  match e with
  | Beat now req fb => if decide (hb_agent_id req = id) then acc ++ [(now, req, fb)] else acc
  | Removal id' => if decide (id' = id) then [] else acc
  end.
Definition session (id : string) (h : list event) : list (Z * HeartbeatRequest * string) :=
  fold_left (session_step id) h [].

(** The entry a session stands for: first and last heartbeat. *)
Definition entry_of (id : string) (l : list (Z * HeartbeatRequest * string)) : option AgentEntry :=
  match head l, last l with
  | Some (t0, _, _), Some (t, req, fb) =>
      Some (mkEntry id t (hb_interval_ms req) (hb_version req) t0 (endpoint_or req fb))
  | _, _ => None
  end.

Definition is_beat (e : event) : bool := match e with Beat _ _ _ => true | Removal _ => false end.
Definition beats (h : list event) : nat := length (filter (fun e => is_beat e = true) h).

Lemma entry_of_snoc id l t req fb :
  entry_of id (l ++ [(t, req, fb)]) =
  Some (mkEntry id t (hb_interval_ms req) (hb_version req)
          (match entry_of id l with Some e => first_seen_unix_ms e | None => t end)
          (endpoint_or req fb)).
Proof.
  unfold entry_of. rewrite last_snoc. destruct l as [|[[t0 r0] f0] l]; [done|]. simpl.
  destruct (last _) as [[[]]|] eqn:E; [done|].
  apply last_None in E. done.
Qed.

Lemma entry_of_id id l e : entry_of id l = Some e -> agent_id e = id.
Proof.
  unfold entry_of. destruct (head l) as [[[]]|]; [|done]. destruct (last l) as [[[]]|]; [|done].
  by intros [= <-].
Qed.

Lemma RemoveAgent_lookup id s i :
  m_agents (snd (RemoveAgent id s)) !! i = if decide (id = i) then None else m_agents s !! i.
Proof.
  unfold RemoveAgent. destruct (m_agents s !! id) eqn:E; simpl; case_decide; subst.
  - apply lookup_delete_eq.
  - by rewrite lookup_delete_ne.
  - done.
  - done.
Qed.

Lemma run_snoc h e : run (h ++ [e]) = step (run h) e.
Proof. unfold run. by rewrite fold_left_app. Qed.
Lemma session_snoc id h e : session id (h ++ [e]) = session_step id (session id h) e.
Proof. unfold session. by rewrite fold_left_app. Qed.

Lemma run_lookup h id : m_agents (run h) !! id = entry_of id (session id h).
Proof.
  induction h as [|e h IH] using rev_ind; [done|].
  rewrite run_snoc, session_snoc. destruct e as [now req fb|id']; simpl.
  - case_decide as D; [subst id|by rewrite lookup_insert_ne].
    rewrite lookup_insert_eq, entry_of_snoc, IH. f_equal.
    destruct (entry_of _ _) as [e|] eqn:E; [|done].
    by rewrite (entry_of_id _ _ _ E).
  - rewrite RemoveAgent_lookup. by case_decide.
Qed.

Lemma run_count h : m_heartbeat_count (run h) = Int.u64 (Z.of_nat (beats h)).
Proof.
  unfold beats. induction h as [|e h IH] using rev_ind; [done|].
  rewrite run_snoc, filter_app. destruct e as [now req fb|id']; simpl.
  - rewrite filter_cons_True, filter_nil by done. rewrite length_app. cbn [length]. rewrite IH.
    unfold Int.u64. rewrite Zplus_mod_idemp_l. f_equal. lia.
  - rewrite filter_cons_False, filter_nil, app_nil_r by done. rewrite <- IH.
    unfold RemoveAgent. by destruct (m_agents _ !! _).
Qed.

Lemma count_active_filter now timeout l c :
  count_active now timeout l c =
  (c + length (filter (fun p => fresh now timeout (snd p) = true) l))%nat.
Proof.
  revert c. induction l as [|[i e] l IH]; intros c; simpl; [lia|]. rewrite IH.
  destruct (fresh now timeout e) eqn:E.
  - rewrite filter_cons_True by done. simpl. lia.
  - rewrite filter_cons_False by (simpl; congruence). done.
Qed.

(** Claim C29: the registry is a faithful summary of its history.  After any
    sequence of heartbeats and removals, each agent's entry is read off its
    heartbeats since its last removal: the first one gives first_seen, the
    last one everything else (with the peer address only where the agent
    advertised none); the counter counts every heartbeat modulo 2^64. *)
Theorem run_refines_history (h : list event) (id : string) :
  m_agents (run h) !! id = entry_of id (session id h) /\
  HeartbeatCount (run h) = Int.u64 (Z.of_nat (beats h)) /\
  GetDiagnosticEndpoint (run h) id =
    match last (session id h) with Some (_, req, fb) => endpoint_or req fb | None => "" end /\
  (forall now timeout_ms,
     IsAgentAlive now (run h) id timeout_ms = true <->
     exists t req fb, last (session id h) = Some (t, req, fb) /\ now - t < timeout_ms).
Proof.
  unfold GetDiagnosticEndpoint, IsAgentAlive, HeartbeatCount. rewrite run_lookup, run_count.
  unfold entry_of. destruct (session id h) as [|[[t0 r0] f0] l]; simpl.
  - split_and!; [done..|]. intros. by split; [|intros (?&?&?&?&?)].
  - destruct (last _) as [[[t r] f]|] eqn:E; [|by apply last_None in E].
    split_and!; [done..|]. intros now timeout_ms. unfold fresh. simpl. rewrite Z.ltb_lt. split.
    + intros. by exists t, r, f.
    + by intros (?&?&?&[= <- <- <-]&?).
Qed.

(** The answers about the whole fleet agree with the answers about
    each agent, whatever order the hash table is traversed in: the number of
    active agents is the number of registered ids that are alive, and
    [DumpAgents] lists the entry of every registered id exactly once, its
    "alive" flag computed with the 30 s timeout. *)
Theorem fleet_queries (now timeout_ms : Z) (s : state) :
  (exists ids : list string,
     NoDup ids /\ (forall id, id ∈ ids <-> IsAgentAlive now s id timeout_ms = true) /\
     ActiveAgentCount now s timeout_ms = length ids) /\
  exists l : list (string * AgentEntry),
    NoDup l.*1 /\ (forall id e, (id, e) ∈ l <-> m_agents s !! id = Some e) /\
    length l = TotalAgentCount s /\
    DumpAgents now s =
      "{" +:+ dq +:+ "agents" +:+ dq +:+ ":[" +:+ sjoin "," (map (fun p => agent_json now (snd p)) l)
      +:+ "]}".
Proof.
  pose proof (iter_ok (m_agents s)) as Hp. unfold Lists.iteration_of in Hp. split.
  - exists (filter (fun p => fresh now timeout_ms (snd p) = true) (iter (m_agents s))).*1. split_and!.
    + eapply sublist_NoDup; [|apply fmap_sublist, sublist_filter].
      rewrite Hp. apply NoDup_fst_map_to_list.
    + intros id. rewrite list_elem_of_fmap. unfold IsAgentAlive. split.
      * intros [[i e] [-> [Hf Hin]%list_elem_of_filter]]. simpl in *.
        rewrite Hp in Hin. apply elem_of_map_to_list in Hin. by rewrite Hin.
      * intros H. destruct (m_agents s !! id) as [e|] eqn:E; [|done].
        exists (id, e). rewrite list_elem_of_filter, Hp, elem_of_map_to_list. done.
    + unfold ActiveAgentCount. by rewrite count_active_filter, length_fmap.
  - exists (iter (m_agents s)). split_and!.
    + rewrite Hp. apply NoDup_fst_map_to_list.
    + intros id e. rewrite Hp. apply elem_of_map_to_list.
    + rewrite Hp. unfold TotalAgentCount. by rewrite length_map_to_list.
    + unfold DumpAgents. rewrite sep_loop_join.
      destruct (iter _); [done|]. cbn [map]. by rewrite !sapp_assoc.
Qed.
End Iteration.

Definition demo_iter (m : gmap string AgentEntry) : list (string * AgentEntry) := map_to_list m.
Definition demo_beat (id ep : string) : HeartbeatRequest := mkHeartbeat id 0 10000 "1.0" ep.
Definition demo : state :=
  run [Beat 1000 (demo_beat "a" "") "10.0.0.1:50052"; Beat 9000 (demo_beat "b" "h:1") "x";
       Beat 5000 (demo_beat "c" "") ""; Removal "c"].

Lemma fleet_queries_witness :
  ActiveAgentCount demo_iter 35000 demo 30000 = 1%nat /\
  exists ids : list string,
    NoDup ids /\ (forall id, id ∈ ids <-> IsAgentAlive 35000 demo id 30000 = true) /\
    ActiveAgentCount demo_iter 35000 demo 30000 = length ids.
Proof.
  split; [vm_compute; reflexivity|].
  exact (proj1 (fleet_queries demo_iter (fun m => Permutation_refl _) 35000 30000 demo)).
Defined.
End AgentRegistry.

Module AgentService.
Import AgentRegistry.

(** [SendHeartbeat]: [peer] is [ctx->peer()], [None] for a null context. *)
Definition SendHeartbeat (now : Z) (peer : option string) (request : HeartbeatRequest) (s : state)
  : Status * HeartbeatResponse * state :=
  let fallback_endpoint :=
    if is_empty (hb_diagnostic_endpoint request) then
      match peer with
      | Some p => AgentEndpoint.DiagnosticEndpointFromPeer p AgentEndpoint.kDefaultAgentDiagnosticPort
      | None => ""
      end
    else "" in
  (Status_OK, mkHeartbeatResponse true now "ok", RecordHeartbeat now request fallback_endpoint s).

(** An acknowledged heartbeat makes its agent alive at once, leaves
    every other agent as it was, and decides where diagnostics are sent: to
    the advertised endpoint if there is one, else to the host the heartbeat
    came from on the default port.  A later heartbeat never changes
    first_seen. *)
Theorem SendHeartbeat_spec (now : Z) (peer : option string) (request : HeartbeatRequest) (s : state) :
  let '(status, response, s') := SendHeartbeat now peer request s in
  let id := hb_agent_id request in
  status = Status_OK /\ hr_ack response = true /\ hr_collector_time_unix_ms response = now /\
  (forall later timeout_ms, IsAgentAlive later s' id timeout_ms = (later - now <? timeout_ms)%Z) /\
  (forall id', id' <> id -> m_agents s' !! id' = m_agents s !! id') /\
  first_seen_unix_ms <$> m_agents s' !! id =
    Some (match m_agents s !! id with Some e => first_seen_unix_ms e | None => now end) /\
  GetDiagnosticEndpoint s' id =
    (if is_empty (hb_diagnostic_endpoint request) then
       match peer with
       | Some p => AgentEndpoint.DiagnosticEndpointFromPeer p AgentEndpoint.kDefaultAgentDiagnosticPort
       | None => ""
       end
     else hb_diagnostic_endpoint request).
Proof.
  unfold SendHeartbeat, RecordHeartbeat, IsAgentAlive, GetDiagnosticEndpoint, endpoint_or.
  cbn [m_agents]. split_and!; [done..| | | |].
  - intros. rewrite lookup_insert_eq. by destruct (m_agents s !! _).
  - intros id' H. by rewrite lookup_insert_ne.
  - rewrite lookup_insert_eq. by destruct (m_agents s !! _).
  - rewrite lookup_insert_eq.
    by destruct (m_agents s !! _), (is_empty (hb_diagnostic_endpoint request)).
Qed.
End AgentService.
