(* ===== verification/Schedules.v ===== *)
(** * Schedules: persisted command schedules and their run history

    [CommandSchedule] and [CommandRun] are the records of
    [collector/src/storage/timescale_storage.h].  [Tables] gives the meaning of
    the SQL statements that [timescale_storage.cpp] sends for the two tables
    [command_schedules] and [command_runs] (the text of the statements is in
    the file Storage); [Slots] is [NextSlot] of [command_scheduler.cpp].  A
    table is the list of its rows in creation order.  BIGINT arithmetic that
    leaves 64 bits, and a division by zero, make the whole statement fail. *)
From stdpp Require Import base gmap strings list sorting.
From Stdlib Require Import ZArith Lia.
From S2P Require Import Prelude.
Import Str.
#[local] Open Scope string_scope.
#[local] Open Scope list_scope.
#[local] Open Scope Z_scope.

Record CommandSchedule : Type := mkSchedule {
  s_id : string;
  s_label : string;
  s_agent_id : string;
  s_command_id : string;
  s_params_json : string;
  s_window_start_unix_ms : Z;
  s_window_end_unix_ms : Z;
  s_interval_sec : Z;
  s_next_run_unix_ms : Z;
  s_enabled : bool;
}.

Record CommandRun : Type := mkRun {
  run_id : Z;
  run_schedule_id : string;
  run_agent_id : string;
  run_command_id : string;
  scheduled_unix_ms : Z;
  started_unix_ms : Z;
  finished_unix_ms : Z;
  run_success : bool;
  has_result : bool;
  run_error : string;
  run_summary : string;
  fields_json : string;
  issues_json : string;
  run_detail : string;
}.

Definition set_next_run (t : Z) (s : CommandSchedule) : CommandSchedule :=
  mkSchedule (s_id s) (s_label s) (s_agent_id s) (s_command_id s) (s_params_json s)
    (s_window_start_unix_ms s) (s_window_end_unix_ms s) (s_interval_sec s) t (s_enabled s).
Definition set_enabled (b : bool) (s : CommandSchedule) : CommandSchedule :=
  mkSchedule (s_id s) (s_label s) (s_agent_id s) (s_command_id s) (s_params_json s)
    (s_window_start_unix_ms s) (s_window_end_unix_ms s) (s_interval_sec s)
    (s_next_run_unix_ms s) b.

Module Slots.
(** [NextSlot]: [/] of C++ truncates towards zero. *)
Definition NextSlot (window_start_ms interval_ms after_ms : Z) : Z :=
  if interval_ms <=? 0 then after_ms + 3600 * 1000
  else if after_ms <=? window_start_ms then window_start_ms + interval_ms
  else
    let elapsed := after_ms - window_start_ms in
    let k := Z.quot elapsed interval_ms in
    window_start_ms + (k + 1) * interval_ms.

(** The slots of a schedule: the interval boundaries after the window start. *)
Definition slot (window_start_ms interval_ms t : Z) : Prop :=
  exists k, 1 <= k /\ t = window_start_ms + k * interval_ms.

Lemma NextSlot_alt ws i a :
  0 < i -> NextSlot ws i a = ws + (Z.max 0 ((a - ws) / i) + 1) * i.
Proof.
  intros Hi. unfold NextSlot. rewrite (proj2 (Z.leb_gt i 0)) by lia.
  destruct (Z.leb_spec a ws) as [H|H].
  - destruct (decide (a = ws)) as [->|].
    + rewrite Z.sub_diag, Z.div_0_l by lia. lia.
    + assert ((a - ws) / i < 0) by (apply Z.div_lt_upper_bound; lia). lia.
  - rewrite Z.quot_div_nonneg by lia.
    assert (0 <= (a - ws) / i) by (apply Z.div_pos; lia). lia.
Qed.

Lemma NextSlot_slot ws i a : 0 < i -> slot ws i (NextSlot ws i a).
Proof.
  intros Hi. rewrite NextSlot_alt by done. exists (Z.max 0 ((a - ws) / i) + 1). lia.
Qed.

Lemma NextSlot_after ws i a : 0 < i -> a < NextSlot ws i a.
Proof.
  intros Hi. rewrite NextSlot_alt by done.
  pose proof (Z.mod_pos_bound (a - ws) i Hi) as B. pose proof (Z.div_mod (a - ws) i) as D. nia.
Qed.

Lemma NextSlot_least ws i a t : 0 < i -> slot ws i t -> a < t -> NextSlot ws i a <= t.
Proof.
  intros Hi [k [Hk ->]] Ha. rewrite NextSlot_alt by done.
  assert ((a - ws) / i < k) by (apply Z.div_lt_upper_bound; lia). nia.
Qed.

(** [NextSlot] is the cadence the schedule promises: for a positive
    interval it is the earliest boundary strictly after the given instant
    (none is skipped, none repeated, whatever the downtime), and it stays
    within 64 bits as long as one interval past the instant does. *)
Theorem NextSlot_is_next_boundary (ws i a : Z) :
  0 < i -> 0 <= ws -> 0 <= a -> Z.max ws a + i <= Int.int64_max ->
  slot ws i (NextSlot ws i a) /\ a < NextSlot ws i a /\
  (forall t, slot ws i t -> a < t -> NextSlot ws i a <= t) /\
  Int.in_int64 (NextSlot ws i a).
Proof.
  intros Hi Hws Ha Hmax.
  split_and!; auto using NextSlot_slot, NextSlot_after, NextSlot_least.
  pose proof (NextSlot_after ws i a Hi).
  assert (NextSlot ws i a <= Z.max ws a + i).
  { rewrite NextSlot_alt by done. pose proof (Z.mod_pos_bound (a - ws) i Hi).
    pose proof (Z.div_mod (a - ws) i). nia. }
  unfold Int.in_int64, Int.int64_min, Int.int64_max in *. lia.
Qed.

Lemma NextSlot_is_next_boundary_witness :
  NextSlot 1000 60000 150000 = 181000 /\ slot 1000 60000 (NextSlot 1000 60000 150000).
Proof.
  split; [reflexivity|].
  refine (proj1 (NextSlot_is_next_boundary 1000 60000 150000 _ _ _ _)); vm_compute; congruence.
Defined.
End Slots.

Module Tables.
(** UPDATE t SET f WHERE p: the affected row count and the new table. *)
Definition update_where {R} (p : R -> bool) (f : R -> R) (t : list R) : nat * list R :=
  (length (filter (fun r => p r = true) t), map (fun r => if p r then f r else r) t).
(** DELETE FROM t WHERE p. *)
Definition delete_where {R} (p : R -> bool) (t : list R) : nat * list R :=
  (length (filter (fun r => p r = true) t), filter (fun r => p r = false) t).

Definition kToleranceMs : Z := 2000.

(** *** command_schedules *)

Definition ListCommandSchedules (t : list CommandSchedule) : list CommandSchedule :=
  take 200 (rev t).

Definition due (now : Z) (s : CommandSchedule) : bool :=
  s_enabled s && (s_window_start_unix_ms s <=? now) && (now <=? s_window_end_unix_ms s) &&
  (now - kToleranceMs <=? s_next_run_unix_ms s) && (s_next_run_unix_ms s <=? now + kToleranceMs).

Definition run_order (a b : CommandSchedule) : Prop := s_next_run_unix_ms a <= s_next_run_unix_ms b.
#[global] Instance run_order_dec a b : Decision (run_order a b).
Proof. unfold run_order. apply _. Defined.

Definition ListDueCommandSchedules (now : Z) (t : list CommandSchedule) : list CommandSchedule :=
  take 20 (merge_sort run_order (filter (fun s => due now s = true) t)).

Definition stale (now : Z) (s : CommandSchedule) : bool :=
  s_enabled s && (s_window_start_unix_ms s <=? now - kToleranceMs) &&
  (now <=? s_window_end_unix_ms s) && (s_next_run_unix_ms s <? now - kToleranceMs).

Definition bigint (z : Z) : option Z := if Int.in_int64b z then Some z else None.

(** window_start + interval_sec * 1000 * (((now - window_start) /
    (interval_sec * 1000)) + 1), in BIGINT. *)
Definition rebase (now : Z) (s : CommandSchedule) : option CommandSchedule :=
  let ws := s_window_start_unix_ms s in
  interval ← bigint (s_interval_sec s * 1000);
  elapsed ← bigint (now - ws);
  k ← (if Z.eqb interval 0 then None else bigint (Z.quot elapsed interval));
  k1 ← bigint (k + 1);
  off ← bigint (interval * k1);
  next ← bigint (ws + off);
  Some (set_next_run next s).

(** One failing row makes the statement fail and leaves the table as it was. *)
Definition RescheduleStaleSchedules (now : Z) (t : list CommandSchedule) : list CommandSchedule :=
  match mapM (fun s => if stale now s then rebase now s else Some s) t with
  | Some t' => t'
  | None => t
  end.

Definition has_id (id : string) (s : CommandSchedule) : bool := String.eqb (s_id s) id.

(** A duplicate primary key is refused. *)
Definition CreateCommandSchedule (s : CommandSchedule) (t : list CommandSchedule)
    : bool * list CommandSchedule :=
  if existsb (has_id (s_id s)) t then (false, t) else (true, t ++ [s]).

Definition SetCommandScheduleEnabled (id : string) (enabled : bool) (t : list CommandSchedule)
    : bool * list CommandSchedule :=
  let '(n, t') := update_where (has_id id) (set_enabled enabled) t in (negb (Nat.eqb n 0), t').

Definition DeleteCommandSchedule (id : string) (t : list CommandSchedule)
    : bool * list CommandSchedule :=
  let '(n, t') := delete_where (has_id id) t in (negb (Nat.eqb n 0), t').

Definition claimable (id : string) (expected : Z) (s : CommandSchedule) : bool :=
  has_id id s && (s_next_run_unix_ms s =? expected) && s_enabled s.

Definition AdvanceCommandScheduleNextRun (id : string) (expected_ms new_next_ms : Z)
    (t : list CommandSchedule) : bool * list CommandSchedule :=
  let '(n, t') := update_where (claimable id expected_ms) (set_next_run new_next_ms) t in
  (Nat.eqb n 1, t').

(** *** command_runs: rows and the BIGSERIAL counter *)

Record runs_table : Type := mkRuns { next_serial : Z; rows : list CommandRun }.

(** The row an insertion creates. *)
Definition inserted (r : CommandRun) (id : Z) : CommandRun :=
  mkRun id (run_schedule_id r) (run_agent_id r) (run_command_id r)
    (scheduled_unix_ms r) (started_unix_ms r) 0 false false "" "" "{}" "[]" "".

Definition InsertCommandRun (r : CommandRun) (t : runs_table) : Z * runs_table :=
  let row := inserted r (next_serial t) in
  (next_serial t, mkRuns (next_serial t + 1) (rows t ++ [row])).

Definition finish_row (r row : CommandRun) : CommandRun :=
  mkRun (run_id row) (run_schedule_id row) (run_agent_id row) (run_command_id row)
    (scheduled_unix_ms row) (started_unix_ms row) (finished_unix_ms r) (run_success r) true
    (run_error r) (run_summary r)
    (if is_empty (fields_json r) then "{}" else fields_json r)
    (if is_empty (issues_json r) then "[]" else issues_json r) (run_detail r).

Definition FinishCommandRun (r : CommandRun) (t : runs_table) : runs_table :=
  mkRuns (next_serial t) (snd (update_where (fun row => run_id row =? run_id r) (finish_row r) (rows t))).

Definition wanted (agent_id command_id schedule_id : string) (r : CommandRun) : bool :=
  (is_empty agent_id || String.eqb (run_agent_id r) agent_id) &&
  (is_empty command_id || String.eqb (run_command_id r) command_id) &&
  (is_empty schedule_id || String.eqb (run_schedule_id r) schedule_id).

Definition newest_first (a b : CommandRun) : Prop := started_unix_ms b <= started_unix_ms a.
#[global] Instance newest_first_dec a b : Decision (newest_first a b).
Proof. unfold newest_first. apply _. Defined.

Definition run_limit (limit : Z) : Z := if (limit <=? 0) || (200 <? limit) then 200 else limit.

Definition ListCommandRuns (agent_id command_id schedule_id : string) (limit : Z) (t : runs_table)
    : list CommandRun :=
  take (Z.to_nat (run_limit limit))
    (merge_sort newest_first (filter (fun r => wanted agent_id command_id schedule_id r = true) (rows t))).

Definition PruneCommandRuns (older_than : Z) (t : runs_table) : nat * runs_table :=
  let '(n, rows') := delete_where (fun r => started_unix_ms r <? older_than) (rows t) in
  (n, mkRuns (next_serial t) rows').

(** *** Lemmas on the schedule table *)

Definition keys (t : list CommandSchedule) : list string := map s_id t.

Lemma update_where_keys p f t :
  (forall s, s_id (f s) = s_id s) -> keys (snd (update_where p f t)) = keys t.
Proof.
  intros Hf. unfold keys, update_where. simpl. rewrite map_map. apply map_ext.
  intros s. by destruct (p s).
Qed.

(** With unique ids, at most one row has a given id. *)
Lemma has_id_unique id t (p : CommandSchedule -> bool) :
  NoDup (keys t) -> (forall s, p s = true -> has_id id s = true) ->
  (length (filter (fun s => p s = true) t) <= 1)%nat.
Proof.
  intros Hnd Hp. induction t as [|s t IH]; [simpl; lia|].
  inversion Hnd as [|? ? Hni Hnd']; subst. destruct (p s) eqn:E.
  - rewrite filter_cons_True by done. simpl.
    enough (filter (fun s => p s = true) t = []) as -> by (simpl; lia).
    apply elem_of_nil_inv. intros s' [H' Hin]%list_elem_of_filter.
    apply Hni. apply Hp in E, H'. unfold has_id in *. bool_hyps.
    rewrite E, <- H'. unfold keys. by apply list_elem_of_fmap_2.
  - rewrite filter_cons_False by congruence. auto.
Qed.

Lemma filter_length_0 {R} (p : R -> bool) t :
  length (filter (fun r => p r = true) t) = 0%nat <-> forall r, r ∈ t -> p r = false.
Proof.
  split.
  - intros H r Hr. destruct (p r) eqn:E; [|done].
    assert (r ∈ filter (fun r => p r = true) t) as Hin by (by apply list_elem_of_filter).
    destruct (filter _ t); [by apply not_elem_of_nil in Hin|done].
  - intros H. replace (filter (fun r => p r = true) t) with (@nil R); [done|]. symmetry.
    apply elem_of_nil_inv. intros r [E Hin]%list_elem_of_filter. rewrite H in E; done.
Qed.

(** The slot a stale row is moved to; [overflows] when it is past BIGINT. *)
Definition next_slot (now : Z) (s : CommandSchedule) : Z :=
  Slots.NextSlot (s_window_start_unix_ms s) (s_interval_sec s * 1000) now.
Definition overflows (now : Z) (s : CommandSchedule) : Prop := stale now s = true /\ Int.int64_max < next_slot now s.
#[global] Instance overflows_dec now s : Decision (overflows now s).
Proof. unfold overflows. apply _. Defined.

(** The schedules the API creates: a positive interval, no negative start. *)
Definition sane (s : CommandSchedule) : Prop := 0 < s_interval_sec s /\ 0 <= s_window_start_unix_ms s.

Lemma bigint_small z : 0 <= z <= Int.int64_max -> bigint z = Some z.
Proof.
  intros Hz. unfold bigint. rewrite (proj2 (Int.in_int64b_spec z)); [done|].
  unfold Int.in_int64, Int.int64_min, Int.int64_max in *. lia.
Qed.
Lemma bigint_large z : Int.int64_max < z -> bigint z = None.
Proof.
  intros Hz. unfold bigint. destruct (Int.in_int64b z) eqn:E; [|done].
  apply Int.in_int64b_spec in E. unfold Int.in_int64 in E. lia.
Qed.

(** BIGINT arithmetic gives the slot, or an error when it is too large. *)
Lemma rebase_NextSlot now s :
  sane s -> s_window_start_unix_ms s < now -> now <= Int.int64_max ->
  rebase now s = if decide (Int.int64_max < next_slot now s) then None else Some (set_next_run (next_slot now s) s).
Proof.
  intros [Hi Hws] Hnow Hmax. unfold rebase, next_slot, Slots.NextSlot.
  set (i := s_interval_sec s * 1000) in *. set (ws := s_window_start_unix_ms s) in *.
  assert (1000 <= i) by lia. rewrite (proj2 (Z.leb_gt i 0)), (proj2 (Z.leb_gt now ws)) by lia. cbv zeta.
  rewrite Z.quot_div_nonneg by lia. set (k := (now - ws) / i).
  assert (0 <= k) by (apply Z.div_pos; lia). assert (i * k <= now - ws) by (apply Z.mul_div_le; lia).
  destruct (Z.le_gt_cases i Int.int64_max) as [Hl|Hl].
  2: { rewrite (bigint_large i) by lia. destruct (decide _); [done|nia]. }
  rewrite (bigint_small i) by lia. cbn [mbind option_bind].
  rewrite (bigint_small (now - ws)) by lia. cbn [mbind option_bind].
  destruct (Z.eqb_spec i 0); [lia|]. rewrite Z.quot_div_nonneg by lia. fold k.
  rewrite (bigint_small k) by nia. cbn [mbind option_bind]. rewrite (bigint_small (k + 1)) by nia. cbn [mbind option_bind].
  rewrite (Z.mul_comm (k + 1) i). destruct (Z.le_gt_cases (i * (k + 1)) Int.int64_max) as [Ho|Ho].
  2: { rewrite (bigint_large (i * (k + 1))) by lia. destruct (decide _); [done|lia]. }
  rewrite (bigint_small (i * (k + 1))) by nia. cbn [mbind option_bind].
  destruct (decide _); [by rewrite bigint_large|by rewrite bigint_small by nia].
Qed.

Definition rebased (now : Z) (s : CommandSchedule) : CommandSchedule :=
  if stale now s then set_next_run (next_slot now s) s else s.

Lemma stale_started now s : stale now s = true -> s_window_start_unix_ms s < now.
Proof. unfold stale, kToleranceMs. intros E. bool_hyps. lia. Qed.

Lemma mapM_rebase now t :
  Forall sane t -> now <= Int.int64_max ->
  mapM (fun s => if stale now s then rebase now s else Some s) t =
    if decide (Exists (overflows now) t) then None else Some (map (rebased now) t).
Proof.
  intros Ht Hn. induction Ht as [|s t Hs _ IH].
  { rewrite decide_False; [done|]. by intros ?%Exists_nil. }
  set (f := fun s => if stale now s then rebase now s else Some s) in *.
  change (mapM f (s :: t)) with (y ← f s; k ← mapM f t; mret (y :: k)). rewrite IH.
  cbn [map]. assert (rebased now s = if stale now s then set_next_run (next_slot now s) s else s) as Er by done.
  rewrite Er. unfold f. clear Er.
  assert (Exists (overflows now) (s :: t) <-> (stale now s = true /\ Int.int64_max < next_slot now s) \/ Exists (overflows now) t)
    as X by apply Exists_cons.
  destruct (stale now s) eqn:E; [rewrite rebase_NextSlot by (done || by apply stale_started); destruct (decide (_ < _))|];
    destruct (decide (Exists _ t)), (decide (Exists _ (s :: t))); try done; exfalso; intuition discriminate.
Qed.

(** Claim C15: the SQL rebase and the C++ [NextSlot] agree.  On a table of
    rows with a positive interval and no negative start, when the next slot of every stale row fits in a
    BIGINT, [RescheduleStaleSchedules] moves exactly
    the stale rows, each to [NextSlot] of now (one slot, no catch-up burst),
    and leaves no stale row behind; when the next slot of one stale row does
    not fit (a huge interval), the statement fails and no row is moved, however
    stale. *)
Theorem RescheduleStaleSchedules_spec (now : Z) (t : list CommandSchedule) :
  Forall (fun s => 0 < s_interval_sec s /\ 0 <= s_window_start_unix_ms s) t -> now <= Int.int64_max ->
  let slot s := Slots.NextSlot (s_window_start_unix_ms s) (s_interval_sec s * 1000) now in
  let too_far s := stale now s = true /\ Int.int64_max < slot s in
  (~ Exists too_far t ->
    RescheduleStaleSchedules now t = map (fun s => if stale now s then set_next_run (slot s) s else s) t /\
    Forall (fun s => stale now s = false) (RescheduleStaleSchedules now t)) /\
  (Exists too_far t -> RescheduleStaleSchedules now t = t).
Proof.
  intros Ht Hn slot too_far. unfold RescheduleStaleSchedules. rewrite mapM_rebase by done.
  split; intros He; [rewrite decide_False by exact He|by rewrite decide_True by exact He].
  split; [done|]. apply Forall_map. eapply Forall_impl; [exact Ht|]. intros s (Hi & Hws).
  cbn beta. unfold rebased. destruct (stale now s) eqn:E; [|done].
  pose proof (Slots.NextSlot_after (s_window_start_unix_ms s) (s_interval_sec s * 1000) now).
  unfold next_slot, stale, kToleranceMs in *. cbn [set_next_run s_next_run_unix_ms].
  rewrite andb_false_iff. right. apply Z.ltb_ge. lia.
Qed.

Definition demo_row : CommandSchedule := mkSchedule "s1" "" "a" "ping" "{}" 1000 10000000 60 61000 true.
Definition demo_huge : CommandSchedule := mkSchedule "s2" "" "a" "ping" "{}" 1000 10000000 9223372036854775 61000 true.
Lemma RescheduleStaleSchedules_spec_witness :
  RescheduleStaleSchedules 500000 [demo_row] = [set_next_run 541000 demo_row] /\
  RescheduleStaleSchedules 500000 [demo_row; demo_huge] = [demo_row; demo_huge].
Proof.
  split.
  - refine (eq_trans (proj1 (proj1 (RescheduleStaleSchedules_spec 500000 [demo_row] _ _) _)) _);
      [repeat constructor; vm_compute; congruence|vm_compute; congruence| |reflexivity].
    intros [[_ H]|H%Exists_nil]%Exists_cons; [by vm_compute in H|done].
  - refine (proj2 (RescheduleStaleSchedules_spec 500000 [demo_row; demo_huge] _ _) _);
      [repeat constructor; vm_compute; congruence|vm_compute; congruence|].
    right. left. by vm_compute.
Defined.

Lemma Advance_result id e n t :
  NoDup (keys t) ->
  (fst (AdvanceCommandScheduleNextRun id e n t) = true <->
   exists s, s ∈ t /\ s_id s = id /\ s_next_run_unix_ms s = e /\ s_enabled s = true).
Proof.
  intros Hnd. unfold AdvanceCommandScheduleNextRun, update_where. simpl.
  pose proof (has_id_unique id t (claimable id e) Hnd) as H1.
  assert (forall s, claimable id e s = true -> has_id id s = true) as Hc.
  { unfold claimable. intros s ?. by bool_hyps. }
  specialize (H1 Hc). rewrite Nat.eqb_eq. split.
  - intros Hl. destruct (filter _ t) as [|s l] eqn:E; [done|].
    assert (s ∈ filter (fun r => claimable id e r = true) t) as Hin by (rewrite E; left).
    apply list_elem_of_filter in Hin as [Hcl Hin]. exists s.
    unfold claimable, has_id in Hcl. bool_hyps. done.
  - intros (s & Hin & <- & <- & He).
    assert (length (filter (fun r => claimable (s_id s) (s_next_run_unix_ms s) r = true) t) <> 0%nat);
      [|lia].
    intros H0. pose proof (proj1 (filter_length_0 _ t) H0 s Hin) as Hf.
    unfold claimable, has_id in Hf. by rewrite String.eqb_refl, Z.eqb_refl, He in Hf.
Qed.

(** The claim guard.  A claim succeeds exactly when the row is
    enabled and still at the expected slot, it keeps the ids unique, and when
    it really moves the row the same slot cannot be claimed a second time, so
    two schedulers never both dispatch it. *)
Theorem AdvanceCommandScheduleNextRun_claims_once (id : string) (e n n' : Z) (t : list CommandSchedule) :
  NoDup (keys t) -> n <> e ->
  let '(ok, t') := AdvanceCommandScheduleNextRun id e n t in
  (ok = true <-> exists s, s ∈ t /\ s_id s = id /\ s_next_run_unix_ms s = e /\ s_enabled s = true) /\
  keys t' = keys t /\ fst (AdvanceCommandScheduleNextRun id e n' t') = false.
Proof.
  intros Hnd Hne. pose proof (Advance_result id e n t Hnd) as H1.
  pose proof (update_where_keys (claimable id e) (set_next_run n) t (fun _ => eq_refl)) as Hk.
  destruct (AdvanceCommandScheduleNextRun id e n t) as [ok t'] eqn:E.
  unfold AdvanceCommandScheduleNextRun in E.
  injection E as <- <-. split_and!; [done|done|].
  apply not_true_iff_false. rewrite Advance_result by (simpl in Hk; by rewrite Hk).
  intros (s & Hin & Hid & Hnext & Hen). apply list_elem_of_fmap in Hin as [s0 [-> Hin]].
  destruct (claimable id e s0) eqn:C; [done|].
  unfold claimable, has_id in C. rewrite Hid, Hnext, Hen, String.eqb_refl, Z.eqb_refl in C. done.
Qed.

Lemma AdvanceCommandScheduleNextRun_claims_once_witness :
  AdvanceCommandScheduleNextRun "s1" 61000 121000 [demo_row] = (true, [set_next_run 121000 demo_row]) /\
  fst (AdvanceCommandScheduleNextRun "s1" 61000 121000 [set_next_run 121000 demo_row]) = false.
Proof.
  split; [reflexivity|].
  refine (proj2 (proj2 (AdvanceCommandScheduleNextRun_claims_once "s1" 61000 121000 121000 [demo_row] _ _))).
  - repeat constructor. set_solver.
  - lia.
Defined.

Lemma take_sorted_before {R} (le : R -> R -> Prop) `{!Transitive le} (n : nat) (l : list R) x y :
  StronglySorted le l -> x ∈ take n l -> y ∈ drop n l -> le x y.
Proof.
  intros Hs. rewrite <- (take_drop n l) in Hs. revert Hs.
  generalize (drop n l) as b. induction (take n l) as [|z a IH]; intros b Hs Hx Hy.
  - by apply not_elem_of_nil in Hx.
  - simpl in Hs. apply StronglySorted_inv in Hs as [Hs Hall].
    apply elem_of_cons in Hx as [->|Hx]; [|eauto].
    rewrite Forall_forall in Hall. apply Hall. set_solver.
Qed.

#[local] Instance run_order_total : Total run_order.
Proof. intros a b. unfold run_order. lia. Qed.
#[local] Instance run_order_trans : Transitive run_order.
Proof. intros a b c. unfold run_order. lia. Qed.

(** [ListDueCommandSchedules] picks at most 20 due rows, in slot
    order, and when it cannot pick them all it picks the earliest ones: a due
    row that is left out comes after every row that is picked. *)
Theorem ListDueCommandSchedules_spec (now : Z) (t : list CommandSchedule) :
  let l := ListDueCommandSchedules now t in
  (length l <= 20)%nat /\ StronglySorted run_order l /\
  (forall s, s ∈ l -> s ∈ t /\ due now s = true) /\
  (forall s, s ∈ t -> due now s = true -> s ∈ l \/ (length l = 20%nat /\ forall x, x ∈ l -> run_order x s)).
Proof.
  unfold ListDueCommandSchedules. set (m := merge_sort run_order _).
  assert (Hp : m ≡ₚ filter (fun s => due now s = true) t) by apply merge_sort_Permutation.
  assert (Hs : StronglySorted run_order m) by (apply StronglySorted_merge_sort; apply _).
  split_and!.
  - rewrite length_take. lia.
  - rewrite <- (take_drop 20 m) in Hs. by apply StronglySorted_app_1_l in Hs.
  - intros s Hin. apply (subseteq_take 20 m) in Hin. rewrite Hp in Hin.
    apply list_elem_of_filter in Hin as [? ?]. done.
  - intros s Hin Hd. assert (s ∈ m) as Hm by (rewrite Hp; by apply list_elem_of_filter).
    rewrite <- (take_drop 20 m) in Hm. apply elem_of_app in Hm as [Hm|Hm]; [by left|right]. split.
    + rewrite length_take. destruct (decide (20 <= length m)%nat); [lia|].
      rewrite drop_ge in Hm by lia. by apply not_elem_of_nil in Hm.
    + intros x Hx. by apply (take_sorted_before run_order 20 m).
Qed.

(** A slot claimed before its time is not used up.  A due row whose
    slot is still ahead (the claim tolerance allows up to two seconds) is
    advanced by the scheduler to [NextSlot] of now, which is that very slot:
    the claim succeeds, the table does not change, and the row is due again
    at every tick until the slot has passed. *)
Theorem early_claim_keeps_the_slot (now later : Z) (s : CommandSchedule) (t : list CommandSchedule) :
  let ws := s_window_start_unix_ms s in
  let interval_ms := s_interval_sec s * 1000 in
  NoDup (keys t) -> s ∈ t -> due now s = true -> kToleranceMs <= interval_ms ->
  Slots.slot ws interval_ms (s_next_run_unix_ms s) ->
  now < s_next_run_unix_ms s -> now <= later <= s_next_run_unix_ms s ->
  s_next_run_unix_ms s <= s_window_end_unix_ms s ->
  AdvanceCommandScheduleNextRun (s_id s) (s_next_run_unix_ms s) (Slots.NextSlot ws interval_ms now) t
    = (true, t) /\
  due later s = true.
Proof.
  cbv zeta. intros Hnd Hin Hdue Hi Hslot Hlt Hl Hend. unfold kToleranceMs in Hi.
  set (ws := s_window_start_unix_ms s) in *. set (i := s_interval_sec s * 1000) in *.
  assert (Hn : Slots.NextSlot ws i now = s_next_run_unix_ms s).
  { assert (0 < i) as Hpos by lia.
    pose proof (Slots.NextSlot_least ws i now _ Hpos Hslot Hlt).
    pose proof (Slots.NextSlot_after ws i now Hpos).
    destruct (Slots.NextSlot_slot ws i now Hpos) as [k [Hk Ek]].
    destruct Hslot as [k' [Hk' Ek']].
    unfold due, kToleranceMs in Hdue. bool_hyps.
    assert (k <= k') by nia. destruct (decide (k = k')) as [->|]; [lia|].
    assert (k' * i >= k * i + i) by nia. nia. }
  split.
  - rewrite Hn. pose proof (Advance_result (s_id s) (s_next_run_unix_ms s) (s_next_run_unix_ms s) t Hnd) as [_ H2].
    unfold AdvanceCommandScheduleNextRun in *. simpl in *. f_equal.
    + apply H2. exists s. unfold due in Hdue. by bool_hyps.
    + etransitivity; [|apply map_id]. apply map_ext_in. intros r Hr.
      destruct (claimable _ _ r) eqn:C; [|done]. unfold claimable, has_id in C. bool_hyps.
      destruct r; simpl in *. unfold set_next_run. simpl. by f_equal.
  - unfold due, kToleranceMs in *. bool_hyps.
    rewrite !andb_true_iff, !Z.leb_le. subst ws. split_and!; [done|lia..].
Qed.

Lemma early_claim_keeps_the_slot_witness :
  AdvanceCommandScheduleNextRun "s1" 61000 (Slots.NextSlot 1000 60000 59500) [demo_row]
    = (true, [demo_row]) /\ due 60500 demo_row = true.
Proof.
  refine (early_claim_keeps_the_slot 59500 60500 demo_row [demo_row] _ _ _ _ _ _ _ _).
  - repeat constructor. set_solver.
  - left.
  - reflexivity.
  - vm_compute. congruence.
  - exists 1. vm_compute. split; congruence.
  - reflexivity.
  - vm_compute. split; congruence.
  - vm_compute. congruence.
Defined.

(** *** The run history *)

Definition serials_fresh (t : runs_table) : Prop :=
  NoDup (map run_id (rows t)) /\ forall r, r ∈ rows t -> run_id r < next_serial t.

Lemma InsertCommandRun_fresh r t : serials_fresh t -> serials_fresh (snd (InsertCommandRun r t)).
Proof.
  intros [Hnd Hlt]. split; simpl.
  - rewrite map_app. apply NoDup_app. split_and!; [done| |apply NoDup_singleton].
    intros i Hi Hx. apply list_elem_of_singleton in Hx. apply list_elem_of_fmap in Hi as [r' [-> Hr']].
    apply Hlt in Hr'. simpl in Hx. lia.
  - intros r' [Hr'|Hr']%elem_of_app; [apply Hlt in Hr'; lia|].
    apply list_elem_of_singleton in Hr' as ->. simpl. lia.
Qed.

Lemma FinishCommandRun_rows r t :
  rows (FinishCommandRun r t) = map (fun row => if run_id row =? run_id r then finish_row r row else row) (rows t).
Proof. reflexivity. Qed.

Lemma FinishCommandRun_fresh r t : serials_fresh t -> serials_fresh (FinishCommandRun r t).
Proof.
  assert (Hid : forall row, run_id (if run_id row =? run_id r then finish_row r row else row) = run_id row).
  { intros row. by destruct (run_id row =? run_id r). }
  intros [Hnd Hlt]. split; rewrite FinishCommandRun_rows.
  - rewrite map_map. by erewrite map_ext by exact Hid.
  - intros r' [row [-> Hin]]%list_elem_of_fmap. cbn beta. rewrite Hid. apply Hlt, Hin.
Qed.

Lemma PruneCommandRuns_fresh cut t : serials_fresh t -> serials_fresh (snd (PruneCommandRuns cut t)).
Proof.
  intros [Hnd Hlt]. split; simpl.
  - eapply sublist_NoDup; [exact Hnd|]. apply fmap_sublist, sublist_filter.
  - intros r [_ Hr]%list_elem_of_filter. by apply Hlt.
Qed.

Lemma finish_inserted r res t :
  serials_fresh t -> run_id res = next_serial t ->
  rows (FinishCommandRun res (snd (InsertCommandRun r t))) =
  rows t ++ [finish_row res (inserted r (next_serial t))].
Proof.
  intros [_ Hlt] Hid. rewrite FinishCommandRun_rows. simpl. rewrite map_app, Hid. simpl.
  rewrite Z.eqb_refl. f_equal.
  etransitivity; [|apply map_id]. apply map_ext_in. intros x Hx.
  destruct (Z.eqb_spec (run_id x) (next_serial t)); [|done].
  apply list_elem_of_In, Hlt in Hx. lia.
Qed.

(** The life of a run in the history.  Inserting a run and then
    finishing it appends exactly one row, which has the payload and defaults
    of the result, and changes no other row; pruning removes exactly the rows
    older than the cut; run ids stay unique throughout. *)
Theorem run_lifecycle (r res : CommandRun) (cut : Z) (t : runs_table) :
  serials_fresh t -> run_id res = fst (InsertCommandRun r t) ->
  let t1 := snd (InsertCommandRun r t) in
  let t2 := FinishCommandRun res t1 in
  rows t2 = rows t ++ [finish_row res (inserted r (next_serial t))] /\ serials_fresh t2 /\
  serials_fresh (snd (PruneCommandRuns cut t2)) /\
  (forall x, x ∈ rows (snd (PruneCommandRuns cut t2)) <-> x ∈ rows t2 /\ cut <= started_unix_ms x).
Proof.
  intros Hf Hid. cbv zeta.
  assert (serials_fresh (FinishCommandRun res (snd (InsertCommandRun r t)))) as Hf2
    by auto using FinishCommandRun_fresh, InsertCommandRun_fresh.
  split_and!; [by apply finish_inserted|done|by apply PruneCommandRuns_fresh|].
  intros x. simpl. rewrite list_elem_of_filter, Z.ltb_ge. tauto.
Qed.

Definition demo_run (id : Z) : CommandRun :=
  mkRun id "s1" "a" "ping" 61000 61200 61900 true false "" "ok" "" "" "d".
Lemma run_lifecycle_witness :
  let t2 := FinishCommandRun (demo_run 7) (snd (InsertCommandRun (demo_run 0) (mkRuns 7 []))) in
  map run_summary (rows t2) = ["ok"] /\ serials_fresh t2.
Proof.
  split; [vm_compute; reflexivity|].
  refine (proj1 (proj2 (run_lifecycle (demo_run 0) (demo_run 7) 0 (mkRuns 7 []) _ _))).
  - split; [constructor|]. intros r Hr. by apply not_elem_of_nil in Hr.
  - reflexivity.
Defined.
End Tables.
