(* ===== verification/Scheduler.v ===== *)
(** * Scheduler: the command scheduler of the collector

    Models [collector/src/command_scheduler.cpp].  [Execute] is [ExecuteRun],
    one scheduled run from the database row to its recorded result; the agent's
    gRPC service is a parameter.  [Threads] is the dispatcher thread ([Loop]),
    the worker threads ([WorkerLoop]), [Start] and [Stop] as a step relation
    whose steps are the critical sections of [m_mutex] and the storage calls,
    so every interleaving of the threads is a run. *)
From stdpp Require Import base gmap strings list.
From Stdlib Require Import ZArith Lia.
From S2P Require Import Prelude Proto Json Schedules AgentRegistry.
Import Str.
#[local] Open Scope string_scope.
#[local] Open Scope list_scope.

Definition kWorkerCount : nat := 4.
Definition kTickIntervalMs : Z := 1000.
Definition kCommandDeadlineMs : Z := 10 * 60 * 1000.
Definition kHistoryRetentionMs : Z := 30 * 24 * 3600 * 1000.
Definition kPruneEveryMs : Z := 6 * 3600 * 1000.

Record RunCommandRequest : Type := mkRunCommandRequest {
  rc_agent_id : string;
  rc_command_id : string;
  rc_params : gmap string string;
}.

Module Execute.
Section Execute.
Context {J : Type} `{JsonOps J, JsonText J}.
(** The order in which a protobuf map is traversed. *)
Variable iter : gmap string string -> list (string * string).

(** The members of the stored parameters, stopping at the first exception:
    the [catch (...)] keeps what was set before it. *)
Fixpoint params_of (items : list (string * J)) (m : gmap string string) : gmap string string :=
  match items with
  | [] => m
  | (k, v) :: rest =>
      if jis_string v then
        match jget_string v with
        | Returns s => params_of rest (<[k := s]> m)
        | Throws _ => m
        end
      else params_of rest (<[k := jdump v]> m)
  end.

Definition request_of (sched : CommandSchedule) : RunCommandRequest :=
  mkRunCommandRequest (s_agent_id sched) (s_command_id sched)
    (match jparse (s_params_json sched) with
     | inr params => if jis_object params then params_of (jitems params) ∅ else ∅
     | inl _ => ∅
     end).

Definition fields_object (fields : gmap string string) : J :=
  fold_left (fun j kv => jset (fst kv) (j_of_string (snd kv)) j) (iter fields) jempty_object.
Definition issues_array (issues : list string) : J := jarray (map j_of_string issues).

(** What one execution observes: clock readings, whether each of its two
    storage calls succeeds (one that fails changes nothing), the registry at each of its two
    queries, the channel and the agent's answer. *)
Record env : Type := mkEnv {
  now_start : Z;
  insert_up : bool;
  now_window : Z;
  registry_endpoint : AgentRegistry.state;
  registry_alive : AgentRegistry.state;
  now_alive : Z;
  dials : bool;
  run_command : RunCommandRequest -> Status * CommandResponse;
  now_finish : Z;
  finish_up : bool;
}.

Definition set_result (r : CommandRun) (id finished : Z) (success : bool)
    (error summary fields issues detail : string) : CommandRun :=
  mkRun id (run_schedule_id r) (run_agent_id r) (run_command_id r) (scheduled_unix_ms r)
    (started_unix_ms r) finished success (has_result r) error summary fields issues detail.

(** [record_result]. *)
Definition record_result (e : env) (r : CommandRun) (t : Tables.runs_table) : Tables.runs_table :=
  let summary := if is_empty (run_summary r) then (if run_success r then "ok" else "failed")
                 else run_summary r in
  let r := set_result r (run_id r) (now_finish e) (run_success r) (run_error r) summary
             (fields_json r) (issues_json r) (run_detail r) in
  if finish_up e then Tables.FinishCommandRun r t else t.

Definition started_run (e : env) (sched : CommandSchedule) : CommandRun :=
  mkRun 0 (s_id sched) (s_agent_id sched) (s_command_id sched) (s_next_run_unix_ms sched)
    (now_start e) 0 false false "" "" "" "" "".

(** [ExecuteRun]: the history after the run, and the RPC it sent, if any. *)
Definition ExecuteRun (e : env) (sched : CommandSchedule) (t : Tables.runs_table)
    : Tables.runs_table * option RunCommandRequest :=
  let run := started_run e sched in
  let '(id, t) := if insert_up e then Tables.InsertCommandRun run t else ((-1)%Z, t) in
  if (id <? 0)%Z then (t, None)
  else
    let fail what := set_result run id 0 false what "" "" "" "" in
    if (s_window_end_unix_ms sched <? now_window e)%Z then
      (record_result e (fail "command window ended before the run could start") t, None)
    else
      let endpoint := AgentRegistry.GetDiagnosticEndpoint (registry_endpoint e) (s_agent_id sched) in
      if is_empty endpoint ||
         negb (AgentRegistry.IsAgentAlive (now_alive e) (registry_alive e) (s_agent_id sched) 30000) then
        (record_result e (fail "agent offline or unknown; run skipped") t, None)
      else if negb (dials e) then
        (record_result e (fail ("could not dial agent diagnostic endpoint " +:+ endpoint)) t, None)
      else
        let req := request_of sched in
        let '(status, cresp) := run_command e req in
        match st_code status with
        | OK =>
            let r := set_result run id 0 (c_success cresp) (c_error cresp) (c_summary cresp)
                       (jdump (fields_object (c_fields cresp))) (jdump (issues_array (c_issues cresp)))
                       (c_detail cresp) in
            (record_result e r t, Some req)
        | _ =>
            (record_result e (fail ("agent RPC failed: " +:+ st_message status +:+
               " (diagnostic endpoint " +:+ endpoint +:+ ")")) t, Some req)
        end.

(** *** What a run comes to *)
Inductive verdict : Type :=
  | TooLate
  | Unreachable
  | NotDialled (endpoint : string)
  | RpcFailed (message endpoint : string)
  | Answered (resp : CommandResponse).

Definition judged (e : env) (sched : CommandSchedule) : verdict :=
  let endpoint := AgentRegistry.GetDiagnosticEndpoint (registry_endpoint e) (s_agent_id sched) in
  let alive := AgentRegistry.IsAgentAlive (now_alive e) (registry_alive e) (s_agent_id sched) 30000 in
  if bool_decide (s_window_end_unix_ms sched < now_window e)%Z then TooLate
  else if bool_decide (endpoint = "" \/ alive = false) then Unreachable
  else if dials e then
    let '(status, resp) := run_command e (request_of sched) in
    if bool_decide (st_code status = OK) then Answered resp else RpcFailed (st_message status) endpoint
  else NotDialled endpoint.

(** Whether the agent was called. *)
Definition called (v : verdict) : bool := match v with RpcFailed _ _ | Answered _ => true | _ => false end.
Definition error_of (v : verdict) : string :=
  match v with
  | TooLate => "command window ended before the run could start"
  | Unreachable => "agent offline or unknown; run skipped"
  | NotDialled endpoint => "could not dial agent diagnostic endpoint " +:+ endpoint
  | RpcFailed message endpoint =>
      "agent RPC failed: " +:+ message +:+ " (diagnostic endpoint " +:+ endpoint +:+ ")"
  | Answered resp => c_error resp
  end.

(** The row of a run with this identity while it runs, and when it is over. *)
Definition open_row (id started : Z) (sched : CommandSchedule) : CommandRun :=
  mkRun id (s_id sched) (s_agent_id sched) (s_command_id sched) (s_next_run_unix_ms sched) started
    0 false false "" "" "{}" "[]" "".
Definition or_else (s dflt : string) : string := if decide (s = "") then dflt else s.
Definition closed_row (id started finished : Z) (sched : CommandSchedule) (v : verdict) : CommandRun :=
  let row := mkRun id (s_id sched) (s_agent_id sched) (s_command_id sched) (s_next_run_unix_ms sched) started finished in
  match v with
  | Answered c =>
      row (c_success c) true (c_error c) (or_else (c_summary c) (if c_success c then "ok" else "failed"))
        (or_else (jdump (fields_object (c_fields c))) "{}") (or_else (jdump (issues_array (c_issues c))) "[]")
        (c_detail c)
  | _ => row false true (error_of v) "failed" "{}" "[]" ""
  end.

Lemma is_empty_or_else s d : (if is_empty s then d else s) = or_else s d.
Proof. unfold or_else. by destruct s. Qed.

(** The run's row, however it came to its end. *)
Lemma record_result_rows e sched t run v :
  Tables.serials_fresh t -> run_id run = Tables.next_serial t ->
  Tables.finish_row (set_result run (run_id run) (now_finish e) (run_success run) (run_error run)
      (or_else (run_summary run) (if run_success run then "ok" else "failed"))
      (fields_json run) (issues_json run) (run_detail run))
    (Tables.inserted (started_run e sched) (Tables.next_serial t)) =
    closed_row (Tables.next_serial t) (now_start e) (now_finish e) sched v ->
  Tables.rows (record_result e run (snd (Tables.InsertCommandRun (started_run e sched) t))) =
  Tables.rows t ++ [if finish_up e then closed_row (Tables.next_serial t) (now_start e) (now_finish e) sched v
                    else open_row (Tables.next_serial t) (now_start e) sched].
Proof.
  intros Hf Hid E. unfold record_result. destruct (finish_up e); [|done].
  rewrite Tables.finish_inserted, is_empty_or_else by done. by rewrite E.
Qed.

End Execute.

Definition demo_env : env :=
  mkEnv 61000 true 61001 AgentRegistry.demo AgentRegistry.demo 20000 true
    (fun _ => (Status_OK, mkCommandResponse true "ping" "" 0 "fine" ∅ [] "")) 61900 true.
Definition demo_sched : CommandSchedule :=
  mkSchedule "s1" "" "a" "ping" "{}" 1000 100000 60 61000 true.

Definition demo_result :=
  ExecuteRun (J := Reference.jval) map_to_list demo_env demo_sched (Tables.mkRuns 1 []).

End Execute.

Module Threads.
(** Where the dispatcher thread is in [Loop]. *)
Inductive dispatcher : Type :=
  | Wait                                                          (* m_cv.wait_for *)
  | Scan (now : Z) (rest : list CommandSchedule)                   (* the loop over due *)
  | Claimed (now : Z) (s : CommandSchedule) (rest : list CommandSchedule)
  | Exited.                                                       (* joined, or not started *)

Record state : Type := mkState {
  m_started : bool;
  m_stop : bool;
  m_queue : list CommandSchedule;
  m_busy_agents : gset string;
  table : list CommandSchedule;         (* command_schedules *)
  loop : dispatcher;
  idle_workers : nat;                   (* at the top of WorkerLoop *)
  running : list CommandSchedule;       (* in ExecuteRun, a worker each *)
  dropped : list CommandSchedule;       (* taken from the queue during shutdown *)
}.

Definition initial (t : list CommandSchedule) : state :=
  mkState false false [] ∅ t Exited 0 [] [].

(** *** The sections of code between two synchronisation points *)

Definition Start (s : state) : state :=
  mkState true false (m_queue s) (m_busy_agents s) (table s) Wait kWorkerCount [] (dropped s).

(** [Stop] up to the joins. *)
Definition Stop (s : state) : state :=
  mkState false true (m_queue s) (m_busy_agents s) (table s) (loop s) (idle_workers s)
    (running s) (dropped s).

Definition set_loop (l : dispatcher) (s : state) : state :=
  mkState (m_started s) (m_stop s) (m_queue s) (m_busy_agents s) (table s) l (idle_workers s)
    (running s) (dropped s).
Definition set_table (t : list CommandSchedule) (s : state) : state :=
  mkState (m_started s) (m_stop s) (m_queue s) (m_busy_agents s) t (loop s) (idle_workers s)
    (running s) (dropped s).

(** The tick: [up1], [up2] tell whether storage answers each call. *)
Definition tick (now : Z) (up1 up2 : bool) (s : state) : state :=
  let t := if up1 then Tables.RescheduleStaleSchedules now (table s) else table s in
  set_loop (Scan now (if up2 then Tables.ListDueCommandSchedules now t else [])) (set_table t s).

(** The claim of one due schedule; a failed claim goes on to the next one. *)
Definition claim (now : Z) (up : bool) (sched : CommandSchedule) (rest : list CommandSchedule)
    (s : state) : state :=
  let interval_ms := Int.to_int64 (s_interval_sec sched * 1000) in
  let new_next := Slots.NextSlot (s_window_start_unix_ms sched) interval_ms now in
  let '(ok, t) := if up then Tables.AdvanceCommandScheduleNextRun (s_id sched)
                               (s_next_run_unix_ms sched) new_next (table s)
                  else (false, table s) in
  set_loop (if ok then Claimed now sched rest else Scan now rest) (set_table t s).

(** The critical section after a successful claim. *)
Definition enqueue (now : Z) (sched : CommandSchedule) (rest : list CommandSchedule) (s : state) : state :=
  if m_stop s then set_loop Exited s
  else if bool_decide (s_agent_id sched ∈ m_busy_agents s) then set_loop (Scan now rest) s
  else mkState (m_started s) (m_stop s) (m_queue s ++ [sched])
         ({[s_agent_id sched]} ∪ m_busy_agents s) (table s) (Scan now rest) (idle_workers s)
         (running s) (dropped s).

(** The critical section at the top of [WorkerLoop]; [None]: it blocks. *)
Definition take_work (s : state) : option state :=
  match m_queue s with
  | [] =>
      if m_stop s then
        Some (mkState (m_started s) (m_stop s) [] (m_busy_agents s) (table s) (loop s)
                (idle_workers s - 1) (running s) (dropped s))
      else None
  | sched :: q =>
      if m_stop s then
        Some (mkState (m_started s) (m_stop s) q (m_busy_agents s) (table s) (loop s)
                (idle_workers s - 1) (running s) (dropped s ++ [sched]))
      else
        Some (mkState (m_started s) (m_stop s) q (m_busy_agents s) (table s) (loop s)
                (idle_workers s - 1) (sched :: running s) (dropped s))
  end.

(** The critical section after [ExecuteRun]. *)
Definition finish (sched : CommandSchedule) (others : list CommandSchedule) (s : state) : state :=
  mkState (m_started s) (m_stop s) (m_queue s) (m_busy_agents s ∖ {[s_agent_id sched]}) (table s)
    (loop s) (S (idle_workers s)) others (dropped s).

Inductive step : state -> state -> Prop :=
  | St_start s :
      m_started s = false -> loop s = Exited -> idle_workers s = 0%nat -> running s = [] ->
      step s (Start s)
  | St_stop s : m_started s = true -> step s (Stop s)
  | St_tick s now up1 up2 : loop s = Wait -> m_stop s = false -> step s (tick now up1 up2 s)
  | St_loop_exit s : loop s = Wait -> m_stop s = true -> step s (set_loop Exited s)
  | St_scan_end s now : loop s = Scan now [] -> step s (set_loop Wait s)
  | St_claim s now up sched rest :
      loop s = Scan now (sched :: rest) -> step s (claim now up sched rest s)
  | St_enqueue s now sched rest :
      loop s = Claimed now sched rest -> step s (enqueue now sched rest s)
  | St_take s s' : (0 < idle_workers s)%nat -> take_work s = Some s' -> step s s'
  | St_finish s sched others :
      running s ≡ₚ sched :: others -> step s (finish sched others s)
  | St_table s t : step s (set_table t s).      (* the HTTP handlers edit schedules *)

Definition start_states (s : state) : Prop := exists t, s = initial t.
Abbreviation reachable := (Steps.reachable start_states step).

(** *** The invariant *)

Definition agents (l : list CommandSchedule) : list string := map s_agent_id l.
Definition held (s : state) : list string :=
  agents (m_queue s) ++ agents (running s) ++ agents (dropped s).

Record good (s : state) : Prop := {
  good_nodup : NoDup (held s);
  good_busy : forall a, a ∈ m_busy_agents s <-> a ∈ held s;
  good_workers : (idle_workers s + length (running s) <= kWorkerCount)%nat;
  good_started : m_stop s = false -> m_started s = true ->
    (idle_workers s + length (running s) = kWorkerCount)%nat;
}.

Lemma good_set_loop l s : good s -> good (set_loop l s).
Proof. intros []. split; done. Qed.
Lemma good_set_table t s : good s -> good (set_table t s).
Proof. intros []. split; done. Qed.
#[local] Hint Resolve good_set_loop good_set_table : pudim.

Lemma good_enqueue now sched rest s : good s -> good (enqueue now sched rest s).
Proof.
  intros G. unfold enqueue. destruct (m_stop s) eqn:Es; [by auto with pudim|].
  case_bool_decide as B; [by auto with pudim|].
  destruct G as [Hnd Hb Hw Hst].
  assert (Hperm : held s ++ [s_agent_id sched] ≡ₚ
    agents (m_queue s ++ [sched]) ++ agents (running s) ++ agents (dropped s)).
  { unfold held, agents. rewrite map_app. simpl. rewrite <- !app_assoc. apply Permutation_app_head.
    by rewrite (Permutation_app_comm [_]), <- app_assoc. }
  split; cbn [held m_queue running dropped m_busy_agents idle_workers m_stop m_started]; [..|done|auto].
  - unfold held. cbn. rewrite <- Hperm. apply NoDup_app. split_and!; [done| |apply NoDup_singleton].
    intros a Ha ->%list_elem_of_singleton. by apply B, Hb.
  - intros a. unfold held. cbn. rewrite <- Hperm, elem_of_app, list_elem_of_singleton, elem_of_union,
      elem_of_singleton, Hb. tauto.
Qed.

Lemma good_take s s' : (0 < idle_workers s)%nat -> good s -> take_work s = Some s' -> good s'.
Proof.
  intros Hi [Hnd Hb Hw Hst]. unfold take_work.
  destruct (m_queue s) as [|x q] eqn:Eq; destruct (m_stop s) eqn:Es; intros [= <-]; split;
    unfold held, agents in *; cbn; rewrite ?Eq in *; simpl in *; try done; try lia.
  - rewrite map_app. simpl.
    assert (map s_agent_id q ++ map s_agent_id (running s) ++ map s_agent_id (dropped s) ++ [s_agent_id x]
      ≡ₚ s_agent_id x :: map s_agent_id q ++ map s_agent_id (running s) ++ map s_agent_id (dropped s)) as ->;
      [|done].
    rewrite !app_assoc. apply Permutation_app_comm.
  - intros a. rewrite Hb, map_app. simpl. rewrite !elem_of_cons, !elem_of_app, list_elem_of_singleton. tauto.
  - by rewrite <- Permutation_middle.
  - intros a. rewrite Hb, <- Permutation_middle. done.
  - intros _ Hm. specialize (Hst eq_refl Hm). lia.
Qed.

Lemma good_finish sched others s :
  running s ≡ₚ sched :: others -> good s -> good (finish sched others s).
Proof.
  intros Hp [Hnd Hb Hw Hst]. pose proof (Permutation_length Hp) as Hl. simpl in Hl.
  unfold held, agents in *. rewrite Hp in Hnd. simpl in Hnd.
  rewrite <- Permutation_middle in Hnd. apply NoDup_cons in Hnd as [Hni Hnd].
  split; cbn; unfold held, agents; cbn; [done| |lia|].
  - intros a. rewrite elem_of_difference, elem_of_singleton, Hb, Hp. simpl.
    rewrite <- Permutation_middle, elem_of_cons. split; [tauto|].
    intros Ha. split; [by right|]. by intros ->.
  - intros H1 H2. specialize (Hst H1 H2). lia.
Qed.

Lemma good_step s s' : good s -> step s s' -> good s'.
Proof.
  intros G Hs.
  destruct Hs as [s Hst Hl Hi Hrun|s Hst|s now up1 up2 Hl Hst|s Hl Hst|s now Hl|s now up sched rest Hl
                 |s now sched rest Hl|s s' Hi Ht|s sched others Hp|s t].
  - destruct G as [Hnd Hb _ _]. unfold held in *. rewrite Hrun in *. split; done.
  - destruct G. by split.
  - unfold tick. auto with pudim.
  - auto with pudim.
  - auto with pudim.
  - unfold claim. case_match. auto with pudim.
  - by apply good_enqueue.
  - by eapply good_take.
  - by eapply good_finish.
  - auto with pudim.
Qed.

Lemma good_reachable s : reachable s -> good s.
Proof.
  apply Steps.reachable_invariant; [|eauto using good_step].
  intros ? [t ->]. split; cbn; [constructor|set_solver|lia|done].
Qed.

(** Claim C16: one heavy command per agent at a time, under every
    interleaving of the dispatcher, the workers, [Stop], [Start] and edits of
    the schedule table: no agent has two runs queued or in flight, the busy
    set holds exactly the agents with a queued, running or abandoned run,
    and at most four runs are in flight. *)
Theorem one_run_per_agent (s : state) :
  reachable s ->
  NoDup (agents (m_queue s ++ running s)) /\
  (forall a, a ∈ m_busy_agents s <-> a ∈ agents (m_queue s ++ running s ++ dropped s)) /\
  (length (running s) <= kWorkerCount)%nat.
Proof.
  intros Hr. destruct (good_reachable s Hr) as [Hnd Hb Hw _].
  unfold held, agents in *. rewrite !map_app. split_and!.
  - rewrite app_assoc in Hnd. by apply NoDup_app in Hnd as [? _].
  - intros a. by rewrite Hb.
  - lia.
Qed.

Definition demo_row : CommandSchedule :=
  mkSchedule "s1" "" "a" "ping" "{}" 1000 10000000 60 61000 true.
(** Start, tick at the slot, claim, enqueue. *)
Definition demo_claimed : state :=
  claim 61000 true demo_row [] (tick 61000 true true (Start (initial [demo_row]))).
Definition demo_queued : state := enqueue 61000 demo_row [] demo_claimed.

Lemma demo_reachable : reachable demo_queued.
Proof.
  refine (Steps.reach_step _ _ demo_claimed _ _ (St_enqueue demo_claimed 61000 demo_row [] eq_refl)).
  refine (Steps.reach_step _ _ _ _ _ (St_claim (tick 61000 true true (Start (initial [demo_row])))
            61000 true demo_row [] eq_refl)).
  refine (Steps.reach_step _ _ _ _ _ (St_tick (Start (initial [demo_row])) 61000 true true eq_refl eq_refl)).
  refine (Steps.reach_step _ _ _ _ _ (St_start (initial [demo_row]) eq_refl eq_refl eq_refl eq_refl)).
  apply Steps.reach_init. by exists [demo_row].
Qed.

Lemma one_run_per_agent_witness :
  map s_agent_id (m_queue demo_queued) = ["a"] /\ NoDup (agents (m_queue demo_queued ++ running demo_queued)).
Proof.
  split; [vm_compute; reflexivity|]. exact (proj1 (one_run_per_agent demo_queued demo_reachable)).
Defined.

(** A worker becomes idle: one is, or one of the running ones finishes. *)
Lemma free_worker s :
  reachable s -> m_started s = true -> m_stop s = false ->
  exists s', Steps.steps step s s' /\ reachable s' /\ (0 < idle_workers s')%nat /\
    m_queue s' = m_queue s /\ m_started s' = true /\ m_stop s' = false.
Proof.
  intros Hr Hs Hst. destruct (decide (0 < idle_workers s)%nat) as [|Hz].
  { exists s. split_and!; try done. apply Steps.steps_refl. }
  destruct (good_reachable s Hr) as [_ _ _ Hw]. specialize (Hw Hst Hs).
  destruct (running s) as [|x l] eqn:E; [simpl in Hw; unfold kWorkerCount in Hw; lia|].
  assert (step s (finish x l s)) as Hstep by (apply St_finish; by rewrite E).
  exists (finish x l s). split_and!; try done.
  - by apply Steps.steps_one.
  - by eapply Steps.reach_step.
  - simpl. lia.
Qed.

Definition taken (x : CommandSchedule) (q : list CommandSchedule) (s : state) : state :=
  mkState (m_started s) false q (m_busy_agents s) (table s) (loop s) (idle_workers s - 1)
    (x :: running s) (dropped s).
Lemma take_work_cons x q s :
  m_queue s = x :: q -> m_stop s = false -> take_work s = Some (taken x q s).
Proof. unfold take_work, taken. by intros -> ->. Qed.

(** Claim C17: no queued run is stuck.  While the scheduler is running, from
    every reachable state there is an execution at whose end a given queued
    schedule is being executed: the queue is served in order and a worker can
    always be had. *)
Theorem queued_run_starts (q1 q2 : list CommandSchedule) (sched : CommandSchedule) (s : state) :
  reachable s -> m_started s = true -> m_stop s = false -> m_queue s = q1 ++ sched :: q2 ->
  exists s', Steps.steps step s s' /\ sched ∈ running s' /\ m_queue s' = q2 /\ m_stop s' = false.
Proof.
  revert s. induction q1 as [|x q1 IH]; intros s Hr Hs Hst Hq; simpl in Hq;
    destruct (free_worker s Hr Hs Hst) as (s1 & Hsteps & Hr1 & Hi & Hq1 & Hs1 & Hst1);
    rewrite Hq in Hq1.
  - assert (take_work s1 = Some (taken sched q2 s1)) as Ht by by apply take_work_cons.
    exists (taken sched q2 s1). split_and!; [|left|done|done].
    eapply Steps.steps_trans; [done|]. by apply Steps.steps_one, St_take.
  - assert (step s1 (taken x (q1 ++ sched :: q2) s1)) as Hstep by by apply St_take, take_work_cons.
    destruct (IH (taken x (q1 ++ sched :: q2) s1)) as (s3 & H3 & Hin & Hq3 & Hst3); try done.
    + by eapply Steps.reach_step.
    + exists s3. split_and!; try done.
      eapply Steps.steps_trans; [done|]. exact (Steps.steps_cons _ _ _ _ Hstep H3).
Qed.

Lemma queued_run_starts_witness :
  exists s', Steps.steps step demo_queued s' /\ demo_row ∈ running s' /\ m_queue s' = [] /\ m_stop s' = false.
Proof.
  exact (queued_run_starts [] [] demo_row demo_queued demo_reachable eq_refl eq_refl eq_refl).
Defined.
End Threads.
