(* ===== verification/Cancel.v ===== *)
(** * Cancel: how the command scheduler stops its calls

    [CommandScheduler::Stop] with [RegisterActiveContext] and
    [UnregisterActiveContext] of [collector/src/command_scheduler.cpp] against the
    workers in [ExecuteRun] and the dispatcher.  A call to an agent may take
    minutes; [Stop] cancels the calls whose contexts are registered before it
    joins the threads.  (The file Scheduler models what the threads do to the
    schedules and the runs.) *)
From stdpp Require Import base list list_numbers relations.
From Stdlib Require Import Lia.
From S2P Require Import Prelude Scheduler.
#[local] Open Scope list_scope.

Module Cancel.

(** A worker: at the top of its loop; in [ExecuteRun] before its context is
    registered; in the call to the agent; after it; after the context was
    unregistered; returned. *)
Inductive worker : Type := Top | Preparing | Calling (cancelled : bool) | Answered | Recording | Gone.
(** The caller of [Stop]: before it; before the cancellation; joining the
    dispatcher; joining worker [i]; returned. *)
Inductive stopper : Type := NotCalled | CancelAll | JoinLoop | JoinWorker (i : nat) | Returned.
#[global] Instance worker_eq_dec : EqDecision worker.
Proof. solve_decision. Defined.
#[global] Instance stopper_eq_dec : EqDecision stopper.
Proof. solve_decision. Defined.

Record state : Type := mkState {
  m_stop : bool;
  m_queue : nat;
  m_active_ctx : list nat;      (* the workers whose contexts are registered *)
  m_thread : bool;              (* the dispatcher runs *)
  m_workers : list worker;
  caller : stopper;
}.
Definition start : state := mkState false 0 [] true (replicate kWorkerCount Top) NotCalled.

Definition try_cancel (w : worker) : worker := match w with Calling _ => Calling true | _ => w end.
(** [TryCancel] on every registered context. *)
Definition cancel_all (ctx : list nat) (ws : list worker) : list worker :=
  imap (fun i w => if decide (i ∈ ctx) then try_cancel w else w) ws.

(** What the program does by itself. *)
Inductive step : state -> state -> Prop :=
  | takes q ctx th i ws c :
      ws !! i = Some Top ->
      step (mkState false (S q) ctx th ws c) (mkState false q ctx th (<[i := Preparing]> ws) c)
  | abandons q ctx th i ws c :
      ws !! i = Some Top ->
      step (mkState true (S q) ctx th ws c) (mkState true q ctx th (<[i := Gone]> ws) c)
  | leaves ctx th i ws c :
      ws !! i = Some Top ->
      step (mkState true 0 ctx th ws c) (mkState true 0 ctx th (<[i := Gone]> ws) c)
  | skips st q ctx th i ws c :
      ws !! i = Some Preparing ->
      step (mkState st q ctx th ws c) (mkState st q ctx th (<[i := Recording]> ws) c)
  | registers st q ctx th i ws c :
      ws !! i = Some Preparing ->
      step (mkState st q ctx th ws c) (mkState st q (ctx ++ [i]) th (<[i := Calling false]> ws) c)
  | is_cancelled st q ctx th i ws c :
      ws !! i = Some (Calling true) ->
      step (mkState st q ctx th ws c) (mkState st q ctx th (<[i := Answered]> ws) c)
  | unregisters st q ctx th i ws c :
      ws !! i = Some Answered ->
      step (mkState st q ctx th ws c) (mkState st q (filter (fun j => j <> i) ctx) th (<[i := Recording]> ws) c)
  | records st q ctx th i ws c :
      ws !! i = Some Recording ->
      step (mkState st q ctx th ws c) (mkState st q ctx th (<[i := Top]> ws) c)
  | loop_exits q ctx ws c :
      step (mkState true q ctx true ws c) (mkState true q ctx false ws c)
  | called st q ctx th ws :
      step (mkState st q ctx th ws NotCalled) (mkState true q ctx th ws CancelAll)
  | cancels st q ctx th ws :
      step (mkState st q ctx th ws CancelAll) (mkState st q ctx th (cancel_all ctx ws) JoinLoop)
  | joins_loop st q ctx ws :
      step (mkState st q ctx false ws JoinLoop) (mkState st q ctx false ws (JoinWorker 0))
  | joins_worker st q ctx th i ws :
      ws !! i = Some Gone ->
      step (mkState st q ctx th ws (JoinWorker i)) (mkState st q ctx th ws (JoinWorker (S i)))
  | clears st q ctx th ws :
      step (mkState st q ctx th ws (JoinWorker (length ws))) (mkState st q ctx th [] Returned).

(** What it waits for: due schedules, and the answers of the agents. *)
Inductive world_step : state -> state -> Prop :=
  | own s t : step s t -> world_step s t
  | dispatched q ctx ws c :
      world_step (mkState false q ctx true ws c) (mkState false (S q) ctx true ws c)
  | answers st q ctx th i b ws c :
      ws !! i = Some (Calling b) ->
      world_step (mkState st q ctx th ws c) (mkState st q ctx th (<[i := Answered]> ws) c).

Definition reached (s : state) : Prop := rtc world_step start s.

(** ** Which contexts are registered *)
Definition in_call (w : worker) : bool := match w with Calling _ | Answered => true | _ => false end.
Record good (s : state) : Prop := {
  good_active : caller s <> Returned ->
    forall i, i ∈ m_active_ctx s <-> exists w, m_workers s !! i = Some w /\ in_call w = true;
  good_stop : m_stop s = true <-> caller s <> NotCalled;
  good_joined : match caller s with JoinWorker i => i <= length (m_workers s) | _ => True end;
}.

(** A worker moves: what it has to do with its context. *)
Lemma moved (ctx ctx' : list nat) (ws : list worker) (i : nat) (w w' : worker) :
  ws !! i = Some w ->
  (forall j, j ∈ ctx' <-> if decide (j = i) then in_call w' = true else j ∈ ctx) ->
  (forall j, j ∈ ctx <-> exists w, ws !! j = Some w /\ in_call w = true) ->
  forall j, j ∈ ctx' <-> exists x, <[i := w']> ws !! j = Some x /\ in_call x = true.
Proof.
  intros Hi Hc Ha j. rewrite Hc. destruct (decide (j = i)) as [->|Hj].
  - rewrite list_lookup_insert_eq by by eapply lookup_lt_Some. split; [eauto|]. by intros (x & [= <-] & E).
  - rewrite list_lookup_insert_ne by done. apply Ha.
Qed.
(** It had no context, or keeps it. *)
Lemma moved_same (ctx : list nat) (ws : list worker) (i : nat) (w w' : worker) :
  ws !! i = Some w -> in_call w' = in_call w ->
  (forall j, j ∈ ctx <-> exists w, ws !! j = Some w /\ in_call w = true) ->
  forall j, j ∈ ctx <-> exists x, <[i := w']> ws !! j = Some x /\ in_call x = true.
Proof.
  intros Hi E Ha. apply (moved ctx ctx ws i w w'); [done| |done]. intros j. destruct (decide (j = i)) as [->|]; [|done].
  rewrite Ha, E. split; [intros (x & Hx & Hc); congruence|eauto].
Qed.
Lemma cancel_all_lookup (ctx : list nat) (ws : list worker) (i : nat) (w : worker) :
  ws !! i = Some w -> cancel_all ctx ws !! i = Some (if decide (i ∈ ctx) then try_cancel w else w).
Proof. intros H. unfold cancel_all. by rewrite list_lookup_imap, H. Qed.
Lemma cancel_all_in_call (ctx : list nat) (ws : list worker) (i : nat) :
  (exists w, cancel_all ctx ws !! i = Some w /\ in_call w = true) <-> (exists w, ws !! i = Some w /\ in_call w = true).
Proof.
  destruct (ws !! i) as [w|] eqn:E.
  - rewrite (cancel_all_lookup ctx ws i w E). split; intros (x & [= <-] & Hx); (eexists; split; [done|]);
      revert Hx; destruct (decide _), w; done.
  - unfold cancel_all. rewrite list_lookup_imap, E. by split; intros (x & Hx & _).
Qed.

Lemma active_step s t : good s -> step s t -> caller t <> Returned ->
  forall i, i ∈ m_active_ctx t <-> exists w, m_workers t !! i = Some w /\ in_call w = true.
Proof.
  intros [A P J] Hs Hc. destruct Hs; cbn in *; try specialize (A Hc); try (eapply moved_same; [eassumption|done|exact A]);
    try (by apply A).
  - eapply moved; [eassumption| |exact A]. intros j. rewrite elem_of_app, list_elem_of_singleton.
    destruct (decide (j = i)); tauto.
  - eapply moved; [eassumption| |exact A]. intros j. rewrite list_elem_of_filter. destruct (decide (j = i)); [|tauto].
    by split; [intros [? _]|].
  - intros i. rewrite (A ltac:(done) i). symmetry. apply cancel_all_in_call.
  - done.
Qed.
Lemma control_step s t : good s -> step s t ->
  (m_stop t = true <-> caller t <> NotCalled) /\
  match caller t with JoinWorker i => i <= length (m_workers t) | _ => True end.
Proof.
  intros [A P J] Hs. destruct Hs; cbn in *; rewrite ?length_insert; (split; [|try done; try lia]); try done.
  all: try (rewrite P; split; discriminate). all: try (by split).
  apply lookup_lt_Some in H. lia.
Qed.
Lemma cancel_step_good s t : good s -> step s t -> good t.
Proof. intros G Hs. destruct (control_step s t G Hs). split; [by apply (active_step s)|done|done]. Qed.
Lemma good_world s t : good s -> world_step s t -> good t.
Proof.
  intros G Hs. destruct Hs as [s t Hs|q ctx ws c|st q ctx th i b ws c Hi]; [by apply (cancel_step_good s)|..]; destruct G as [A P J];
    split; cbn in *; rewrite ?length_insert; try done.
  intros Hc. eapply moved_same; [exact Hi|done|by apply A].
Qed.
Lemma cancel_start_good : good start.
Proof.
  split; cbn; [|by split|done]. intros _ i. split; [by intros ?%elem_of_nil|].
  intros (w & H & E). by do 4 (destruct i as [|i]; [injection H as <-; discriminate E|]).
Qed.
Lemma cancel_reached_good s : reached s -> good s.
Proof.
  unfold reached. intros H. pose proof cancel_start_good as G. revert G.
  induction H as [|s0 s1 s2 H1 H2 IH]; intros G; [done|]. apply IH. by apply (good_world s0).
Qed.

(** ** After the cancellation *)
Definition past (c : stopper) : Prop := match c with NotCalled | CancelAll => False | _ => True end.
(** The calls that still wait for their agents are made by workers that were
    preparing them at that time. *)
Definition late_only (ws : list worker) (s : state) : Prop :=
  past (caller s) /\ m_stop s = true /\
  forall i w, m_workers s !! i = Some w -> w = Preparing \/ w = Calling false -> ws !! i = Some Preparing.

Lemma late_insert (ws ws' : list worker) (i : nat) (x y : worker) (Hi : ws' !! i = Some x) :
  (y = Preparing \/ y = Calling false -> x = Preparing) ->
  (forall j w, ws' !! j = Some w -> w = Preparing \/ w = Calling false -> ws !! j = Some Preparing) ->
  forall j w, <[i := y]> ws' !! j = Some w -> w = Preparing \/ w = Calling false -> ws !! j = Some Preparing.
Proof.
  intros Hy H j w [(<- & <- & _)|[_ Hj]]%list_lookup_insert_Some Hw; [|by apply (H j w)].
  apply (H i x Hi). left. by apply Hy.
Qed.
Lemma late_step ws s t : late_only ws s -> world_step s t -> late_only ws t.
Proof.
  intros (Hp & Hm & H) Hs. destruct Hs as [s t Hs|q ctx ws' c|st q ctx th i b ws' c Hi]; [destruct Hs|..]; cbn in *; subst; try done.
  all: (split; [done|]; split; [done|]); try exact H; try (eapply late_insert; [eassumption| |exact H]; intros [?|?]; congruence || discriminate).
Qed.
Lemma late_steps ws s t : late_only ws s -> rtc world_step s t -> late_only ws t.
Proof. intros H Hs. induction Hs as [|s u t H1 H2 IH]; [done|]. apply IH. by apply (late_step ws s). Qed.
Lemma late_start s t : good s -> caller s = CancelAll -> step s t -> caller t <> CancelAll ->
  late_only (m_workers s) t /\ forall i b, m_workers t !! i = Some (Calling b) -> b = true.
Proof.
  intros [A P J] Hc Hs Ht. destruct Hs; cbn in *; subst; try done.
  assert (st = true) as -> by by apply P. specialize (A ltac:(done)).
  assert (forall i w, cancel_all ctx ws !! i = Some w ->
    exists x, ws !! i = Some x /\ w = if decide (i ∈ ctx) then try_cancel x else x) as Hinv.
  { intros i w H. unfold cancel_all in H. rewrite list_lookup_imap in H. destruct (ws !! i) as [x|]; [|done].
    injection H as <-. by exists x. }
  split.
  - split; [done|]. split; [done|]. intros i w (x & Hx & ->)%Hinv Hw. destruct (decide (i ∈ ctx)) as [Hi|Hi].
    + destruct x; cbn in Hw; destruct Hw; congruence.
    + destruct Hw as [->| ->]; [done|]. exfalso. apply Hi, A. by exists (Calling false).
  - intros i b (x & Hx & E)%Hinv. destruct (decide (i ∈ ctx)) as [Hi|Hi].
    + destruct x; cbn in E; congruence.
    + exfalso. apply Hi, A. exists (Calling b). by rewrite Hx, <- E.
Qed.

(** *** The steps that are left *)
Definition weight (w : worker) : nat :=
  match w with Gone => 0 | Top => 1 | Recording => 2 | Answered => 3 | Calling _ => 4 | Preparing => 5 end.
Definition caller_rank (workers : nat) (c : stopper) : nat :=
  match c with Returned => 0 | JoinWorker i => 1 + (workers - i) | JoinLoop => 2 + workers | CancelAll => 3 + workers
  | NotCalled => 4 + workers end.
Definition total (ws : list worker) : nat := sum_list_with weight ws.
Definition rank (s : state) : nat :=
  m_queue s + (if m_thread s then 1 else 0) + total (m_workers s) + caller_rank (length (m_workers s)) (caller s).

Lemma weight_insert ws i w w' : ws !! i = Some w -> total (<[i := w']> ws) + weight w = total ws + weight w'.
Proof.
  intros H. rewrite (insert_take_drop ws i w') by by eapply lookup_lt_Some. rewrite <- (take_drop_middle ws i w H) at 3.
  unfold total. rewrite !sum_list_with_app. cbn. lia.
Qed.
Lemma weight_imap f ws : (forall i w, weight (f i w) = weight w) -> total (imap f ws) = total ws.
Proof.
  revert f. induction ws as [|w ws IH]; intros f Hf; [done|]. rewrite imap_cons. unfold total in *. cbn.
  rewrite Hf, IH; [done|]. intros i x. apply Hf.
Qed.
Lemma weight_cancel ctx ws : total (cancel_all ctx ws) = total ws.
Proof. apply weight_imap. intros i w. destruct (decide _); [by destruct w|done]. Qed.

(** Once [m_stop] is set, every step of the program is one less. *)
Lemma cancel_step_rank s t : step s t -> m_stop s = true -> m_stop t = true /\ rank t < rank s.
Proof.
  intros Hs Hm. destruct Hs; cbn in Hm; subst; try done; (split; [done|]); unfold rank;
    cbn [m_queue m_thread m_workers caller caller_rank]; rewrite ?length_insert, ?weight_cancel;
    try match goal with
    | H : ?ws !! ?i = Some _ |- context [total (<[?i := ?w]> ?ws)] => pose proof (weight_insert ws i _ w H) as E; cbn in E
    end; try lia.
  - unfold cancel_all. rewrite length_imap. lia.
  - match goal with H : _ !! _ = Some Gone |- _ => apply lookup_lt_Some in H end. lia.
  - cbn. lia.
Qed.
Lemma cancel_steps_rank k s t : nsteps step k s t -> m_stop s = true -> k + rank t <= rank s.
Proof.
  induction 1 as [s|k s t u Hs H IH]; intros Hr; [lia|]. destruct (cancel_step_rank s t Hs Hr) as [Hr' Hlt]. specialize (IH Hr'). lia.
Qed.

Lemma goes_on s : good s -> past (caller s) -> Calling false ∉ m_workers s -> caller s = Returned \/ exists t, step s t.
Proof.
  intros [A P J] Hp Hn. destruct s as [st q ctx th ws c]. cbn in *.
  assert (st = true) as -> by (apply P; by intros ->).
  destruct c as [| | |i|]; try done; [| |by left]; right.
  - destruct th; eexists; [apply loop_exits|apply joins_loop].
  - destruct (ws !! i) as [w|] eqn:Hi; [|apply lookup_ge_None_1 in Hi; assert (i = length ws) as -> by lia; eexists; apply clears].
    destruct w as [| |[]| | |]; [destruct q| | |exfalso; by apply Hn, (list_elem_of_lookup_2 _ i)|..]; eexists.
    + by apply leaves with (i := i).
    + by apply abandons with (i := i).
    + by apply skips with (i := i).
    + by apply is_cancelled with (i := i).
    + by apply unregisters with (i := i).
    + by apply records with (i := i).
    + by apply joins_worker.
Qed.

(** Claim C18: what [Stop] of the command scheduler waits for.  Its cancellation
    reaches every call under way at that moment.  From then on only a
    worker that was still preparing its call (writing the row of the run,
    asking the registry, dialling) can be in a call that is not cancelled,
    and if no worker was preparing one, [Stop] returns after a bounded number of
    steps of the program alone, whatever the agents do. *)
Theorem Stop_cancels_calls (s t : state) :
  reached s -> caller s = CancelAll -> step s t -> caller t <> CancelAll ->
  (forall i b, m_workers t !! i = Some (Calling b) -> b = true) /\
  (forall u, rtc world_step t u -> forall i, m_workers u !! i = Some (Calling false) -> m_workers s !! i = Some Preparing) /\
  (Preparing ∉ m_workers s ->
    (forall k u, nsteps step k t u -> k <= rank t) /\
    (forall u, rtc world_step t u -> caller u = Returned \/ exists v, step u v)).
Proof.
  intros Hr Hc Hs Ht. pose proof (cancel_reached_good s Hr) as G. destruct (late_start s t G Hc Hs Ht) as [L Hall].
  assert (forall u, rtc world_step t u -> good u) as Gu.
  { intros u Hu. apply cancel_reached_good. unfold reached. etransitivity; [exact Hr|]. eapply rtc_l; [by apply own|exact Hu]. }
  split; [exact Hall|]. split.
  - intros u Hu i Hi. destruct (late_steps _ t u L Hu) as (_ & _ & H). apply (H i _ Hi). by right.
  - intros Hn. split; [intros k u Hk; pose proof (cancel_steps_rank k t u Hk (proj1 (proj2 L))); lia|].
    intros u Hu. destruct (late_steps _ t u L Hu) as (Hp & _ & H). apply goes_on; [by apply Gu|done|].
    intros [i Hi]%list_elem_of_lookup. apply Hn, (list_elem_of_lookup_2 _ i), (H i _ Hi). by right.
Qed.

(** *** Witnesses *)
Lemma cancel_reached_step s t : reached s -> world_step s t -> reached t.
Proof. intros H Hs. unfold reached. eapply rtc_r; [exact H|exact Hs]. Defined.

(** One worker in a call, one at the top with another run in the queue. *)
Definition demo_calling : state := mkState true 1 [0] true [Calling false; Top; Top; Top] CancelAll.
Lemma demo_calling_reached : reached demo_calling.
Proof.
  eapply cancel_reached_step; [|apply own, called]. eapply cancel_reached_step; [|apply dispatched].
  eapply cancel_reached_step; [|apply own, (registers _ _ [] _ 0 [Preparing; Top; Top; Top]); reflexivity].
  eapply cancel_reached_step; [|apply own, (takes _ _ _ 0 [Top; Top; Top; Top]); reflexivity].
  eapply cancel_reached_step; [|apply dispatched]. apply rtc_refl.
Defined.
Lemma Stop_cancels_calls_witness :
  let t := mkState true 1 [0] true [Calling true; Top; Top; Top] JoinLoop in
  step demo_calling t /\ (forall k u, nsteps step k t u -> k <= 15).
Proof.
  cbv zeta. assert (step demo_calling (mkState true 1 [0] true [Calling true; Top; Top; Top] JoinLoop)) as Hs
    by exact (cancels true 1 [0] true [Calling false; Top; Top; Top]).
  split; [exact Hs|].
  destruct (Stop_cancels_calls demo_calling _ demo_calling_reached eq_refl Hs ltac:(discriminate)) as (_ & _ & H).
  apply H. intros E. repeat (apply elem_of_cons in E as [E|E]; [discriminate E|]). by apply elem_of_nil in E.
Defined.

(** A worker that was preparing its call when [Stop] cancelled: [Stop] then
    waits for the agent, up to the deadline of the call. *)
Definition demo_late : state := mkState true 0 [0] false [Calling false; Gone; Gone; Gone] (JoinWorker 0).
Theorem late_call_is_waited_for : reached demo_late /\ forall t, ~ step demo_late t.
Proof.
  split.
  - eapply cancel_reached_step; [|apply own, joins_loop]. eapply cancel_reached_step; [|apply own, loop_exits].
    eapply cancel_reached_step; [|apply own, (leaves _ _ 3 [Calling false; Gone; Gone; Top]); reflexivity].
    eapply cancel_reached_step; [|apply own, (leaves _ _ 2 [Calling false; Gone; Top; Top]); reflexivity].
    eapply cancel_reached_step; [|apply own, (leaves _ _ 1 [Calling false; Top; Top; Top]); reflexivity].
    eapply cancel_reached_step; [|apply own, (registers _ _ [] _ 0 [Preparing; Top; Top; Top]); reflexivity].
    eapply cancel_reached_step; [|apply own, (cancels _ _ [] _ [Preparing; Top; Top; Top])].
    eapply cancel_reached_step; [|apply own, called].
    eapply cancel_reached_step; [|apply own, (takes _ _ _ 0 [Top; Top; Top; Top]); reflexivity].
    eapply cancel_reached_step; [|apply dispatched]. apply rtc_refl.
  - intros t Hs. inversion Hs; subst; try discriminate;
      match goal with H : _ !! ?i = Some _ |- _ => by do 4 (destruct i as [|i]; [discriminate H|]) end.
Qed.
End Cancel.
