(* ===== verification/Storage.v ===== *)
(** * Storage: the TimescaleDB client of the collector

    Models [collector/src/storage/timescale_storage.cpp]: connection handling,
    the SQL text of every statement, the decoding of result rows, the error
    reports and the counters.  libpq and the server behind it are third-party:
    the class [Libpq] gives their operations over an abstract world [W]. *)
From stdpp Require Import base gmap strings list.
From Stdlib Require Import ZArith Lia Ascii.
From S2P Require Import Prelude Double Proto Text AlertRule Schedules.
Import Str.
#[local] Open Scope string_scope.
#[local] Open Scope list_scope.

(** The status of a [PGresult]; a null column is [None]. *)
Inductive PGresult : Type :=
  | PGRES_COMMAND_OK (cmd_tuples : string)
  | PGRES_TUPLES_OK (result_rows : list (list (option string)))
  | PGRES_FATAL_ERROR.

Class Libpq (W : Type) : Type := {
  PQconnectdb : string -> W -> W;               (* the new connection *)
  PQstatus : W -> bool;                          (* == CONNECTION_OK *)
  PQexec : string -> W -> PGresult * W;
  PQerrorMessage : W -> string;
  PQescapeLiteral : W -> string -> option string;
}.

(** [PQgetvalue]: the empty string for a null. *)
Definition PQgetvalue (row : list (option string)) (i : nat) : string :=
  match row !! i with Some (Some v) => v | _ => "" end.
Definition PQgetisnull (row : list (option string)) (i : nat) : bool :=
  match row !! i with Some (Some _) => false | _ => true end.
Definition command_ok (r : PGresult) : bool :=
  match r with PGRES_COMMAND_OK _ => true | _ => false end.

Record StorageConfig : Type := mkConfig {
  host : string;
  port : Z;
  dbname : string;
  user : string;
  password : string;
  batch_size : Z;
}.

Record StorageStats : Type := mkStats {
  metrics_written : Z;
  batches_written : Z;
  errors : Z;
  insert_latency_total_ms : Z;
}.

(** *** Decoding of result rows *)
Module Rows.
Definition PgBool (v : string) : bool :=
  match v with String c _ => Ascii.eqb c "t"%char | EmptyString => false end.
Definition PgBoolToJson (v : string) : string := if PgBool v then "true" else "false".

Definition stoll_or_throw (v : string) : outcome Z :=
  match stoll v with Some z => Returns z | None => Throws "stoll" end.

Definition ReadScheduleRow (row : list (option string)) : outcome CommandSchedule :=
  let get := PQgetvalue row in
  let! ws := stoll_or_throw (get 5) in
  let! we := stoll_or_throw (get 6) in
  let! interval := stoll_or_throw (get 7) in
  let! next := stoll_or_throw (get 8) in
  Returns (mkSchedule (get 0) (get 1) (get 2) (get 3)
    (if is_empty (get 4) then "{}" else get 4) ws we interval next (PgBool (get 9))).

Definition ReadRunRow (row : list (option string)) : outcome CommandRun :=
  let get := PQgetvalue row in
  let! id := stoll_or_throw (get 0) in
  let! scheduled := stoll_or_throw (get 4) in
  let! started := stoll_or_throw (get 5) in
  let! finished := (if PQgetisnull row 6 then Returns 0%Z else stoll_or_throw (get 6)) in
  let has := negb (PQgetisnull row 7) in
  Returns (mkRun id (get 1) (get 2) (get 3) scheduled started finished
    (if has then PgBool (get 7) else false) has (get 8) (get 9)
    (if is_empty (get 10) then "{}" else get 10)
    (if is_empty (get 11) then "[]" else get 11) (get 12)).

(** [ReadScheduleRow] of every row of a result, in order. *)
Fixpoint read_all {A} (f : list (option string) -> outcome A) (rows : list (list (option string)))
    : outcome (list A) :=
  match rows with
  | [] => Returns []
  | row :: rest => let! x := f row in let! l := read_all f rest in Returns (x :: l)
  end.

(** How PostgreSQL prints the columns of a row. *)
Definition print_bool (b : bool) : string := if b then "t" else "f".
Definition print_schedule (s : CommandSchedule) : list (option string) :=
  Some <$> [s_id s; s_label s; s_agent_id s; s_command_id s; s_params_json s;
            of_Z (s_window_start_unix_ms s); of_Z (s_window_end_unix_ms s);
            of_Z (s_interval_sec s); of_Z (s_next_run_unix_ms s); print_bool (s_enabled s)].
Definition print_run (r : CommandRun) : list (option string) :=
  [Some (of_Z (run_id r)); Some (run_schedule_id r); Some (run_agent_id r); Some (run_command_id r);
   Some (of_Z (scheduled_unix_ms r)); Some (of_Z (started_unix_ms r));
   if has_result r then Some (of_Z (finished_unix_ms r)) else None;
   if has_result r then Some (print_bool (run_success r)) else None;
   Some (run_error r); Some (run_summary r); Some (fields_json r); Some (issues_json r); Some (run_detail r)].

Definition schedule_in_range (s : CommandSchedule) : Prop :=
  Int.in_int64 (s_window_start_unix_ms s) /\ Int.in_int64 (s_window_end_unix_ms s) /\
  Int.in_int64 (s_interval_sec s) /\ Int.in_int64 (s_next_run_unix_ms s) /\ s_params_json s <> "".
(** A run as the table holds it: no result before it is finished. *)
Definition run_in_range (r : CommandRun) : Prop :=
  Int.in_int64 (run_id r) /\ Int.in_int64 (scheduled_unix_ms r) /\ Int.in_int64 (started_unix_ms r) /\
  Int.in_int64 (finished_unix_ms r) /\ fields_json r <> "" /\ issues_json r <> "" /\
  (has_result r = false -> finished_unix_ms r = 0%Z /\ run_success r = false).

Lemma stoll_or_throw_of_Z z : Int.in_int64 z -> stoll_or_throw (of_Z z) = Returns z.
Proof. intros H. unfold stoll_or_throw. by rewrite stoll_of_Z. Qed.
Lemma PgBool_print b : PgBool (print_bool b) = b.
Proof. by destruct b. Qed.
#[export] Hint Rewrite @PgBool_print : pudim.

Lemma ReadScheduleRow_print s : schedule_in_range s -> ReadScheduleRow (print_schedule s) = Returns s.
Proof.
  destruct s as [id label agent command params ws we iv next en].
  intros (H1 & H2 & H3 & H4 & H5). unfold ReadScheduleRow, PQgetvalue. simpl in *.
  rewrite !stoll_or_throw_of_Z by done. simpl.
  by rewrite PgBool_print, (proj2 (is_empty_false params)).
Qed.

Lemma ReadRunRow_print r : run_in_range r -> ReadRunRow (print_run r) = Returns r.
Proof.
  destruct r as [id sid agent command sch st fin ok has err sum fj ij det].
  intros (H1 & H2 & H3 & H4 & H5 & H6 & H7). unfold ReadRunRow, PQgetvalue, PQgetisnull. simpl in *.
  rewrite !stoll_or_throw_of_Z by done. simpl.
  destruct has; simpl; rewrite ?stoll_or_throw_of_Z by done; simpl;
    rewrite (proj2 (is_empty_false fj)), (proj2 (is_empty_false ij)) by done.
  - by rewrite PgBool_print.
  - by destruct (H7 eq_refl) as [-> ->].
Qed.

(** Rows survive the trip through the database: what
    [ReadScheduleRow] and [ReadRunRow] read back from the printed columns is
    the schedule and the run that were stored, nulls of an unfinished run
    included, for every list of rows in the 64-bit range. *)
Theorem rows_roundtrip (schedules : list CommandSchedule) (runs : list CommandRun) :
  Forall schedule_in_range schedules -> Forall run_in_range runs ->
  read_all ReadScheduleRow (map print_schedule schedules) = Returns schedules /\
  read_all ReadRunRow (map print_run runs) = Returns runs.
Proof.
  intros Hs Hr. split.
  - induction Hs as [|s l H _ IH]; [done|]. simpl. by rewrite ReadScheduleRow_print, IH.
  - induction Hr as [|r l H _ IH]; [done|]. simpl. by rewrite ReadRunRow_print, IH.
Qed.

Lemma rows_roundtrip_witness :
  read_all ReadScheduleRow (map print_schedule [Tables.demo_row]) = Returns [Tables.demo_row] /\
  read_all ReadRunRow [print_run (Tables.finish_row (Tables.demo_run 7) (Tables.demo_run 7))] =
    Returns [Tables.finish_row (Tables.demo_run 7) (Tables.demo_run 7)].
Proof.
  refine (rows_roundtrip [Tables.demo_row] [Tables.finish_row (Tables.demo_run 7) (Tables.demo_run 7)] _ _);
    apply Forall_singleton; vm_compute; repeat split; congruence.
Defined.
End Rows.

Module Timescale.
Section Timescale.
Context {W : Type} `{Libpq W}.
(** The order in which a protobuf map is traversed. *)
Variable iter : gmap string string -> list (string * string).

Record impl : Type := mkImpl {
  conn : bool;                 (* conn != nullptr *)
  config : StorageConfig;
  stats : StorageStats;
  world : W;
}.
Definition with_world (w : W) (s : impl) : impl := mkImpl (conn s) (config s) (stats s) w.
Definition with_conn (c : bool) (s : impl) : impl := mkImpl c (config s) (stats s) (world s).
Definition with_stats (t : StorageStats) (s : impl) : impl := mkImpl (conn s) (config s) t (world s).

Definition EscapeLiteral (w : W) (s : string) : string :=
  if is_empty s then "''" else match PQescapeLiteral w s with Some e => e | None => "''" end.

Definition attributes_body (m : Metric) : string :=
  "{" +:+ sjoin "," (map (fun kv => dq +:+ Text.EscapeJson (fst kv) +:+ dq +:+ ":" +:+
                                     dq +:+ Text.EscapeJson (snd kv) +:+ dq) (iter (attributes m))) +:+ "}".
Definition AttributesJsonLiteral (w : W) (m : Metric) : string :=
  match PQescapeLiteral w (attributes_body m) with
  | Some e => e +:+ "::jsonb"
  | None => "'{}'::jsonb"
  end.

Definition JsonbLiteral (w : W) (json : string) : string :=
  match PQescapeLiteral w (if is_empty json then "{}" else json) with
  | Some e => e +:+ "::jsonb"
  | None => "'{}'::jsonb"
  end.

Definition BuildConnInfo (cfg : StorageConfig) : string :=
  "host=" +:+ host cfg +:+ " port=" +:+ of_Z (port cfg) +:+ " dbname=" +:+ dbname cfg
  +:+ " user=" +:+ user cfg +:+ " password=" +:+ password cfg
  +:+ " connect_timeout=5" +:+ " options='-c statement_timeout=5000'"
  +:+ " keepalives=1 keepalives_idle=10 keepalives_interval=5 keepalives_count=3".

(** [PQexec] on the shared connection. *)
Definition exec (sql : string) (s : impl) : PGresult * impl :=
  let '(res, w) := PQexec sql (world s) in (res, with_world w s).

Definition ExecSimple (sql : string) (s : impl) : bool * impl :=
  let '(res, s) := exec sql s in
  (match res with PGRES_FATAL_ERROR => false | _ => true end, s).

Definition EnsureConnected (s : impl) : impl :=
  if conn s && PQstatus (world s) then s
  else
    let w := PQconnectdb (BuildConnInfo (config s)) (world s) in
    with_conn (PQstatus w) (with_world w s).

Definition usable (s : impl) : bool := conn s && PQstatus (world s).

(** *** Connect: the schema *)

Definition schema : string :=
"
CREATE TABLE IF NOT EXISTS network_metrics (
  time           TIMESTAMPTZ NOT NULL,
  agent_id       TEXT        NOT NULL,
  check_type     TEXT        NOT NULL,
  target         TEXT        NOT NULL,
  success        BOOLEAN     NOT NULL,
  latency_ms     DOUBLE PRECISION,
  packet_loss_pct DOUBLE PRECISION,
  jitter_ms      DOUBLE PRECISION,
  rtt_ms         DOUBLE PRECISION,
  status_code    BIGINT,
  detail         TEXT,
  seq            BIGINT,
  monotonic_us   BIGINT,
  attributes     JSONB,
  PRIMARY KEY (time, agent_id, check_type, target, seq)
);
".
Definition hypertable : string :=
"
DO $$
BEGIN
  IF NOT EXISTS (SELECT 1 FROM timescaledb_information.hypertables
                 WHERE hypertable_name = 'network_metrics') THEN
      PERFORM create_hypertable('network_metrics', 'time', chunk_time_interval => INTERVAL '1 hour');
  END IF;
END $$;
".
Definition schedule_schema : string :=
"
CREATE TABLE IF NOT EXISTS command_schedules (
  id                    TEXT PRIMARY KEY,
  label                 TEXT NOT NULL DEFAULT '',
  agent_id              TEXT NOT NULL,
  command_id            TEXT NOT NULL,
  params                JSONB NOT NULL DEFAULT '{}'::jsonb,
  window_start_unix_ms  BIGINT NOT NULL,
  window_end_unix_ms    BIGINT NOT NULL,
  interval_sec          BIGINT NOT NULL,
  next_run_unix_ms      BIGINT NOT NULL,
  enabled               BOOLEAN NOT NULL DEFAULT TRUE,
  created_at            TIMESTAMPTZ NOT NULL DEFAULT now()
);
CREATE INDEX IF NOT EXISTS idx_command_schedules_due
  ON command_schedules (enabled, window_end_unix_ms, next_run_unix_ms);
".
Definition runs_schema : string :=
"
CREATE TABLE IF NOT EXISTS command_runs (
  run_id             BIGSERIAL PRIMARY KEY,
  schedule_id        TEXT NOT NULL DEFAULT '',
  agent_id           TEXT NOT NULL,
  command_id         TEXT NOT NULL,
  scheduled_unix_ms  BIGINT NOT NULL,
  started_unix_ms    BIGINT NOT NULL,
  finished_unix_ms   BIGINT,
  success            BOOLEAN,
  error              TEXT NOT NULL DEFAULT '',
  summary            TEXT NOT NULL DEFAULT '',
  fields             JSONB NOT NULL DEFAULT '{}'::jsonb,
  issues             JSONB NOT NULL DEFAULT '[]'::jsonb,
  detail             TEXT NOT NULL DEFAULT ''
);
CREATE INDEX IF NOT EXISTS idx_command_runs_agent_time
  ON command_runs (agent_id, started_unix_ms DESC);
CREATE INDEX IF NOT EXISTS idx_command_runs_schedule_time
  ON command_runs (schedule_id, started_unix_ms DESC);
".

(** The statements of [Connect] in order; the flag marks those whose failure
    makes [Connect] fail. *)
Definition connect_statements : list (bool * string) :=
  [(true, "CREATE EXTENSION IF NOT EXISTS timescaledb;");
   (true, schema);
   (true, hypertable);
   (true, "CREATE INDEX IF NOT EXISTS idx_network_metrics_agent_check " +:+
          "ON network_metrics (agent_id, check_type, time DESC);");
   (false, "ALTER TABLE network_metrics SET (timescaledb.compress, " +:+
           "timescaledb.compress_segmentby = 'agent_id');");
   (false, "SELECT add_retention_policy('network_metrics', INTERVAL '30 days');");
   (true, schedule_schema);
   (true, runs_schema)].

Fixpoint exec_statements (l : list (bool * string)) (s : impl) : bool * impl :=
  match l with
  | [] => (true, s)
  | (fatal, sql) :: rest =>
      let '(ok, s) := ExecSimple sql s in
      if fatal && negb ok then (false, s) else exec_statements rest s
  end.

Definition Connect (s : impl) : bool * impl :=
  let w := PQconnectdb (BuildConnInfo (config s)) (world s) in
  if negb (PQstatus w) then (false, with_conn false (with_world w s))
  else exec_statements connect_statements (with_conn true (with_world w s)).

(** *** InsertMetrics *)

Definition insert_header : string :=
  "INSERT INTO network_metrics " +:+
  "(time, agent_id, check_type, target, success, " +:+
  " latency_ms, packet_loss_pct, jitter_ms, rtt_ms, " +:+
  " status_code, detail, seq, monotonic_us, attributes) VALUES ".

Definition optional_double (d : option double) : string :=
  match d with Some x => Double.to_string x | None => "NULL" end.

(** The parenthesised tuple of one metric stored at [ts_ms]. *)
Definition value_tuple (w : W) (agent_id : string) (ts_ms : Z) (m : Metric) : string :=
  "(to_timestamp(" +:+ of_Z (Z.quot ts_ms 1000) +:+ "::double precision + "
  +:+ Double.to_string (Double.div (Double.of_Z (Z.rem ts_ms 1000)) (Double.of_Z 1000)) +:+ "), "
  +:+ EscapeLiteral w agent_id +:+ ", "
  +:+ "'" +:+ AlertRule.SqlCheckTypeToString (check_type m) +:+ "', "
  +:+ EscapeLiteral w (target m) +:+ ", "
  +:+ (if success m then "true" else "false") +:+ ", "
  +:+ optional_double (latency_ms m) +:+ ", "
  +:+ optional_double (packet_loss_pct m) +:+ ", "
  +:+ optional_double (jitter_ms m) +:+ ", "
  +:+ optional_double (rtt_ms m) +:+ ", "
  +:+ (match status_code m with Some c => of_Z c | None => "NULL" end) +:+ ", "
  +:+ (if is_empty (detail m) then "NULL" else EscapeLiteral w (detail m)) +:+ ", "
  +:+ of_Z (seq m) +:+ ", " +:+ of_Z (monotonic_us m) +:+ ", "
  +:+ AttributesJsonLiteral w m +:+ ")".

(** The local variables captured by [flush]. *)
Record insert_state : Type := mkInsert {
  total_inserted : Z;
  batch_rows : Z;
  sql : string;
  first_value : bool;
}.

Definition bump_errors (t : StorageStats) : StorageStats :=
  mkStats (metrics_written t) (batches_written t) (Int.u64 (errors t + 1)) (insert_latency_total_ms t).
Definition bump_batches (t : StorageStats) : StorageStats :=
  mkStats (metrics_written t) (Int.u64 (batches_written t + 1)) (errors t) (insert_latency_total_ms t).
Definition bump_written (n ms : Z) (t : StorageStats) : StorageStats :=
  mkStats (Int.u64 (metrics_written t + n)) (batches_written t) (errors t)
    (Int.u64 (insert_latency_total_ms t + Int.u64 ms)).

Definition flush (v : insert_state) (s : impl) : bool * insert_state * impl :=
  if (batch_rows v =? 0)%Z then (true, v, s)
  else
    let '(res, s) := exec (sql v +:+ " ON CONFLICT DO NOTHING;") s in
    if command_ok res then
      (true, mkInsert (total_inserted v + batch_rows v) 0 "" true, with_stats (bump_batches (stats s)) s)
    else (false, mkInsert (total_inserted v) 0 "" true, with_stats (bump_errors (stats s)) s).

Fixpoint insert_loop (agent_id : string) (ts : Z) (metrics : list Metric) (v : insert_state) (s : impl)
    : bool * insert_state * impl :=
  match metrics with
  | [] => (true, v, s)
  | m :: rest =>
      let sql' := if first_value v then sql v else sql v +:+ "," in
      let ts_ms := (ts + (total_inserted v + batch_rows v))%Z in
      let v := mkInsert (total_inserted v) (batch_rows v + 1)
                 (sql' +:+ value_tuple (world s) agent_id ts_ms m) false in
      if (batch_size (config s) <=? batch_rows v)%Z then
        let '(ok, v, s) := flush v s in
        if ok then insert_loop agent_id ts rest v s else (false, v, s)
      else insert_loop agent_id ts rest v s
  end.

(** [elapsed_ms] is the measured duration. *)
Definition InsertMetrics (agent_id : string) (batch_timestamp_unix_ms : Z) (metrics : list Metric)
    (elapsed_ms : Z) (s : impl) : bool * impl :=
  let s := EnsureConnected s in
  if negb (usable s) then (false, s)
  else
    let '(ok, v, s) := insert_loop agent_id batch_timestamp_unix_ms metrics
                         (mkInsert 0 0 insert_header true) s in
    if negb ok then (false, s)
    else
      let '(ok, v, s) := flush v s in
      if negb ok then (false, s)
      else (true, with_stats (bump_written (total_inserted v) elapsed_ms (stats s)) s).

(** *** Queries and the schedule statements *)

Definition row_json (row : list (option string)) : string :=
  let get := PQgetvalue row in
  "{" +:+ dq +:+ "time_ms" +:+ dq +:+ ":" +:+ get 0 +:+ ","
  +:+ dq +:+ "agent_id" +:+ dq +:+ ":" +:+ dq +:+ Text.EscapeJson (get 1) +:+ dq +:+ ","
  +:+ dq +:+ "check_type" +:+ dq +:+ ":" +:+ dq +:+ Text.EscapeJson (get 2) +:+ dq +:+ ","
  +:+ dq +:+ "target" +:+ dq +:+ ":" +:+ dq +:+ Text.EscapeJson (get 3) +:+ dq +:+ ","
  +:+ dq +:+ "success" +:+ dq +:+ ":" +:+ Rows.PgBoolToJson (get 4) +:+ ","
  +:+ dq +:+ "value" +:+ dq +:+ ":" +:+ (if is_empty (get 5) then "0" else get 5) +:+ ","
  +:+ dq +:+ "attributes" +:+ dq +:+ ":"
  +:+ (if is_empty (get 6) || String.eqb (get 6) "{}" then "{}" else get 6) +:+ "}".

Definition query_sql (w : W) (agent_id check_type : string) (window_seconds : Z) : string :=
  "SELECT " +:+
  "  EXTRACT(EPOCH FROM time) * 1000 AS time_ms, " +:+
  "  agent_id, check_type, target, success, " +:+
  "  COALESCE(latency_ms, packet_loss_pct, jitter_ms, rtt_ms, " +:+
  "           status_code::double precision, 0) AS value, " +:+
  "  attributes " +:+
  "FROM network_metrics " +:+
  "WHERE time > now() - make_interval(secs => " +:+ of_Z window_seconds +:+ ")"
  +:+ (if is_empty agent_id then "" else " AND agent_id = " +:+ EscapeLiteral w agent_id)
  +:+ (if is_empty check_type then "" else " AND check_type = " +:+ EscapeLiteral w check_type)
  +:+ " ORDER BY time ASC LIMIT 10000;".

Definition QueryMetricsJson (agent_id check_type : string) (window_seconds : Z) (s : impl)
    : string * impl :=
  let s := EnsureConnected s in
  if negb (usable s) then ("[]", s)
  else
    let '(res, s) := exec (query_sql (world s) agent_id check_type window_seconds) s in
    match res with
    | PGRES_TUPLES_OK rows => ("[" +:+ sjoin "," (map row_json rows) +:+ "]", s)
    | _ => ("[]", s)
    end.

Definition schedule_columns : string :=
  "SELECT id, label, agent_id, command_id, params, " +:+
  "window_start_unix_ms, window_end_unix_ms, interval_sec, " +:+
  "next_run_unix_ms, enabled FROM command_schedules ".

(** A SELECT whose rows are decoded with [read]; nothing when storage or the
    statement fails. *)
Definition select {A} (read : list (option string) -> outcome A) (sql : W -> string) (s : impl)
    : outcome (list A) * impl :=
  let s := EnsureConnected s in
  if negb (usable s) then (Returns [], s)
  else
    let '(res, s) := exec (sql (world s)) s in
    match res with
    | PGRES_TUPLES_OK rows => (Rows.read_all read rows, s)
    | _ => (Returns [], s)
    end.

Definition ListCommandSchedules : impl -> outcome (list CommandSchedule) * impl :=
  select Rows.ReadScheduleRow (fun _ => schedule_columns +:+ "ORDER BY created_at DESC LIMIT 200;").

Definition due_sql (now_ms : Z) : string :=
  schedule_columns +:+ "WHERE enabled AND window_start_unix_ms <= " +:+ of_Z now_ms
  +:+ " AND window_end_unix_ms >= " +:+ of_Z now_ms
  +:+ " AND next_run_unix_ms BETWEEN " +:+ of_Z (now_ms - 2000)
  +:+ " AND " +:+ of_Z (now_ms + 2000)
  +:+ " ORDER BY next_run_unix_ms ASC LIMIT 20;".
Definition ListDueCommandSchedules (now_ms : Z) : impl -> outcome (list CommandSchedule) * impl :=
  select Rows.ReadScheduleRow (fun _ => due_sql now_ms).

Definition reschedule_sql (now_ms : Z) : string :=
  "UPDATE command_schedules " +:+
  "SET next_run_unix_ms = window_start_unix_ms + " +:+
  "  interval_sec * 1000 * ((( " +:+ of_Z now_ms +:+
  " - window_start_unix_ms) / (interval_sec * 1000)) + 1) " +:+
  "WHERE enabled AND window_start_unix_ms <= " +:+ of_Z (now_ms - 2000)
  +:+ " AND window_end_unix_ms >= " +:+ of_Z now_ms
  +:+ " AND next_run_unix_ms < " +:+ of_Z (now_ms - 2000) +:+ ";".
Definition RescheduleStaleSchedules (now_ms : Z) (s : impl) : impl :=
  let s := EnsureConnected s in
  if negb (usable s) then s else snd (exec (reschedule_sql now_ms) s).

Definition create_sql (w : W) (c : CommandSchedule) : string :=
  "INSERT INTO command_schedules (id, label, agent_id, command_id, " +:+
  "params, window_start_unix_ms, window_end_unix_ms, interval_sec, " +:+
  "next_run_unix_ms, enabled) VALUES (" +:+
  EscapeLiteral w (s_id c) +:+ ", " +:+ EscapeLiteral w (s_label c) +:+ ", " +:+
  EscapeLiteral w (s_agent_id c) +:+ ", " +:+ EscapeLiteral w (s_command_id c) +:+ ", " +:+
  JsonbLiteral w (s_params_json c) +:+ ", " +:+ of_Z (s_window_start_unix_ms c) +:+ ", " +:+
  of_Z (s_window_end_unix_ms c) +:+ ", " +:+ of_Z (s_interval_sec c) +:+ ", " +:+
  of_Z (s_next_run_unix_ms c) +:+ ", " +:+ (if s_enabled c then "TRUE" else "FALSE") +:+ ");".

(** A statement reported by success and an error text ("" when the caller's
    string is left alone); [found] demands an affected row. *)
Definition command (found : bool) (sql : W -> string) (s : impl) : bool * string * impl :=
  let s := EnsureConnected s in
  if negb (usable s) then (false, "storage not available", s)
  else
    let '(res, s) := exec (sql (world s)) s in
    let '(ok, err) :=
      match res with
      | PGRES_COMMAND_OK n =>
          if found && String.eqb n "0" then (false, "schedule not found") else (true, "")
      | _ => (false, "")
      end in
    (ok, (if ok then err else PQerrorMessage (world s)), s).

Definition CreateCommandSchedule (c : CommandSchedule) : impl -> bool * string * impl :=
  command false (fun w => create_sql w c).
Definition enable_sql (w : W) (id : string) (enabled : bool) : string :=
  "UPDATE command_schedules SET enabled = " +:+ (if enabled then "TRUE" else "FALSE") +:+
  " WHERE id = " +:+ EscapeLiteral w id +:+ ";".
Definition SetCommandScheduleEnabled (id : string) (enabled : bool) : impl -> bool * string * impl :=
  command true (fun w => enable_sql w id enabled).
Definition delete_sql (w : W) (id : string) : string :=
  "DELETE FROM command_schedules WHERE id = " +:+ EscapeLiteral w id +:+ ";".
Definition DeleteCommandSchedule (id : string) : impl -> bool * string * impl :=
  command true (fun w => delete_sql w id).

Definition advance_sql (w : W) (id : string) (expected_ms new_next_ms : Z) : string :=
  "UPDATE command_schedules SET next_run_unix_ms = " +:+ of_Z new_next_ms +:+
  " WHERE id = " +:+ EscapeLiteral w id +:+ " AND next_run_unix_ms = " +:+ of_Z expected_ms +:+
  " AND enabled;".
Definition AdvanceCommandScheduleNextRun (id : string) (expected_ms new_next_ms : Z) (s : impl)
    : bool * impl :=
  let s := EnsureConnected s in
  if negb (usable s) then (false, s)
  else
    let '(res, s) := exec (advance_sql (world s) id expected_ms new_next_ms) s in
    (match res with PGRES_COMMAND_OK n => String.eqb n "1" | _ => false end, s).

Definition insert_run_sql (w : W) (r : CommandRun) : string :=
  "INSERT INTO command_runs (schedule_id, agent_id, command_id, " +:+
  "scheduled_unix_ms, started_unix_ms) VALUES (" +:+
  EscapeLiteral w (run_schedule_id r) +:+ ", " +:+ EscapeLiteral w (run_agent_id r) +:+ ", " +:+
  EscapeLiteral w (run_command_id r) +:+ ", " +:+ of_Z (scheduled_unix_ms r) +:+ ", " +:+
  of_Z (started_unix_ms r) +:+ ") RETURNING run_id;".
Definition InsertCommandRun (r : CommandRun) (s : impl) : outcome Z * string * impl :=
  let s := EnsureConnected s in
  if negb (usable s) then (Returns (-1)%Z, "storage not available", s)
  else
    let '(res, s) := exec (insert_run_sql (world s) r) s in
    match res with
    | PGRES_TUPLES_OK [row] => (Rows.stoll_or_throw (PQgetvalue row 0), "", s)
    | _ => (Returns (-1)%Z, PQerrorMessage (world s), s)
    end.

Definition finish_run_sql (w : W) (r : CommandRun) : string :=
  "UPDATE command_runs SET finished_unix_ms = " +:+ of_Z (finished_unix_ms r) +:+ ", success = " +:+
  (if run_success r then "TRUE" else "FALSE") +:+ ", error = " +:+ EscapeLiteral w (run_error r) +:+
  ", summary = " +:+ EscapeLiteral w (run_summary r) +:+ ", fields = " +:+ JsonbLiteral w (fields_json r) +:+
  ", issues = " +:+ JsonbLiteral w (if is_empty (issues_json r) then "[]" else issues_json r) +:+
  ", detail = " +:+ EscapeLiteral w (run_detail r) +:+ " WHERE run_id = " +:+ of_Z (run_id r) +:+ ";".
Definition FinishCommandRun (r : CommandRun) : impl -> bool * string * impl :=
  command false (fun w => finish_run_sql w r).

Definition list_runs_sql (w : W) (agent_id command_id schedule_id : string) (limit : Z) : string :=
  "SELECT run_id, schedule_id, agent_id, command_id, " +:+
  "scheduled_unix_ms, started_unix_ms, finished_unix_ms, success, " +:+
  "error, summary, fields, issues, detail FROM command_runs WHERE 1=1"
  +:+ (if is_empty agent_id then "" else " AND agent_id = " +:+ EscapeLiteral w agent_id)
  +:+ (if is_empty command_id then "" else " AND command_id = " +:+ EscapeLiteral w command_id)
  +:+ (if is_empty schedule_id then "" else " AND schedule_id = " +:+ EscapeLiteral w schedule_id)
  +:+ " ORDER BY started_unix_ms DESC LIMIT " +:+ of_Z (Tables.run_limit limit) +:+ ";".
Definition ListCommandRuns (agent_id command_id schedule_id : string) (limit : Z)
    : impl -> outcome (list CommandRun) * impl :=
  select Rows.ReadRunRow (fun w => list_runs_sql w agent_id command_id schedule_id limit).

Definition prune_sql (older_than_unix_ms : Z) : string :=
  "DELETE FROM command_runs WHERE started_unix_ms < " +:+ of_Z older_than_unix_ms +:+ ";".
(** The outcome holds the [removed] output. *)
Definition PruneCommandRuns (older_than_unix_ms : Z) (s : impl) : bool * outcome Z * impl :=
  let s := EnsureConnected s in
  if negb (usable s) then (false, Returns 0%Z, s)
  else
    let '(res, s) := exec (prune_sql older_than_unix_ms) s in
    match res with
    | PGRES_COMMAND_OK n => (true, Rows.stoll_or_throw n, s)
    | _ => (false, Returns 0%Z, s)
    end.

Definition IsHealthy (s : impl) : bool * impl :=
  let s := EnsureConnected s in
  if negb (usable s) then (false, s)
  else
    let '(res, s) := exec "SELECT 1;" s in
    (match res with PGRES_TUPLES_OK _ => true | _ => false end, s).

Definition GetStats (s : impl) : StorageStats := stats s.

(** *** What [InsertMetrics] sends *)

(** The tuples of a batch: metric [i] is stored at the batch time plus [i] ms. *)
Definition tuples (w : W) (agent_id : string) (ts : Z) (l : list Metric) : list string :=
  imap (fun i m => value_tuple w agent_id (ts + Z.of_nat i)%Z m) l.

#[local] Arguments value_tuple : simpl never.
#[local] Arguments insert_header : simpl never.

Lemma insert_loop_fill agent_id ts l rest v s :
  (batch_rows v + Z.of_nat (length l) < batch_size (config s))%Z -> (0 <= batch_rows v)%Z ->
  insert_loop agent_id ts (l ++ rest) v s =
  insert_loop agent_id ts rest
    (mkInsert (total_inserted v) (batch_rows v + Z.of_nat (length l))
       (sep_loop "," (first_value v) (sql v)
          (tuples (world s) agent_id (ts + (total_inserted v + batch_rows v)) l))
       (first_value v && match l with [] => true | _ => false end)) s.
Proof.
  revert v. induction l as [|m l IH]; intros v Hb H0; cbn [length] in Hb.
  - destruct v. cbn. by rewrite Z.add_0_r, andb_true_r.
  - cbn [app insert_loop]. cbn [batch_rows].
    rewrite (proj2 (Z.leb_gt _ _)) by lia. rewrite IH by (cbn [batch_rows]; lia).
    cbn [batch_rows total_inserted sql first_value length].
    f_equal. f_equal; [lia| |by rewrite andb_false_r].
    unfold tuples. cbn [imap sep_loop]. rewrite Z.add_0_r. f_equal.
    apply imap_ext. intros i x _. cbn. f_equal. lia.
Qed.

Definition send (stmt : string) (s : impl) (k : impl -> bool * impl) : bool * impl :=
  let '(res, s) := exec stmt s in
  if command_ok res then k (with_stats (bump_batches (stats s)) s)
  else (false, with_stats (bump_errors (stats s)) s).

Lemma flush_send v s (k : insert_state -> impl -> bool * impl) :
  (batch_rows v <> 0)%Z ->
  (let '(ok, v, s) := flush v s in if negb ok then (false, s) else k v s) =
  send (sql v +:+ " ON CONFLICT DO NOTHING;") s
    (k (mkInsert (total_inserted v + batch_rows v) 0 "" true)).
Proof.
  intros Hv. unfold flush, send. rewrite (proj2 (Z.eqb_neq _ _)) by done.
  destruct (exec _ s) as [res s']. by destruct (command_ok res).
Qed.

(** The rest of [InsertMetrics] once the loop has run. *)
Definition conclude (elapsed_ms : Z) (r : bool * insert_state * impl) : bool * impl :=
  let '(ok, v, s) := r in
  if negb ok then (false, s)
  else
    let '(ok, v, s) := flush v s in
    if negb ok then (false, s)
    else (true, with_stats (bump_written (total_inserted v) elapsed_ms (stats s)) s).

Lemma exec_config stmt s : config (snd (exec stmt s)) = config s.
Proof. unfold exec. by destruct (PQexec _ _). Qed.

(** A group of metrics that fits in a batch is sent as one statement, made of
    the text at hand and the joined tuples; the text then starts empty. *)
Lemma insert_group agent_id ts el l rest text total s :
  l <> [] -> (0 < batch_size (config s))%Z ->
  (Z.of_nat (length l) = batch_size (config s) \/
   (Z.of_nat (length l) < batch_size (config s))%Z /\ rest = []) ->
  conclude el (insert_loop agent_id ts (l ++ rest) (mkInsert total 0 text true) s) =
  send (text +:+ sjoin "," (tuples (world s) agent_id (ts + total) l) +:+ " ON CONFLICT DO NOTHING;")
    s (fun s => conclude el (insert_loop agent_id ts rest
                             (mkInsert (total + Z.of_nat (length l)) 0 "" true) s)).
Proof.
  intros Hne Hbs Hl.
  assert (Hj : sep_loop "," true text (tuples (world s) agent_id (ts + total) l) =
    text +:+ sjoin "," (tuples (world s) agent_id (ts + total) l)).
  { rewrite sep_loop_join. by destruct l. }
  destruct Hl as [Hl|[Hl ->]].
  - destruct (exists_last Hne) as (l' & m & ->). rewrite length_app in *. cbn [length] in *.
    rewrite <- app_assoc, insert_loop_fill by (cbn; lia). cbn [app insert_loop batch_rows].
    rewrite (proj2 (Z.leb_le _ _)) by lia.
    cbn [total_inserted batch_rows sql first_value].
    set (v := mkInsert _ _ _ false).
    transitivity (let '(ok, v, s) := flush v s in
      if negb ok then (false, s) else conclude el (insert_loop agent_id ts rest v s)).
    { destruct (flush v s) as [[[] v'] s']; [done|]. done. }
    rewrite flush_send by (cbn; lia).
    assert (Ht : sql v = text +:+ sjoin "," (tuples (world s) agent_id (ts + total) (l' ++ [m]))).
    { rewrite <- Hj. unfold v, tuples.
      cbn [sql first_value]. rewrite imap_app, sep_loop_app. cbn [imap sep_loop].
      rewrite !Z.add_0_r. unfold compose. rewrite Nat.add_0_r, Z.add_assoc.
      rewrite Z.add_0_l. by destruct l'. }
    rewrite Ht, sapp_assoc. unfold send. destruct (exec _ s) as [res s'].
    destruct (command_ok res); [|done]. subst v. cbn. do 4 f_equal. lia.
  - rewrite insert_loop_fill by (cbn; lia). cbn [insert_loop]. unfold conclude at 1.
    cbn [negb]. rewrite flush_send by (destruct l; cbn; [done|lia]).
    cbn [total_inserted batch_rows sql].
    rewrite Z.add_0_l, Z.add_0_r. cbn [first_value sql].
    rewrite Hj, sapp_assoc. done.
Qed.

Lemma EnsureConnected_config s : config (EnsureConnected s) = config s.
Proof. unfold EnsureConnected. by destruct (conn s && PQstatus (world s)). Qed.

Lemma InsertMetrics_conclude agent_id ts l el s :
  usable (EnsureConnected s) = true ->
  InsertMetrics agent_id ts l el s =
  conclude el (insert_loop agent_id ts l (mkInsert 0 0 insert_header true) (EnsureConnected s)).
Proof. intros Hu. unfold InsertMetrics, conclude. by rewrite Hu. Qed.

(** The statement of a batch that fits. *)
Definition insert_statement (w : W) (agent_id : string) (ts : Z) (l : list Metric) : string :=
  insert_header +:+ sjoin "," (tuples w agent_id ts l) +:+ " ON CONFLICT DO NOTHING;".

(** A batch of at most [batch_size] metrics is stored by exactly
    one INSERT statement holding one tuple per metric, in order, one
    millisecond apart from the batch time; the result and the counters
    (metrics, batches, errors, latency) follow the server's answer, and when
    storage cannot be reached nothing is sent and nothing is counted. *)
Theorem InsertMetrics_one_statement (agent_id : string) (ts : Z) (l : list Metric) (el : Z) (s : impl) :
  l <> [] -> (Z.of_nat (length l) <= batch_size (config s))%Z ->
  InsertMetrics agent_id ts l el s =
  let s1 := EnsureConnected s in
  if usable s1 then
    let '(res, s2) := exec (insert_statement (world s1) agent_id ts l) s1 in
    if command_ok res then
      (true, with_stats (bump_written (Z.of_nat (length l)) el (bump_batches (stats s2))) s2)
    else (false, with_stats (bump_errors (stats s2)) s2)
  else (false, s1).
Proof.
  intros Hne Hl. cbv zeta. destruct (usable (EnsureConnected s)) eqn:Hu;
    [|unfold InsertMetrics; by rewrite Hu].
  rewrite InsertMetrics_conclude by done.
  assert (0 < length l) as Hpos by (destruct l; simpl; [done|lia]).
  pose proof (insert_group agent_id ts el l [] insert_header 0 (EnsureConnected s) Hne) as G.
  rewrite EnsureConnected_config, app_nil_r, Z.add_0_r in G.
  rewrite G; [|lia|destruct (decide (Z.of_nat (length l) = batch_size (config s))); [by left|right; split; [lia|done]]].
  unfold send, insert_statement. by destruct (exec _ _) as [res s2].
Qed.

(** A batch larger than [batch_size] is not stored whole.  The
    flush clears the statement text, so the second statement starts with a
    bare tuple; against a server that refuses such a text [InsertMetrics]
    reports failure although the first [batch_size] metrics were stored (and
    one batch counted). *)
Theorem InsertMetrics_second_statement_has_no_header
    (refused : forall t w, command_ok (fst (PQexec ("(to_timestamp(" +:+ t) w)) = false)
    (agent_id : string) (ts : Z) (l1 l2 : list Metric) (el : Z) (s : impl) :
  usable (EnsureConnected s) = true -> l1 <> [] -> l2 <> [] ->
  Z.of_nat (length l1) = batch_size (config s) ->
  command_ok (fst (exec (insert_statement (world (EnsureConnected s)) agent_id ts l1) (EnsureConnected s))) = true ->
  fst (InsertMetrics agent_id ts (l1 ++ l2) el s) = false /\
  exists s2, stats s2 = bump_batches (stats (EnsureConnected s)) /\
    stats (snd (InsertMetrics agent_id ts (l1 ++ l2) el s)) = bump_errors (stats s2).
Proof.
  intros Hu H1 H2 Hl Hok. rewrite InsertMetrics_conclude by done.
  assert (0 < length l1) as Hpos by (destruct l1; simpl; [done|lia]).
  pose proof (insert_group agent_id ts el l1 l2 insert_header 0 (EnsureConnected s) H1) as G.
  rewrite EnsureConnected_config, Z.add_0_r in G. rewrite G by lia. clear G.
  set (s1 := EnsureConnected s) in *. fold (insert_statement (world s1) agent_id ts l1).
  unfold send. pose proof (exec_config (insert_statement (world s1) agent_id ts l1) s1) as Hc.
  assert (Hst : stats (snd (exec (insert_statement (world s1) agent_id ts l1) s1)) = stats s1).
  { unfold exec. by destruct (PQexec _ _). }
  destruct (exec _ s1) as [res s2]. simpl in Hok, Hc, Hst. rewrite Hok.
  set (s3 := with_stats _ s2). set (bs := batch_size (config s)) in *.
  assert (batch_size (config s3) = bs) as Hbs.
  { change (config s3) with (config s2). unfold bs. by rewrite Hc, <- (EnsureConnected_config s). }
  pose proof (insert_group agent_id ts el (take (Z.to_nat bs) l2) (drop (Z.to_nat bs) l2) ""
                (0 + Z.of_nat (length l1)) s3) as G.
  rewrite Hbs, take_drop, length_take in G. rewrite G;
    [|destruct l2; [done|]; destruct (Z.to_nat bs) eqn:?; [lia|done]|lia|].
  2: { destruct (decide (Z.of_nat (length l2) < bs)%Z); [right|left; lia].
       split; [lia|]. apply drop_ge. lia. }
  clear G. unfold send.
  destruct l2 as [|m l2]; [done|]. destruct (Z.to_nat bs) as [|k] eqn:Ek; [lia|].
  assert (exists t, "" +:+ sjoin "," (tuples (world s3) agent_id (ts + (0 + Z.of_nat (length l1)))
            (take (S k) (m :: l2))) +:+ " ON CONFLICT DO NOTHING;" = "(to_timestamp(" +:+ t) as [t ->].
  { unfold tuples. cbn [take imap sjoin String.concat].
    destruct (imap _ _); unfold value_tuple; rewrite ?sapp_assoc; eexists; reflexivity. }
  assert (Hst3 : stats (snd (exec ("(to_timestamp(" +:+ t) s3)) = stats s3).
  { unfold exec. by destruct (PQexec _ _). }
  specialize (refused t (world s3)). unfold exec in *. destruct (PQexec _ (world s3)) as [r w].
  simpl in refused. rewrite refused. split; [done|]. exists s3. split; [|done].
  subst s3. cbn [stats with_stats]. by rewrite Hst.
Qed.

(** What [SetCommandScheduleEnabled] and [DeleteCommandSchedule] answer. *)
Definition affected (r : PGresult) : bool :=
  match r with PGRES_COMMAND_OK n => negb (String.eqb n "0") | _ => false end.
Definition reply (sql : W -> string) (s : impl) : bool * string :=
  let s1 := EnsureConnected s in
  if usable s1 then
    let '(res, s2) := exec (sql (world s1)) s1 in
    (affected res, if affected res then "" else PQerrorMessage (world s2))
  else (false, "storage not available").

Lemma command_reply sql s : fst (command true sql s) = reply sql s.
Proof.
  unfold command, reply. destruct (usable (EnsureConnected s)); [|done]. cbn [negb].
  destruct (exec _ _) as [[n| |] s2]; simpl; [|done..].
  by destruct (n =? "0")%string.
Qed.

(** Enabling or deleting a schedule succeeds exactly when the
    server ran the statement and it touched a row; every failure comes with
    an error text, but for a missing schedule that text is the connection's
    last error message: the "schedule not found" text never gets out. *)
Theorem schedule_update_replies (id : string) (enabled : bool) (s : impl) :
  fst (SetCommandScheduleEnabled id enabled s) = reply (fun w => enable_sql w id enabled) s /\
  fst (DeleteCommandSchedule id s) = reply (fun w => delete_sql w id) s.
Proof. split; apply command_reply. Qed.
End Timescale.

(** A recording server that knows INSERT statements only. *)
Record recorder : Type := mkRecorder { up : bool; sent : list string }.
#[global] Instance recorder_libpq : Libpq recorder := {|
  PQconnectdb _ w := w;
  PQstatus := up;
  PQexec sql w := (if has_prefix "INSERT" sql then PGRES_COMMAND_OK "1" else PGRES_FATAL_ERROR,
                   mkRecorder (up w) (sent w ++ [sql]));
  PQerrorMessage _ := "syntax error";
  PQescapeLiteral _ s := Some ("'" +:+ s +:+ "'");
|}.
Definition demo_impl (bs : Z) : impl :=
  mkImpl true (mkConfig "localhost" 5432 "pudimnetmon" "pudim" "pudim" bs) (mkStats 0 0 0 0)
    (mkRecorder true []).
Definition demo_metric (t : string) : Metric :=
  mkMetric CHECK_TYPE_ICMP_PING t true "" (kRttMs (Double.of_Z 12)) None ∅ 1 2.
Abbreviation demo_insert bs l := (InsertMetrics map_to_list "a" 1700000000000 l 3 (demo_impl bs)).

Lemma InsertMetrics_one_statement_witness :
  fst (demo_insert 500 [demo_metric "x"; demo_metric "y"]) = true /\
  length (sent (world (snd (demo_insert 500 [demo_metric "x"; demo_metric "y"])))) = 1.
Proof.
  pose proof (InsertMetrics_one_statement map_to_list "a" 1700000000000 [demo_metric "x"; demo_metric "y"] 3
    (demo_impl 500)) as T.
  rewrite T; [split; vm_compute; reflexivity|done|vm_compute; congruence].
Defined.

Lemma InsertMetrics_second_statement_has_no_header_witness :
  fst (demo_insert 2 ([demo_metric "x"; demo_metric "y"] ++ [demo_metric "z"])) = false.
Proof.
  refine (proj1 (InsertMetrics_second_statement_has_no_header map_to_list _ "a" 1700000000000
    [demo_metric "x"; demo_metric "y"] [demo_metric "z"] 3 (demo_impl 2) _ _ _ _ _)).
  - intros t w. reflexivity.
  - reflexivity.
  - done.
  - done.
  - reflexivity.
  - vm_compute. reflexivity.
Defined.
End Timescale.
