(* ===== verification/Kafka.v ===== *)
(** * Kafka: the producer, the consumer loop and the storage consumer

    Models [collector/src/kafka]: [Producer] is [producer.cpp], [Consumer] is
    [consumer_common.cpp] and [StorageConsumer] is [storage_consumer.cpp].
    librdkafka and protobuf serialisation are parameters. *)
From stdpp Require Import base gmap strings list.
From Stdlib Require Import ZArith Lia Ascii.
From S2P Require Import Prelude Proto Schedules Storage.
Import Str.
#[local] Open Scope string_scope.
#[local] Open Scope list_scope.

(** Setting librdkafka options in order; the first refused one ends it with
    its error text.  [conf_set key value] is [None] for CONF_OK. *)
Fixpoint set_confs (conf_set : string -> string -> option string) (l : list (string * string))
    : option string :=
  match l with
  | [] => None
  | (key, value) :: rest =>
      match conf_set key value with
      | Some err => Some ("kafka conf '" +:+ key +:+ "': " +:+ err)
      | None => set_confs conf_set rest
      end
  end.

Module Producer.
Record message : Type := mkMessage {
  m_topic : string;
  m_key : string;
  m_payload : string;
  m_headers : list (string * string);
}.

Section Producer.
Context {W : Type}.
Variable serialize : MetricsBatch -> option string.          (* SerializeToString *)
Variable rd_produce : message -> W -> bool * W.              (* produce() == ERR_NO_ERROR *)

Record state : Type := mkState {
  has_producer : bool;
  topic : string;
  produced_total : Z;
  delivery_successes : Z;
  delivery_failures : Z;
  queue : W;
}.

(** [Connect]: the error text, or success.  [create] is
    [RdKafka::Producer::create]: [inl] is its error. *)
Definition Connect (conf_created : bool) (conf_set : string -> string -> option string)
    (create : string + W) (brokers topic : string) (s : state) : option string * state :=
  let s := mkState (has_producer s) topic (produced_total s) (delivery_successes s)
             (delivery_failures s) (queue s) in
  if negb conf_created then (Some "failed to create RdKafka global conf", s)
  else
    match set_confs conf_set [("bootstrap.servers", brokers); ("message.timeout.ms", "15000");
                              ("enable.idempotence", "true"); ("dr_cb", "")] with
    | Some err => (Some err, s)
    | None =>
        match create with
        | inl err => (Some ("failed to create Kafka producer: " +:+ err),
                      mkState false topic (produced_total s) (delivery_successes s)
                        (delivery_failures s) (queue s))
        | inr w => (None, mkState true topic (produced_total s) (delivery_successes s)
                            (delivery_failures s) w)
        end
    end.

Definition message_of (s : state) (batch : MetricsBatch) (payload traceparent : string) : message :=
  mkMessage (topic s) (b_agent_id batch) payload
    (if is_empty traceparent then [] else [("traceparent", traceparent)]).

Definition Produce (batch : MetricsBatch) (traceparent : string) (s : state) : bool * state :=
  if negb (has_producer s) then (false, s)
  else
    match serialize batch with
    | None => (false, s)
    | Some payload =>
        let '(accepted, w) := rd_produce (message_of s batch payload traceparent) (queue s) in
        if accepted then
          (true, mkState (has_producer s) (topic s) (Int.u64 (produced_total s + 1))
                   (delivery_successes s) (delivery_failures s) w)
        else
          (false, mkState (has_producer s) (topic s) (produced_total s) (delivery_successes s)
                    (Int.u64 (delivery_failures s + 1)) w)
    end.

(** The delivery report of one message, run by [poll]. *)
Definition dr_cb (err : bool) (s : state) : state :=
  if err then mkState (has_producer s) (topic s) (produced_total s) (delivery_successes s)
                (Int.u64 (delivery_failures s + 1)) (queue s)
  else mkState (has_producer s) (topic s) (produced_total s) (Int.u64 (delivery_successes s + 1))
         (delivery_failures s) (queue s).
End Producer.
End Producer.

Module Consumer.
(** What [consume(100)] gives back. *)
Inductive poll_result : Type :=
  | NoMessage                                                       (* null *)
  | Message (partition offset : Z) (payload : string) (headers : list (string * string))
  | NoData                                          (* PARTITION_EOF or TIMED_OUT *)
  | ConsumeError (errstr : string).

Record ConsumerStats : Type := mkStats {
  messages_received : Z;
  batches_processed : Z;
  parse_errors : Z;
  handler_errors : Z;
  consumer_errors : Z;
}.

Section Consumer.
Context {W : Type}.
Variable parse : string -> option MetricsBatch.                     (* ParseFromArray *)
Variable handler : MetricsBatch -> W -> bool * W.

(** [commits] is the list of [commitSync] calls, as the (partition, offset)
    of the message, oldest first. *)
Record state : Type := mkState {
  stats : ConsumerStats;
  commits : list (Z * Z);
  world : W;
}.
Definition init (w : W) : state := mkState (mkStats 0 0 0 0 0) [] w.

Definition bump (r b p h c : Z) (t : ConsumerStats) : ConsumerStats :=
  mkStats (Int.u64 (messages_received t + r)) (Int.u64 (batches_processed t + b))
    (Int.u64 (parse_errors t + p)) (Int.u64 (handler_errors t + h)) (Int.u64 (consumer_errors t + c)).

(** One iteration of [ConsumeLoop]. *)
Definition consume_one (r : poll_result) (s : state) : state :=
  match r with
  | NoMessage | NoData => s
  | ConsumeError _ => mkState (bump 0 0 0 0 1 (stats s)) (commits s) (world s)
  | Message p o payload _ =>
      if is_empty payload then
        mkState (bump 1 0 1 0 0 (stats s)) (commits s ++ [(p, o)]) (world s)
      else
        match parse payload with
        | None => mkState (bump 1 0 1 0 0 (stats s)) (commits s ++ [(p, o)]) (world s)
        | Some batch =>
            let '(ok, w) := handler batch (world s) in
            if ok then mkState (bump 1 1 0 0 0 (stats s)) (commits s ++ [(p, o)]) w
            else mkState (bump 1 0 0 1 0 (stats s)) (commits s) w
        end
  end.

(** The loop over everything polled until [g_keep_running] turns false. *)
Definition ConsumeLoop (polls : list poll_result) (s : state) : state :=
  fold_left (fun s r => consume_one r s) polls s.

(** The position a partition restarts from: one past the last commit. *)
Definition committed (p : Z) (s : state) : option Z :=
  (fun c => (snd c + 1)%Z) <$> last (filter (fun c => fst c = p) (commits s)).

(** [ComputeTotalLag]: one entry per assigned partition with the high
    watermark and the position, where the broker answers. *)
Fixpoint lag_loop (l : list (option Z * option Z)) (total : Z) : Z :=
  match l with
  | [] => total
  | (high, position) :: rest =>
      match high with
      | None => lag_loop rest total
      | Some h =>
          let pos := match position with
                     | Some o => if (0 <=? o)%Z then o else 0%Z
                     | None => 0%Z
                     end in
          lag_loop rest (if (pos <? h)%Z then Int.u64 (total + (h - pos)) else total)
      end
  end.
Definition ComputeTotalLag (assignment : option (list (option Z * option Z))) : Z :=
  match assignment with None => 0%Z | Some l => lag_loop l 0 end.

Lemma loop_snoc polls r s : ConsumeLoop (polls ++ [r]) s = consume_one r (ConsumeLoop polls s).
Proof. unfold ConsumeLoop. by rewrite fold_left_app. Qed.

(** *** What becomes of each message *)

(** Skipped when nothing can be read from it; otherwise the handler decides. *)
Inductive verdict : Type := Skipped | Processed | Failed.
#[global] Instance verdict_eq_dec : EqDecision verdict.
Proof. solve_decision. Defined.

(** From the world [w] the polls [l] bring the messages at these positions to
    these verdicts and leave the last world. *)
Inductive judged : W -> list poll_result -> list (Z * Z * verdict) -> W -> Prop :=
  | J_end w : judged w [] [] w
  | J_quiet r w l j w' : (forall p o x hs, r <> Message p o x hs) -> judged w l j w' -> judged w (r :: l) j w'
  | J_skip p o x hs w l j w' : is_empty x = true \/ parse x = None ->
      judged w l j w' -> judged w (Message p o x hs :: l) ((p, o, Skipped) :: j) w'
  | J_process p o x hs b w w1 l j w' : is_empty x = false -> parse x = Some b -> handler b w = (true, w1) ->
      judged w1 l j w' -> judged w (Message p o x hs :: l) ((p, o, Processed) :: j) w'
  | J_fail p o x hs b w w1 l j w' : is_empty x = false -> parse x = Some b -> handler b w = (false, w1) ->
      judged w1 l j w' -> judged w (Message p o x hs :: l) ((p, o, Failed) :: j) w'.

Definition how_many (v : verdict) (j : list (Z * Z * verdict)) : Z := Z.of_nat (length (filter (fun m => m.2 = v) j)).
Definition is_error (r : poll_result) : bool := match r with ConsumeError _ => true | _ => false end.
Definition errors (l : list poll_result) : Z := Z.of_nat (length (filter (fun r => is_error r = true) l)).

Lemma how_many_cons v m j : how_many v (m :: j) = ((if decide (m.2 = v) then 1 else 0) + how_many v j)%Z.
Proof. unfold how_many. rewrite filter_cons. destruct (decide _); cbn [length]; lia. Qed.
Lemma errors_cons r l : errors (r :: l) = ((match r with ConsumeError _ => 1 | _ => 0 end) + errors l)%Z.
Proof. unfold errors. rewrite filter_cons. destruct r; cbn [is_error]; destruct (decide _) as [E|E]; try done; cbn [length]; lia. Qed.

Lemma bump_bump r b p h c r' b' p' h' c' t :
  bump r' b' p' h' c' (bump r b p h c t) = bump (r + r') (b + b') (p + p') (h + h') (c + c') t.
Proof. unfold bump, Int.u64. cbn. rewrite !Zplus_mod_idemp_l. by rewrite !Z.add_assoc. Qed.

(** Whatever the state the loop starts in. *)
Lemma loop_judged polls s :
  bump 0 0 0 0 0 (stats s) = stats s ->
  let t := ConsumeLoop polls s in
  exists j, judged (world s) polls j (world t) /\
    commits t = commits s ++ map fst (filter (fun m => m.2 <> Failed) j) /\
    stats t = bump (Z.of_nat (length j)) (how_many Processed j) (how_many Skipped j) (how_many Failed j) (errors polls) (stats s).
Proof.
  revert s. induction polls as [|r polls IH]; intros s Hs; cbv zeta.
  { exists []. rewrite app_nil_r. split; [constructor|]. by split. }
  change (ConsumeLoop (r :: polls) s) with (ConsumeLoop polls (consume_one r s)). rewrite errors_cons.
  assert (bump 0 0 0 0 0 (stats (consume_one r s)) = stats (consume_one r s)) as H1.
  { unfold consume_one. repeat case_match; cbn [stats]; try exact Hs; by rewrite bump_bump, !Z.add_0_r. }
  destruct (IH _ H1) as (j & J & C & T). set (t := ConsumeLoop polls (consume_one r s)) in *. clearbody t.
  unfold consume_one in J, C, T. destruct r as [|p o x hs| |e].
  1, 3, 4: exists j; (split; [by constructor|]); (split; [exact C|]); cbn [stats] in T; rewrite T; rewrite ?bump_bump, ?Z.add_0_l; done.
  assert (is_empty x = true \/ parse x = None -> exists j',
    judged (world s) (Message p o x hs :: polls) j' (world t) /\
    commits t = commits s ++ map fst (filter (fun m => m.2 <> Failed) j') /\
    stats t = bump (Z.of_nat (length j')) (how_many Processed j') (how_many Skipped j') (how_many Failed j') (0 + errors polls) (stats s)) as Hskip.
  { intros Hx. exists ((p, o, Skipped) :: j).
    assert (judged (world s) polls j (world t) /\
      commits t = (commits s ++ [(p, o)]) ++ map fst (filter (fun m => m.2 <> Failed) j) /\
      stats t = bump (Z.of_nat (length j)) (how_many Processed j) (how_many Skipped j) (how_many Failed j) (errors polls) (bump 1 0 1 0 0 (stats s)))
      as (J' & C' & T') by (destruct (is_empty x); [done|]; destruct Hx as [?|Hx]; [done|by rewrite Hx in *]).
    split; [by constructor|]. rewrite filter_cons_True by done. cbn [map fst]. split; [by rewrite C', <- app_assoc|].
    rewrite T', bump_bump, !how_many_cons. cbn [length snd]. rewrite !Z.add_0_l. f_equal; lia. }
  destruct (is_empty x) eqn:Ex; [by apply Hskip; left|].
  destruct (parse x) as [b|] eqn:Ep; [|by apply Hskip; right]. clear Hskip.
  destruct (handler b (world s)) as [[] w1] eqn:Eh; cbn [world commits stats] in *.
  - exists ((p, o, Processed) :: j). split; [by eapply J_process|]. rewrite filter_cons_True by done. cbn [map fst].
    split; [by rewrite C, <- app_assoc|]. rewrite T, bump_bump, !how_many_cons. cbn [length snd]. rewrite !Z.add_0_l. f_equal; lia.
  - exists ((p, o, Failed) :: j). split; [by eapply J_fail|]. rewrite filter_cons_False by (by intros []).
    split; [exact C|]. rewrite T, bump_bump, !how_many_cons. cbn [length snd]. rewrite !Z.add_0_l. f_equal; lia.
Qed.

Lemma judged_length w l j w' : judged w l j w' -> (length j <= length l)%nat.
Proof. induction 1; cbn; lia. Qed.
Lemma how_many_range v j : (0 <= how_many v j <= Z.of_nat (length j))%Z.
Proof. unfold how_many. pose proof (length_filter (fun m : Z * Z * verdict => m.2 = v) j). lia. Qed.
Lemma errors_range l : (0 <= errors l <= Z.of_nat (length l))%Z.
Proof.
  unfold errors. pose proof (length_filter (fun r => is_error r = true) l). lia.
Qed.


(** A failed batch is not redelivered once a later one of its
    partition succeeds.  The failed message itself is never committed, but
    the commit of the later message moves the partition's restart position
    past it, so neither this consumer nor a restarted one sees it again. *)
Theorem failed_batch_is_skipped (pre mid : list poll_result) (p o o' : Z) (x x' : string)
    (hs hs' : list (string * string)) (b b' : MetricsBatch) (w : W) :
  let s1 := ConsumeLoop pre (init w) in
  let s2 := ConsumeLoop (pre ++ [Message p o x hs] ++ mid) (init w) in
  let s3 := ConsumeLoop (pre ++ [Message p o x hs] ++ mid ++ [Message p o' x' hs']) (init w) in
  is_empty x = false -> parse x = Some b -> fst (handler b (world s1)) = false ->
  is_empty x' = false -> parse x' = Some b' -> fst (handler b' (world s2)) = true ->
  (o < o')%Z ->
  commits (consume_one (Message p o x hs) s1) = commits s1 /\
  committed p s3 = Some (o' + 1)%Z /\ (o < o' + 1)%Z.
Proof.
  cbv zeta. intros E1 P1 H1 E2 P2 H2 Ho. split_and!; [| |lia].
  - unfold consume_one. rewrite E1, P1. destruct (handler b _) as [ok w']. simpl in H1. by subst ok.
  - rewrite !app_assoc, loop_snoc, <- !app_assoc.
    set (s := ConsumeLoop _ _) in *. unfold consume_one. rewrite E2, P2.
    destruct (handler b' _) as [ok w']. simpl in H2. subst ok.
    unfold committed. cbn [commits]. rewrite filter_app, filter_cons_True, filter_nil by done.
    by rewrite last_snoc.
Qed.
End Consumer.

Definition demo_parse (s : string) : option MetricsBatch := Some (mkBatch s 0 []).
(** A handler whose first insert fails. *)
Definition demo_handler (_ : MetricsBatch) (n : nat) : bool * nat := (negb (Nat.eqb n 0), S n).


Lemma failed_batch_is_skipped_witness :
  committed 0 (ConsumeLoop demo_parse demo_handler
    ([] ++ [Message 0 7 "a" []] ++ [NoMessage] ++ [Message 0 8 "b" []]) (init 0)) = Some 9%Z.
Proof.
  refine (proj1 (proj2 (failed_batch_is_skipped demo_parse demo_handler [] [NoMessage] 0 7 8 "a" "b" [] []
    (mkBatch "a" 0 []) (mkBatch "b" 0 []) 0 eq_refl eq_refl eq_refl eq_refl eq_refl eq_refl _))).
  reflexivity.
Defined.
End Consumer.

Module StorageConsumer.
Record options : Type := mkOptions {
  brokers : string;
  topic : string;
  group : string;
  http_addr : string;
  db : StorageConfig;
}.
Definition defaults : options :=
  mkOptions "" "network.metrics" "storage" "0.0.0.0:9091"
    (mkConfig "localhost" 5432 "pudimnetmon" "pudim" "pudim" 500).

(** [Opt]: the value of [flag] and the arguments left after [arg]; consuming
    the next argument is [argv[++i]]. *)
Definition Opt (arg flag : string) (rest : list string) : string * list string :=
  let prefix := flag +:+ "=" in
  if has_prefix prefix arg then (sdrop (String.length prefix) arg, rest)
  else if String.eqb arg flag then
    match rest with
    | v :: rest' => (v, rest')
    | [] => ("", rest)
    end
  else ("", rest).

Definition with_db (f : StorageConfig -> StorageConfig) (o : options) : options :=
  mkOptions (brokers o) (topic o) (group o) (http_addr o) (f (db o)).

(** The flags in the order they are tried, and what each value sets. *)
Definition setters : list (string * (string -> options -> outcome options)) :=
  [("--kafka-brokers", fun v o => Returns (mkOptions v (topic o) (group o) (http_addr o) (db o)));
   ("--topic", fun v o => Returns (mkOptions (brokers o) v (group o) (http_addr o) (db o)));
   ("--group", fun v o => Returns (mkOptions (brokers o) (topic o) v (http_addr o) (db o)));
   ("--http-addr", fun v o => Returns (mkOptions (brokers o) (topic o) (group o) v (db o)));
   ("--db-host", fun v o => Returns (with_db (fun d => mkConfig v (port d) (dbname d) (user d) (password d) (batch_size d)) o));
   ("--db-port", fun v o =>
      match stoi v with
      | Some p => Returns (with_db (fun d => mkConfig (host d) p (dbname d) (user d) (password d) (batch_size d)) o)
      | None => Throws "stoi"
      end);
   ("--db-name", fun v o => Returns (with_db (fun d => mkConfig (host d) (port d) v (user d) (password d) (batch_size d)) o));
   ("--db-user", fun v o => Returns (with_db (fun d => mkConfig (host d) (port d) (dbname d) v (password d) (batch_size d)) o));
   ("--db-password", fun v o => Returns (with_db (fun d => mkConfig (host d) (port d) (dbname d) (user d) v (batch_size d)) o))].

(** The chain of [else if ((v = Opt(...)) != "")]. *)
Fixpoint try_flags (arg : string) (l : list (string * (string -> options -> outcome options)))
    (rest : list string) (o : options) : outcome options * list string :=
  match l with
  | [] => (Returns o, rest)
  | (flag, set) :: l' =>
      let '(v, rest') := Opt arg flag rest in
      if negb (is_empty v) then (set v o, rest') else try_flags arg l' rest' o
  end.

Definition is_help (arg : string) : bool := String.eqb arg "--help".

(** The argument loop of [main]: [None] for "--help", which exits at once. *)
Fixpoint parse_args (fuel : nat) (args : list string) (o : options) : outcome (option options) :=
  match fuel, args with
  | _, [] => Returns (Some o)
  | O, _ => Returns (Some o)
  | S n, arg :: rest =>
      let '(r, rest') := try_flags arg setters rest o in
      let! o' := r in
      if is_help arg then Returns None else parse_args n rest' o'
  end.

Definition counter_text (name help kind : string) (v : Z) : string :=
  "# HELP " +:+ name +:+ " " +:+ help +:+ chr nl +:+ "# TYPE " +:+ name +:+ " " +:+ kind +:+ chr nl
  +:+ name +:+ " " +:+ of_Z v +:+ chr nl.

(** [metrics_fn]. *)
Definition metrics_fn (s : Consumer.ConsumerStats) (lag : Z) (healthy : bool) : string :=
  counter_text "pudim_kafka_messages_received_total" "Messages received" "counter"
    (Consumer.messages_received s)
  +:+ counter_text "pudim_kafka_batches_processed_total" "Batches stored to DB" "counter"
    (Consumer.batches_processed s)
  +:+ counter_text "pudim_kafka_handler_errors_total" "Insert failures" "counter"
    (Consumer.handler_errors s)
  +:+ counter_text "pudim_kafka_consumer_errors_total" "Kafka consumer errors" "counter"
    (Consumer.consumer_errors s)
  +:+ counter_text "pudim_kafka_consumer_lag" "Total consumer lag (messages)" "gauge" lag
  +:+ (if healthy then counter_text "pudim_storage_healthy" "Storage reachable (1=ok)" "gauge" 1 else "").

(** The batch handler of [main]: the batch's own timestamp is stored. *)
Definition handler {W} `{Libpq W} (iter : gmap string string -> list (string * string)) (elapsed_ms : Z)
    (batch : MetricsBatch) (s : Timescale.impl) : bool * Timescale.impl :=
  Timescale.InsertMetrics iter (b_agent_id batch) (b_timestamp_unix_ms batch) (b_metrics batch) elapsed_ms s.

Lemma try_flags_shorter arg l rest o : length (snd (try_flags arg l rest o)) <= length rest.
Proof.
  revert rest. induction l as [|[flag set] l IH]; intros rest; simpl; [lia|].
  assert (length (snd (Opt arg flag rest)) <= length rest) as Hr.
  { unfold Opt. destruct (has_prefix _ _); [simpl; lia|]. destruct (String.eqb arg flag); [|simpl; lia].
    destruct rest; simpl; lia. }
  destruct (Opt arg flag rest) as [v rest']. simpl in Hr. destruct (negb (is_empty v)); simpl; [done|].
  etransitivity; [apply IH|done].
Qed.

(** As many steps as arguments are enough: more fuel changes nothing. *)
Lemma parse_args_fuel n m args o :
  length args <= n -> length args <= m -> parse_args n args o = parse_args m args o.
Proof.
  revert m args o. induction n as [|n IH]; intros m args o Hn Hm.
  - destruct args; [by destruct m|simpl in Hn; lia].
  - destruct args as [|arg rest]; [by destruct m|]. destruct m as [|m]; [simpl in Hm; lia|].
    cbn [parse_args]. pose proof (try_flags_shorter arg setters rest o) as Hs.
    destruct (try_flags arg setters rest o) as [r rest']. simpl in *.
    destruct r; simpl; [|done]. destruct (is_help arg); [done|]. apply IH; lia.
Qed.
End StorageConsumer.
