(* ===== verification/MetricsService.v ===== *)
(** * MetricsService: the metric ingest endpoints of the collector

    Models [collector/src/metrics_service.cpp].  The two RPC handlers of
    [Endpoints] only need somewhere to put a batch: the class [Sink] is that
    interface, and their theorems are proved against it.  [Pipeline] is the
    collector's own sink, [IngestBatch]: storage or Kafka, then the alerts. *)
From stdpp Require Import base gmap strings list.
From Stdlib Require Import ZArith Lia Ascii.
From S2P Require Import Prelude Proto AlertRule AlertManager Schedules Storage Kafka.
Import Str.
#[local] Open Scope string_scope.
#[local] Open Scope list_scope.

(** What the endpoints need: [ingest batch traceparent] answers success and
    the elapsed milliseconds. *)
Class Sink (S : Type) : Type := {
  ingest : MetricsBatch -> string -> S -> bool * Z * S;
}.

Inductive StorageMode : Type := Direct | Kafka.

Module Pipeline.
Section Pipeline.
Context {W Q : Type} `{Libpq W}.
Variable iter : gmap string string -> list (string * string).
Variable serialize : MetricsBatch -> option string.
Variable rd_produce : Producer.message -> Q -> bool * Q.

Record pipeline : Type := mkPipeline {
  m_storage : @Timescale.impl W;
  m_alerts : option AlertManager.state;
  m_producer : option (@Producer.state Q);
  m_mode : StorageMode;
  (** The clock readings of call [n]: storage time, alert time, the insert's
      own duration and the elapsed time of the whole call. *)
  m_clock : nat -> Z * Z * Z * Z;
  m_calls : nat;
  (** Notifications handed to the notifiers so far. *)
  m_sent : list (AlertManager.Notifier * AlertManager.AlertNotification);
}.

Definition persist (batch : MetricsBatch) (traceparent : string) (now_ms insert_ms : Z) (p : pipeline)
    : bool * @Timescale.impl W * option (@Producer.state Q) :=
  match m_mode p with
  | Kafka =>
      match m_producer p with
      | Some k => let '(ok, k) := Producer.Produce serialize rd_produce batch traceparent k in
                  (ok, m_storage p, Some k)
      | None => (false, m_storage p, None)
      end
  | Direct =>
      let '(ok, st) := Timescale.InsertMetrics iter (b_agent_id batch) now_ms (b_metrics batch)
                         insert_ms (m_storage p) in
      (ok, st, m_producer p)
  end.

Definition IngestBatch (batch : MetricsBatch) (traceparent : string) (p : pipeline) : bool * Z * pipeline :=
  let '(now_ms, alert_ms, insert_ms, elapsed_ms) := m_clock p (m_calls p) in
  let '(ok, storage, producer) := persist batch traceparent now_ms insert_ms p in
  let '(alerts, sent) :=
    match m_alerts p with
    | Some a => let '(a, out) := AlertManager.Evaluate alert_ms (b_agent_id batch) (b_metrics batch) a in
                (Some a, out)
    | None => (None, [])
    end in
  (ok, elapsed_ms, mkPipeline storage alerts producer (m_mode p) (m_clock p) (S (m_calls p)) (m_sent p ++ sent)).

#[global] Instance pipeline_sink : Sink pipeline := {| ingest := IngestBatch |}.

Definition KafkaEnabled (p : pipeline) : bool := match m_mode p with Kafka => true | Direct => false end.

(** Alerting is independent of persistence.  Whatever the storage
    mode and whether or not the batch could be stored, the alert rules see
    every batch, and the notifications are those of [Evaluate]; in Kafka mode
    the database is not touched, in direct mode the producer is not. *)
Theorem IngestBatch_alerts_always (batch : MetricsBatch) (traceparent : string) (p : pipeline)
    (a : AlertManager.state) :
  m_alerts p = Some a ->
  let '(_, alert_ms, _, _) := m_clock p (m_calls p) in
  let '(ok, _, p') := IngestBatch batch traceparent p in
  m_alerts p' = Some (fst (AlertManager.Evaluate alert_ms (b_agent_id batch) (b_metrics batch) a)) /\
  m_sent p' = m_sent p ++ snd (AlertManager.Evaluate alert_ms (b_agent_id batch) (b_metrics batch) a) /\
  match m_mode p with
  | Kafka => m_storage p' = m_storage p /\ (m_producer p = None -> ok = false)
  | Direct => m_producer p' = m_producer p
  end.
Proof.
  intros Ha. unfold IngestBatch, persist. destruct (m_clock p _) as [[[now_ms alert_ms] insert_ms] el].
  rewrite Ha. destruct (AlertManager.Evaluate _ _ _ a) as [a' out].
  destruct (m_mode p).
  - destruct (Timescale.InsertMetrics _ _ _ _ _ _). done.
  - destruct (m_producer p); [|done]. by destruct (Producer.Produce _ _ _ _ _).
Qed.
End Pipeline.

Definition demo_pipeline : @pipeline Timescale.recorder unit :=
  mkPipeline (Timescale.demo_impl 500) (Some AlertManager.Demo.manager) None Kafka
    (fun _ => (1000, 1000, 2, 5)%Z) 0 [].
Definition demo_batch : MetricsBatch := mkBatch "a1" 900 [AlertManager.Demo.metric "h:1" 150].
Abbreviation demo_ingest :=
  (IngestBatch map_to_list (fun _ => None) (fun _ q => (true, q)) demo_batch "" demo_pipeline).

Lemma IngestBatch_alerts_always_witness :
  fst (fst demo_ingest) = false /\
  m_sent (snd demo_ingest) =
    snd (AlertManager.Evaluate 1000 "a1" (b_metrics demo_batch) AlertManager.Demo.manager).
Proof.
  split; [vm_compute; reflexivity|].
  exact (proj1 (proj2 (IngestBatch_alerts_always map_to_list (fun _ => None) (fun _ q => (true, q))
    demo_batch "" demo_pipeline AlertManager.Demo.manager eq_refl))).
Defined.
End Pipeline.

Module Endpoints.
Record service {S : Type} : Type := mkService {
  received_metrics : Z;
  rejected_metrics : Z;
  batches_received : Z;
  skew_warnings : Z;
  backpressure_signals_sent : Z;
  skew_threshold_ms : Z;
  backpressure_threshold_ms : Z;
  mode : StorageMode;
  sink : S;
}.
#[global] Arguments service : clear implicits.
#[global] Arguments mkService {S} _ _ _ _ _ _ _ _ _.

Section Endpoints.
Context {S : Type} `{Sink S}.

(** The counters are unsigned 64-bit atomics. *)
Definition bump (received rejected batches skew pressure : Z) (k : S) (s : service S) : service S :=
  mkService (Int.u64 (received_metrics s + received)) (Int.u64 (rejected_metrics s + rejected))
    (Int.u64 (batches_received s + batches)) (Int.u64 (skew_warnings s + skew))
    (Int.u64 (backpressure_signals_sent s + pressure)) (skew_threshold_ms s)
    (backpressure_threshold_ms s) (mode s) k.

(** [md.find(key)] in the client metadata. *)
Fixpoint metadata_value (key : string) (md : list (string * string)) : string :=
  match md with
  | [] => ""
  | (k, v) :: md' => if String.eqb k key then v else metadata_value key md'
  end.

Definition llabs (z : Z) : Z := if (z <? 0)%Z then Int.to_int64 (- z) else z.

Definition size_of (b : MetricsBatch) : Z := Z.of_nat (length (b_metrics b)).

(** The clock-skew warning counter. *)
Definition note_skew (now_ms : Z) (request : MetricsBatch) (s : service S) : service S :=
  let skew := llabs (Int.to_int64 (now_ms - b_timestamp_unix_ms request)) in
  if (skew_threshold_ms s <? skew)%Z then bump 0 0 0 1 0 (sink s) s else s.

(** [SendMetrics] at clock reading [now_ms]: the status, the response, whether
    "x-overloaded" is sent, and the service after the call. *)
Definition SendMetrics (now_ms : Z) (md : list (string * string)) (request : option MetricsBatch)
    (s : service S) : Status * option MetricsResponse * bool * service S :=
  let s := bump 0 0 1 0 0 (sink s) s in
  match request with
  | None => (mkStatus INVALID_ARGUMENT "request and response must not be null", None, false, s)
  | Some request =>
      let n := size_of request in
      if is_empty (b_agent_id request) then
        (Status_OK, Some (mkMetricsResponse false 0 n "agent_id is required"), false,
         bump 0 n 0 0 0 (sink s) s)
      else if (n =? 0)%Z then
        (Status_OK, Some (mkMetricsResponse true 0 0 "empty batch accepted"), false, s)
      else
        let s := bump n 0 0 0 0 (sink s) s in
        let traceparent := metadata_value "traceparent" md in
        let s := note_skew now_ms request s in
        let '(ok, elapsed_ms, k) := ingest request traceparent (sink s) in
        if negb ok then
          (Status_OK,
           Some (mkMetricsResponse false 0 n
             (match mode s with Kafka => "kafka produce failed" | Direct => "storage write failed" end)),
           false, bump 0 n 0 0 0 k s)
        else
          let overloaded := (backpressure_threshold_ms s <? elapsed_ms)%Z in
          (Status_OK, Some (mkMetricsResponse true n 0 "ok"), overloaded,
           bump 0 0 0 0 (if overloaded then 1 else 0) k s)
  end.

(** *** StreamMetrics *)

Definition kFlushThreshold : nat := 500.

(** The locals captured by [flush]. *)
Record stream : Type := mkStream {
  batch : list Metric;
  accepted : Z;
  rejected : Z;
}.

Definition flush (agent_id traceparent : string) (ts : Z) (v : stream) (k : S) : bool * stream * S :=
  match batch v with
  | [] => (true, v, k)
  | l =>
      let '(ok, _, k) := ingest (mkBatch agent_id ts l) traceparent k in
      (ok,
       if ok then mkStream [] (accepted v + Z.of_nat (length l)) (rejected v)
       else mkStream [] (accepted v) (rejected v + Z.of_nat (length l)), k)
  end.

(** The read loop: [false] when a flush failed and the stream was drained. *)
Fixpoint read_loop (agent_id traceparent : string) (ts : Z) (reader : list Metric) (v : stream)
    (s : service S) : bool * stream * service S :=
  match reader with
  | [] => (true, v, s)
  | m :: rest =>
      let s := bump 1 0 0 0 0 (sink s) s in
      let v := mkStream (batch v ++ [m]) (accepted v) (rejected v) in
      if Nat.leb kFlushThreshold (length (batch v)) then
        let '(ok, v, k) := flush agent_id traceparent ts v (sink s) in
        let s := bump 0 0 0 0 0 k s in
        if ok then read_loop agent_id traceparent ts rest v s
        else
          let n := Z.of_nat (length rest) in
          (false, mkStream [] (accepted v) (rejected v + n), bump n 0 0 0 0 (sink s) s)
      else read_loop agent_id traceparent ts rest v s
  end.

Definition stream_failure (v : stream) (s : service S) : Status * MetricsResponse * service S :=
  (mkStatus UNAVAILABLE "storage write failed",
   mkMetricsResponse false (accepted v) (rejected v) "storage write failed",
   bump 0 (rejected v) 0 0 0 (sink s) s).

Definition StreamMetrics (now_ms : Z) (md : list (string * string)) (reader : list Metric) (s : service S)
    : Status * MetricsResponse * service S :=
  let s := bump 0 0 1 0 0 (sink s) s in
  let agent_id := metadata_value "x-agent-id" md in
  let traceparent := metadata_value "traceparent" md in
  if is_empty agent_id then
    let drained := Z.of_nat (length reader) in
    (mkStatus INVALID_ARGUMENT "missing 'x-agent-id' metadata header",
     mkMetricsResponse false 0 drained "missing x-agent-id metadata header",
     bump drained drained 0 0 0 (sink s) s)
  else
    let '(ok, v, s) := read_loop agent_id traceparent now_ms reader (mkStream [] 0 0) s in
    if negb ok then stream_failure v s
    else
      let '(ok, v, k) := flush agent_id traceparent now_ms v (sink s) in
      let s := bump 0 0 0 0 0 k s in
      if negb ok then stream_failure v s
      else
        (Status_OK, mkMetricsResponse true (accepted v) (rejected v) "ok",
         bump 0 (rejected v) 0 0 0 (sink s) s).
(** *** The responses *)

Lemma u64_u64 a b : Int.u64 (Int.u64 a + b) = Int.u64 (a + b).
Proof. unfold Int.u64. apply Zplus_mod_idemp_l. Qed.
Lemma u64_idem a : Int.u64 (Int.u64 a) = Int.u64 a.
Proof. unfold Int.u64. by rewrite Z.mod_mod. Qed.

Lemma note_skew_same now_ms request (s : service S) :
  sink (note_skew now_ms request s) = sink s /\
  backpressure_threshold_ms (note_skew now_ms request s) = backpressure_threshold_ms s /\
  Int.u64 (rejected_metrics (note_skew now_ms request s)) = Int.u64 (rejected_metrics s).
Proof.
  unfold note_skew. destruct (_ <? _)%Z; [|done]. split_and!; [done..|]. cbn. by rewrite Z.add_0_r, u64_idem.
Qed.

(** Every answer of [SendMetrics] accounts for every metric of the
    request: all of them accepted or all rejected, acknowledged exactly when
    accepted, nothing reaches the sink without an agent id or metrics, and
    "x-overloaded" is sent exactly for a stored batch slower than the
    threshold. *)
Theorem SendMetrics_all_or_nothing (now_ms : Z) (md : list (string * string)) (request : MetricsBatch)
    (s : service S) :
  let n := size_of request in
  let stored := negb (is_empty (b_agent_id request)) && negb (n =? 0)%Z in
  let '(ok, elapsed_ms, k) := ingest request (metadata_value "traceparent" md) (sink s) in
  let '(status, response, overloaded, s') := SendMetrics now_ms md (Some request) s in
  let ack := if is_empty (b_agent_id request) then false else if (n =? 0)%Z then true else ok in
  status = Status_OK /\
  (exists msg, response =
     Some (mkMetricsResponse ack (if ack then n else 0) (if ack then 0 else n) msg)) /\
  sink s' = (if stored then k else sink s) /\
  overloaded = stored && ok && (backpressure_threshold_ms s <? elapsed_ms)%Z /\
  rejected_metrics s' = Int.u64 (rejected_metrics s + (if ack then 0 else n)).
Proof.
  cbv zeta. destruct (ingest request _ (sink s)) as [[ok el] k] eqn:E.
  unfold SendMetrics. destruct (is_empty (b_agent_id request)) eqn:Ea; cbn [negb andb].
  { split_and!; [done|by eexists|done|done|]. cbn. by rewrite Z.add_0_r, u64_u64. }
  destruct (Z.eqb_spec (size_of request) 0) as [En|En]; cbn [negb andb].
  { split_and!; [done|eexists; by rewrite ?En|done|done|done]. }
  destruct (note_skew_same now_ms request (bump (size_of request) 0 0 0 0 (sink s) (bump 0 0 1 0 0 (sink s) s)))
    as (N1 & N2 & N3).
  cbn [sink bump] in *. rewrite N1, E, N2. cbn [negb andb].
  destruct ok; cbn [negb andb]; split_and!; try done; try (by eexists); cbn;
    by rewrite ?Z.add_0_r, ?u64_idem, <- ?(u64_u64 (rejected_metrics (note_skew _ _ _))), N3;
       cbn; rewrite ?Z.add_0_r, ?u64_idem, ?u64_u64.
Qed.
End Endpoints.

(** *** Streams: a sink that remembers the batches it was given *)
Section Streams.
Context {S : Type} `{Sink S}.

#[local] Instance logged_sink : Sink (S * list MetricsBatch) := {|
  ingest b tp k := let '(ok, el, k') := ingest b tp (fst k) in (ok, el, (k', snd k ++ [b]));
|}.
Abbreviation log s := (snd (sink s)).

Definition metrics_of (l : list MetricsBatch) : list Metric := concat (map b_metrics l).
Definition well_formed (agent_id : string) (b : MetricsBatch) : Prop :=
  b_agent_id b = agent_id /\ 1 <= length (b_metrics b) <= kFlushThreshold.

Lemma metrics_of_snoc l b : metrics_of (l ++ [b]) = metrics_of l ++ b_metrics b.
Proof. unfold metrics_of. rewrite map_app, concat_app. simpl. by rewrite app_nil_r. Qed.

(** What the stream has become after [read] has been read: [new] are the
    batches ingested, and [lost] says that the last one failed. *)
Definition consistent (agent_id : string) (read : list Metric) (new : list MetricsBatch) (v : stream)
    (lost : bool) : Prop :=
  Forall (well_formed agent_id) new /\ (0 <= accepted v)%Z /\ (0 <= rejected v)%Z /\
  (accepted v + rejected v + Z.of_nat (length (batch v)) = Z.of_nat (length read))%Z /\
  (if lost then batch v = [] /\ (0 < rejected v)%Z /\ exists rest, metrics_of new ++ rest = read
   else rejected v = 0%Z /\ length (batch v) < kFlushThreshold /\ metrics_of new ++ batch v = read).

Lemma flush_consistent agent_id tp ts read new v k :
  Forall (well_formed agent_id) new -> (0 <= accepted v)%Z -> rejected v = 0%Z ->
  length (batch v) <= kFlushThreshold ->
  (accepted v + Z.of_nat (length (batch v)) = Z.of_nat (length read))%Z ->
  metrics_of new ++ batch v = read ->
  let '(ok, v', k') := flush agent_id tp ts v k in
  exists new', consistent agent_id read (new ++ new') v' (negb ok) /\ snd k' = snd k ++ new' /\
    batch v' = [].
Proof.
  intros Hw Ha Hr Hl Hc Hm. unfold flush. destruct (batch v) as [|m l] eqn:E.
  - exists []. rewrite !app_nil_r in *. unfold consistent. rewrite E. cbn [negb length] in *.
    unfold kFlushThreshold. rewrite app_nil_r. split_and!; try done; lia.
  - cbn [ingest logged_sink]. destruct (ingest _ tp (fst k)) as [[ok el] k'].
    exists [mkBatch agent_id ts (m :: l)].
    split_and!; [|done|by destruct ok]. cbn [length] in Hl, Hc.
    unfold consistent. rewrite metrics_of_snoc. cbn [b_metrics].
    destruct ok; cbn [negb accepted rejected batch length]; split_and!; try lia; try done.
    + apply Forall_app. split; [done|]. apply Forall_singleton. split; cbn; [done|lia].
    + by rewrite app_nil_r.
    + apply Forall_app. split; [done|]. apply Forall_singleton. split; cbn; [done|lia].
    + exists []. by rewrite app_nil_r.
Qed.

Lemma read_loop_consistent agent_id tp ts reader v (s : service (S * list MetricsBatch)) read new :
  consistent agent_id read new v false ->
  let '(ok, v', s') := read_loop agent_id tp ts reader v s in
  exists new', consistent agent_id (read ++ reader) (new ++ new') v' (negb ok) /\
    log s' = log s ++ new' /\
    Int.u64 (received_metrics s') = Int.u64 (received_metrics s + Z.of_nat (length reader)) /\
    Int.u64 (rejected_metrics s') = Int.u64 (rejected_metrics s).
Proof.
  revert v s read new. induction reader as [|m rest IH]; intros v s read new C.
  - exists []. cbn [read_loop]. rewrite !app_nil_r, Z.add_0_r. done.
  - cbn [read_loop]. destruct C as (Hw & Ha & _ & Hc & Hr & Hl & Hm).
    set (s1 := bump 1 0 0 0 0 (sink s) s).
    set (v1 := mkStream (batch v ++ [m]) (accepted v) (rejected v)).
    assert (Hlen : length (batch v1) = Datatypes.S (length (batch v))).
    { cbn. rewrite length_app. cbn. lia. }
    assert (Hread : metrics_of new ++ batch v1 = read ++ [m]) by (cbn; by rewrite app_assoc, Hm).
    assert (Hcount : (accepted v1 + Z.of_nat (length (batch v1)) = Z.of_nat (length (read ++ [m])))%Z).
    { rewrite Hlen, length_app. cbn [accepted v1 length]. lia. }
    assert (Hassoc : read ++ m :: rest = (read ++ [m]) ++ rest) by (by rewrite <- app_assoc).
    destruct (Nat.leb kFlushThreshold (length (batch v1))) eqn:L.
    + pose proof (flush_consistent agent_id tp ts (read ++ [m]) new v1 (sink s1) Hw Ha Hr
        ltac:(apply Nat.leb_le in L; lia) Hcount Hread) as F.
      destruct (flush agent_id tp ts v1 (sink s1)) as [[ok v2] k]. destruct F as (new1 & C1 & Ek & Eb).
      destruct ok.
      * specialize (IH v2 (bump 0 0 0 0 0 k s1) (read ++ [m]) (new ++ new1) C1).
        destruct (read_loop _ _ _ rest v2 _) as [[ok' v'] s'].
        destruct IH as (new2 & C2 & El & Erec & Erej). exists (new1 ++ new2).
        rewrite Hassoc, (app_assoc new). split_and!; [done| | |].
        -- rewrite El. cbn [sink bump]. rewrite Ek. cbn [sink bump s1]. by rewrite app_assoc.
        -- rewrite Erec. cbn. rewrite !u64_u64, Z.add_0_r, u64_u64. f_equal. lia.
        -- rewrite Erej. cbn. by rewrite !Z.add_0_r, !u64_idem.
      * exists new1. destruct C1 as (C1 & C2 & C3 & C4 & C5 & C6 & rest' & C7). rewrite Hassoc.
        split_and!; [|done| |].
        -- unfold consistent. rewrite (length_app _ rest). cbn [accepted rejected batch length negb].
           rewrite C5 in C4. cbn [length] in C4.
           split_and!; try done; try lia. exists (rest' ++ rest). by rewrite app_assoc, C7.
        -- cbn. rewrite !u64_idem, !u64_u64, Z.add_0_r, u64_u64. f_equal. lia.
        -- cbn. by rewrite !Z.add_0_r, !u64_idem.
    + apply Nat.leb_gt in L. specialize (IH v1 s1 (read ++ [m]) new).
      destruct (read_loop _ _ _ rest v1 s1) as [[ok' v'] s']. destruct IH as (new2 & C2 & El & Erec & Erej).
      { unfold consistent. rewrite Hlen in *. cbn [v1 rejected accepted] in *. split_and!; try done; lia. }
      exists new2. rewrite Hassoc. split_and!; [done|done| |].
      * rewrite Erec. cbn [received_metrics s1 bump]. rewrite u64_u64. f_equal. cbn [length]. lia.
      * rewrite Erej. cbn. by rewrite Z.add_0_r, u64_idem.
Qed.

(** A stream loses nothing and counts everything.  For a stream of
    [n] metrics of a named agent, the batches handed to the sink carry that
    agent, 1 to 500 metrics each, and are together a prefix of the stream in
    order, the whole stream when the call is acknowledged; accepted plus
    rejected is [n], an acknowledgement means none was rejected, and the
    service counters grow by [n] received and by the rejected ones. *)
Theorem StreamMetrics_conserves (now_ms : Z) (md : list (string * string)) (reader : list Metric)
    (s : service (S * list MetricsBatch)) :
  metadata_value "x-agent-id" md <> "" ->
  let '(status, response, s') := StreamMetrics now_ms md reader s in
  exists new,
    log s' = log s ++ new /\ Forall (well_formed (metadata_value "x-agent-id" md)) new /\
    (exists rest, metrics_of new ++ rest = reader /\ (r_ack response = true -> rest = [])) /\
    (r_accepted_count response + r_rejected_count response = Z.of_nat (length reader))%Z /\
    (r_ack response = true <-> st_code status = OK) /\
    (r_ack response = true <-> r_rejected_count response = 0%Z) /\
    Int.u64 (received_metrics s') = Int.u64 (received_metrics s + Z.of_nat (length reader)) /\
    Int.u64 (rejected_metrics s') = Int.u64 (rejected_metrics s + r_rejected_count response).
Proof.
  intros Hid. unfold StreamMetrics. rewrite (proj2 (is_empty_false _)) by done.
  set (agent := metadata_value "x-agent-id" md) in *. set (tp := metadata_value "traceparent" md).
  set (s1 := bump 0 0 1 0 0 (sink s) s).
  pose proof (read_loop_consistent agent tp now_ms reader (mkStream [] 0 0) s1 [] []) as R.
  destruct (read_loop agent tp now_ms reader (mkStream [] 0 0) s1) as [[ok v] s2].
  destruct R as (new & (Hw & Ha & Hr & Hc & Hx) & El & Erec & Erej).
  { unfold consistent, kFlushThreshold. cbn. split_and!; try done; lia. }
  cbn [app] in *.
  assert (Hrec : forall z k, Int.u64 (received_metrics (bump 0 z 0 0 0 k s2)) =
    Int.u64 (received_metrics s + Z.of_nat (length reader))).
  { intros. cbn. rewrite Z.add_0_r, u64_idem, Erec. cbn. by rewrite Z.add_0_r, u64_u64. }
  assert (Hrej : forall z k, Int.u64 (rejected_metrics (bump 0 z 0 0 0 k s2)) =
    Int.u64 (rejected_metrics s + z)).
  { intros. cbn. rewrite u64_idem. rewrite <- (u64_u64 (rejected_metrics s2)), Erej. cbn.
    by rewrite Z.add_0_r, u64_idem, u64_u64. }
  destruct ok; cbn [negb] in *.
  - destruct Hx as (Hr0 & Hl & Hm).
    pose proof (flush_consistent agent tp now_ms reader new v (sink s2) Hw Ha Hr0 ltac:(lia) ltac:(lia) Hm) as F.
    destruct (flush agent tp now_ms v (sink s2)) as [[ok v2] k].
    destruct F as (new1 & (Hw1 & Ha1 & Hr1 & Hc1 & Hx1) & Ek & Eb). rewrite Eb in Hc1. cbn [length] in Hc1.
    assert (Hl' : snd k = log s ++ new ++ new1) by (rewrite Ek, El; by rewrite app_assoc).
    destruct ok; cbn [negb] in *; exists (new ++ new1).
    + destruct Hx1 as (Hz & _ & Hm1). rewrite Eb, app_nil_r in Hm1.
      split_and!; try done.
      * exists []. by rewrite app_nil_r.
      * cbn. lia.
      * cbn. rewrite !Z.add_0_r, !u64_idem, Erec. cbn. by rewrite Z.add_0_r, u64_u64.
      * cbn. rewrite Z.add_0_r, u64_idem, u64_u64, <- u64_u64, Erej. cbn. by rewrite Z.add_0_r, u64_idem, u64_u64.
    + destruct Hx1 as (_ & Hz & rest & Hm1).
      split_and!; try done.
      * by exists rest.
      * cbn. lia.
      * cbn. split; [done|]. lia.
      * cbn. rewrite !Z.add_0_r, !u64_idem, Erec. cbn. by rewrite Z.add_0_r, u64_u64.
      * cbn. rewrite Z.add_0_r, u64_idem, u64_u64, <- u64_u64, Erej. cbn. by rewrite Z.add_0_r, u64_idem, u64_u64.
  - destruct Hx as (Eb & Hz & rest & Hm). rewrite Eb in Hc. cbn [length] in Hc. exists new.
    split_and!; try done.
    + by exists rest.
    + cbn. lia.
    + cbn. split; [done|]. lia.
Qed.
End Streams.

#[local] Instance demo_sink : Sink nat := {|
  ingest b _ k := (Nat.ltb k 1, 3%Z, Datatypes.S k);
|}.
Definition demo_service : service (nat * list MetricsBatch) :=
  mkService 0 0 0 0 0 5000 1000 Direct (0, []).
Definition demo_stream : list Metric := replicate 700 (AlertManager.Demo.metric "h:1" 150).
Abbreviation demo_call := (StreamMetrics (H := logged_sink) 1000 [("x-agent-id", "a")] demo_stream demo_service).

Lemma StreamMetrics_conserves_witness :
  r_accepted_count (snd (fst demo_call)) = 500%Z /\
  exists new, snd (sink (snd demo_call)) = [] ++ new /\ Forall (well_formed "a") new.
Proof.
  split; [vm_compute; reflexivity|].
  pose proof (StreamMetrics_conserves 1000 [("x-agent-id", "a")] demo_stream demo_service) as T.
  destruct (StreamMetrics _ _ _ _) as [[status response] s'].
  destruct T as (new & E & Hw & _); [done|]. exists new. split; [exact E|exact Hw].
Defined.
End Endpoints.
