(* ===== verification/Dists.v ===== *)
(** * Dists: staged binaries and installers, and the release mirror

    Models [collector/src/agent_dist.cpp], [installer_dist.cpp] and
    [release_mirror.cpp].  The file system is a map from paths to contents
    with a listing of each directory; OpenSSL's SHA-256, libcurl and the JSON
    library are parameters. *)
From stdpp Require Import base gmap strings list.
From Stdlib Require Import ZArith Lia Ascii.
From S2P Require Import Prelude Double Json.
Import Str.
#[local] Open Scope string_scope.
#[local] Open Scope list_scope.

Module Files.
(** What a scan sees of the disk: the directories, their entries in
    iteration order (name and whether it is a regular file), the contents. *)
Record disk : Type := mkDisk {
  directories : gset string;
  entries : string -> list (string * bool);
  files : gmap string string;
}.

Definition is_directory (d : disk) (path : string) : bool := bool_decide (path ∈ directories d).
(** [ReadFile]: [None] when the file cannot be opened or read. *)
Definition ReadFile (d : disk) (path : string) : option string := files d !! path.

Definition hex_digit (n : nat) : Ascii.ascii :=
  if Nat.ltb n 10 then c_of (48 + n) else c_of (87 + n).
Fixpoint hex (digest : string) : string :=
  match digest with
  | EmptyString => ""
  | String c rest =>
      let n := Ascii.nat_of_ascii c in
      String (hex_digit (Nat.div n 16)) (String (hex_digit (Nat.modulo n 16)) (hex rest))
  end.

(** [Sha256Hex]; [sha256] is EVP's digest, [None] when a call fails. *)
Definition Sha256Hex (sha256 : string -> option string) (data : string) : string :=
  match sha256 data with Some digest => hex digest | None => "" end.

Definition Trim : string -> string := trim.

(** The optional version.txt of a staged directory. *)
Definition staged_version (d : disk) (dir : string) : string :=
  match ReadFile d (dir +:+ "/version.txt") with
  | Some buf => if is_empty (Trim buf) then "0.1.0" else Trim buf
  | None => "0.1.0"
  end.

Definition ArchLabel (arch : string) : string :=
  if String.eqb arch "amd64" then "x86_64"
  else if String.eqb arch "arm64" then "aarch64" else arch.
End Files.

Module AgentDist.
Import Files.

Record AgentPlatform : Type := mkPlatform {
  id : string;
  os : string;
  arch : string;
  arch_label : string;
  filename : string;
  sha256 : string;
  size_bytes : Z;
}.

Definition kKnownOs : list string := ["linux"; "windows"; "darwin"; "freebsd"].
Definition kPrefix : string := "pudim-agent-".

Definition strip_exe (rest : string) : string :=
  if has_suffix ".exe" rest then stake (String.length rest - 4) rest else rest.

(** The metadata of a staged binary's name; digest and size are set by [Scan]. *)
Definition ParseAgentFilename (name : string) : option AgentPlatform :=
  if negb (has_prefix kPrefix name) then None
  else
    let rest := strip_exe (sdrop (String.length kPrefix) name) in
    match srfind "-"%char rest with
    | None => None
    | Some dash =>
        if Nat.eqb dash 0 || Nat.leb (String.length rest) (dash + 1) then None
        else
          let os := stake dash rest in
          let arch := sdrop (S dash) rest in
          if bool_decide (os ∈ kKnownOs) then
            Some (mkPlatform (os +:+ "-" +:+ arch) os arch (ArchLabel arch) name "" 0)
          else None
    end.

Record state : Type := mkState { dir_ : string; version_ : string; platforms_ : list AgentPlatform }.

Section Dist.
Context {J : Type} `{JsonOps J, JsonText J}.
Variable digest : string -> option string.

Definition stage (d : disk) (dir : string) (entry : string * bool) : option AgentPlatform :=
  if negb (snd entry) then None
  else
    plat ← ParseAgentFilename (fst entry);
    bytes ← ReadFile d (dir +:+ "/" +:+ fst entry);
    Some (mkPlatform (id plat) (os plat) (arch plat) (arch_label plat) (filename plat)
            (Sha256Hex digest bytes) (Z.of_nat (String.length bytes))).

Definition Scan (d : disk) (dir : string) (s : state) : bool * state :=
  let s := mkState (dir_ s) "0.1.0" [] in
  if is_empty dir then (false, s)
  else if negb (is_directory d dir) then (false, s)
  else (true, mkState dir (staged_version d dir) (omap (stage d dir) (entries d dir))).

Definition Find (platform_id : string) (s : state) : option AgentPlatform :=
  snd <$> list_find (fun p => id p = platform_id) (platforms_ s).

Definition LoadBinary (d : disk) (platform_id : string) (s : state) : option string :=
  p ← Find platform_id s; ReadFile d (dir_ s +:+ "/" +:+ filename p).

Definition platform_json (p : AgentPlatform) : J :=
  jset "download_url" (j_of_string ("/api/agent/download?platform=" +:+ id p))
    (jset "sha256" (j_of_string (sha256 p))
      (jset "size_bytes" (j_of_int (size_bytes p))
        (jset "filename" (j_of_string (filename p))
          (jset "arch" (j_of_string (arch_label p))
            (jset "os" (j_of_string (os p)) (jset "id" (j_of_string (id p)) jnull)))))).
Definition ManifestJson (s : state) : string :=
  jdump (jset "platforms" (jarray (map platform_json (platforms_ s)))
           (jset "version" (j_of_string (version_ s)) jnull)).
End Dist.

(** *** Which names are accepted *)

Lemma strip_exe_app (x : string) : strip_exe (x +:+ ".exe") = x.
Proof.
  unfold strip_exe. rewrite has_suffix_app. rewrite slength_app. simpl String.length.
  replace (String.length x + 4 - 4) with (String.length x) by lia. apply stake_app.
Qed.

Lemma strip_exe_cases (x : string) :
  (exists y, x = y +:+ ".exe" /\ strip_exe x = y) \/ (has_suffix ".exe" x = false /\ strip_exe x = x).
Proof.
  destruct (has_suffix ".exe" x) eqn:E.
  - left. apply has_suffix_spec in E as [y ->]. exists y. by rewrite strip_exe_app.
  - right. unfold strip_exe. by rewrite E.
Qed.

Lemma srfind_Some c (s : string) i :
  srfind c s = Some i ->
  has_char c (sdrop (S i) s) = false /\ s = stake i s +:+ String c (sdrop (S i) s) /\ i < String.length s.
Proof.
  revert i. induction s as [|d s IH]; intros i; simpl; [done|].
  destruct (srfind c s) as [j|] eqn:F.
  - intros [= <-]. destruct (IH j eq_refl) as (H1 & H2 & H3).
    change (sdrop (S (S j)) (String d s)) with (sdrop (S j) s).
    change (stake (S j) (String d s)) with (String d (stake j s)). simpl.
    split_and!; [done|by f_equal|lia].
  - destruct (Ascii.eqb c d) eqn:E; [|done]. intros [= <-]. apply Ascii.eqb_eq in E as ->.
    change (sdrop 1 (String d s)) with (sdrop 0 s). rewrite sdrop_0.
    change (stake 0 (String d s)) with "". simpl. split_and!; [|done|lia].
    clear IH. induction s as [|e s IH]; [done|]. simpl in F.
    destruct (srfind d s) eqn:G; [done|]. destruct (Ascii.eqb d e) eqn:K; [done|].
    rewrite has_char_cons, K. by apply IH.
Qed.

Lemma known_os_nonempty os : os ∈ kKnownOs -> os <> "".
Proof.
  intros Ho ->. unfold kKnownOs in Ho.
  repeat (apply elem_of_cons in Ho as [Ho|Ho]; [done|]). by apply not_elem_of_nil in Ho.
Qed.

(** Exactly the documented layout is recognised: a name is a staged
    agent binary if and only if it is "pudim-agent-<os>-<arch>" with an
    optional ".exe", a known os and a non-empty architecture without dash,
    and then its platform id is "<os>-<arch>". *)
Theorem ParseAgentFilename_iff (name : string) (p : AgentPlatform) :
  ParseAgentFilename name = Some p <->
  exists os arch ext,
    name = kPrefix +:+ os +:+ "-" +:+ arch +:+ ext /\ os ∈ kKnownOs /\
    arch <> "" /\ has_char "-"%char arch = false /\
    (ext = ".exe" \/ ext = "" /\ has_suffix ".exe" (os +:+ "-" +:+ arch) = false) /\
    p = mkPlatform (os +:+ "-" +:+ arch) os arch (ArchLabel arch) name "" 0.
Proof.
  split.
  - unfold ParseAgentFilename. destruct (has_prefix kPrefix name) eqn:Hp; [|done]. cbn [negb].
    apply sprefix_spec in Hp as [x Hx]. rewrite Hx, sdrop_app.
    destruct (srfind "-"%char (strip_exe x)) as [dash|] eqn:Hd; [|done].
    destruct (Nat.eqb dash 0 || Nat.leb (String.length (strip_exe x)) (dash + 1)) eqn:Hb; [done|].
    case_bool_decide as Ho; [|done]. intros [= <-].
    apply srfind_Some in Hd as (H1 & H2 & H3). bool_hyps.
    set (os := stake dash (strip_exe x)) in *. set (arch := sdrop (S dash) (strip_exe x)) in *.
    exists os, arch.
    assert (arch <> "") as Hne.
    { intros E. rewrite E in H2. apply (f_equal String.length) in H2. rewrite slength_app in H2.
      assert (String.length os <= dash).
      { unfold os. clear. revert dash. induction (strip_exe x) as [|c s IH]; intros [|n]; simpl; try lia.
        change (stake (S n) (String c s)) with (String c (stake n s)). simpl. specialize (IH n). lia. }
      simpl in H2. lia. }
    destruct (strip_exe_cases x) as [(y & -> & Ey)|[Hs Ex]].
    + exists ".exe". rewrite Ey in H2. split_and!; try done; [|by left].
      rewrite H2. by rewrite !sapp_assoc.
    + exists "". rewrite Ex in H2. change ("-" +:+ arch) with (String "-"%char arch).
      split_and!; try done; [rewrite sapp_nil_r; change ("-" +:+ arch) with (String "-"%char arch); by rewrite <- H2|].
      right. split; [done|]. change ("-" +:+ arch) with (String "-"%char arch). by rewrite <- H2.
  - intros (os & arch & ext & -> & Ho & Hne & Hd & Hext & ->).
    unfold ParseAgentFilename. change (has_prefix kPrefix ?s) with (String.prefix kPrefix s).
    rewrite sprefix_app. cbn [negb]. rewrite sdrop_app.
    assert (strip_exe (os +:+ "-" +:+ arch +:+ ext) = os +:+ String "-"%char arch) as ->.
    { destruct Hext as [->|[-> Hs]].
      - change (os +:+ String "-"%char arch) with (os +:+ "-" +:+ arch).
        rewrite <- (strip_exe_app (os +:+ "-" +:+ arch)). by rewrite !sapp_assoc.
      - rewrite sapp_nil_r. unfold strip_exe. by rewrite Hs. }
    rewrite srfind_app_sep by done. rewrite slength_app, stake_app, sdrop_S_app. simpl String.length.
    rewrite bool_decide_true by done.
    destruct os as [|c os]; [by apply known_os_nonempty in Ho|]. destruct arch as [|a arch]; [done|].
    simpl String.length. rewrite (proj2 (Nat.leb_gt _ _)) by lia. done.
Qed.
End AgentDist.

Module InstallerDist.
Import Files.

Record InstallerArtifact : Type := mkArtifact {
  id : string;
  os : string;
  arch : string;
  arch_label : string;
  kind : string;
  filename : string;
  extension : string;
  sha256 : string;
  size_bytes : Z;
}.

Definition kWinPrefix : string := "PudimNetMon-Agent-Setup".
Definition kLinPrefix : string := "pudimnetmon-agent-".
Definition kMarker : string := "-linux-".

Definition ParseInstallerFilename (name : string) : option InstallerArtifact :=
  if has_prefix kWinPrefix name && has_suffix ".exe" name then
    Some (mkArtifact "windows-amd64" "windows" "amd64" "x86_64" "setup" name ".exe" "" 0)
  else if negb (has_prefix kLinPrefix name) then None
  else
    match sfind_str kMarker name with
    | None => None
    | Some marker =>
        if negb (has_suffix ".run" name) then None
        else
          let arch := substr name (marker + String.length kMarker)
                        (String.length name - marker - String.length kMarker - 4) in
          if is_empty arch || (match sfind "-"%char arch with Some _ => true | None => false end) then None
          else Some (mkArtifact ("linux-" +:+ arch) "linux" arch (ArchLabel arch) "run" name ".run" "" 0)
    end.

Definition token_char (c : Ascii.ascii) : bool :=
  let n := Ascii.nat_of_ascii c in
  (Nat.leb 97 n && Nat.leb n 122) || (Nat.leb 65 n && Nat.leb n 90) || (Nat.leb 48 n && Nat.leb n 57) ||
  Nat.eqb n 45 || Nat.eqb n 95.
Definition ValidConfigToken (token : string) : bool :=
  negb (is_empty token) && Nat.leb (String.length token) 256 && sall token_char token.

Record state : Type := mkState { dir_ : string; version_ : string; artifacts_ : list InstallerArtifact }.

Definition FindUnlocked (platform_id : string) (l : list InstallerArtifact) : option InstallerArtifact :=
  snd <$> list_find (fun a => id a = platform_id) l.

Section Dist.
Context {J : Type} `{JsonOps J, JsonText J}.
Variable digest : string -> option string.

(** One directory entry of [Scan]: the first artifact of a platform stays. *)
Definition stage (d : disk) (dir : string) (l : list InstallerArtifact) (entry : string * bool)
    : list InstallerArtifact :=
  if negb (snd entry) then l
  else
    match ParseInstallerFilename (fst entry) with
    | None => l
    | Some a =>
        match FindUnlocked (id a) l with
        | Some _ => l
        | None =>
            match ReadFile d (dir +:+ "/" +:+ fst entry) with
            | None => l
            | Some bytes =>
                l ++ [mkArtifact (id a) (os a) (arch a) (arch_label a) (kind a) (filename a) (extension a)
                        (Sha256Hex digest bytes) (Z.of_nat (String.length bytes))]
            end
        end
    end.

Definition Scan (d : disk) (dir : string) (s : state) : bool * state :=
  let s := mkState (dir_ s) "0.1.0" [] in
  if is_empty dir then (false, s)
  else if negb (is_directory d dir) then (false, s)
  else (true, mkState dir (staged_version d dir) (fold_left (stage d dir) (entries d dir) [])).

Definition Find (platform_id : string) (s : state) : bool :=
  match FindUnlocked platform_id (artifacts_ s) with Some _ => true | None => false end.
Definition Artifacts (s : state) : list InstallerArtifact := artifacts_ s.
Definition Version (s : state) : string := version_ s.

Definition Load (d : disk) (platform_id : string) (s : state) : option string :=
  a ← FindUnlocked platform_id (artifacts_ s); ReadFile d (dir_ s +:+ "/" +:+ filename a).

Definition artifact_json (a : InstallerArtifact) : J :=
  jset "download_url" (j_of_string ("/api/installers/download?platform=" +:+ id a))
    (jset "sha256" (j_of_string (sha256 a))
      (jset "size_bytes" (j_of_int (size_bytes a))
        (jset "filename" (j_of_string (filename a))
          (jset "kind" (j_of_string (kind a))
            (jset "arch" (j_of_string (arch_label a))
              (jset "os" (j_of_string (os a)) (jset "id" (j_of_string (id a)) jnull))))))).
Definition ManifestJson (s : state) : string :=
  jdump (jset "installers" (jarray (map artifact_json (artifacts_ s)))
           (jset "version" (j_of_string (version_ s)) jnull)).

Definition DownloadName (platform_id config : string) (s : state) : string :=
  match FindUnlocked platform_id (artifacts_ s) with
  | None => ""
  | Some a =>
      if negb (ValidConfigToken config) then filename a
      else stake (String.length (filename a) - String.length (extension a)) (filename a)
           +:+ "-cfg-" +:+ config +:+ extension a
  end.

(** *** What a scan leaves *)

Lemma FindUnlocked_None pid l : FindUnlocked pid l = None <-> forall a, a ∈ l -> id a <> pid.
Proof.
  unfold FindUnlocked. etransitivity; [apply fmap_None|].
  etransitivity; [apply list_find_None|]. by rewrite Forall_forall.
Qed.
Lemma FindUnlocked_Some pid l a : FindUnlocked pid l = Some a -> a ∈ l /\ id a = pid.
Proof.
  unfold FindUnlocked. intros [[i b] [Hf ->]]%fmap_Some. apply list_find_Some in Hf as (Hl & Hid & _).
  split; [by eapply list_elem_of_lookup_2|done].
Qed.

Lemma ParseInstallerFilename_fields name a :
  ParseInstallerFilename name = Some a -> filename a = name /\ exists stem, name = stem +:+ extension a.
Proof.
  unfold ParseInstallerFilename. destruct (has_prefix kWinPrefix name && has_suffix ".exe" name) eqn:E.
  - intros [= <-]. split; [done|]. bool_hyps. by apply has_suffix_spec.
  - destruct (has_prefix kLinPrefix name); [|done]. destruct (sfind_str kMarker name); [|done].
    destruct (has_suffix ".run" name) eqn:F; [|done]. cbn [negb].
    destruct (is_empty _ || _); [done|]. intros [= <-]. split; [done|]. by apply has_suffix_spec.
Qed.

(** What is true of every staged artifact. *)
Definition staged (d : disk) (dir : string) (a : InstallerArtifact) : Prop :=
  exists bytes a0, ParseInstallerFilename (filename a) = Some a0 /\ id a = id a0 /\
    extension a = extension a0 /\ ReadFile d (dir +:+ "/" +:+ filename a) = Some bytes /\
    sha256 a = Sha256Hex digest bytes /\ size_bytes a = Z.of_nat (String.length bytes).

Lemma stage_inv d dir l e :
  NoDup (map id l) -> Forall (staged d dir) l ->
  NoDup (map id (stage d dir l e)) /\ Forall (staged d dir) (stage d dir l e).
Proof.
  intros Hnd Hall. unfold stage. destruct (negb (snd e)); [done|].
  destruct (ParseInstallerFilename (fst e)) as [a|] eqn:Hp; [|done].
  destruct (FindUnlocked (id a) l) eqn:Hf; [done|].
  destruct (ReadFile d _) as [bytes|] eqn:Hr; [|done]. split.
  - rewrite map_app. apply NoDup_app. split_and!; [done| |apply NoDup_singleton].
    intros i (x & -> & Hx)%list_elem_of_fmap Hi%list_elem_of_singleton.
    by apply (proj1 (FindUnlocked_None _ _) Hf x).
  - apply Forall_app. split; [done|]. apply Forall_singleton.
    destruct (ParseInstallerFilename_fields _ _ Hp) as [Hn _].
    exists bytes, a. cbn. rewrite Hn. done.
Qed.

Lemma scan_inv d dir es l :
  NoDup (map id l) -> Forall (staged d dir) l ->
  NoDup (map id (fold_left (stage d dir) es l)) /\ Forall (staged d dir) (fold_left (stage d dir) es l).
Proof.
  revert l. induction es as [|e es IH]; intros l H1 H2; [done|]. simpl.
  destruct (stage_inv d dir l e H1 H2). by apply IH.
Qed.

Lemma find_exact l a : NoDup (map id l) -> a ∈ l -> FindUnlocked (id a) l = Some a.
Proof.
  intros Hnd Hin. destruct (FindUnlocked (id a) l) as [b|] eqn:E.
  - apply FindUnlocked_Some in E as [Hb Hid]. f_equal.
    apply list_elem_of_lookup_1 in Hin as [i Hi]. apply list_elem_of_lookup_1 in Hb as [j Hj].
    assert (i = j) as ->; [|congruence].
    eapply (NoDup_lookup (map id l)); [done|..]; rewrite list_lookup_fmap; rewrite ?Hi, ?Hj; simpl; by f_equal.
  - by pose proof (proj1 (FindUnlocked_None _ _) E a Hin).
Qed.

(** After a scan of a readable directory the catalogue is
    trustworthy: one artifact per platform, and loading a listed platform
    returns the file whose SHA-256 and size the manifest shows. *)
Theorem Scan_catalogue (d : disk) (dir : string) (s : state) :
  dir <> "" -> is_directory d dir = true ->
  let '(ok, s') := Scan d dir s in
  ok = true /\ NoDup (map id (Artifacts s')) /\
  (forall a, a ∈ Artifacts s' ->
     Find (id a) s' = true /\
     exists bytes, Load d (id a) s' = Some bytes /\ sha256 a = Sha256Hex digest bytes /\
       size_bytes a = Z.of_nat (String.length bytes)).
Proof.
  intros Hd Hdir. unfold Scan. rewrite (proj2 (is_empty_false dir)), Hdir by done. cbn [negb].
  destruct (scan_inv d dir (entries d dir) []) as [Hnd Hall]; [constructor..|].
  split_and!; [done|done|]. intros a Ha.
  unfold Find, Load. cbn [artifacts_ dir_]. rewrite find_exact by done. split; [done|].
  rewrite Forall_forall in Hall. destruct (Hall a Ha) as (bytes & a0 & _ & _ & _ & Hr & Hs & Hz).
  exists bytes. done.
Qed.

(** The download name carries the configuration token and nothing
    else: for a staged artifact and a valid token (1 to 256 letters, digits,
    dashes or underscores) it is "<stem>-cfg-<token><extension>", with the
    staged name's own stem and extension, so the token can be read back; any
    other token leaves the staged name, an unknown platform gives nothing. *)
Theorem DownloadName_spec (d : disk) (dir config : string) (s : state) (a : InstallerArtifact) :
  dir <> "" -> is_directory d dir = true -> a ∈ Artifacts (snd (Scan d dir s)) ->
  let name := DownloadName (id a) config (snd (Scan d dir s)) in
  exists stem, filename a = stem +:+ extension a /\
    (ValidConfigToken config = true ->
       name = stem +:+ "-cfg-" +:+ config +:+ extension a /\
       substr name (String.length (stem +:+ "-cfg-")) (String.length config) = config) /\
    (ValidConfigToken config = false -> name = filename a).
Proof.
  intros Hd Hdir. unfold Scan. rewrite (proj2 (is_empty_false dir)), Hdir by done. cbn [negb snd].
  destruct (scan_inv d dir (entries d dir) []) as [Hnd Hall]; [constructor..|].
  unfold Artifacts, DownloadName. cbn [artifacts_]. intros Ha. rewrite find_exact by done.
  rewrite Forall_forall in Hall. destruct (Hall a Ha) as (bytes & a0 & Hp & _ & Hext & _).
  destruct (ParseInstallerFilename_fields _ _ Hp) as [_ [stem Hstem]]. rewrite <- Hext in Hstem.
  exists stem. rewrite Hstem, slength_app.
  replace (String.length stem + String.length (extension a) - String.length (extension a))
    with (String.length stem) by lia. rewrite stake_app.
  split_and!; [done| |by intros ->].
  intros ->. cbn [negb]. split; [done|].
  rewrite <- (sapp_assoc stem). apply substr_app.
Qed.
End Dist.

Definition demo_setup : string := "PudimNetMon-Agent-Setup-0.1.0.exe".
Definition demo_disk : disk :=
  mkDisk {["/inst"]} (fun _ => [(demo_setup, true); ("PudimNetMon-Agent-Setup-0.2.0.exe", true); ("notes", true)])
    {["/inst/PudimNetMon-Agent-Setup-0.1.0.exe" := "MZ"]}.
Definition demo_digest (s : string) : option string := Some (stake 2 s).
Definition demo_scan : state := snd (Scan demo_digest demo_disk "/inst" (mkState "" "" [])).
Definition demo_artifact : InstallerArtifact :=
  mkArtifact "windows-amd64" "windows" "amd64" "x86_64" "setup" demo_setup ".exe" "4d5a" 2.

Lemma Scan_catalogue_witness :
  artifacts_ demo_scan = [demo_artifact] /\ NoDup (map id (Artifacts demo_scan)).
Proof.
  split; [vm_compute; reflexivity|].
  exact (proj1 (proj2 (Scan_catalogue demo_digest demo_disk "/inst" (mkState "" "" [])
    ltac:(discriminate) eq_refl))).
Defined.

Lemma DownloadName_spec_witness :
  DownloadName "windows-amd64" "tok-1" demo_scan = "PudimNetMon-Agent-Setup-0.1.0-cfg-tok-1.exe" /\
  exists stem, filename demo_artifact = stem +:+ extension demo_artifact.
Proof.
  split; [vm_compute; reflexivity|].
  destruct (DownloadName_spec demo_digest demo_disk "/inst" "tok-1" (mkState "" "" []) demo_artifact
    ltac:(discriminate) eq_refl) as [stem [E _]].
  - vm_compute. left.
  - by exists stem.
Defined.
End InstallerDist.

Module ReleaseMirror.
Import Files.

Record ReleaseMirrorConfig : Type := mkConfig {
  owner : string;
  repo : string;
  api_base : string;
  token : string;
  installer_dir : string;
}.

(** The result of [curl_easy_perform]: an error text or CURLE_OK, the HTTP
    status, and the body handed to the write function. *)
Record curl_result : Type := mkCurl { rc : option string; http_code : Z; written : string }.

Section Mirror.
Context {J : Type} `{JsonOps J, JsonText J}.
Variable curl_init : bool.
Variable perform : string -> list string -> curl_result.
Variable fopen_ok : string -> bool.
(** The error of [rename], if any. *)
Variable rename_error : string -> string -> option string.

Definition authorization (c : ReleaseMirrorConfig) : list string :=
  if is_empty (token c) then [] else ["Authorization: Bearer " +:+ token c].

Definition http_error (r : curl_result) : option string :=
  match rc r with
  | Some e => Some e
  | None => if (http_code r <? 200)%Z || (300 <=? http_code r)%Z then Some ("HTTP " +:+ of_Z (http_code r))
            else None
  end.

(** [HttpGet]: [inl] is the error text. *)
Definition HttpGet (c : ReleaseMirrorConfig) (url accept : string) : string + string :=
  if negb curl_init then inl "curl init failed"
  else
    let r := perform url (("Accept: " +:+ accept) :: authorization c) in
    match http_error r with Some e => inl e | None => inr (written r) end.

Definition put_file (path data : string) (d : disk) : disk :=
  mkDisk (directories d) (entries d) (<[path := data]> (files d)).
Definition remove_file (path : string) (d : disk) : disk :=
  mkDisk (directories d) (entries d) (delete path (files d)).

(** [DownloadToFile]: the error text, or [None] for success. *)
Definition DownloadToFile (c : ReleaseMirrorConfig) (url dest : string) (d : disk) : option string * disk :=
  let tmp := dest +:+ ".part" in
  if negb (fopen_ok tmp) then (Some ("cannot open " +:+ tmp), d)
  else
    let d := put_file tmp "" d in
    if negb curl_init then (Some "curl init failed", remove_file tmp d)
    else
      let r := perform url (authorization c) in
      let d := put_file tmp (written r) d in
      match http_error r with
      | Some e => (Some e, remove_file tmp d)
      | None =>
          match rename_error tmp dest with
          | Some e => (Some ("rename failed: " +:+ e), remove_file tmp d)
          | None => (None, put_file dest (written r) (remove_file tmp d))
          end
      end.

Definition StableAssetNames : list string :=
  ["pudimnetmon-agent-install-linux-amd64.run"; "pudimnetmon-agent-install-linux-arm64.run";
   "PudimNetMon-Agent-Setup.exe"].

Definition release_version (tag : string) : string :=
  let v := match tag with
           | String c (String _ _) => if Ascii.eqb c "v"%char then sdrop 1 tag else tag
           | _ => tag
           end in
  if is_empty v then "0.1.0" else v.

(** One asset of the release: the number of downloads so far and the disk. *)
Definition mirror_asset (c : ReleaseMirrorConfig) (asset : J) (acc : Z * disk) : outcome (Z * disk) :=
  let '(downloaded, d) := acc in
  let! name := Json.value_string asset "name" "" in
  if is_empty name then Returns acc
  else if negb (bool_decide (name ∈ StableAssetNames)) then Returns acc
  else
    let! url := Json.value_string asset "browser_download_url" "" in
    if is_empty url then Returns acc
    else if is_empty (installer_dir c) || negb (is_directory d (installer_dir c)) then Returns acc
    else
      match DownloadToFile c url (installer_dir c +:+ "/" +:+ name) d with
      | (None, d) => Returns ((downloaded + 1)%Z, d)
      | (Some _, d) => Returns (downloaded, d)
      end.

Fixpoint mirror_assets (c : ReleaseMirrorConfig) (assets : list J) (acc : Z * disk) : outcome (Z * disk) :=
  match assets with
  | [] => Returns acc
  | a :: rest => let! acc := mirror_asset c a acc in mirror_assets c rest acc
  end.

(** The version file is written when its stream opens, that is, when the
    directory exists. *)
Definition write_version (c : ReleaseMirrorConfig) (version : string) (d : disk) : disk :=
  if is_empty (installer_dir c) then d
  else if is_directory d (installer_dir c) && fopen_ok (installer_dir c +:+ "/version.txt") then
    put_file (installer_dir c +:+ "/version.txt") (version +:+ chr nl) d
  else d.

Definition api_url (c : ReleaseMirrorConfig) : string :=
  api_base c +:+ "/repos/" +:+ owner c +:+ "/" +:+ repo c +:+ "/releases/latest".

(** [SyncOnce]: the result and the summary.  Conversions of a document with
    members of another type throw out of it. *)
Definition SyncOnce (c : ReleaseMirrorConfig) (d : disk) : outcome (bool * string * disk) :=
  match HttpGet c (api_url c) "application/vnd.github+json" with
  | inl err => Returns (false, "release fetch failed: " +:+ err, d)
  | inr body =>
      match jparse body with
      | inl _ => Returns (false, "release JSON parse failed", d)
      | inr j =>
          let! tag := Json.value_string j "tag_name" "" in
          let version := release_version tag in
          let! assets := Json.value_as Returns j "assets" (jarray []) in
          let! r := mirror_assets c (jelements assets) (0%Z, d) in
          let '(downloaded, d) := r in
          Returns ((0 <? downloaded)%Z,
                   "mirrored " +:+ of_Z downloaded +:+ " installer asset(s) from release " +:+ version,
                   write_version c version d)
      end
  end.

(** *** What the mirror may change *)

Lemma tmp_ne dest : dest +:+ ".part" <> dest.
Proof.
  intros E. apply (f_equal String.length) in E. rewrite slength_app in E. simpl in E. lia.
Qed.

(** A download replaces the staged file atomically or not at all.
    Afterwards the destination holds the complete body of a 2xx answer when
    the call succeeded and what it held before when it failed, no temporary
    file is left behind, and no other file is touched. *)
Theorem DownloadToFile_atomic (c : ReleaseMirrorConfig) (url dest : string) (d : disk) :
  let '(err, d') := DownloadToFile c url dest d in
  let body := perform url (authorization c) in
  (err = None -> http_error body = None /\ files d' !! dest = Some (written body)) /\
  (err <> None -> files d' !! dest = files d !! dest) /\
  (fopen_ok (dest +:+ ".part") = true -> files d' !! (dest +:+ ".part") = None) /\
  (forall p, p <> dest -> p <> dest +:+ ".part" -> files d' !! p = files d !! p) /\
  directories d' = directories d.
Proof.
  pose proof (tmp_ne dest) as Hne. unfold DownloadToFile.
  destruct (fopen_ok _); cbn [negb]; [|by split_and!].
  destruct curl_init; cbn [negb]; [|simpl; split_and!; try done; intros; by simplify_map_eq].
  destruct (http_error _) as [e|] eqn:Eh; [simpl; split_and!; try done; intros; by simplify_map_eq|].
  destruct (rename_error _ _); simpl; split_and!; try done; intros; by simplify_map_eq.
Qed.

(** The paths a synchronisation owns. *)
Definition mirror_paths (c : ReleaseMirrorConfig) : list string :=
  (installer_dir c +:+ "/version.txt") ::
  flat_map (fun name => [installer_dir c +:+ "/" +:+ name; installer_dir c +:+ "/" +:+ name +:+ ".part"])
    StableAssetNames.

Definition touches (c : ReleaseMirrorConfig) (d d' : disk) : Prop :=
  directories d' = directories d /\ forall p, p ∉ mirror_paths c -> files d' !! p = files d !! p.

Lemma touches_refl c d : touches c d d.
Proof. done. Qed.
Lemma touches_trans c d1 d2 d3 : touches c d1 d2 -> touches c d2 d3 -> touches c d1 d3.
Proof.
  intros [H1 F1] [H2 F2]. split; [by rewrite H2|]. intros p Hp. by rewrite F2, F1.
Qed.

Lemma download_touches c url name d :
  name ∈ StableAssetNames ->
  touches c d (snd (DownloadToFile c url (installer_dir c +:+ "/" +:+ name) d)).
Proof.
  intros Hn. set (dest := installer_dir c +:+ "/" +:+ name).
  assert (forall p, p ∉ mirror_paths c -> p <> dest /\ p <> dest +:+ ".part") as Hp.
  { intros p Hp. split; intros ->; apply Hp; right; apply list_elem_of_In, in_flat_map;
      (exists name; split; [by apply list_elem_of_In|]); unfold dest; rewrite ?sapp_assoc;
      [by left|right; by left]. }
  unfold DownloadToFile. destruct (fopen_ok _); cbn [negb]; [|done].
  destruct curl_init; cbn [negb];
    [|split; [done|]; intros p [? ?]%Hp; simpl; by simplify_map_eq].
  destruct (http_error _); [split; [done|]; intros p [? ?]%Hp; simpl; by simplify_map_eq|].
  destruct (rename_error _ _); (split; [done|]; intros p [? ?]%Hp; simpl; by simplify_map_eq).
Qed.

Lemma mirror_asset_touches c a n d n' d' :
  mirror_asset c a (n, d) = Returns (n', d') -> (n <= n')%Z /\ touches c d d'.
Proof.
  unfold mirror_asset. destruct (Json.value_string a "name" "") as [name|]; [|done]. simpl.
  destruct (is_empty name); [by intros [= <- <-]|].
  case_bool_decide as Hn; [|by intros [= <- <-]]. cbn [negb].
  destruct (Json.value_string a "browser_download_url" "") as [url|]; [|done]. simpl.
  destruct (is_empty url); [by intros [= <- <-]|].
  destruct (_ || _); [by intros [= <- <-]|].
  pose proof (download_touches c url name d Hn) as T.
  destruct (DownloadToFile c url _ d) as [[e|] d1]; intros [= <- <-]; split; (lia || done).
Qed.

Lemma mirror_assets_touches c l n d n' d' :
  mirror_assets c l (n, d) = Returns (n', d') -> (n <= n')%Z /\ touches c d d'.
Proof.
  revert n d. induction l as [|a l IH]; intros n d; cbn [mirror_assets].
  - intros [= <- <-]. done.
  - destruct (mirror_asset c a (n, d)) as [[n1 d1]|] eqn:E; [|done]. simpl. intros Hl.
    apply mirror_asset_touches in E as [? ?]. apply IH in Hl as [? ?].
    split; [lia|]. by eapply touches_trans.
Qed.

(** The mirror stays in its lane.  Whatever the release document
    says, a synchronisation changes no file but version.txt and the stable
    installer assets (with their temporary names) of the installer
    directory; it reports success only if the release was fetched, parsed and
    at least one asset was downloaded; and every asset it can stage is one
    the installer catalogue recognises, each for a platform of its own. *)
Theorem SyncOnce_only_stable_assets (c : ReleaseMirrorConfig) (d d' : disk) (ok : bool) (summary : string) :
  SyncOnce c d = Returns (ok, summary, d') ->
  directories d' = directories d /\
  (forall p, files d' !! p <> files d !! p -> p ∈ mirror_paths c) /\
  (ok = true -> exists body j, HttpGet c (api_url c) "application/vnd.github+json" = inr body /\
                               jparse body = inr j) /\
  map (fun n => InstallerDist.id <$> InstallerDist.ParseInstallerFilename n) StableAssetNames =
    [Some "linux-amd64"; Some "linux-arm64"; Some "windows-amd64"].
Proof.
  intros H1. enough (touches c d d' /\ (ok = true -> exists body j,
    HttpGet c (api_url c) "application/vnd.github+json" = inr body /\ jparse body = inr j))
    as [[Hd Hf] Hok].
  { split_and!; [done| |done|reflexivity]. intros p Hp.
    destruct (decide (p ∈ mirror_paths c)) as [|Hn]; [done|]. by destruct Hp; apply Hf. }
  revert H1. unfold SyncOnce.
  destruct (HttpGet c _ _) as [e|body]; [intros [= <- <- <-]; by auto using touches_refl|].
  destruct (jparse body) as [e|j] eqn:Ej; [intros [= <- <- <-]; by auto using touches_refl|].
  destruct (Json.value_string j "tag_name" "") as [tag|]; [|done]. cbn [obind].
  destruct (Json.value_as Returns j "assets" (jarray [])) as [assets|]; [|done]. cbn [obind].
  destruct (mirror_assets c (jelements assets) (0%Z, d)) as [[n d1]|] eqn:E; [|done]. cbn [obind].
  intros [= <- <- <-]. apply mirror_assets_touches in E as [Hn T]. split; [|by exists body, j].
  eapply touches_trans; [done|]. unfold write_version.
  destruct (is_empty (installer_dir c)); [done|]. destruct (_ && _); [|done].
  split; [done|]. intros p Hp. simpl. rewrite lookup_insert_ne; [done|].
  intros <-. apply Hp. by left.
Qed.
End Mirror.

Definition demo_config : ReleaseMirrorConfig := mkConfig "o" "r" "https://api" "" "/inst".
Definition demo_disk : disk := mkDisk {["/inst"]} (fun _ => []) {["/inst/keep" := "x"]}.
(** A release with one stable asset and one that is not mirrored. *)
Definition demo_release : Reference.jval :=
  Reference.JObject [("tag_name", Reference.JString "v1.2.0"); ("assets", Reference.JArray
    [Reference.JObject [("name", Reference.JString "PudimNetMon-Agent-Setup.exe");
                        ("browser_download_url", Reference.JString "https://dl/setup")];
     Reference.JObject [("name", Reference.JString "../../etc/passwd");
                        ("browser_download_url", Reference.JString "https://dl/evil")]])].
Definition demo_perform (url : string) (_ : list string) : curl_result :=
  mkCurl None 200 (if String.eqb url "https://dl/setup" then "MZ" else jdump demo_release).
Definition demo_sync : outcome (bool * string * disk) :=
  SyncOnce (J := Reference.jval) true demo_perform (fun _ => true) (fun _ _ => None) demo_config demo_disk.
Definition demo_after : disk :=
  match demo_sync with Returns (_, _, d) => d | Throws _ => demo_disk end.

Lemma SyncOnce_only_stable_assets_witness :
  files demo_after !! "/inst/PudimNetMon-Agent-Setup.exe" = Some "MZ" /\
  (forall p, files demo_after !! p <> files demo_disk !! p -> p ∈ mirror_paths demo_config).
Proof.
  split; [vm_compute; reflexivity|].
  assert (exists summary, demo_sync = Returns (true, summary, demo_after)) as [summary E].
  { eexists. vm_compute. reflexivity. }
  exact (proj1 (proj2 (SyncOnce_only_stable_assets (J := Reference.jval) true demo_perform (fun _ => true)
    (fun _ _ => None) demo_config demo_disk demo_after true summary E))).
Defined.
End ReleaseMirror.
