(* ===== verification/DiskBuffer.v ===== *)
(** * DiskBuffer: the agent's persistent overflow queue

    Models [agent/src/disk_buffer.cpp] (the build with SQLite).  The table
    [pending] is the list of its payloads in [seq] order, which is insertion
    order; SQLite itself is third-party, so whether each prepare and step
    succeeds is an argument.  [SpillStore] is the interface the agent's main
    loop is proved against; [DiskBuffer] implements it. *)
From stdpp Require Import base gmap strings list.
From Stdlib Require Import ZArith Lia.
From S2P Require Import Prelude.
Import Str.
#[local] Open Scope string_scope.
#[local] Open Scope list_scope.
#[local] Open Scope Z_scope.

(** A first-in first-out store of serialised batches.  [contents] is what it
    holds, oldest first.  A [push] may delete the oldest batches to get back to
    its budget; a [roomy] store is within it, stays within it, and deletes
    nothing on its own. *)
Class SpillStore (S : Type) : Type := {
  available : S -> bool;
  push : string -> S -> bool * S;
  peek : Z -> S -> list string * S;
  pop : Z -> S -> S;
  stored : S -> Z * S;
}.

Class SpillStoreLaws (S : Type) `{SpillStore S} : Type := {
  contents : S -> list string;
  roomy : S -> Prop;
  push_contents x s :
    exists k, contents (snd (push x s)) = drop k (contents s) ++ (if fst (push x s) then [x] else []) /\
      (roomy s -> k = 0%nat);
  push_roomy x s : roomy s -> roomy (snd (push x s));
  peek_state n s : contents (snd (peek n s)) = contents s /\ (roomy s -> roomy (snd (peek n s)));
  peek_prefix s : fst (peek 1 s) = [] \/ fst (peek 1 s) = take 1 (contents s);
  pop_contents s : contents (pop 1 s) = contents s \/ contents (pop 1 s) = drop 1 (contents s);
  pop_roomy s : roomy s -> roomy (pop 1 s);
  stored_state s : contents (snd (stored s)) = contents s /\ (roomy s -> roomy (snd (stored s)));
}.

Module DiskBuffer.
(** The outcomes of the next SQLite calls, one per call, consumed in order;
    an exhausted list stands for success. *)
Record impl : Type := mkImpl {
  db : bool;                   (* m_impl->db != nullptr *)
  rows : Z;
  bytes : Z;
  m_max_bytes : Z;
  pending : list string;
  faults : list bool;
}.

Definition call (s : impl) : bool * impl :=
  match faults s with
  | [] => (true, s)
  | ok :: rest => (ok, mkImpl (db s) (rows s) (bytes s) (m_max_bytes s) (pending s) rest)
  end.
Definition set_faults (f : list bool) (s : impl) : impl :=
  mkImpl (db s) (rows s) (bytes s) (m_max_bytes s) (pending s) f.
Definition with_counts (r b : Z) (p : list string) (s : impl) : impl :=
  mkImpl (db s) r b (m_max_bytes s) p (faults s).

Definition len (x : string) : Z := Z.of_nat (String.length x).
Definition total (l : list string) : Z := fold_right (fun x n => len x + n) 0 l.

(** [LIMIT ?] bound to [static_cast<int>(n)]: a negative limit is no limit. *)
Definition limit (n : Z) (l : list string) : list string :=
  if Int.to_int32 n <? 0 then l else take (Z.to_nat (Int.to_int32 n)) l.
Definition beyond (n : Z) (l : list string) : list string :=
  if Int.to_int32 n <? 0 then [] else drop (Z.to_nat (Int.to_int32 n)) l.

(** [Open] on the table found on disk. *)
Definition Open (opens : bool) (found : list string) (s : impl) : bool * impl :=
  if negb opens then (false, mkImpl false (rows s) (bytes s) (m_max_bytes s) found (faults s))
  else
    let s := mkImpl true (rows s) (bytes s) (m_max_bytes s) found (faults s) in
    let '(ok1, s) := call s in
    if negb ok1 then (false, s) else
    let '(ok2, s) := call s in
    if negb ok2 then (false, s) else
    let '(ok3, s) := call s in
    if negb ok3 then (false, s) else
    let '(prepared, s) := call s in
    if negb prepared then (true, s) else
    let '(row, s) := call s in
    (true, if row then with_counts (Z.of_nat (length found)) (total found) found s else s).

Definition Available (s : impl) : bool := db s.

(** [while (sqlite3_step(stmt) == SQLITE_ROW)] over the rows [l] of a SELECT:
    a step that fails ends the loop as the end of the rows does, so the result
    is a prefix of them. *)
Fixpoint fetch (l : list string) (s : impl) : list string * impl :=
  let '(stepped, s) := call s in
  if negb stepped then ([], s) else
  match l with
  | [] => ([], s)
  | x :: rest => let '(out, s) := fetch rest s in (x :: out, s)
  end.

(** The scan of [Trim]: how many rows to remove, and the bytes that are left. *)
Fixpoint trim_scan (l : list string) (to_remove kept : Z) (s : impl) : Z * Z * impl :=
  let '(stepped, s) := call s in
  if negb stepped then (to_remove, kept, s) else
  match l with
  | [] => (to_remove, kept, s)
  | x :: rest =>
      if m_max_bytes s <? kept then trim_scan rest (to_remove + 1) (Int.u64 (kept - len x)) s
      else (to_remove, kept, s)
  end.

Definition Trim (s : impl) : Z * impl :=
  if negb (Available s) || (bytes s <=? m_max_bytes s) then (0, s)
  else
    let '(prepared, s) := call s in
    if negb prepared then (0, s) else
    let '(to_remove, kept, s) := trim_scan (pending s) 0 (bytes s) s in
    if to_remove =? 0 then (0, s) else
    let to_remove := if rows s <? to_remove then rows s else to_remove in
    let '(prepared, s) := call s in
    if negb prepared then (0, s) else
    let '(done_, s) := call s in
    if negb done_ then (0, s) else
    (to_remove,
     with_counts (if to_remove <? rows s then rows s - to_remove else 0) kept
       (beyond to_remove (pending s)) s).

Definition Push (payload_blob : string) (s : impl) : bool * impl :=
  if negb (Available s) then (false, s)
  else
    let '(_, s) := Trim s in
    if m_max_bytes s <? Int.u64 (bytes s + len payload_blob) then (false, s)
    else
      let '(prepared, s) := call s in
      if negb prepared then (false, s) else
      let '(done_, s) := call s in
      (* protobuf serialises nothing of 2 GiB; a length past [int] is refused *)
      let ok := done_ && (len payload_blob <=? Int.int32_max) in
      if ok then
        (true, with_counts (Int.u64 (rows s + 1)) (Int.u64 (bytes s + len payload_blob))
                 (pending s ++ [payload_blob]) s)
      else (false, s).

(** [Peek]: the payloads appended to [out]. *)
Definition Peek (n : Z) (s : impl) : list string * impl :=
  if negb (Available s) || (n =? 0) then ([], s)
  else
    let '(prepared, s) := call s in
    if negb prepared then ([], s) else fetch (limit n (pending s)) s.

Definition Pop (count : Z) (s : impl) : impl :=
  if negb (Available s) || (count =? 0) then s
  else
    let '(prepared, s) := call s in
    if negb prepared then s else
    let '(scanned, s) := fetch (limit count (pending s)) s in
    let removed := Int.u64 (total scanned) in
    let '(prepared, s) := call s in
    if negb prepared then s else
    let '(done_, s) := call s in
    if negb done_ then s else
    with_counts (if count <? rows s then rows s - count else 0)
      (if removed <? bytes s then bytes s - removed else 0)
      (beyond count (pending s)) s.

Definition Size (s : impl) : Z * impl :=
  if negb (Available s) then (0, s)
  else
    let '(prepared, s) := call s in
    if negb prepared then (0, s) else
    let '(row, s) := call s in
    (if row then Z.of_nat (length (pending s)) else 0, s).

(** *** The invariant *)

(** The cached byte count covers the table: it is the size of its payloads, or
    more, once a scan of [Pop] was cut short. *)
Record ok (s : impl) : Prop := {
  ok_bytes : total (pending s) <= bytes s < 2 ^ 63;
  ok_max : m_max_bytes s < 2 ^ 63;
}.
(** The cached row count describes the table. *)
Definition counted (s : impl) : Prop := rows s = Z.of_nat (length (pending s)) /\ rows s <= Int.int32_max.
Definition within_budget (s : impl) : Prop := 0 <= bytes s <= m_max_bytes s /\ m_max_bytes s < 2 ^ 63.

Lemma len_nonneg x : 0 <= len x.
Proof. unfold len. lia. Qed.
Lemma total_nonneg l : 0 <= total l.
Proof. induction l as [|x l IH]; simpl; [lia|]. pose proof (len_nonneg x). lia. Qed.
Lemma total_app a b : total (a ++ b) = total a + total b.
Proof. induction a as [|x a IH]; simpl; [lia|]. rewrite IH. lia. Qed.
Lemma total_take_drop n l : total (take n l) + total (drop n l) = total l.
Proof. rewrite <- total_app. by rewrite take_drop. Qed.
Lemma total_take_le n l : total (take n l) <= total l.
Proof. pose proof (total_take_drop n l). pose proof (total_nonneg (drop n l)). lia. Qed.

(** An SQLite call only uses up its outcome. *)
Lemma call_faults s : exists b f, call s = (b, set_faults f s) /\ (faults s = [] -> b = true /\ f = []).
Proof. destruct s as [d r b m p [|o f]]; simpl; eauto. by exists o, f. Qed.

Lemma ok_faults f s : ok s -> ok (set_faults f s).
Proof. by intros []. Qed.

Ltac fields := cbn [set_faults with_counts db rows bytes m_max_bytes pending faults].

(** Runs the next SQLite call of an operation, in both outcomes. *)
Ltac step_call :=
  match goal with
  | |- context [call ?s] =>
      let b := fresh "b" in let f := fresh "f" in let E := fresh "E" in let F := fresh "Hf" in
      destruct (call_faults s) as (b & f & E & F); rewrite E; clear E; destruct b;
      cbn [negb andb fst snd]; cbn [set_faults faults] in F; fields
  end.

Lemma fetch_prefix l s :
  exists j f, fetch l s = (take j l, set_faults f s) /\ (faults s = [] -> take j l = l /\ f = []).
Proof.
  revert s. induction l as [|x l IH]; intros s; cbn [fetch]; step_call.
  - exists 0%nat, f. split; [done|]. tauto.
  - exists 0%nat, f. split; [done|]. intros H. by destruct (Hf H).
  - destruct (IH (set_faults f s)) as (j & f' & -> & Hf'). exists (S j), f'. split; [done|].
    intros H. destruct (Hf H) as [_ ->]. destruct (Hf' eq_refl) as [E ->]. cbn. by rewrite E.
  - exists 0%nat, f. split; [done|]. intros H. by destruct (Hf H).
Qed.

(** The scan of [Trim] stops at the first row beyond the budget, or earlier. *)
Lemma trim_scan_spec l r kept s :
  exists k kept' f, trim_scan l r kept s = (r + Z.of_nat k, kept', set_faults f s) /\ (k <= length l)%nat /\
    (total l <= kept < 2 ^ 63 -> kept' = kept - total (take k l) /\
       (k <> 0%nat -> m_max_bytes s < kept - total (take (k - 1) l))).
Proof.
  revert r kept s. induction l as [|x l IH]; intros r kept s; cbn [trim_scan]; step_call.
  1, 2, 4: exists 0%nat, kept, f; rewrite Z.add_0_r; (split; [done|]); split; [cbn; lia|intros _; unfold total; cbn; split; [lia|done]].
  destruct (_ <? kept) eqn:Hk; bool_hyps.
  2: { exists 0%nat, kept, f. rewrite Z.add_0_r. split; [done|]. split; [cbn; lia|]. intros _. unfold total. cbn. split; [lia|done]. }
  destruct (IH (r + 1) (Int.u64 (kept - len x)) (set_faults f s)) as (k & kept' & f' & -> & Hle & Hs).
  exists (S k), kept', f'. split; [do 2 f_equal; lia|]. split; [cbn; lia|]. cbn [total fold_right]. fold (total l).
  intros Ht. pose proof (len_nonneg x). pose proof (total_nonneg l).
  assert (Int.u64 (kept - len x) = kept - len x) as Eu by (apply Int.u64_small; unfold Int.in_uint64; lia).
  rewrite Eu in Hs. destruct Hs as [-> Hs]; [lia|]. cbn [take total fold_right]. fold (total (take k l)). split; [lia|].
  intros _. rewrite Nat.sub_succ, Nat.sub_0_r. destruct k as [|k]; [change (total (take 0 (x :: l))) with 0; lia|].
  specialize (Hs ltac:(done)). rewrite Nat.sub_succ, Nat.sub_0_r in Hs. cbn [m_max_bytes set_faults] in Hs.
  change (total (take (S k) (x :: l))) with (len x + total (take k l)). lia.
Qed.

Lemma limit_small n l : 0 <= n <= Int.int32_max -> limit n l = take (Z.to_nat n) l.
Proof.
  intros H. unfold limit. rewrite Int.to_int32_small by (unfold Int.in_int32, Int.int32_min; lia).
  rewrite (proj2 (Z.ltb_ge _ _)) by lia. done.
Qed.
Lemma beyond_small n l : 0 <= n <= Int.int32_max -> beyond n l = drop (Z.to_nat n) l.
Proof.
  intros H. unfold beyond. rewrite Int.to_int32_small by (unfold Int.in_int32, Int.int32_min; lia).
  rewrite (proj2 (Z.ltb_ge _ _)) by lia. done.
Qed.
Lemma beyond_drop n l : exists k, beyond n l = drop k l.
Proof. unfold beyond. destruct (_ <? 0); [exists (length l); by rewrite drop_all|by eexists]. Qed.

(** *** Trim *)
Lemma Trim_idle s : bytes s <= m_max_bytes s -> Trim s = (0, s).
Proof. intros H. unfold Trim. rewrite (proj2 (Z.leb_le _ _)) by done. by rewrite orb_true_r. Qed.

Lemma Trim_drops s :
  exists k r b f, snd (Trim s) = with_counts r b (drop k (pending s)) (set_faults f s).
Proof.
  assert (forall f, exists k r b f', set_faults f s = with_counts r b (drop k (pending s)) (set_faults f' s)) as Hsame.
  { intros f. by exists 0%nat, (rows s), (bytes s), f. }
  unfold Trim. destruct (_ || _); [destruct s as [d r b m p f]; apply (Hsame f)|].
  step_call; [|apply Hsame].
  destruct (trim_scan_spec (pending s) 0 (bytes s) (set_faults f s)) as (k & kept & f' & -> & _).
  destruct (_ =? 0); [apply Hsame|]. step_call; [|apply Hsame]. step_call; [|apply Hsame].
  match goal with |- context [beyond ?n _] => destruct (beyond_drop n (pending s)) as [j ->] end.
  by eexists _, _, _, _.
Qed.

Lemma Trim_spec s :
  ok s -> counted s ->
  exists k, let s' := snd (Trim s) in
    ok s' /\ counted s' /\ db s' = db s /\ m_max_bytes s' = m_max_bytes s /\ pending s' = drop k (pending s) /\
    (k <> 0%nat -> m_max_bytes s < bytes s - total (take (k - 1) (pending s))).
Proof.
  intros [B M] [C1 C2].
  assert (forall f, exists k, let s' := set_faults f s in
    ok s' /\ counted s' /\ db s' = db s /\ m_max_bytes s' = m_max_bytes s /\ pending s' = drop k (pending s) /\
    (k <> 0%nat -> m_max_bytes s < bytes s - total (take (k - 1) (pending s)))) as Hsame.
  { intros f. exists 0%nat. by split_and!. }
  unfold Trim. destruct (_ || _); [destruct s as [d r b m p f]; apply (Hsame f)|].
  step_call; [|apply Hsame].
  destruct (trim_scan_spec (pending s) 0 (bytes s) (set_faults f s)) as (k & kept & f' & -> & Hle & Hk).
  destruct (Hk B) as [-> Hmin]. destruct (Z.eqb_spec (0 + Z.of_nat k) 0); [apply Hsame|].
  step_call; [|apply Hsame]. step_call; [|apply Hsame].
  rewrite (proj2 (Z.ltb_ge (rows s) (0 + Z.of_nat k))) by lia. rewrite beyond_small, Z.add_0_l, Nat2Z.id by lia.
  exists k. pose proof (total_take_drop k (pending s)). pose proof (total_nonneg (take k (pending s))).
  split_and!; [split; fields; lia| |done..].
  unfold counted. fields. rewrite length_drop. destruct (Z.ltb_spec (Z.of_nat k) (rows s)); lia.
Qed.

(** *** Push *)

(** An insertion that succeeds. *)
Definition inserted (x : string) (s : impl) : impl :=
  with_counts (Int.u64 (rows s + 1)) (Int.u64 (bytes s + len x)) (pending s ++ [x]) s.

Lemma Push_cases x s :
  let t := snd (Trim s) in
  (exists f, Push x s = (false, set_faults f (if db s then t else s)) /\
     (db s = true -> faults t = [] -> m_max_bytes t < Int.u64 (bytes t + len x) \/ Int.int32_max < len x)) \/
  (exists f, Push x s = (true, inserted x (set_faults f t)) /\
     db s = true /\ Int.u64 (bytes t + len x) <= m_max_bytes t /\ len x <= Int.int32_max).
Proof.
  cbv zeta. unfold Push, Available. destruct (db s); cbn [negb].
  2: { left. exists (faults s). split; [by destruct s|done]. }
  destruct (Trim s) as [n t]. cbn [snd]. destruct (_ <? _) eqn:Hfull; bool_hyps.
  { left. exists (faults t). split; [by destruct t|auto]. }
  step_call; [|left; exists f; split; [done|intros _ H; by destruct (Hf H)]].
  step_call; [|left; exists f0; split; [done|intros _ H; destruct (Hf H) as [_ ->]; by destruct (Hf0 eq_refl)]].
  destruct (Z.leb_spec (len x) Int.int32_max).
  - right. exists f0. by split_and!.
  - left. exists f0. split; [done|auto].
Qed.

Lemma inserted_spec x s :
  Int.u64 (bytes s + len x) <= m_max_bytes s -> len x <= Int.int32_max -> 0 <= bytes s < 2 ^ 63 ->
  bytes (inserted x s) = bytes s + len x /\ (ok s -> ok (inserted x s)) /\
  (counted s -> rows s < Int.int32_max -> counted (inserted x s)).
Proof.
  unfold Int.int32_max. intros H1 H2 H3. pose proof (len_nonneg x).
  assert (Int.u64 (bytes s + len x) = bytes s + len x) as Eu by (apply Int.u64_small; unfold Int.in_uint64; lia).
  rewrite Eu in H1. split; [exact Eu|]. split.
  - intros [B M]. unfold inserted. split; fields; rewrite ?Eu; [|lia].
    rewrite total_app. change (total [x]) with (len x + 0). lia.
  - unfold counted, Int.int32_max. cbn. rewrite length_app. cbn [length]. intros [C1 C2] Hr.
    rewrite Int.u64_small by (unfold Int.in_uint64; lia). lia.
Qed.

Lemma Push_spec x s :
  ok s -> counted s -> rows s < Int.int32_max ->
  let '(done_, s') := Push x s in
  ok s' /\ counted s' /\
  (exists k, pending s' = drop k (pending s) ++ (if done_ then [x] else []) /\
     (k <> 0%nat -> m_max_bytes s < bytes s - total (take (k - 1) (pending s)))) /\
  (done_ = true -> bytes s' <= m_max_bytes s).
Proof.
  intros Hok Hc Hr. destruct (Trim_spec s Hok Hc) as (k & T1 & T2 & T3 & T4 & T5 & T6).
  set (t := snd (Trim s)) in *.
  assert (0 <= bytes t < 2 ^ 63) as Hb by (destruct T1 as [B _]; pose proof (total_nonneg (pending t)); lia).
  assert (rows t < Int.int32_max) as Hrt by (destruct T2 as [-> _], Hc as [Ec _]; rewrite T5, length_drop; lia).
  destruct (Push_cases x s) as [(f & -> & _)|(f & -> & Hdb & H1 & H2)];
    [fold t|fold t; fold t in H1].
  - destruct (db s); [split_and!; [by apply ok_faults|done|exists k; by rewrite app_nil_r|done]|].
    split_and!; [by apply ok_faults|done|exists 0%nat; by rewrite app_nil_r|done].
  - destruct (inserted_spec x (set_faults f t) H1 H2 Hb) as (E1 & E2 & E3).
    split_and!; [by apply E2, ok_faults|by apply E3|exists k; by rewrite <- T5|].
    intros _. rewrite E1. fields. rewrite Int.u64_small in H1; [lia|].
    unfold Int.in_uint64, Int.int32_max in *. pose proof (len_nonneg x). lia.
Qed.

(** *** Peek and Pop *)
Lemma Peek_cases n s :
  exists j f, Peek n s = (take j (limit n (pending s)), set_faults f s) /\
    (db s = true -> faults s = [] -> n <> 0 -> take j (limit n (pending s)) = limit n (pending s)).
Proof.
  unfold Peek, Available. destruct (db s); cbn [negb orb].
  2: { exists 0%nat, (faults s). split; [by destruct s|done]. }
  destruct (Z.eqb_spec n 0) as [->|]; [exists 0%nat, (faults s); split; [by destruct s|done]|].
  step_call; [|exists 0%nat, f; split; [done|intros _ H; by destruct (Hf H)]].
  destruct (fetch_prefix (limit n (pending s)) (set_faults f s)) as (j & f' & -> & Hf'). exists j, f'. split; [done|].
  intros _ H _. apply Hf'. by apply Hf.
Qed.

(** What a [Pop] leaves whose scan read the first [j] of the rows it deletes. *)
Definition popped (n : Z) (j : nat) (s : impl) : impl :=
  let removed := Int.u64 (total (take j (limit n (pending s)))) in
  with_counts (if n <? rows s then rows s - n else 0)
    (if removed <? bytes s then bytes s - removed else 0) (beyond n (pending s)) s.

Lemma Pop_cases n s :
  (exists f, Pop n s = set_faults f s /\ (db s = true -> faults s = [] -> n = 0)) \/
  (exists j f, Pop n s = popped n j (set_faults f s) /\
     (faults s = [] -> take j (limit n (pending s)) = limit n (pending s))).
Proof.
  unfold Pop, Available. destruct (db s); cbn [negb orb].
  2: { left. exists (faults s). split; [by destruct s|done]. }
  destruct (Z.eqb_spec n 0) as [->|]; [left; exists (faults s); split; [by destruct s|done]|].
  step_call; [|left; exists f; split; [done|intros _ H; by destruct (Hf H)]].
  destruct (fetch_prefix (limit n (pending s)) (set_faults f s)) as (j & f' & -> & Hf').
  assert (faults s = [] -> f' = []) as Hn by (intros H; apply Hf'; by apply Hf).
  step_call; [|left; exists f0; split; [done|intros _ H; by destruct (Hf0 (Hn H))]].
  step_call; [|left; exists f1; split; [done|intros _ H; destruct (Hf0 (Hn H)) as [_ ->]; by destruct (Hf1 eq_refl)]].
  right. exists j, f1. split; [done|]. intros H. apply Hf'. by apply Hf.
Qed.

Lemma popped_spec n j s :
  ok s -> 0 <= n <= Int.int32_max ->
  ok (popped n j s) /\ (counted s -> counted (popped n j s)) /\
  pending (popped n j s) = drop (Z.to_nat n) (pending s) /\
  bytes (popped n j s) = bytes s - total (take j (take (Z.to_nat n) (pending s))).
Proof.
  intros [B M] Hn. unfold popped. rewrite limit_small, beyond_small by done. cbv zeta.
  set (d := take (Z.to_nat n) (pending s)). pose proof (total_take_le j d). pose proof (total_nonneg (take j d)).
  pose proof (total_take_drop (Z.to_nat n) (pending s)) as T. fold d in T.
  pose proof (total_nonneg (drop (Z.to_nat n) (pending s))).
  rewrite Int.u64_small by (unfold Int.in_uint64; lia). split_and!; [| |done|].
  - split; fields; destruct (Z.ltb_spec (total (take j d)) (bytes s)); lia.
  - unfold counted. fields. rewrite length_drop. intros [C1 C2]. destruct (Z.ltb_spec n (rows s)); lia.
  - fields. destruct (Z.ltb_spec (total (take j d)) (bytes s)); lia.
Qed.

Lemma Pop_spec n s :
  ok s -> counted s -> 0 <= n <= Int.int32_max ->
  ok (Pop n s) /\ counted (Pop n s) /\
  ((pending (Pop n s) = pending s /\ bytes (Pop n s) = bytes s /\ (db s = true -> faults s = [] -> n = 0)) \/
   exists j, pending (Pop n s) = drop (Z.to_nat n) (pending s) /\
     bytes (Pop n s) = bytes s - total (take j (take (Z.to_nat n) (pending s))) /\
     (faults s = [] -> take j (take (Z.to_nat n) (pending s)) = take (Z.to_nat n) (pending s))).
Proof.
  intros Hok Hc Hn. destruct (Pop_cases n s) as [(f & -> & H0)|(j & f & -> & Hj)].
  - split_and!; [by apply ok_faults|done|]. left. by split_and!.
  - destruct (popped_spec n j (set_faults f s) (ok_faults f s Hok) Hn) as (P1 & P2 & P3 & P4).
    split_and!; [done|by apply P2|]. right. exists j. split_and!; [done..|]. by rewrite limit_small in Hj.
Qed.

(** Claim C39: the disk buffer is a bounded first-in first-out queue, whatever
    SQLite calls fail.  Take any state whose row count is right and whose byte
    count is at least the bytes of its rows.  [Push] appends the payload at the end or
    adds nothing, a [Push] that succeeded leaves the byte count within the
    budget, and it deletes no more of the oldest rows than brings an oversized
    buffer back to its budget (none from one within it); [Peek] reads a prefix of the oldest
    rows; [Pop] deletes exactly the oldest rows or nothing; the row count stays
    right and the byte count at least the bytes of the rows.  The byte count
    stays too large by the rows a failing scan of [Pop] did not read; when no
    call fails, [Peek] then [Pop] hand over all of the oldest rows and an exact byte count
    stays exact. *)
Theorem disk_buffer_is_fifo (x : string) (n : Z) (s : impl) :
  ok s -> counted s -> rows s < Int.int32_max -> 0 < n <= Int.int32_max ->
  (let '(done_, s') := Push x s in
   ok s' /\ counted s' /\ (done_ = true -> bytes s' <= m_max_bytes s) /\
   exists k, pending s' = drop k (pending s) ++ (if done_ then [x] else []) /\
     (k <> 0%nat -> m_max_bytes s < bytes s - total (take (k - 1) (pending s)))) /\
  (let '(out, s') := Peek n s in
   ok s' /\ counted s' /\ pending s' = pending s /\ exists j, out = take j (take (Z.to_nat n) (pending s))) /\
  (let s' := Pop n s in
   ok s' /\ counted s' /\
   (pending s' = pending s /\ bytes s' = bytes s \/
    exists unread, unread `suffix_of` take (Z.to_nat n) (pending s) /\
      pending s' = drop (Z.to_nat n) (pending s) /\
      bytes s' - total (pending s') = bytes s - total (pending s) + total unread)) /\
  (db s = true -> faults s = [] ->
     fst (Peek n s) = take (Z.to_nat n) (pending s) /\ pending (Pop n s) = drop (Z.to_nat n) (pending s) /\
     (bytes s = total (pending s) -> bytes (Pop n s) = total (pending (Pop n s))) /\
     fst (Size s) = Z.of_nat (length (pending s))).
Proof.
  intros Hok Hc Hr Hn. assert (0 <= n <= Int.int32_max) as Hn' by lia.
  pose proof (Push_spec x s Hok Hc Hr) as HP.
  destruct (Peek_cases n s) as (j & f & EK & HK). rewrite limit_small in EK, HK by done. rewrite EK.
  destruct (Pop_spec n s Hok Hc Hn') as (D1 & D2 & D3).
  pose proof (total_take_drop (Z.to_nat n) (pending s)) as T.
  split; [|split; [|split]].
  - destruct (Push x s) as [b s1]. by destruct HP as (P1 & P2 & P3 & P4).
  - split_and!; [by apply ok_faults|done|done|by exists j].
  - split_and!; [done..|]. destruct D3 as [(-> & -> & _)|(i & E1 & E2 & _)]; [by left|right].
    exists (drop i (take (Z.to_nat n) (pending s))). split_and!; [by exists (take i (take (Z.to_nat n) (pending s))); rewrite take_drop|done|].
    rewrite E1, E2. pose proof (total_take_drop i (take (Z.to_nat n) (pending s))). lia.
  - intros Hdb Hf. cbn [fst]. split; [apply HK; [done..|lia]|].
    destruct D3 as [(_ & _ & E)|(i & E1 & E2 & E3)]; [specialize (E Hdb Hf); lia|].
    rewrite E1. split_and!; [done|intros Eb; rewrite E2, (E3 Hf); lia|].
    unfold Size, Available. rewrite Hdb. cbn [negb]. unfold call. rewrite Hf. cbn. by rewrite Hf.
Qed.

Definition demo : impl := mkImpl true 2 5 10 ["abc"; "de"] [].
(** The scan of this [Pop] fails at the second of its two rows. *)
Definition demo_cut : impl := mkImpl true 2 5 10 ["abc"; "de"] [true; true; false].
(** A table larger than the budget, as found after the budget was lowered. *)
Definition demo_over : impl := mkImpl true 3 7 4 ["abc"; "de"; "fg"] [].
Lemma disk_buffer_is_fifo_witness :
  pending (snd (Push "12345" demo)) = ["abc"; "de"; "12345"] /\ fst (Push "123456" demo) = false /\
  (pending (Pop 2 demo_cut) = [] /\ bytes (Pop 2 demo_cut) = 2) /\
  pending (snd (Push "" demo_over)) = ["de"; "fg"; ""] /\
  fst (Peek 1 demo) = ["abc"] /\ pending (Pop 1 demo) = ["de"] /\ bytes (Pop 1 demo) = 2.
Proof.
  split_and!; [reflexivity..| | |].
  all: pose proof (disk_buffer_is_fifo "x" 1 demo) as T.
  all: destruct T as (_ & _ & _ & T); [split; vm_compute; [split; congruence|congruence]|split; vm_compute; congruence|
    vm_compute; congruence|split; vm_compute; congruence|].
  all: destruct (T eq_refl eq_refl) as (T1 & T2 & T3 & _).
  - exact T1.
  - exact T2.
  - exact (T3 eq_refl).
Defined.

(** *** The implementation of the interface *)

#[global] Instance disk_buffer_store : SpillStore impl := {|
  available := Available; push := Push; peek := Peek; pop := Pop; stored := Size;
|}.

Lemma Push_contents x s :
  exists k, pending (snd (Push x s)) = drop k (pending s) ++ (if fst (Push x s) then [x] else []) /\
    (within_budget s -> k = 0%nat).
Proof.
  destruct (Trim_drops s) as (k & r & b & f0 & Et).
  assert (exists k, pending (snd (Trim s)) = drop k (pending s) /\ (within_budget s -> k = 0%nat)) as (j & Ej & Hj).
  { destruct (Z.leb_spec (bytes s) (m_max_bytes s)).
    - exists 0%nat. by rewrite Trim_idle.
    - exists k. rewrite Et. split; [done|]. intros [??]. lia. }
  destruct (Push_cases x s) as [(f & -> & _)|(f & -> & _)]; cbn [fst snd].
  - destruct (db s); [exists j|exists 0%nat]; by rewrite app_nil_r.
  - exists j. split; [|done]. unfold inserted. fields. by rewrite Ej.
Qed.
Lemma Push_within x s : within_budget s -> within_budget (snd (Push x s)).
Proof.
  intros [B M]. pose proof (Push_cases x s) as C. rewrite Trim_idle in C by lia. cbn [snd] in C.
  destruct C as [(f & -> & _)|(f & -> & _ & H1 & H2)]; cbn [fst snd]; [by destruct (db s)|].
  destruct (inserted_spec x (set_faults f s) H1 H2) as (E & _ & _); [fields; lia|].
  split; [|done]. rewrite E. fields. pose proof (len_nonneg x). rewrite Int.u64_small in H1; [cbn; lia|].
  unfold Int.in_uint64, Int.int32_max in *. lia.
Qed.
Lemma Pop_within n s : within_budget s -> within_budget (Pop n s).
Proof.
  intros [B M]. destruct (Pop_cases n s) as [(f & -> & _)|(j & f & -> & _)]; [done|].
  unfold popped, within_budget. cbv zeta. fields.
  assert (0 <= Int.u64 (total (take j (limit n (pending s))))) by (unfold Int.u64; apply Z.mod_pos_bound; done).
  destruct (_ <? _) eqn:E; bool_hyps; lia.
Qed.
Lemma Size_state s : exists f, snd (Size s) = set_faults f s.
Proof.
  unfold Size. destruct (negb _); [exists (faults s); by destruct s|].
  step_call; [|by eexists]. step_call; by eexists.
Qed.

#[global] Instance disk_buffer_laws : SpillStoreLaws impl.
Proof.
  refine {| contents := pending; roomy := within_budget |}; cbn [push peek pop stored disk_buffer_store].
  - exact Push_contents.
  - exact Push_within.
  - intros n s. by destruct (Peek_cases n s) as (j & f & -> & _).
  - intros s. destruct (Peek_cases 1 s) as (j & f & -> & _). rewrite limit_small by done. cbn [fst].
    destruct j as [|j]; [by left|right]. destruct (pending s) as [|y l]; [done|]. cbn. by destruct j.
  - intros s. destruct (Pop_cases 1 s) as [(f & -> & _)|(j & f & -> & _)]; [by left|right].
    unfold popped. cbv zeta. fields. by rewrite beyond_small.
  - apply Pop_within.
  - intros s. by destruct (Size_state s) as [f ->].
Defined.
End DiskBuffer.

(** ** The build without SQLite

    [HAVE_SQLITE3] undefined: the buffer never opens, keeps nothing and reports
    itself unavailable.  It obeys the same laws, so that what is proved of the
    main loop against [SpillStore] holds for both builds. *)
Module NoSqlite.
Record impl : Type := mkImpl {}.
Definition Open (s : impl) : bool * impl := (false, s).
Definition Available (s : impl) : bool := false.
Definition Push (payload_blob : string) (s : impl) : bool * impl := (false, s).
Definition Peek (limit : Z) (s : impl) : list string * impl := ([], s).
Definition Pop (count : Z) (s : impl) : impl := s.
Definition Size (s : impl) : Z * impl := (0%Z, s).
Definition Trim (s : impl) : Z * impl := (0%Z, s).

#[global] Instance no_sqlite_store : SpillStore impl := {|
  available := Available; push := Push; peek := Peek; pop := Pop; stored := Size;
|}.
#[global] Instance no_sqlite_laws : SpillStoreLaws impl.
Proof. refine {| contents _ := []; roomy _ := True |}; auto. by exists 0%nat. Defined.
End NoSqlite.
