(* ===== verification/ProbeRunner.v ===== *)
(** * ProbeRunner: the agent's measurement cycle

    Models [agent/src/probe_runner.cpp].  [Pool] is one cycle's use of the
    thread pool: the submission of the tasks, the workers and the wait for the
    last of them, as a step relation over every interleaving.  [Cycle] is the
    order of the metrics of a cycle; [Runner] is the loop around it: throttled
    handshake captures, sequence numbers, the bounded queue that [Drain]
    empties, statistics and pacing.  The probes themselves are a parameter, and
    so are the clock readings. *)
From stdpp Require Import base gmap strings list.
From Stdlib Require Import ZArith Lia Sorted.
From S2P Require Import Prelude Proto.
Import Lists Steps.
#[local] Open Scope string_scope.
#[local] Open Scope list_scope.

(** ** The thread pool during one cycle *)
Module Pool.
(** Where the cycle's thread is: submitting the next task; testing the
    predicate of [wait_cv.wait] under [wait_mu]; about to sleep after the
    predicate was false; asleep; past the wait. *)
Inductive waiter : Type :=
  | Submitting (i : nat)
  | Testing
  | Falling
  | Sleeping
  | Done.

Section Pool.
Context {R : Type}.
Variable n : nat.              (* tasks of the cycle *)
Variable res : nat -> R.       (* what each of them stores in its slot *)
Variable workers : nat.
Variable stop_ : bool.         (* the pool was stopped before the cycle *)

Record state : Type := mkState {
  tasks_ : list nat;
  idle : nat;
  running : list nat;
  notifying : nat;             (* workers between the last decrement and notify_one *)
  remaining : nat;
  slots : list (option R);
  main : waiter;
}.

Definition initial : state := mkState [] workers [] 0 n (replicate n None) (Submitting 0).

Definition Submit (i : nat) (s : state) : state :=
  mkState (if stop_ then tasks_ s else tasks_ s ++ [i]) (idle s) (running s) (notifying s)
    (remaining s) (slots s) (Submitting (i + 1)).
Definition set_main (w : waiter) (s : state) : state :=
  mkState (tasks_ s) (idle s) (running s) (notifying s) (remaining s) (slots s) w.
Definition test (s : state) : state :=
  set_main (if Nat.eqb (remaining s) 0 then Done else Falling) s.
Definition take_task (i : nat) (q : list nat) (s : state) : state :=
  mkState q (idle s - 1) (running s ++ [i]) (notifying s) (remaining s) (slots s) (main s).
(** The task itself and [remaining.fetch_sub(1) == 1]. *)
Definition finish_task (i : nat) (others : list nat) (s : state) : state :=
  let last := Nat.eqb (remaining s) 1 in
  mkState (tasks_ s) (if last then idle s else idle s + 1) others
    (if last then notifying s + 1 else notifying s) (remaining s - 1)
    (<[i := Some (res i)]> (slots s)) (main s).
(** [wait_cv.notify_one()], without [wait_mu]: it wakes a sleeping waiter only. *)
Definition notify (s : state) : state :=
  mkState (tasks_ s) (idle s + 1) (running s) (notifying s - 1) (remaining s) (slots s)
    (match main s with Sleeping => Testing | w => w end).

Inductive step : state -> state -> Prop :=
  | St_submit s i : main s = Submitting i -> i < n -> step s (Submit i s)
  | St_submitted s : main s = Submitting n -> step s (set_main Testing s)
  | St_test s : main s = Testing -> step s (test s)
  | St_sleep s : main s = Falling -> step s (set_main Sleeping s)
  | St_take s i q : 0 < idle s -> tasks_ s = i :: q -> step s (take_task i q s)
  | St_finish s i others : running s ≡ₚ i :: others -> step s (finish_task i others s)
  | St_notify s : 0 < notifying s -> step s (notify s).

(** A condition variable may also wake up without a notification. *)
Inductive step_or_spurious : state -> state -> Prop :=
  | Sp_step s t : step s t -> step_or_spurious s t
  | Sp_spurious s : main s = Sleeping -> step_or_spurious s (set_main Testing s).

Definition reached : state -> Prop := reachable (fun s => s = initial) step_or_spurious.

Definition submitted (s : state) : nat := match main s with Submitting i => i | _ => n end.

(** What holds in every reachable state, [finished] being the tasks that ran. *)
Record good (s : state) (finished : list nat) : Prop := {
  good_tasks : tasks_ s ++ running s ++ finished ≡ₚ (if stop_ then [] else List.seq 0 (submitted s));
  good_slots : slots s = (fun i => if decide (i ∈ finished) then Some (res i) else None) <$> List.seq 0 n;
  good_remaining : remaining s + length finished = n;
  good_notifying : notifying s = 0 \/ remaining s = 0;
  good_done : main s = Done -> remaining s = 0;
  good_workers : idle s + length (running s) + notifying s = workers;
  good_submitted : submitted s <= n;
}.

Lemma good_initial : good initial [].
Proof.
  split; simpl; try done; try lia; [by destruct stop_| |unfold submitted; simpl; lia].
  - apply list_eq. intros i. rewrite list_lookup_fmap.
    destruct (decide (i < n)).
    + rewrite lookup_replicate_2, lookup_seq_lt by done. done.
    + rewrite lookup_ge_None_2 by (rewrite length_replicate; lia).
      rewrite lookup_ge_None_2 by (rewrite length_seq; lia). done.
Qed.

Lemma seq_perm_length l k : l ≡ₚ (if stop_ then [] else List.seq 0 k) -> length l <= k.
Proof. intros ->. destruct stop_; simpl; [lia|]. by rewrite length_seq. Qed.

Lemma slots_after finished i :
  i < n ->
  <[i := Some (res i)]> ((fun j => if decide (j ∈ finished) then Some (res j) else None) <$> List.seq 0 n) =
  (fun j => if decide (j ∈ i :: finished) then Some (res j) else None) <$> List.seq 0 n.
Proof.
  intros Hi. apply list_eq. intros j. destruct (decide (i = j)) as [<-|Hne].
  - rewrite list_lookup_insert_eq by (rewrite length_fmap, length_seq; lia).
    rewrite list_lookup_fmap, lookup_seq_lt by done. simpl.
    rewrite decide_True by left. done.
  - rewrite list_lookup_insert_ne, !list_lookup_fmap by done.
    destruct (List.seq 0 n !! j) as [k|] eqn:E; [|done]. apply lookup_seq in E as [-> _]. simpl.
    f_equal. destruct (decide (j ∈ finished)) as [H|H].
    + rewrite decide_True by (by right). done.
    + rewrite decide_False; [done|]. intros [->|?]%elem_of_cons; done.
Qed.

Lemma pool_good_step s t finished :
  good s finished -> step s t -> exists finished', good t finished'.
Proof.
  intros [G1 G2 G3 G4 G5 G6 G7] H.
  pose proof (seq_perm_length _ _ G1) as Hl. rewrite !length_app in Hl.
  destruct H as [s i Hm Hi|s Hm|s Hm|s Hm|s i q Hw Hq|s i others Hr|s Hn].
  - exists finished. unfold submitted in *. rewrite Hm in *. split; simpl; try done; try lia.
    + destruct stop_; [done|]. change (submitted (Submit i s)) with (i + 1). rewrite seq_app, <- G1. simpl.
      rewrite <- !app_assoc. apply Permutation_app_head. rewrite (app_assoc (running s)).
      apply Permutation_cons_append.
    + unfold submitted. simpl. lia.
  - exists finished. unfold submitted in *. rewrite Hm in *. by split.
  - exists finished. unfold test, submitted in *. rewrite Hm in *.
    destruct (Nat.eqb_spec (remaining s) 0); by split.
  - exists finished. unfold submitted in *. rewrite Hm in *. by split.
  - exists finished. rewrite Hq in G1. split; simpl; try done; try (rewrite ?length_app; simpl; lia).
    rewrite <- G1. rewrite <- app_assoc. simpl. rewrite !(app_assoc q). symmetry. apply Permutation_middle.
  - exists (i :: finished).
    assert (Hi : i < n).
    { assert (i ∈ (if stop_ then [] else List.seq 0 (submitted s))) as Hin.
      { rewrite <- G1, Hr, !elem_of_app. right. left. left. }
      destruct stop_; [by apply elem_of_nil in Hin|]. apply elem_of_seq in Hin. lia. }
    assert (Hlen : length (running s) = S (length others)) by (by rewrite Hr).
    split; simpl; try done; try lia.
    + rewrite <- G1, Hr. apply Permutation_app_head. simpl. symmetry. apply Permutation_middle.
    + rewrite G2. by apply slots_after.
    + destruct (Nat.eqb_spec (remaining s) 1); lia.
    + intros E. specialize (G5 E). lia.
    + destruct (Nat.eqb_spec (remaining s) 1); lia.
  - exists finished. unfold submitted in *.
    destruct (main s) eqn:Em; split; unfold submitted; simpl; rewrite ?Em; try done; lia.
Qed.

Lemma good_spurious s finished : good s finished -> main s = Sleeping -> good (set_main Testing s) finished.
Proof. intros [G1 G2 G3 G4 G5 G6 G7] Hm. unfold submitted in *. rewrite Hm in *. by split. Qed.

Lemma good_reached s : reached s -> exists finished, good s finished.
Proof.
  induction 1 as [s ->|s t _ [f G] Hs]; [exists []; apply good_initial|].
  destruct Hs as [s t Hs|s Hm]; [by eapply pool_good_step|]. exists f. by apply good_spurious.
Qed.

(** Past the wait every slot holds the result of its own task. *)
Lemma done_slots s : reached s -> main s = Done -> slots s = (Some ∘ res) <$> List.seq 0 n.
Proof.
  intros [f [G1 G2 G3 G4 G5 G6 G7]]%good_reached Hm. specialize (G5 Hm). rewrite G2.
  pose proof (seq_perm_length _ _ G1) as Hl. rewrite !length_app in Hl.
  unfold submitted in *. rewrite Hm in *.
  assert (tasks_ s = [] /\ running s = []) as [E1 E2] by (split; apply nil_length_inv; lia).
  rewrite E1, E2 in G1. simpl in G1.
  apply list_fmap_ext. intros i x Hx. simpl.
  assert (x ∈ List.seq 0 n) as Hin by (by eapply list_elem_of_lookup_2).
  destruct stop_.
  - symmetry in G1. apply Permutation_nil in G1. subst f. simpl in G3.
    replace n with 0 in Hin by lia. by apply elem_of_nil in Hin.
  - rewrite decide_True; [done|]. by rewrite G1.
Qed.

(** The wait can make a step unless the last notification was lost. *)
Definition lost (s : state) : Prop :=
  main s = Sleeping /\ remaining s = 0 /\ notifying s = 0 /\ tasks_ s = [] /\ running s = [].

Lemma lost_stuck s t : lost s -> ~ step s t.
Proof.
  intros (L1 & L2 & L3 & L4 & L5) H. destruct H as [s i Hm|s Hm|s Hm|s Hm|s i q Hw Hq|s i others Hr|s Hn];
    try congruence; [|lia].
  rewrite L5 in Hr. by apply Permutation_nil_cons in Hr.
Qed.

Lemma progress s :
  0 < workers -> stop_ = false -> reached s -> main s <> Done -> lost s \/ exists t, step s t.
Proof.
  intros Hw Hs Hr Hm. destruct (good_reached s Hr) as [f [G1 G2 G3 G4 G5 G6 G7]].
  unfold submitted in *. destruct (main s) as [i| | | |] eqn:Em; try done.
  - right. destruct (decide (i = n)) as [->|]; [by eexists; apply St_submitted|].
    eexists. apply (St_submit s i); [done|]. lia.
  - right. eexists. by apply St_test.
  - right. eexists. by apply St_sleep.
  - destruct (decide (0 < notifying s)); [right; eexists; by apply St_notify|].
    destruct (running s) as [|i others] eqn:Er.
    + destruct (tasks_ s) as [|i q] eqn:Et.
      * left. split_and!; try done; [|lia].
        apply Permutation_length in G1. rewrite Hs, length_seq in G1. simpl in G1. lia.
      * right. eexists. apply (St_take s i q); [simpl in G6; lia|done].
    + right. eexists. apply (St_finish s i others). by rewrite Er.
Qed.

(** *** The schedule that loses the notification *)

(** The waiter saw [k] tasks missing and is not asleep yet; the workers have
    run the first [k] tasks meanwhile. *)
Definition falling_after (k : nat) : state :=
  mkState (List.seq k (n - k)) workers [] 0 (n - k)
    (((Some ∘ res) <$> List.seq 0 k) ++ replicate (n - k) None) Falling.

Lemma submit_all i :
  stop_ = false -> i <= n ->
  steps step_or_spurious initial (mkState (List.seq 0 i) workers [] 0 n (replicate n None) (Submitting i)).
Proof.
  intros Hs. induction i as [|i IH]; intros Hi; [constructor|].
  eapply steps_trans; [apply IH; lia|].
  eapply steps_cons; [apply Sp_step, (St_submit _ i); [done|lia]|].
  unfold Submit. rewrite Hs, seq_S, Nat.add_1_r. constructor.
Qed.

Lemma reach_falling : 0 < n -> stop_ = false -> steps step_or_spurious initial (falling_after 0).
Proof.
  intros Hn Hs. eapply steps_trans; [apply (submit_all n); [done|lia]|].
  eapply steps_cons; [apply Sp_step, St_submitted; done|].
  eapply steps_cons; [apply Sp_step, St_test; done|].
  unfold test, falling_after. simpl. destruct (Nat.eqb_spec n 0); [lia|].
  rewrite Nat.sub_0_r. constructor.
Qed.

Lemma store_next k :
  k < n ->
  <[k := Some (res k)]> (((Some ∘ res) <$> List.seq 0 k) ++ replicate (n - k) None) =
  ((Some ∘ res) <$> List.seq 0 (S k)) ++ replicate (n - S k) None.
Proof.
  intros Hk. rewrite seq_S, fmap_app, <- app_assoc.
  replace (n - k) with (S (n - S k)) by lia. simpl.
  rewrite insert_app_r_alt by (rewrite length_fmap, length_seq; lia).
  rewrite length_fmap, length_seq, Nat.sub_diag. done.
Qed.

(** One worker takes the next task and runs it. *)
Lemma run_next k :
  0 < workers -> S k < n -> steps step_or_spurious (falling_after k) (falling_after (S k)).
Proof.
  intros Hw Hk. unfold falling_after at 1. replace (n - k) with (S (n - S k)) at 1 by lia.
  eapply steps_cons; [apply Sp_step, (St_take _ k (List.seq (S k) (n - S k))); [done|reflexivity]|].
  eapply steps_cons; [apply Sp_step, (St_finish _ k []); reflexivity|].
  unfold finish_task, take_task, falling_after. simpl.
  destruct (Nat.eqb_spec (n - k) 1); [lia|]. rewrite store_next by lia.
  replace (workers - 1 + 1) with workers by lia. replace (n - k - 1) with (n - S k) by lia. constructor.
Qed.

Lemma run_many k : 0 < workers -> k < n -> steps step_or_spurious (falling_after 0) (falling_after k).
Proof.
  intros Hw. induction k as [|k IH]; intros Hk; [constructor|].
  eapply steps_trans; [apply IH; lia|]. by apply run_next.
Qed.

(** The last task: all done, one worker about to notify. *)
Lemma run_last :
  0 < n -> 0 < workers ->
  steps step_or_spurious (falling_after (n - 1))
    (mkState [] (workers - 1) [] 1 0 ((Some ∘ res) <$> List.seq 0 n) Falling).
Proof.
  intros Hn Hw. unfold falling_after. replace (n - (n - 1)) with 1 by lia.
  eapply steps_cons; [apply Sp_step, (St_take _ (n - 1) []); [done|reflexivity]|].
  eapply steps_cons; [apply Sp_step, (St_finish _ (n - 1) []); reflexivity|].
  unfold finish_task, take_task. simpl.
  pose proof (store_next (n - 1) ltac:(lia)) as E. replace (n - (n - 1)) with 1 in E by lia.
  replace (S (n - 1)) with n in E by lia. rewrite Nat.sub_diag, app_nil_r in E.
  change (replicate 1 None) with [@None R] in E. rewrite E. apply steps_refl.
Qed.

Lemma reach_all_done :
  0 < n -> 0 < workers -> stop_ = false ->
  reached (mkState [] (workers - 1) [] 1 0 ((Some ∘ res) <$> List.seq 0 n) Falling).
Proof.
  intros Hn Hw Hs. apply (steps_reachable _ _ initial); [by apply reach_init|].
  apply (steps_trans _ _ (falling_after 0)); [by apply reach_falling|].
  apply (steps_trans _ _ (falling_after (n - 1))); [apply run_many; lia|by apply run_last].
Qed.

(** Claim C38: the wait of a cycle can miss its only notification.  The last
    worker decrements [remaining] and notifies without holding [wait_mu], so for
    any number of tasks and workers a state can be reached where every task is
    done, the waiter sleeps and nobody will wake it: no thread has a step left
    (only a spurious wake-up would end it).  In the other order the wait returns
    while a worker is still about to notify the local condition variable.  These
    are the only defects: short of the wait's end, any other reachable state has
    a step. *)
Theorem lost_wakeup :
  0 < n -> 0 < workers -> stop_ = false ->
  (exists s, reached s /\ lost s /\ slots s = (Some ∘ res) <$> List.seq 0 n /\ forall t, ~ step s t) /\
  (exists s, reached s /\ main s = Done /\ notifying s = 1) /\
  (forall s, reached s -> main s <> Done -> ~ lost s -> exists t, step s t).
Proof.
  intros Hn Hw Hs. pose proof (reach_all_done Hn Hw Hs) as Hr.
  set (s0 := mkState _ _ _ _ _ _ Falling) in Hr.
  assert (Hsleep : reached (set_main Sleeping s0)).
  { eapply reach_step; [exact Hr|]. apply Sp_step. by apply St_sleep. }
  split_and!.
  - exists (set_main Sleeping (notify s0)). split.
    { eapply reach_step; [|apply Sp_step; by apply St_sleep].
      eapply reach_step; [exact Hr|]. apply Sp_step, St_notify. simpl. lia. }
    assert (L : lost (set_main Sleeping (notify s0))) by (by repeat split).
    split; [exact L|]. split; [done|]. intros t. exact (lost_stuck _ t L).
  - exists (test (set_main Testing s0)). split; [|done].
    eapply reach_step; [|apply Sp_step; by apply St_test].
    eapply reach_step; [exact Hsleep|]. by apply (Sp_spurious (set_main Sleeping s0)).
  - intros s H1 H2 H3. destruct (progress s) as [|]; done.
Qed.
End Pool.

(** Two tasks, two workers. *)
Lemma lost_wakeup_witness :
  exists s : @state nat, lost s /\ slots s = [Some 10; Some 11] /\
    forall t, ~ step 2 (fun i => i + 10) false s t.
Proof.
  destruct (lost_wakeup 2 (fun i => i + 10) 2 false) as ((s & _ & H1 & H2 & H3) & _); [lia|lia|done|].
  exists s. split; [exact H1|]. split; [exact H2|exact H3].
Defined.
End Pool.

(** ** The metrics of one cycle *)
Module Cycle.
Record ProbeConfig : Type := mkProbeConfig {
  dns_targets : list string;
  tcp_targets : list string;
  tls_targets : list string;
  http_targets : list string;
  ping_targets : list string;
  ping_count : Z;
  ping_gap_ms : Z;
  tls_cert_check : bool;
  tcp_retransmit_check : bool;
  tcp_handshake_capture : bool;
  http_protocols : list string;
  dns_expected : gmap string (list string);
  ntp_check : bool;
}.

(** A default-constructed [ProbeConfig]. *)
Definition default_ProbeConfig : ProbeConfig :=
  mkProbeConfig [] [] [] [] [] 4 200 true true true [] ∅ true.

(** The calls into [metrics/probes.h] and [ntp_probe.h]. *)
Inductive call : Type :=
  | ProbeNtpOffset
  | ProbeDns (host : string)
  | ProbeDnsRecord (host : string) (expected : list string)
  | ProbeTcp (host_port : string)
  | ProbeTcpRetransmit (host_port : string)
  | ProbeTls (host_port : string)
  | ProbeTlsCert (host_port : string)
  | ProbeHttp (url : string)
  | ProbeHttpProtocol (url protocol : string)
  | ProbeIcmp (host : string) (count gap_ms : Z)
  | ProbeTcpHandshake (host_port : string).

Definition dns_task (cfg : ProbeConfig) (t : string) : list call :=
  [ProbeDns t; ProbeDnsRecord t (default [] (dns_expected cfg !! t))].
Definition tcp_task (cfg : ProbeConfig) (t : string) : list call :=
  ProbeTcp t :: (if tcp_retransmit_check cfg then [ProbeTcpRetransmit t] else []).
Definition tls_task (cfg : ProbeConfig) (t : string) : list call :=
  ProbeTls t :: (if tls_cert_check cfg then [ProbeTlsCert t] else []).
Definition http_tasks (cfg : ProbeConfig) (t : string) : list (list call) :=
  match http_protocols cfg with
  | [] => [[ProbeHttp t]]
  | ps => map (fun p => [ProbeHttpProtocol t p]) ps
  end.

(** The vector [tasks]: each task is the probe calls it makes. *)
Definition tasks (cfg : ProbeConfig) : list (list call) :=
  map (dns_task cfg) (dns_targets cfg) ++ map (tcp_task cfg) (tcp_targets cfg) ++
  map (tls_task cfg) (tls_targets cfg) ++ mjoin (map (http_tasks cfg) (http_targets cfg)).

Section Cycle.
(** What the call at this place of its list appends: one metric, three for a ping. *)
Variable probe : nat -> call -> list Metric.

Definition run_calls (l : list (nat * call)) : list Metric := mjoin (map (fun c => probe c.1 c.2) l).
(** What the [i]-th task stores in its slot. *)
Definition task_result (cfg : ProbeConfig) (i : nat) : list Metric :=
  run_calls (map (pair i) (default [] (tasks cfg !! i))).

Definition inline_ntp (cfg : ProbeConfig) : list (nat * call) :=
  if ntp_check cfg then [(0, ProbeNtpOffset)] else [].
Definition pings (cfg : ProbeConfig) : list (nat * call) :=
  imap (fun i t => (i, ProbeIcmp t (ping_count cfg) (ping_gap_ms cfg))) (ping_targets cfg).
Definition handshakes (cfg : ProbeConfig) (run_handshake : bool) : list (nat * call) :=
  if run_handshake && tcp_handshake_capture cfg
  then imap (fun i t => (i, ProbeTcpHandshake t)) (tcp_targets cfg) else [].

(** [RunCycle], with the slots as the pool leaves them when the wait ends; a
    slot no task wrote is an empty vector. *)
Definition RunCycle (cfg : ProbeConfig) (run_handshake : bool) (slots : list (option (list Metric)))
    : list Metric :=
  run_calls (inline_ntp cfg) ++ mjoin (default [] <$> slots) ++
  run_calls (pings cfg) ++ run_calls (handshakes cfg run_handshake).

(** The calls of a cycle in the order of the configuration. *)
Definition planned (cfg : ProbeConfig) (run_handshake : bool) : list (nat * call) :=
  inline_ntp cfg ++ mjoin (imap (fun i t => map (pair i) t) (tasks cfg)) ++
  pings cfg ++ handshakes cfg run_handshake.

Lemma run_calls_app l k : run_calls (l ++ k) = run_calls l ++ run_calls k.
Proof. unfold run_calls. by rewrite map_app, join_app. Qed.

Lemma run_calls_join l : run_calls (mjoin l) = mjoin (map run_calls l).
Proof. induction l as [|x l IH]; [done|].
  change (mjoin (x :: l)) with (x ++ mjoin l). by rewrite run_calls_app, IH.
Qed.

Lemma task_results (cfg : ProbeConfig) :
  map run_calls (imap (fun i t => map (pair i) t) (tasks cfg)) =
  task_result cfg <$> List.seq 0 (length (tasks cfg)).
Proof.
  apply list_eq. intros i. change (map run_calls ?l) with (run_calls <$> l).
  rewrite !list_lookup_fmap, list_lookup_imap. unfold task_result.
  destruct (tasks cfg !! i) as [t|] eqn:E.
  - pose proof (lookup_lt_Some _ _ _ E). rewrite lookup_seq_lt by done. simpl. by rewrite E.
  - apply lookup_ge_None in E. rewrite lookup_ge_None_2 by (by rewrite length_seq). done.
Qed.
End Cycle.

(** The calls of a cycle without their places. *)
Lemma mbind_join {A B} (f : A -> list B) (l : list A) : (l ≫= f) = mjoin (map f l).
Proof. induction l as [|x l IH]; [done|]. by rewrite bind_cons, IH. Qed.

Lemma mbind_join_join {A B} (f : A -> list (list B)) (l : list A) :
  (l ≫= fun t => mjoin (f t)) = mjoin (mjoin (map f l)).
Proof. induction l as [|x l IH]; [done|]. rewrite bind_cons, IH. cbn [map]. by rewrite <- join_app. Qed.
Lemma mbind_single {A B} (f : A -> B) (l : list A) : (l ≫= fun t => [f t]) = map f l.
Proof. induction l as [|x l IH]; [done|]. by rewrite bind_cons, IH. Qed.

Lemma calls_indexed (f : string -> call) (l : list string) : map snd (imap (fun i t => (i, f t)) l) = map f l.
Proof. change (map snd) with (fmap (M := list) (@snd nat call)). rewrite fmap_imap. apply (imap_const f). Qed.
Lemma calls_of_tasks (l : list (list call)) : map snd (mjoin (imap (fun i t => map (pair i) t) l)) = mjoin l.
Proof.
  assert (forall k : list (list (nat * call)), map snd (mjoin k) = mjoin (fmap (M := list) (map snd) k)) as ->.
  { induction k as [|x k IH]; [done|]. change (mjoin (x :: k)) with (x ++ mjoin k). rewrite map_app, IH. done. }
  f_equal. rewrite fmap_imap. transitivity (imap (fun _ (t : list call) => t) l).
  - apply imap_ext. intros i t _. cbn. rewrite map_map. apply map_id.
  - rewrite (imap_const (fun t => t)). apply list_fmap_id.
Qed.

(** Claim C5: a cycle's metrics come in the order of the configuration.
    Whatever the number of workers and the interleaving of the pool, when the
    wait of [RunCycle] ends the cycle delivers the answers of these calls, one after the other,
    nothing missing, repeated or mixed up: the clock offset if [ntp_check]; per
    DNS target the lookup and the record check against what is expected of that target; per TCP target the
    connection, and the retransmissions if [tcp_retransmit_check]; per TLS
    target the handshake, and the certificate if [tls_cert_check]; per HTTP
    target one request, or one per configured protocol; per ping target the
    ping with the configured count and gap; and if this is a handshake cycle and [tcp_handshake_capture], the
    capture per TCP target. *)
Theorem cycle_in_config_order (probe : nat -> call -> list Metric) (cfg : ProbeConfig)
    (run_handshake : bool) (workers : nat) (stop_ : bool) (s : Pool.state) :
  Pool.reached (length (tasks cfg)) (task_result probe cfg) workers stop_ s ->
  Pool.main s = Pool.Done ->
  exists placed : list (nat * call),
    RunCycle probe cfg run_handshake (Pool.slots s) = placed ≫= (fun c => probe c.1 c.2) /\
    placed.*2 =
      (if ntp_check cfg then [ProbeNtpOffset] else []) ++
      (dns_targets cfg ≫= fun t => [ProbeDns t; ProbeDnsRecord t (default [] (dns_expected cfg !! t))]) ++
      (tcp_targets cfg ≫= fun t => if tcp_retransmit_check cfg then [ProbeTcp t; ProbeTcpRetransmit t] else [ProbeTcp t]) ++
      (tls_targets cfg ≫= fun t => if tls_cert_check cfg then [ProbeTls t; ProbeTlsCert t] else [ProbeTls t]) ++
      (http_targets cfg ≫= fun t => match http_protocols cfg with
                                    | [] => [ProbeHttp t] | ps => map (ProbeHttpProtocol t) ps end) ++
      map (fun t => ProbeIcmp t (ping_count cfg) (ping_gap_ms cfg)) (ping_targets cfg) ++
      (if run_handshake && tcp_handshake_capture cfg then map ProbeTcpHandshake (tcp_targets cfg) else []).
Proof.
  intros Hr Hd. exists (planned cfg run_handshake). split.
  - trans (run_calls probe (planned cfg run_handshake)); [|unfold run_calls; by rewrite mbind_join].
    unfold RunCycle, planned. rewrite !run_calls_app, run_calls_join, task_results.
    do 2 f_equal. rewrite (Pool.done_slots _ _ _ _ _ Hr Hd). by rewrite <- list_fmap_compose.
  - change (planned cfg run_handshake).*2 with (map snd (planned cfg run_handshake)). unfold planned.
    rewrite !map_app, calls_of_tasks. unfold tasks. rewrite !join_app, <- !app_assoc, <- !mbind_join.
    f_equal; [unfold inline_ntp; by destruct (ntp_check cfg)|]. f_equal.
    f_equal; [apply list_bind_ext; [intros t; unfold tcp_task; by destruct (tcp_retransmit_check cfg)|done]|].
    f_equal; [apply list_bind_ext; [intros t; unfold tls_task; by destruct (tls_cert_check cfg)|done]|].
    f_equal; [|f_equal; [apply calls_indexed|unfold handshakes; destruct (_ && _); [apply calls_indexed|done]]].
    rewrite mbind_join, <- mbind_join_join. apply list_bind_ext; [|done]. intros t. unfold http_tasks.
    destruct (http_protocols cfg) as [|p ps]; [done|]. by rewrite <- mbind_join, mbind_single.
Qed.

Definition demo_cfg : ProbeConfig :=
  mkProbeConfig ["example.com"] [] [] [] ["10.0.0.1"] 4 200 true true true [] ∅ false.
Definition demo_probe (i : nat) (c : call) : list Metric :=
  match c with
  | ProbeDns h => [mkMetric CHECK_TYPE_DNS_RESOLUTION h true "" VALUE_NOT_SET None ∅ 0 0]
  | ProbeDnsRecord h _ => [mkMetric CHECK_TYPE_DNS_RECORD h false "" VALUE_NOT_SET None ∅ 0 0]
  | ProbeIcmp h _ _ => [mkMetric CHECK_TYPE_ICMP_PING h true "" VALUE_NOT_SET None ∅ 0 0]
  | _ => []
  end.
(** The single task is run before the waiter looks. *)
Definition demo_done : Pool.state :=
  Pool.test (Pool.set_main Pool.Testing (Pool.notify
    (Pool.finish_task (task_result demo_probe demo_cfg) 0 []
       (Pool.take_task 0 [] (Pool.Submit false 0 (Pool.initial 1 1)))))).

Lemma demo_reached : Pool.reached 1 (task_result demo_probe demo_cfg) 1 false demo_done.
Proof.
  unfold demo_done.
  eapply reach_step; [|apply Pool.Sp_step, Pool.St_test; done].
  eapply reach_step; [|apply Pool.Sp_step, Pool.St_submitted; done].
  eapply reach_step; [|apply Pool.Sp_step, Pool.St_notify; simpl; lia].
  eapply reach_step; [|apply Pool.Sp_step, Pool.St_finish; done].
  eapply reach_step; [|apply Pool.Sp_step, Pool.St_take; [simpl; lia|done]].
  eapply reach_step; [|apply Pool.Sp_step, Pool.St_submit; [done|lia]].
  by apply reach_init.
Qed.

Lemma cycle_in_config_order_witness :
  map check_type (RunCycle demo_probe demo_cfg true (Pool.slots demo_done)) =
    [CHECK_TYPE_DNS_RESOLUTION; CHECK_TYPE_DNS_RECORD; CHECK_TYPE_ICMP_PING] /\
  exists placed : list (nat * call),
    RunCycle demo_probe demo_cfg true (Pool.slots demo_done) = placed ≫= (fun c => demo_probe c.1 c.2) /\
    placed.*2 = [ProbeDns "example.com"; ProbeDnsRecord "example.com" []; ProbeIcmp "10.0.0.1" 4 200].
Proof.
  split; [reflexivity|].
  exact (cycle_in_config_order demo_probe demo_cfg true 1 false demo_done demo_reached eq_refl).
Defined.
End Cycle.

(** ** The loop around the cycles *)
Module Runner.
Import Cycle.

Definition kMaxQueuedBatches : nat := 50.
(** [steady_clock] readings are in nanoseconds. *)
Definition ns (ms : Z) : Z := ms * 1000000.
Definition in_ms (nanoseconds : Z) : Z := Z.quot nanoseconds 1000000.

Record CycleStats : Type := mkStats {
  cycle_duration_ms : Z;
  probe_duration_ms : Z;
  metric_count : Z;
  last_cycle_timestamp_ms : Z;
  handshake_probe_count : Z;
}.

(** The object and the locals of [RunLoop]. *)
Record state : Type := mkState {
  s_interval_ms_ : Z;
  s_handshake_interval_ms_ : Z;
  queue_ : list MetricsBatch;
  seq_ : Z;
  agent_id_ : string;
  stats_ : CycleStats;
  next : Z;
  last_handshake : Z;
  handshake_cycles : Z;
}.

Definition fresh : state := mkState 5000 0 [] 0 "" (mkStats 0 0 0 0 0) 0 0 0.

(** [Start], and the thread entering [RunLoop]. *)
Definition Start (agent_id : string) (now : Z) (s : state) : state :=
  mkState (s_interval_ms_ s) (s_handshake_interval_ms_ s) (queue_ s) (seq_ s) agent_id (stats_ s)
    now now 0.

Definition SetIntervalMs (interval_ms : Z) (s : state) : state :=
  mkState (Z.max 100 interval_ms) (s_handshake_interval_ms_ s) (queue_ s) (seq_ s) (agent_id_ s)
    (stats_ s) (next s) (last_handshake s) (handshake_cycles s).
Definition SetHandshakeIntervalMs (interval_ms : Z) (s : state) : state :=
  mkState (s_interval_ms_ s) (Z.max 0 interval_ms) (queue_ s) (seq_ s) (agent_id_ s)
    (stats_ s) (next s) (last_handshake s) (handshake_cycles s).
Definition PendingCount (s : state) : nat := length (queue_ s).
Definition set_queue (q : list MetricsBatch) (s : state) : state :=
  mkState (s_interval_ms_ s) (s_handshake_interval_ms_ s) q (seq_ s) (agent_id_ s)
    (stats_ s) (next s) (last_handshake s) (handshake_cycles s).

(** [Drain]: what it appends to [out]. *)
Definition Drain (limit : nat) (s : state) : list MetricsBatch * state :=
  (take limit (queue_ s), set_queue (drop limit (queue_ s)) s).

(** The clock readings of one iteration, in the order they are made. *)
Record clock : Type := mkClock {
  cycle_start : Z; handshake_now : Z; probe_start : Z; probe_end : Z; batch_unix_ms : Z;
  cycle_end : Z; stats_unix_ms : Z; pace_now : Z;
}.

(** Whether the handshake capture runs in this cycle. *)
Definition throttle (capture : bool) (now : Z) (s : state) : bool * state :=
  if (0 <? s_handshake_interval_ms_ s)%Z then
    if (now - last_handshake s <? ns (s_handshake_interval_ms_ s))%Z then (false, s)
    else (capture,
          mkState (s_interval_ms_ s) (s_handshake_interval_ms_ s) (queue_ s) (seq_ s) (agent_id_ s)
            (stats_ s) (next s) now (Int.u64 (handshake_cycles s + 1)))
  else (capture, s).

(** [m.set_seq(seq_.fetch_add(1))] on each metric in turn. *)
Definition stamp (first : Z) (metrics : list Metric) : list Metric :=
  imap (fun i m => set_seq (Int.u64 (first + Z.of_nat i)) m) metrics.

Definition push_batch (b : MetricsBatch) (q : list MetricsBatch) : list MetricsBatch :=
  (if Nat.leb kMaxQueuedBatches (length q) then drop 1 q else q) ++ [b].

(** The deadline of the next cycle; one that has passed is not made up for. *)
Definition pace (now : Z) (s : state) : Z :=
  let interval_ms := s_interval_ms_ s in
  let interval_ms := if (interval_ms <? 100)%Z then 100%Z else interval_ms in
  let next := (next s + ns interval_ms)%Z in
  if (now <? next)%Z then next else now.

(** One iteration of [RunLoop]; [run] is [RunCycle] on this configuration. *)
Definition cycle (c : clock) (cfg : ProbeConfig) (run : bool -> list Metric) (s : state) : state :=
  let '(run_handshake, s) := throttle (tcp_handshake_capture cfg) (handshake_now c) s in
  let metrics := run run_handshake in
  let batch := mkBatch (agent_id_ s) (batch_unix_ms c) (stamp (seq_ s) metrics) in
  let stats := mkStats (in_ms (cycle_end c - cycle_start c)) (in_ms (probe_end c - probe_start c))
                 (Int.to_int32 (Z.of_nat (length metrics))) (stats_unix_ms c)
                 (Int.to_int64 (handshake_cycles s)) in
  mkState (s_interval_ms_ s) (s_handshake_interval_ms_ s) (push_batch batch (queue_ s))
    (Int.u64 (seq_ s + Z.of_nat (length metrics))) (agent_id_ s) stats
    (pace (pace_now c) s) (last_handshake s) (handshake_cycles s).

(** What the other thread and the loop do to the object, in some order. *)
Inductive event : Type :=
  | Cycle (c : clock) (cfg : ProbeConfig) (run : bool -> list Metric)
  | DrainUpTo (limit : nat)
  | Interval (ms : Z)
  | HandshakeInterval (ms : Z).

(** A history: the state with all batches produced and drained so far and the
    number of batches the full queue dropped. *)
Record history : Type := mkHistory {
  now_state : state;
  produced : list MetricsBatch;
  drained : list MetricsBatch;
  evicted : nat;
}.

Definition observe (h : history) (e : event) : history :=
  let s := now_state h in
  match e with
  | Cycle c cfg run =>
      let s' := cycle c cfg run s in
      mkHistory s' (produced h ++ drop (length (queue_ s') - 1) (queue_ s')) (drained h)
        (evicted h + if Nat.leb kMaxQueuedBatches (length (queue_ s)) then 1 else 0)
  | DrainUpTo limit =>
      let '(out, s') := Drain limit s in mkHistory s' (produced h) (drained h ++ out) (evicted h)
  | Interval ms => mkHistory (SetIntervalMs ms s) (produced h) (drained h) (evicted h)
  | HandshakeInterval ms => mkHistory (SetHandshakeIntervalMs ms s) (produced h) (drained h) (evicted h)
  end.

Definition observed (agent_id : string) (now : Z) (l : list event) : history :=
  fold_left observe l (mkHistory (Start agent_id now fresh) [] [] 0).

Definition all_metrics (l : list MetricsBatch) : list Metric := mjoin (map b_metrics l).

Record consistent (h : history) : Prop := {
  co_queue : exists gone, produced h = gone ++ queue_ (now_state h) /\
               drained h `sublist_of` gone /\ length gone = length (drained h) + evicted h;
  co_bound : length (queue_ (now_state h)) <= kMaxQueuedBatches;
  co_seqs : map Proto.seq (all_metrics (produced h)) =
            map (fun i => Int.u64 (Z.of_nat i)) (List.seq 0 (length (all_metrics (produced h))));
  co_next_seq : seq_ (now_state h) = Int.u64 (Z.of_nat (length (all_metrics (produced h))));
}.

Lemma stamp_length n l : length (stamp n l) = length l.
Proof. apply length_imap. Qed.

Lemma stamp_seqs k l :
  map Proto.seq (stamp (Int.u64 (Z.of_nat k)) l) =
  map (fun i => Int.u64 (Z.of_nat i)) (List.seq k (length l)).
Proof.
  unfold stamp. change (map Proto.seq ?x) with (Proto.seq <$> x). rewrite fmap_imap.
  apply list_eq. intros i. change (map ?f ?x) with (f <$> x).
  rewrite list_lookup_imap, list_lookup_fmap.
  destruct (l !! i) as [m|] eqn:E.
  - pose proof (lookup_lt_Some _ _ _ E). rewrite lookup_seq_lt by done. simpl. f_equal.
    unfold Int.u64. rewrite Zplus_mod_idemp_l. f_equal. lia.
  - apply lookup_ge_None in E. rewrite lookup_ge_None_2 by (by rewrite length_seq). done.
Qed.

Lemma push_batch_last b q : drop (length (push_batch b q) - 1) (push_batch b q) = [b].
Proof.
  unfold push_batch. rewrite length_app. simpl.
  rewrite Nat.add_sub. by rewrite drop_app_length.
Qed.

Lemma push_batch_bound b q :
  length q <= kMaxQueuedBatches -> length (push_batch b q) <= kMaxQueuedBatches.
Proof.
  unfold push_batch, kMaxQueuedBatches. intros H. destruct (Nat.leb_spec 50 (length q)); rewrite length_app;
    [rewrite length_drop|]; simpl; lia.
Qed.

Lemma throttle_frame capture now s :
  let s' := snd (throttle capture now s) in
  queue_ s' = queue_ s /\ seq_ s' = seq_ s /\ agent_id_ s' = agent_id_ s /\
  s_handshake_interval_ms_ s' = s_handshake_interval_ms_ s.
Proof. unfold throttle. destruct (_ <? _)%Z; [|done]. by destruct (_ <? _)%Z. Qed.

Lemma push_batch_gone b q :
  exists out, q ++ [b] = out ++ push_batch b q /\
    length out = (if Nat.leb kMaxQueuedBatches (length q) then 1 else 0).
Proof.
  unfold push_batch. destruct (Nat.leb_spec kMaxQueuedBatches (length q)) as [H|H]; [|by exists []].
  destruct q as [|x q]; [unfold kMaxQueuedBatches in H; simpl in H; lia|]. by exists [x].
Qed.

Lemma all_metrics_snoc l b : all_metrics (l ++ [b]) = all_metrics l ++ b_metrics b.
Proof. unfold all_metrics. rewrite map_app, join_app. simpl. by rewrite app_nil_r. Qed.

Lemma consistent_cycle h c cfg run :
  consistent h -> consistent (observe h (Cycle c cfg run)).
Proof.
  intros [(gone & C1 & C2 & C3) C4 C5 C6]. unfold observe, cycle.
  pose proof (throttle_frame (tcp_handshake_capture cfg) (handshake_now c) (now_state h)) as (T1 & T2 & T3 & _).
  destruct (throttle _ _ _) as [hs s1]; cbn [snd] in T1, T2, T3. rewrite T1, T2, T3.
  set (b := mkBatch _ _ _). set (n := length (all_metrics (produced h))) in *.
  split; cbn [produced now_state queue_ drained evicted seq_]; rewrite ?push_batch_last.
  - destruct (push_batch_gone b (queue_ (now_state h))) as (out & O1 & O2).
    exists (gone ++ out). split_and!.
    + by rewrite C1, <- !app_assoc, O1.
    + rewrite <- (app_nil_r (drained h)). apply sublist_app; [done|apply sublist_nil_l].
    + rewrite length_app, C3, O2. lia.
  - by apply push_batch_bound.
  - rewrite all_metrics_snoc, map_app, C5, length_app, seq_app, map_app. f_equal.
    unfold b. cbn [b_metrics]. by rewrite C6, stamp_seqs, stamp_length.
  - rewrite all_metrics_snoc, length_app. unfold b. cbn [b_metrics].
    rewrite C6, stamp_length. unfold Int.u64. rewrite Zplus_mod_idemp_l. f_equal. unfold n. lia.
Qed.

Lemma consistent_observe h e : consistent h -> consistent (observe h e).
Proof.
  destruct e as [c cfg run|limit|ms|ms]; [apply consistent_cycle| |by intros []..].
  intros [(gone & C1 & C2 & C3) C4 C5 C6]. split; cbn [observe Drain produced now_state queue_ drained evicted set_queue seq_]; try done.
  - exists (gone ++ take limit (queue_ (now_state h))). split_and!.
    + by rewrite C1, <- app_assoc, take_drop.
    + by apply sublist_app.
    + rewrite !length_app. lia.
  - rewrite length_drop. lia.
Qed.

(** Claim C34: the queue of the probe thread.  Whatever cycles, drains and
    setting changes happen in whatever order, [Drain] hands out the batches in
    the order they were produced and none twice; the batches still queued are
    the newest ones, at most 50; a batch is neither drained nor queued only
    because a full queue dropped it; and the metrics are numbered 0, 1, 2, ...
    in production order (modulo 2^64), so the receiver sees every drop as a gap. *)
Theorem queue_and_sequence_numbers (agent_id : string) (now : Z) (l : list event) :
  let h := observed agent_id now l in
  (exists gone, produced h = gone ++ queue_ (now_state h) /\ drained h `sublist_of` gone /\
     length gone = length (drained h) + evicted h) /\
  PendingCount (now_state h) <= 50 /\
  map Proto.seq (all_metrics (produced h)) =
    map (fun i => Int.u64 (Z.of_nat i)) (List.seq 0 (length (all_metrics (produced h)))).
Proof.
  intros h. assert (C : consistent h).
  { unfold h, observed. apply (fold_left_invariant consistent).
    - intros. by apply consistent_observe.
    - split; simpl; try done; [|unfold kMaxQueuedBatches; lia]. by exists []. }
  destruct C as [C1 C2 C3 _]. done.
Qed.

(** The times at which the capture ran, over consecutive cycles. *)
Fixpoint captures (l : list (clock * ProbeConfig * (bool -> list Metric))) (s : state) : list Z :=
  match l with
  | [] => []
  | (c, cfg, run) :: rest =>
      (if fst (throttle (tcp_handshake_capture cfg) (handshake_now c) s) then [handshake_now c] else []) ++
      captures rest (cycle c cfg run s)
  end.

Lemma cycle_throttle c cfg run s :
  last_handshake (cycle c cfg run s) =
    last_handshake (snd (throttle (tcp_handshake_capture cfg) (handshake_now c) s)) /\
  s_handshake_interval_ms_ (cycle c cfg run s) = s_handshake_interval_ms_ s.
Proof.
  pose proof (throttle_frame (tcp_handshake_capture cfg) (handshake_now c) s) as (_ & _ & _ & T).
  unfold cycle. destruct (throttle _ _ _) as [hs s1]. done.
Qed.

Definition apart (d : Z) (a b : Z) : Prop := (a + d <= b)%Z.

Lemma captures_apart l s t :
  (0 < s_handshake_interval_ms_ s)%Z -> (t <= last_handshake s)%Z ->
  Sorted (apart (ns (s_handshake_interval_ms_ s))) (t :: captures l s).
Proof.
  revert s t. induction l as [|[[c cfg] run] l IH]; intros s t Hi Ht; [by repeat constructor|].
  cbn [captures]. destruct (cycle_throttle c cfg run s) as [E1 E2]. unfold throttle in *.
  rewrite (proj2 (Z.ltb_lt _ _) Hi) in *.
  destruct (handshake_now c - last_handshake s <? ns (s_handshake_interval_ms_ s))%Z eqn:Ew;
    cbn [fst snd last_handshake] in *; bool_hyps.
  - rewrite <- E2. apply IH; [by rewrite E2|]. simpl. lia.
  - unfold ns in *. destruct (tcp_handshake_capture cfg); cbn [fst app].
    + constructor; [rewrite <- E2; apply IH; lia|]. constructor. unfold apart. lia.
    + rewrite <- E2. apply IH; lia.
Qed.

(** The packet captures are throttled.  While a handshake interval is
    set, over any cycles the captures run at least that interval apart, the
    first one not before the interval has passed since the thread started. *)
Theorem handshakes_are_throttled (agent_id : string) (now : Z) (interval_ms : Z)
    (l : list (clock * ProbeConfig * (bool -> list Metric))) :
  (0 < interval_ms)%Z ->
  Sorted (fun a b => a + interval_ms * 1000000 <= b)%Z
    (now :: captures l (Start agent_id now (SetHandshakeIntervalMs interval_ms fresh))).
Proof.
  intros H. pose proof (captures_apart l (Start agent_id now (SetHandshakeIntervalMs interval_ms fresh)) now) as C.
  simpl in C. rewrite Z.max_r in C by lia. by apply C.
Qed.

Definition demo_cycles : list (clock * ProbeConfig * (bool -> list Metric)) :=
  map (fun t => (mkClock t t t t 0 t 0 t, default_ProbeConfig, fun _ => []))
    [0; 1500; 2500; 3000; 4600]%Z.

Lemma handshakes_are_throttled_witness :
  captures (map (fun x => (mkClock 0 (handshake_now x.1.1 * 1000000) 0 0 0 0 0 0, x.1.2, x.2)) demo_cycles)
    (Start "a" 0 (SetHandshakeIntervalMs 1000 fresh)) = [1500000000; 2500000000; 4600000000]%Z /\
  Sorted (fun a b => a + 1000 * 1000000 <= b)%Z [0; 1500000000; 2500000000; 4600000000]%Z.
Proof.
  split; [reflexivity|].
  exact (handshakes_are_throttled "a" 0 1000
    (map (fun x => (mkClock 0 (handshake_now x.1.1 * 1000000) 0 0 0 0 0 0, x.1.2, x.2)) demo_cycles) eq_refl).
Defined.
End Runner.
