(* ===== verification/Shutdown.v ===== *)
(** * Shutdown: how the probe runner stops

    [ProbeRunner::Stop] and [ThreadPool::Stop] of [agent/src/probe_runner.cpp]
    against the loop thread ([RunLoop], whose cycles submit tasks and wait for
    them) and the workers of the pool ([WorkerLoop]), as the steps of all these
    threads.  The file ProbeRunner models one cycle in isolation; here cycle
    follows cycle until the loop sees that it was stopped. *)
From stdpp Require Import base list list_numbers relations.
From Stdlib Require Import Lia.
From S2P Require Import Prelude.
#[local] Open Scope list_scope.

Module Shutdown.

(** [WorkerLoop]: about to test the predicate of [cv_]; asleep in its wait;
    running a task; past the last decrement, before [wait_cv.notify_one()];
    returned. *)
Inductive worker : Type := Idle | Asleep | Running | Notifying | Gone.

(** [RunLoop]: at its condition; in [RunCycle] with so many tasks still to
    submit; before the [cv_.notify_one()] of a [Submit]; testing the predicate of
    [wait_cv]; about to sleep; asleep; after the cycle, pacing; returned. *)
Inductive looper : Type :=
  | Condition | Submitting (left : nat) | Notify (left : nat) | Testing | Falling | Sleeping | Pacing | Ended.

(** The caller of [Stop]: before the call; joining the loop; before [stop_] is
    set; before [notify_all]; joining worker [i]; returned. *)
Inductive stopper : Type := NotCalled | JoinLoop | SetStop | NotifyAll | JoinWorker (i : nat) | Returned.
#[global] Instance worker_eq_dec : EqDecision worker.
Proof. solve_decision. Defined.
#[global] Instance looper_eq_dec : EqDecision looper.
Proof. solve_decision. Defined.
#[global] Instance stopper_eq_dec : EqDecision stopper.
Proof. solve_decision. Defined.

Record state : Type := mkState {
  s_running : bool;
  stop_ : bool;
  tasks_ : nat;               (* tasks in the queue of the pool *)
  remaining : nat;            (* of the cycle under way *)
  loop : looper;
  workers_ : list worker;     (* the threads, also once the vector was cleared *)
  caller : stopper;
}.
(** [hw]: what [hardware_concurrency] returns. *)
Definition DefaultPoolSize (hw : nat) : nat := if Nat.eqb hw 0 then 2 else Nat.min 4 hw.
(** Right after [Start], with the workers the constructor of the pool made. *)
Definition start (hw : nat) : state :=
  mkState true false 0 0 Condition (replicate (Nat.max 1 (DefaultPoolSize hw)) Idle) NotCalled.

Definition wake (w : worker) : worker := match w with Asleep => Idle | _ => w end.
Definition wake_loop (l : looper) : looper := match l with Sleeping => Testing | _ => l end.

Inductive step : state -> state -> Prop :=
  (* the loop *)
  | next_cycle n st q m ws c :
      step (mkState true st q m Condition ws c)
           (mkState true st q (S n) (Submitting (S n)) ws c)
  | empty_cycle st q m ws c :
      step (mkState true st q m Condition ws c) (mkState true st q m Pacing ws c)
  | leaves st q m ws c :
      step (mkState false st q m Condition ws c) (mkState false st q m Ended ws c)
  | submits r q m n ws c :
      step (mkState r false q m (Submitting (S n)) ws c) (mkState r false (S q) m (Notify n) ws c)
  | drops r q m n ws c :
      step (mkState r true q m (Submitting (S n)) ws c) (mkState r true q m (Submitting n) ws c)
  | notifies r st q m n i ws c :
      ws !! i = Some Asleep ->
      step (mkState r st q m (Notify n) ws c) (mkState r st q m (Submitting n) (<[i := Idle]> ws) c)
  | notifies_nobody r st q m n ws c :
      Asleep ∉ ws ->
      step (mkState r st q m (Notify n) ws c) (mkState r st q m (Submitting n) ws c)
  | submitted r st q m ws c :
      step (mkState r st q m (Submitting 0) ws c) (mkState r st q m Testing ws c)
  | tests r st q m ws c :
      step (mkState r st q m Testing ws c) (mkState r st q m (if Nat.eqb m 0 then Pacing else Falling) ws c)
  | sleeps r st q m ws c :
      step (mkState r st q m Falling ws c) (mkState r st q m Sleeping ws c)
  | paced r st q m ws c :
      step (mkState r st q m Pacing ws c) (mkState r st q m Condition ws c)
  (* worker [i] *)
  | takes r st q m l i ws c :
      ws !! i = Some Idle ->
      step (mkState r st (S q) m l ws c) (mkState r st q m l (<[i := Running]> ws) c)
  | returns r m l i ws c :
      ws !! i = Some Idle ->
      step (mkState r true 0 m l ws c) (mkState r true 0 m l (<[i := Gone]> ws) c)
  | falls_asleep r m l i ws c :
      ws !! i = Some Idle ->
      step (mkState r false 0 m l ws c) (mkState r false 0 m l (<[i := Asleep]> ws) c)
  | finishes r st q m l i ws c :
      ws !! i = Some Running ->
      step (mkState r st q m l ws c)
           (mkState r st q (m - 1) l (<[i := if Nat.eqb m 1 then Notifying else Idle]> ws) c)
  | wakes_loop r st q m l i ws c :
      ws !! i = Some Notifying ->
      step (mkState r st q m l ws c) (mkState r st q m (wake_loop l) (<[i := Idle]> ws) c)
  (* the caller of [Stop] *)
  | called r st q m l ws :
      step (mkState r st q m l ws NotCalled) (mkState false st q m l ws JoinLoop)
  | joins_loop r st q m ws :
      step (mkState r st q m Ended ws JoinLoop) (mkState r st q m Ended ws SetStop)
  | sets_stop r st q m l ws :
      step (mkState r st q m l ws SetStop) (mkState r true q m l ws NotifyAll)
  | notifies_all r st q m l ws :
      step (mkState r st q m l ws NotifyAll) (mkState r st q m l (map wake ws) (JoinWorker 0))
  | joins_worker r st q m l i ws :
      ws !! i = Some Gone ->
      step (mkState r st q m l ws (JoinWorker i)) (mkState r st q m l ws (JoinWorker (S i)))
  | clears r st q m l ws :
      step (mkState r st q m l ws (JoinWorker (length ws))) (mkState r st q m l ws Returned).

(** A condition variable may also wake up without a notification. *)
Inductive step_or_spurious : state -> state -> Prop :=
  | a_step s t : step s t -> step_or_spurious s t
  | spurious_worker r st q m l i ws c :
      ws !! i = Some Asleep ->
      step_or_spurious (mkState r st q m l ws c) (mkState r st q m l (<[i := Idle]> ws) c)
  | spurious_loop r st q m ws c :
      step_or_spurious (mkState r st q m Sleeping ws c) (mkState r st q m Testing ws c).

Definition reached (s : state) : Prop := exists n, rtc step_or_spurious (start n) s.

(** ** The steps that are left *)
Definition weight (w : worker) : nat :=
  match w with Gone => 0 | Asleep => 1 | Idle => 2 | Notifying => 5 | Running => 6 end.
Definition loop_rank (l : looper) : nat :=
  match l with
  | Ended => 0 | Condition => 1 | Pacing => 2 | Sleeping => 3 | Falling => 4 | Testing => 5
  | Submitting n => 6 + 12 * n | Notify n => 12 + 12 * n
  end.
Definition caller_rank (workers : nat) (c : stopper) : nat :=
  match c with
  | Returned => 0 | JoinWorker i => 1 + (workers - i) | NotifyAll => 2 + 2 * workers
  | SetStop => 3 + 2 * workers | JoinLoop => 4 + 2 * workers | NotCalled => 5 + 2 * workers
  end.
Definition total (f : worker -> nat) (ws : list worker) : nat := sum_list_with f ws.
Definition rank (s : state) : nat :=
  5 * tasks_ s + loop_rank (loop s) + total weight (workers_ s) + caller_rank (length (workers_ s)) (caller s).

Lemma total_insert f ws i w w' : ws !! i = Some w -> total f (<[i := w']> ws) + f w = total f ws + f w'.
Proof.
  intros H. rewrite (insert_take_drop ws i w') by by eapply lookup_lt_Some. rewrite <- (take_drop_middle ws i w H) at 3.
  unfold total. rewrite !sum_list_with_app. cbn. lia.
Qed.
Lemma total_wake ws : total weight (map wake ws) <= total weight ws + length ws.
Proof. induction ws as [|w ws IH]; [done|]. cbn in *. destruct w; cbn; unfold total in *; lia. Qed.

(** Arithmetic over the lists of workers. *)
Ltac count f :=
  repeat match goal with
  | H : ?ws !! ?i = Some ?w |- context [total f (<[?i := ?w']> ?ws)] =>
      let E := fresh in pose proof (total_insert f ws i w w' H) as E; cbn [f] in E; revert E;
      generalize (total f (<[i := w']> ws)); intros
  end.

Lemma shutdown_step_rank s t : step s t -> s_running s = false -> s_running t = false /\ rank t < rank s.
Proof.
  intros Hs. destruct Hs; cbn [s_running]; intros Hr; try discriminate Hr; (split; [done|]);
    unfold rank; cbn [tasks_ loop workers_ caller loop_rank caller_rank]; rewrite ?length_insert, ?length_map; count weight; try lia.
  - destruct (Nat.eqb m 0); cbn; lia.
  - destruct (Nat.eqb m 1); cbn in *; lia.
  - destruct l; cbn; lia.
  - pose proof (total_wake ws). lia.
  - match goal with H : _ !! _ = Some Gone |- _ => apply lookup_lt_Some in H end. lia.
Qed.

(** ** What holds in every reachable state *)
Definition busy (w : worker) : nat := match w with Running => 1 | _ => 0 end.
Definition left_to_submit (l : looper) : nat := match l with Submitting n | Notify n => n | _ => 0 end.
Definition between_cycles (l : looper) : Prop := match l with Condition | Pacing | Ended => True | _ => False end.
Definition phase (r st : bool) (l : looper) (c : stopper) : Prop :=
  match c with
  | NotCalled => r = true /\ st = false
  | JoinLoop => r = false /\ st = false
  | SetStop => r = false /\ st = false /\ l = Ended
  | _ => r = false /\ st = true /\ l = Ended
  end.

(** How many workers the caller has joined. *)
Definition joined (c : stopper) (ws : list worker) : nat :=
  match c with JoinWorker i => i | Returned => length ws | _ => 0 end.

Record good (s : state) : Prop := {
  good_count : remaining s = tasks_ s + total busy (workers_ s) + left_to_submit (loop s);
  good_between : between_cycles (loop s) -> remaining s = 0;
  good_phase : phase (s_running s) (stop_ s) (loop s) (caller s);
  good_ended : loop s = Ended -> s_running s = false;
  (* a queued task has a worker that is awake, or the notification is under way *)
  good_awake : 0 < tasks_ s -> (exists n, loop s = Notify n) \/ Exists (fun w => w <> Asleep) (workers_ s);
  good_gone : Gone ∈ workers_ s -> stop_ s = true;
  good_woken : match caller s with JoinWorker _ | Returned => Asleep ∉ workers_ s | _ => True end;
  good_workers : 0 < length (workers_ s);
  good_joined : joined (caller s) (workers_ s) <= length (workers_ s) /\
    Forall (eq Gone) (take (joined (caller s) (workers_ s)) (workers_ s));
}.

Lemma total_busy_in ws : 0 < total busy ws -> exists i, ws !! i = Some Running.
Proof.
  induction ws as [|w ws IH]; [cbn; unfold total; cbn; lia|]. intros H.
  destruct w; [..|by exists 0| |]; try (destruct IH as [i Hi]; [exact H|by exists (S i)]).
Qed.
Lemma total_busy_wake ws : total busy (map wake ws) = total busy ws.
Proof. induction ws as [|w ws IH]; [done|]. unfold total in *. cbn. rewrite IH. by destruct w. Qed.
Lemma awake_insert i w ws : ws !! i <> None -> w <> Asleep -> Exists (fun w => w <> Asleep) (<[i := w]> ws).
Proof.
  intros Hi Hw. apply Exists_exists. exists w. split; [|done]. apply list_elem_of_insert.
  apply not_eq_None_Some in Hi as [x Hx]. by eapply lookup_lt_Some.
Qed.
Lemma insert_elem i (w x : worker) (ws : list worker) : x ∈ <[i := w]> ws -> x = w \/ x ∈ ws.
Proof.
  intros [j Hj]%list_elem_of_lookup. apply list_lookup_insert_Some in Hj as [(_ & -> & _)|[_ Hj]]; [by left|].
  right. by apply list_elem_of_lookup_2 in Hj.
Qed.

Lemma shutdown_start_good n : good (start n).
Proof.
  split; try done.
  - unfold start. cbn -[Nat.max DefaultPoolSize]. induction (Nat.max 1 (DefaultPoolSize n)); done.
  - cbn. lia.
  - cbn -[Nat.max DefaultPoolSize]. intros H. by apply elem_of_replicate_inv in H.
  - cbn -[Nat.max DefaultPoolSize]. rewrite length_replicate. lia.
  - cbn -[Nat.max DefaultPoolSize]. split; [lia|constructor].
Qed.

Lemma phase_step s t : good s -> step s t ->
  phase (s_running t) (stop_ t) (loop t) (caller t) /\ (loop t = Ended -> s_running t = false).
Proof.
  intros [_ _ P E _ _ _ _ _] Hs. destruct Hs; cbn in *; try (destruct c; cbn in *; intuition congruence); try (intuition congruence).
  - destruct (Nat.eqb m 0), c; cbn in *; intuition congruence.
  - destruct l, c; cbn in *; intuition congruence.
Qed.
Lemma count_step s t : good s -> step s t ->
  remaining t = tasks_ t + total busy (workers_ t) + left_to_submit (loop t) /\
  (between_cycles (loop t) -> remaining t = 0).
Proof.
  intros [C B P E _ _ _ _ _] Hs.
  destruct Hs; cbn -[total] in *; try (count busy; split; intros; lia || (specialize (B I); lia) || tauto).
  - destruct c; cbn in P; intuition congruence.
  - destruct (Nat.eqb_spec m 0) as [->|]; cbn; split; (lia || done).
  - destruct (Nat.eqb m 1); count busy; (split; [lia|]; intros Hb; specialize (B Hb); lia).
  - count busy. destruct l; cbn in *; (split; [lia|]; intros; tauto || (specialize (B I); lia)).
  - rewrite total_busy_wake. tauto.
Qed.

Lemma wakeups_step s t : good s -> step s t ->
  (0 < tasks_ t -> (exists n, loop t = Notify n) \/ Exists (fun w => w <> Asleep) (workers_ t)) /\
  (Gone ∈ workers_ t -> stop_ t = true).
Proof.
  intros [C B P E A G W L J] Hs. split.
  - destruct Hs; cbn -[total] in *; intros Hq; try lia;
      try (destruct (A Hq) as [[? ?]|?]; [discriminate|by right]);
      try (right; apply awake_insert; [congruence|repeat case_match; discriminate]).
    all: try exact (A Hq).
    + left. by exists n.
    + right. destruct ws as [|w ws]; [cbn in L; lia|]. apply Exists_cons_hd. intros ->. by apply H, list_elem_of_here.
    + destruct P as (_ & _ & ->). cbn in *. specialize (B I). lia.
  - destruct Hs; cbn in *; try done; try (intros [?|?]%insert_elem; [discriminate|by apply G]).
    + intros [E'|?]%insert_elem; [destruct (Nat.eqb m 1); discriminate E'|by apply G].
    + intros (w & Hw & Hin)%list_elem_of_fmap. apply G. by destruct w.
Qed.

Lemma joined_insert c i w w' (ws : list worker) :
  joined c ws <= length ws -> Forall (eq Gone) (take (joined c ws) ws) -> ws !! i = Some w -> w <> Gone ->
  joined c (<[i := w']> ws) <= length (<[i := w']> ws) /\ Forall (eq Gone) (take (joined c (<[i := w']> ws)) (<[i := w']> ws)).
Proof.
  intros Hle Hg Hi Hw. assert (joined c (<[i := w']> ws) = joined c ws) as -> by (destruct c; cbn; by rewrite ?length_insert).
  rewrite length_insert. split; [done|]. rewrite take_insert_ge; [done|].
  destruct (Nat.le_gt_cases (joined c ws) i) as [|Hlt]; [done|]. exfalso. apply Hw. symmetry.
  rewrite Forall_lookup in Hg. apply (Hg i). by rewrite lookup_take_lt.
Qed.

Lemma join_step s t : good s -> step s t ->
  match caller t with JoinWorker _ | Returned => Asleep ∉ workers_ t | _ => True end /\
  0 < length (workers_ t) /\
  joined (caller t) (workers_ t) <= length (workers_ t) /\ Forall (eq Gone) (take (joined (caller t) (workers_ t)) (workers_ t)).
Proof.
  intros [C B P E A G W L [J1 J2]] Hs.
  destruct Hs; cbn -[total joined] in *; (split; [|split; [by rewrite ?length_insert, ?length_map|]]); try done.
  all: try (eapply joined_insert; [exact J1|exact J2|eassumption|discriminate]).
  all: try (destruct c; try done; (intros [E'|?]%insert_elem; [repeat case_match; discriminate E'|by apply W])).
  - destruct c; cbn in P; intuition congruence.
  - intros (w & Hw & _)%list_elem_of_fmap. by destruct w.
  - cbn. split; [lia|constructor].
  - cbn in *. match goal with H : _ !! _ = Some Gone |- _ => rename H into Hi end.
    split; [apply lookup_lt_Some in Hi; lia|]. rewrite (take_S_r _ _ Gone) by done.
    apply Forall_app. split; [done|by apply Forall_singleton].
Qed.

Lemma shutdown_step_good s t : good s -> step s t -> good t.
Proof.
  intros Gs Hs. destruct (phase_step s t Gs Hs), (count_step s t Gs Hs), (wakeups_step s t Gs Hs), (join_step s t Gs Hs) as (? & ? & ?).
  by split.
Qed.
Lemma shutdown_spurious_good s t : good s -> step_or_spurious s t -> good t.
Proof.
  intros Gs Hs. destruct Hs as [s t Hs|r st q m l i ws c Hi|r st q m ws c]; [by apply (shutdown_step_good s)| |].
  - destruct Gs as [C B P E A G W L J]. split; cbn -[total] in *; rewrite ?length_insert; try done.
    + count busy. lia.
    + intros Hq. destruct (A Hq); [by left|right]. apply awake_insert; congruence.
    + intros [?|?]%insert_elem; [discriminate|by apply G].
    + destruct c; try done; (intros [?|?]%insert_elem; [discriminate|by apply W]).
    + destruct J as [J1 J2]. destruct (joined_insert c i Asleep Idle ws J1 J2 Hi ltac:(done)) as [K1 K2].
      rewrite length_insert in K1. by split.
  - destruct Gs as [C B P E A G W L J]. split; cbn in *; try done.
    + destruct c; cbn in *; intuition congruence.
    + intros Hq. destruct (A Hq) as [[? ?]|?]; [discriminate|by right].
Qed.
Lemma shutdown_reached_good s : reached s -> good s.
Proof.
  intros (n & H). remember (start n) as s0 eqn:E0. pose proof (shutdown_start_good n) as G. rewrite <- E0 in G. clear E0.
  induction H as [|s0 s1 s2 H1 H2 IH]; [done|]. apply IH. by apply (shutdown_spurious_good s0).
Qed.

(** ** Going on until [Stop] returns *)

(** The loop waits for a notification that was sent before it slept
    ([ProbeRunner.Pool.lost_wakeup]). *)
Definition lost (s : state) : Prop := loop s = Sleeping /\ remaining s = 0 /\ Notifying ∉ workers_ s.

Lemma worker_goes_on r st q m l c ws i w :
  ws !! i = Some w -> w = Idle \/ w = Running \/ w = Notifying -> exists t, step (mkState r st q m l ws c) t.
Proof.
  intros Hi Hw. destruct Hw as [Hw|[Hw|Hw]]; subst w.
  - destruct q; [destruct st|]; eexists; [by apply (returns _ _ _ i)|by apply (falls_asleep _ _ _ i)|by apply (takes _ _ _ _ _ i)].
  - eexists. by apply (finishes _ _ _ _ _ i).
  - eexists. by apply (wakes_loop _ _ _ _ _ i).
Qed.

Lemma loop_goes_on s : good s -> loop s <> Ended -> (exists t, step s t) \/ lost s.
Proof.
  intros [C B P E A G W L J] Hl. destruct s as [r st q m l ws c]. cbn -[total] in *.
  destruct l as [|n|n| | | | |]; try done; try (left; eexists; by constructor).
  - left. destruct r; eexists; [apply empty_cycle|apply leaves].
  - left. destruct n; [eexists; apply submitted|]. destruct st; eexists; [apply drops|apply submits].
  - left. destruct (decide (Asleep ∈ ws)) as [[i Hi]%list_elem_of_lookup|Hn]; eexists; [by apply (notifies _ _ _ _ _ i)|by apply notifies_nobody].
  - destruct (decide (Notifying ∈ ws)) as [[i Hi]%list_elem_of_lookup|Hn]; [left; eapply worker_goes_on; [exact Hi|auto]|].
    destruct (decide (m = 0)) as [->|Hm]; [by right|]. left.
    destruct (decide (0 < total busy ws)) as [[i Hi]%total_busy_in|Hb]; [eapply worker_goes_on; [exact Hi|auto]|].
    assert (0 < q) as Hq by (cbn [left_to_submit] in C; lia).
    destruct (A Hq) as [[? ?]|(w & [i Hi]%list_elem_of_lookup & Hw)%Exists_exists]; [discriminate|].
    eapply worker_goes_on; [exact Hi|]. destruct w; auto; [done|].
    rewrite (G (list_elem_of_lookup_2 _ _ _ Hi)) in P. destruct c; cbn in P; intuition congruence.
Qed.
Lemma stop_goes_on s : good s -> caller s <> NotCalled -> caller s <> Returned -> (exists t, step s t) \/ lost s.
Proof.
  intros Gs Hc Hr. destruct (decide (loop s = Ended)) as [Hl|Hl]; [|by apply loop_goes_on].
  left. destruct Gs as [C B P E A G W L J]. destruct s as [r st q m l ws c]. cbn -[total] in *. subst l.
  destruct c as [| | | |i|]; try done; try (eexists; by constructor).
  destruct (ws !! i) as [w|] eqn:Hi.
  - destruct (decide (w = Gone)) as [->|Hg]; [eexists; by apply joins_worker|].
    eapply worker_goes_on; [exact Hi|]. destruct w; auto; [|done]. exfalso. by apply W, (list_elem_of_lookup_2 _ i).
  - apply lookup_ge_None_1 in Hi. assert (i = length ws) as -> by (destruct J; cbn in *; lia). eexists. apply clears.
Qed.

Lemma stopping_rank k s t : nsteps step k s t -> s_running s = false -> k + rank t <= rank s.
Proof.
  induction 1 as [s|k s t u Hs H IH]; intros Hr; [lia|]. destruct (shutdown_step_rank s t Hs Hr) as [Hr' Hlt]. specialize (IH Hr'). lia.
Qed.
Lemma good_steps s t : rtc step s t -> good s -> good t.
Proof. induction 1 as [|s t u Hs H IH]; intros Gs; [done|]. by apply IH, (shutdown_step_good s). Qed.
Lemma called_step s t : step s t -> caller s <> NotCalled -> caller t <> NotCalled.
Proof. by destruct 1. Qed.
Lemma called_steps s t : rtc step s t -> caller s <> NotCalled -> caller t <> NotCalled.
Proof. induction 1 as [|s t u Hs H IH]; intros Hc; [done|]. by apply IH, (called_step s). Qed.
Lemma called_stopped s : good s -> caller s <> NotCalled -> s_running s = false.
Proof. intros [_ _ P _ _ _ _ _ _] Hc. destruct (caller s); cbn in P; tauto. Qed.
Lemma stopped_ended s : good s -> stop_ s = true -> loop s = Ended.
Proof. intros [_ _ P _ _ _ _ _ _] Hc. rewrite Hc in P. destruct (caller s); cbn in P; intuition congruence. Qed.

(** Without a spurious wakeup the loop sleeps for ever. *)
Lemma lost_step s t : good s -> lost s -> step s t -> lost t.
Proof.
  intros [C B P E A G W L J] (Hl & Hm & Hn) Hs. destruct Hs; cbn -[total] in *; try discriminate Hl; try done; try lia.
  - split_and!; [done..|]. intros [?|?]%insert_elem; done.
  - split_and!; [done..|]. intros [?|?]%insert_elem; done.
  - match goal with H : ws !! i = Some Running |- _ => pose proof (total_insert busy ws i Running Idle H) as T end.
    cbn in T. lia.
  - exfalso. eapply Hn, list_elem_of_lookup_2. eassumption.
  - destruct P as (_ & _ & El). congruence.
Qed.
Lemma lost_for_ever s t : good s -> lost s -> rtc step s t -> lost t /\ caller t <> Returned.
Proof.
  intros Gs Hl H. assert (good t /\ lost t) as [Gt Ht].
  { induction H as [|s t u Hs H IH]; [done|]. apply IH; [by apply (shutdown_step_good s)|by apply (lost_step s)]. }
  split; [done|]. intros Er. destruct Gt as [_ _ P _ _ _ _ _ _]. rewrite Er in P. destruct P as (_ & _ & El), Ht as (Hs & _). congruence.
Qed.

(** Claim C22: stopping the probe runner.  Once [Stop] was called, under every
    interleaving of the loop, the workers and the caller, only a bounded number
    of steps is left; the pool is stopped only after the loop has ended, so that
    no task of a cycle under way is dropped; and the program goes on until
    [Stop] has returned with the loop ended, every submitted task run and every
    worker thread returned, unless the loop lost the wakeup of a cycle, in which case
    it sleeps for ever and [Stop] never returns (unless the condition variable
    wakes it spuriously). *)
Theorem Stop_completes (s : state) :
  reached s -> caller s <> NotCalled ->
  (forall k t, nsteps step k s t -> k <= rank s) /\
  (forall t, rtc step s t ->
    (stop_ t = true -> loop t = Ended) /\
    (lost t -> forall u, rtc step t u -> lost u /\ caller u <> Returned) /\
    (caller t = Returned -> loop t = Ended /\ tasks_ t = 0 /\ remaining t = 0 /\
       0 < length (workers_ t) /\ Forall (eq Gone) (workers_ t)) /\
    ((exists u, step t u) \/ lost t \/ caller t = Returned)).
Proof.
  intros Hr Hc. pose proof (shutdown_reached_good s Hr) as Gs. split.
  - intros k t H. pose proof (stopping_rank k s t H (called_stopped s Gs Hc)). lia.
  - intros t H. pose proof (good_steps s t H Gs) as Gt. split; [by apply stopped_ended|].
    split; [intros Hl u; by apply lost_for_ever|]. split.
    + intros Er. destruct Gt as [C B P _ _ _ _ L [_ J]]. rewrite Er in P, J. destruct P as (_ & _ & El). cbn in J.
      rewrite take_ge in J by done. rewrite El in B, C. specialize (B I). split_and!; [done|lia|done..].
    + destruct (decide (caller t = Returned)) as [Er|Er]; [auto|].
      destruct (stop_goes_on t Gt (called_steps s t H Hc) Er) as [?|?]; auto.
Qed.

(** *** Witnesses *)
Lemma shutdown_reached_step s t : reached s -> step s t -> reached t.
Proof. intros (n & H) Hs. exists n. eapply rtc_r; [exact H|by apply a_step]. Defined.

(** One worker that sleeps, and [Stop] right after [Start]. *)
Definition demo_stopping : state := mkState false false 0 0 Condition [Asleep] JoinLoop.
Lemma demo_stopping_reached : reached demo_stopping.
Proof.
  eapply shutdown_reached_step; [|apply called]. eapply shutdown_reached_step; [|by apply (falls_asleep true 0 Condition 0 [Idle])].
  exists 1. apply rtc_refl.
Defined.
Lemma Stop_completes_witness :
  (forall k t, nsteps step k demo_stopping t -> k <= 8) /\
  exists t, rtc step demo_stopping t /\ caller t = Returned.
Proof.
  split; [exact (proj1 (Stop_completes demo_stopping demo_stopping_reached ltac:(discriminate)))|].
  eexists. split; [|shelve]. unfold demo_stopping.
  eapply rtc_l; [apply leaves|]. eapply rtc_l; [apply joins_loop|]. eapply rtc_l; [apply sets_stop|].
  eapply rtc_l; [apply notifies_all|]. eapply rtc_l; [by apply (returns _ _ _ 0)|].
  eapply rtc_l; [by apply joins_worker|]. eapply rtc_l; [apply (clears _ _ _ _ _ [Gone])|]. apply rtc_refl.
  Unshelve. reflexivity.
Defined.

(** The wakeup of a cycle is lost, and then [Stop] is called: nothing moves. *)
Definition demo_hung : state := mkState false false 0 0 Sleeping [Asleep] JoinLoop.
Theorem Stop_can_hang : reached demo_hung /\ lost demo_hung /\ forall t, ~ step demo_hung t.
Proof.
  split; [|split; [split_and!; [done|done|by intros ?%list_elem_of_singleton]|]].
  - eapply shutdown_reached_step; [|apply called]. eapply shutdown_reached_step; [|by apply (falls_asleep true 0 Sleeping 0 [Idle])].
    eapply shutdown_reached_step; [|apply sleeps]. eapply shutdown_reached_step; [|by apply (wakes_loop true false 0 0 Falling 0 [Notifying])].
    eapply shutdown_reached_step; [|by apply (finishes true false 0 1 Falling 0 [Running])].
    eapply shutdown_reached_step; [|by apply (takes true false 0 1 Falling 0 [Idle])].
    eapply shutdown_reached_step; [|apply tests]. eapply shutdown_reached_step; [|apply submitted].
    eapply shutdown_reached_step; [|apply notifies_nobody; by intros ?%list_elem_of_singleton].
    eapply shutdown_reached_step; [|apply submits]. eapply shutdown_reached_step; [|apply next_cycle]. exists 1. apply rtc_refl.
  - intros t Hs. inversion Hs; subst; match goal with H : [Asleep] !! ?i = _ |- _ => by destruct i as [|[]] end.
Qed.
End Shutdown.
