(* ===== verification/AgentMain.v ===== *)
(** * AgentMain: failover and the agent's main loop

    [Failover] models [agent/src/metrics/failover_client.cpp]; [Client] the
    answers of [metrics_client.cpp]; [MainLoop] the loop of [RunAgent] in
    [agent/src/main.cpp]: heartbeats, the bounded memory buffer, spilling to
    disk, sending, draining the disk and the backpressure interval.  The
    collector connection is the interface [Uplink], the disk queue the
    interface [SpillStore]; random trace ids and log lines are left out. *)
From stdpp Require Import base gmap strings list.
From Stdlib Require Import ZArith Lia.
From S2P Require Import Prelude Proto DiskBuffer.
Import Str.
#[local] Open Scope string_scope.
#[local] Open Scope list_scope.

Module Failover.
Definition kMaxStrikes : Z := 3.

Record client : Type := mkClient {
  m_endpoints : list string;
  m_current : nat;
  m_strikes : Z;
  m_failovers : Z;
}.

Definition FailoverClient (endpoints : list string) : client :=
  mkClient (match endpoints with [] => ["localhost:50051"] | _ => endpoints end) 0 0 0.

(** [None] would be an out-of-range access. *)
Definition CurrentEndpoint (c : client) : option string := m_endpoints c !! m_current c.

(** The flag tells that the client moved to the next endpoint. *)
Definition OnSendFailure (c : client) : bool * client :=
  let strikes := (m_strikes c + 1)%Z in
  if (strikes <? kMaxStrikes)%Z then
    (false, mkClient (m_endpoints c) (m_current c) strikes (m_failovers c))
  else
    (true, mkClient (m_endpoints c) (Nat.modulo (m_current c + 1) (length (m_endpoints c))) 0
             (Int.u64 (m_failovers c + 1))).

Definition OnSendSuccess (c : client) : client :=
  mkClient (m_endpoints c) (m_current c) 0 (m_failovers c).

Definition FailoverCount (c : client) : Z := m_failovers c.
Definition EndpointCount (c : client) : nat := length (m_endpoints c).

Record good (c : client) : Prop := {
  good_current : (m_current c < length (m_endpoints c))%nat;
  good_strikes : (0 <= m_strikes c < kMaxStrikes)%Z;
}.

Lemma good_new l : good (FailoverClient l).
Proof. split; destruct l; simpl; unfold kMaxStrikes; lia. Qed.

Lemma good_failure c : good c -> good (snd (OnSendFailure c)).
Proof.
  intros [H1 H2]. unfold OnSendFailure, kMaxStrikes in *. destruct (_ <? _)%Z eqn:E; bool_hyps; split; simpl;
    unfold kMaxStrikes; try lia.
  apply Nat.mod_upper_bound. lia.
Qed.

Lemma good_success c : good c -> good (OnSendSuccess c).
Proof. intros [H1 H2]. split; simpl; [done|unfold kMaxStrikes; lia]. Qed.

(** Preserved by both outcomes of a call. *)
Definition closed (Q : client -> Prop) : Prop :=
  forall c, Q c -> Q (OnSendSuccess c) /\ Q (snd (OnSendFailure c)).
Lemma good_closed : closed good.
Proof. intros c G. split; [by apply good_success|by apply good_failure]. Qed.
Lemma endpoints_closed l : closed (fun c => m_endpoints c = l /\ good c).
Proof.
  intros c [E G]. destruct (good_closed c G). split; (split; [|done]); [done|].
  unfold OnSendFailure. by destruct (_ <? _)%Z.
Qed.

Fixpoint failures (n : nat) (c : client) : client :=
  match n with O => c | S n' => failures n' (snd (OnSendFailure c)) end.

Lemma failures_add n m c : failures (n + m) c = failures m (failures n c).
Proof. revert c. induction n as [|n IH]; intros c; [done|]. apply IH. Qed.

Lemma three_failures c :
  m_strikes c = 0%Z ->
  failures 3 c = mkClient (m_endpoints c) (Nat.modulo (m_current c + 1) (length (m_endpoints c))) 0
                   (Int.u64 (m_failovers c + 1)).
Proof. destruct c as [l cur st f]. simpl. by intros ->. Qed.

Lemma failures_strikes_any n c :
  m_strikes c = 0%Z -> m_current c < length (m_endpoints c) ->
  m_current (failures (3 * n) c) = Nat.modulo (m_current c + n) (length (m_endpoints c)) /\
  m_endpoints (failures (3 * n) c) = m_endpoints c /\ m_strikes (failures (3 * n) c) = 0%Z.
Proof.
  revert c. induction n as [|n IH]; intros c Hs Hc.
  - simpl. rewrite Nat.add_0_r, Nat.mod_small by done. done.
  - replace (3 * S n) with (3 + 3 * n) by lia. rewrite failures_add, three_failures by done.
    destruct (IH (mkClient (m_endpoints c) (Nat.modulo (m_current c + 1) (length (m_endpoints c))) 0
                    (Int.u64 (m_failovers c + 1))) eq_refl) as (I1 & I2 & I3).
    { simpl. apply Nat.mod_upper_bound. lia. }
    rewrite I1, I2, I3. cbn [m_endpoints m_current]. split_and!; [|done..].
    rewrite Nat.Div0.add_mod_idemp_l. f_equal. lia.
Qed.

(** Failover visits every collector.  A client always has a current
    endpoint; it moves on exactly at the third failure in a row (a success
    starts the count again), to the next endpoint in cyclic order, so that
    three times as many consecutive failures as there are endpoints try each
    of them and return to the first. *)
Theorem failover_round_robin (c : client) (n : nat) :
  good c ->
  is_Some (CurrentEndpoint c) /\ good (snd (OnSendFailure c)) /\ good (OnSendSuccess c) /\
  (fst (OnSendFailure c) = true <-> m_strikes c = 2%Z) /\
  m_current (failures (3 * n) (OnSendSuccess c)) = Nat.modulo (m_current c + n) (EndpointCount c) /\
  m_current (failures (3 * EndpointCount c) (OnSendSuccess c)) = m_current c.
Proof.
  intros G. pose proof G as [H1 H2]. unfold EndpointCount.
  split_and!; [by apply lookup_lt_is_Some|by apply good_failure|by apply good_success| | |].
  - unfold OnSendFailure, kMaxStrikes in *. destruct (_ <? _)%Z eqn:E; bool_hyps; simpl; split; try done; lia.
  - apply (failures_strikes_any n (OnSendSuccess c)); done.
  - etransitivity; [apply (failures_strikes_any (length (m_endpoints c)) (OnSendSuccess c)); done|].
    simpl. rewrite <- (Nat.mul_1_l (length (m_endpoints c))) at 1.
    rewrite Nat.Div0.mod_add. by apply Nat.mod_small.
Qed.

Lemma failover_round_robin_witness :
  CurrentEndpoint (failures 4 (FailoverClient ["a:1"; "b:1"])) = Some "b:1" /\
  m_current (failures 6 (OnSendSuccess (FailoverClient ["a:1"; "b:1"]))) = 0%nat.
Proof.
  split; [reflexivity|].
  pose proof (failover_round_robin (FailoverClient ["a:1"; "b:1"]) 2 (good_new _)) as T.
  apply (proj2 (proj2 (proj2 (proj2 (proj2 T))))).
Defined.
End Failover.

Module Client.
(** A trailing metadata entry of the answer that signals overload. *)
Definition overloaded (trailing : list (string * string)) : bool :=
  existsb (fun md => String.eqb (fst md) "x-overloaded" && String.eqb (snd md) "true") trailing.

(** [SendBatch] and [StreamMetrics]: the result and [m_backpressure]. *)
Definition SendResult (status : Status) (resp : MetricsResponse) (trailing : list (string * string))
    : bool * bool :=
  if bool_decide (st_code status = OK) then (r_ack resp, overloaded trailing) else (false, false).

(** [SendHeartbeat]: any OK status counts. *)
Definition SendHeartbeat (status : Status) : bool := bool_decide (st_code status = OK).

(** The request of [SendHeartbeat] at clock reading [now]. *)
Definition heartbeat_request (now : Z) (node_id version diagnostic_endpoint : string) (interval_ms : Z)
    : HeartbeatRequest :=
  mkHeartbeat node_id now interval_ms version diagnostic_endpoint.
End Client.

(** The collectors as the main loop sees them: what a heartbeat, a unary batch
    and a stream of metrics (for an agent id) sent to an endpoint answer; the
    second flag is [BackpressureSignalled].  [received] lists the metrics of
    the acknowledged batches and streams. *)
Class Uplink (W : Type) : Type := {
  heartbeat : string -> W -> bool * W;
  send_batch : string -> MetricsBatch -> W -> bool * bool * W;
  stream_metrics : string -> string -> list Metric -> W -> bool * bool * W;
}.
Class UplinkLaws (W : Type) `{Uplink W} : Type := {
  received : W -> list (list Metric);
  heartbeat_received ep w : received (snd (heartbeat ep w)) = received w;
  batch_received ep b w :
    received (snd (send_batch ep b w)) =
    if fst (fst (send_batch ep b w)) then received w ++ [b_metrics b] else received w;
  stream_received ep agent ms w :
    received (snd (stream_metrics ep agent ms w)) =
    if fst (fst (stream_metrics ep agent ms w)) then received w ++ [ms] else received w;
}.

Module MainLoop.
Record config : Type := mkConfig {
  node_id : string;
  interval_ms : Z;
  max_buffer_size : Z;
  use_stream_metrics : bool;
}.

Section MainLoop.
Context {S W : Type} `{SpillStore S, Uplink W}.
Variable serialize : MetricsBatch -> option string.     (* SerializeToString *)
Variable parse : string -> option MetricsBatch.         (* ParseFromString *)
Variable cfg : config.

Record state : Type := mkState {
  buffer : list MetricsBatch;
  disk_buffer : S;
  failover : Failover.client;
  collector : W;
  current_interval_ms : Z;
  backpressure : bool;
  last_heartbeat : Z;
  last_send_attempt : Z;
  buffer_drops : Z;
  disk_spills : Z;
  disk_drained_total : Z;
}.

Definition set_buffer (b : list MetricsBatch) (s : state) : state :=
  mkState b (disk_buffer s) (failover s) (collector s) (current_interval_ms s) (backpressure s)
    (last_heartbeat s) (last_send_attempt s) (buffer_drops s) (disk_spills s) (disk_drained_total s).
Definition set_disk (d : S) (s : state) : state :=
  mkState (buffer s) d (failover s) (collector s) (current_interval_ms s) (backpressure s)
    (last_heartbeat s) (last_send_attempt s) (buffer_drops s) (disk_spills s) (disk_drained_total s).
Definition set_link (f : Failover.client) (w : W) (s : state) : state :=
  mkState (buffer s) (disk_buffer s) f w (current_interval_ms s) (backpressure s)
    (last_heartbeat s) (last_send_attempt s) (buffer_drops s) (disk_spills s) (disk_drained_total s).
Definition set_pace (i : Z) (bp : bool) (s : state) : state :=
  mkState (buffer s) (disk_buffer s) (failover s) (collector s) i bp
    (last_heartbeat s) (last_send_attempt s) (buffer_drops s) (disk_spills s) (disk_drained_total s).
Definition set_times (hb snd : Z) (s : state) : state :=
  mkState (buffer s) (disk_buffer s) (failover s) (collector s) (current_interval_ms s) (backpressure s)
    hb snd (buffer_drops s) (disk_spills s) (disk_drained_total s).
Definition count (drops spills drained : Z) (s : state) : state :=
  mkState (buffer s) (disk_buffer s) (failover s) (collector s) (current_interval_ms s) (backpressure s)
    (last_heartbeat s) (last_send_attempt s) (Int.u64 (buffer_drops s + drops))
    (Int.u64 (disk_spills s + spills)) (Int.u64 (disk_drained_total s + drained)).

(** The endpoint of the current clients: they are rebuilt at every failover. *)
Definition endpoint (s : state) : string :=
  match Failover.CurrentEndpoint (failover s) with Some ep => ep | None => "" end.

(** A batch sent by unary call, or its metrics streamed for an agent id. *)
Definition send (agent_id : string) (b : MetricsBatch) (s : state) : bool * bool * W :=
  if use_stream_metrics cfg then stream_metrics (endpoint s) agent_id (b_metrics b) (collector s)
  else send_batch (endpoint s) b (collector s).

(** The heartbeat of one iteration. *)
Definition beat (now : Z) (s : state) : state :=
  if (current_interval_ms s <=? now - last_heartbeat s)%Z then
    let s := set_times now (last_send_attempt s) s in
    let '(hb_ok, w) := heartbeat (endpoint s) (collector s) in
    set_link (if hb_ok then Failover.OnSendSuccess (failover s)
              else snd (Failover.OnSendFailure (failover s))) w s
  else s.

(** One round of "while (buffer.size() > max_buffer_size)" on the front. *)
Definition evict (dropped : MetricsBatch) (rest : list MetricsBatch) (s : state) : state :=
  let s := set_buffer rest s in
  match (if available (disk_buffer s) then serialize dropped else None) with
  | Some blob =>
      let '(pushed, d) := push blob (disk_buffer s) in
      if pushed then count 0 1 0 (set_disk d s) else count 1 0 0 (set_disk d s)
  | None => count 1 0 0 s
  end.

(** The eviction loop; popping an empty deque is undefined, and is reached
    only with a negative bound. *)
Fixpoint evict_loop (l : list MetricsBatch) (s : state) : state :=
  match l with
  | [] => s
  | b :: rest =>
      if (max_buffer_size cfg <? Z.of_nat (length l))%Z then evict_loop rest (evict b rest s) else s
  end.

(** A fresh batch enters the buffer. *)
Definition admit_batch (s : state) (b : MetricsBatch) : state :=
  let s := set_buffer (buffer s ++ [b]) s in evict_loop (buffer s) s.

Definition absorb (fresh : list MetricsBatch) (s : state) : state := fold_left admit_batch fresh s.

Definition should_send (now : Z) (fresh : list MetricsBatch) (s : state) : bool :=
  match buffer s with
  | [] => false
  | _ =>
      negb (match fresh with [] => true | _ => false end) ||
      Nat.ltb 1 (length (buffer s)) ||
      (current_interval_ms s <=? now - last_send_attempt s)%Z
  end.

(** The "for (i < 10 && disk_buffer.Size() > 0)" loop. *)
Fixpoint drain_disk (n : nat) (s : state) : state :=
  match n with
  | O => s
  | Datatypes.S n' =>
      let '(size, d) := stored (disk_buffer s) in
      let s := set_disk d s in
      if (size <=? 0)%Z then s
      else
        let '(blobs, d) := peek 1 (disk_buffer s) in
        let s := set_disk d s in
        match blobs with
        | [] => s
        | blob :: _ =>
            match parse blob with
            | None => drain_disk n' (count 0 0 1 (set_disk (pop 1 (disk_buffer s)) s))
            | Some pb =>
                let '(d_ok, _, w) := send (b_agent_id pb) pb s in
                let s := set_link (failover s) w s in
                if d_ok then drain_disk n' (count 0 0 1 (set_disk (pop 1 (disk_buffer s)) s)) else s
            end
        end
  end.

Definition kMaxBatchesPerCycle : nat := 8.

Fixpoint send_loop (now : Z) (n : nat) (s : state) : state :=
  match n, buffer s with
  | O, _ => s
  | _, [] => s
  | Datatypes.S n', to_send :: rest =>
      let s := set_times (last_heartbeat s) now s in
      let '(ok, overloaded, w) := send (node_id cfg) to_send s in
      if ok then
        let s := set_link (Failover.OnSendSuccess (failover s)) w (set_buffer rest s) in
        let s := set_pace (current_interval_ms s) overloaded s in
        send_loop now n' (drain_disk 10 s)
      else set_link (snd (Failover.OnSendFailure (failover s))) w s
  end.

Definition pace (s : state) : state :=
  if backpressure s then
    set_pace (Z.min (Int.to_int32 (current_interval_ms s * 2)) (Int.to_int32 (interval_ms cfg * 10))) true s
  else set_pace (interval_ms cfg) false s.

(** One iteration at clock reading [now], with what the probes delivered. *)
Definition iterate (now : Z) (fresh : list MetricsBatch) (s : state) : state :=
  let s := absorb fresh (beat now s) in
  let s := if should_send now fresh s then
             send_loop now (if Nat.ltb 1 (length (buffer s)) then kMaxBatchesPerCycle else 1) s
           else s in
  pace s.

Definition start (now : Z) (d : S) (f : Failover.client) (w : W) : state :=
  mkState [] d f w (interval_ms cfg) false (now - interval_ms cfg) (now - interval_ms cfg) 0 0 0.

Definition run (inputs : list (Z * list MetricsBatch)) (s : state) : state :=
  fold_left (fun s i => iterate (fst i) (snd i) s) inputs s.

(** *** Nothing is lost silently *)
Section Laws.
Context `{!SpillStoreLaws S, !UplinkLaws W}.
Hypothesis parse_serialize : forall b x, serialize b = Some x -> parse x = Some b.

(** The metrics of the batches stored in serialised form. *)
Definition stored_metrics (l : list string) : list (list Metric) := map b_metrics (omap parse l).
(** Where the metrics of a batch can be: acknowledged by a collector, in
    memory, on disk. *)
Definition held (s : state) : list (list Metric) :=
  received (collector s) ++ map b_metrics (buffer s) ++ stored_metrics (contents (disk_buffer s)).

Lemma stored_metrics_app l1 l2 : stored_metrics (l1 ++ l2) = stored_metrics l1 ++ stored_metrics l2.
Proof. unfold stored_metrics. by rewrite omap_app, map_app. Qed.

Lemma send_received agent b s :
  received (snd (send agent b s)) =
  if fst (fst (send agent b s)) then received (collector s) ++ [b_metrics b] else received (collector s).
Proof. unfold send. destruct (use_stream_metrics cfg); [apply stream_received|apply batch_received]. Qed.

(** From [s] to [s'] the batches [new] arrived, [gained] were acknowledged
    (those [again], whose removal from the disk failed, are still there as
    well), [lost] were dropped and counted in [buffer_drops], and [trimmed] were
    deleted by a disk queue that was over its budget. *)
Definition conserves (new : list MetricsBatch) (s s' : state) : Prop :=
  exists gained again lost trimmed : list (list Metric),
    received (collector s') = received (collector s) ++ gained /\ again ⊆+ gained /\
    held s ++ map b_metrics new ++ again ≡ₚ held s' ++ lost ++ trimmed /\
    buffer_drops s' = Int.u64 (buffer_drops s + Z.of_nat (length lost)) /\
    (roomy (disk_buffer s) -> trimmed = [] /\ roomy (disk_buffer s')).

Definition counter_ok (s : state) : Prop := Int.u64 (buffer_drops s) = buffer_drops s.

(** Nothing but these four matters. *)
Lemma conserves_same s s' :
  counter_ok s -> received (collector s') = received (collector s) -> buffer s' = buffer s ->
  contents (disk_buffer s') = contents (disk_buffer s) ->
  (roomy (disk_buffer s) -> roomy (disk_buffer s')) -> buffer_drops s' = buffer_drops s -> conserves [] s s'.
Proof.
  intros C Er Eb Ed Hr En. exists [], [], [], []. cbn [map length]. rewrite !app_nil_r, Z.add_0_r, C.
  unfold held. rewrite Er, Eb, Ed. by split_and!; [..|auto].
Qed.

Lemma conserves_trans n1 n2 s1 s2 s3 :
  conserves n1 s1 s2 -> conserves n2 s2 s3 -> conserves (n1 ++ n2) s1 s3.
Proof.
  intros (g1 & a1 & l1 & t1 & R1 & A1 & P1 & D1 & T1) (g2 & a2 & l2 & t2 & R2 & A2 & P2 & D2 & T2).
  exists (g1 ++ g2), (a1 ++ a2), (l1 ++ l2), (t1 ++ t2). split_and!.
  - by rewrite R2, R1, app_assoc.
  - by apply submseteq_app.
  - rewrite map_app. perm.
  - rewrite D2, D1. unfold Int.u64. rewrite Zplus_mod_idemp_l, length_app. f_equal. lia.
  - intros Hr. destruct (T1 Hr) as [-> Hr2], (T2 Hr2) as [-> Hr3]. done.
Qed.

Lemma conserves_counter n s s' : conserves n s s' -> counter_ok s'.
Proof.
  intros (g & a & l & t & _ & _ & _ & D & _). unfold counter_ok. rewrite D. unfold Int.u64. by rewrite Z.mod_mod.
Qed.

Lemma beat_conserves now s : counter_ok s -> conserves [] s (beat now s).
Proof.
  intros C. unfold beat. destruct (_ <=? _)%Z; [|by apply conserves_same].
  cbv zeta. set (s1 := set_times now (last_send_attempt s) s).
  pose proof (heartbeat_received (endpoint s1) (collector s1)) as Hr.
  destruct (heartbeat (endpoint s1) (collector s1)) as [ok w]. by apply conserves_same.
Qed.

Lemma evict_conserves b rest s :
  counter_ok s -> buffer s = b :: rest -> conserves [] s (evict b rest s).
Proof.
  intros C Hb. unfold evict.
  assert (Hdrop : forall d k, contents d = drop k (contents (disk_buffer s)) ->
    (roomy (disk_buffer s) -> k = 0 /\ roomy d) -> conserves [] s (count 1 0 0 (set_disk d (set_buffer rest s)))).
  { intros d k Ed Hk. exists [], [], [b_metrics b], (stored_metrics (take k (contents (disk_buffer s)))).
    split_and!; [by rewrite app_nil_r|done| |done|intros Hr; by destruct (Hk Hr) as [-> ?]].
    unfold held. cbn. rewrite Hb, Ed. rewrite <- (take_drop k (contents (disk_buffer s))) at 1.
    rewrite stored_metrics_app. cbn [map]. perm. }
  destruct (if available (disk_buffer _) then _ else _) as [blob|] eqn:Es; [|by apply (Hdrop (disk_buffer s) 0)].
  cbn [disk_buffer set_buffer] in *.
  destruct (push_contents blob (disk_buffer s)) as (k & Ek & Hk). pose proof (push_roomy blob (disk_buffer s)) as Hr.
  destruct (push blob (disk_buffer s)) as [[] d]; cbn [fst snd] in *;
    [|apply (Hdrop d k); [by rewrite app_nil_r in Ek|auto]].
  destruct (available (disk_buffer s)); [|done]. apply parse_serialize in Es.
  exists [], [], [], (stored_metrics (take k (contents (disk_buffer s)))).
  split_and!; [by rewrite app_nil_r|done| |done|intros H1; rewrite (Hk H1); auto].
  unfold held. cbn [buffer collector disk_buffer set_buffer set_disk count].
  rewrite Ek, Hb. rewrite <- (take_drop k (contents (disk_buffer s))) at 1. rewrite !stored_metrics_app.
  assert (stored_metrics [blob] = [b_metrics b]) as -> by (unfold stored_metrics; cbn; by rewrite Es).
  cbn [map]. perm.
Qed.

Lemma evict_loop_conserves l s :
  counter_ok s -> buffer s = l -> conserves [] s (evict_loop l s).
Proof.
  revert s. induction l as [|b rest IH]; intros s C Hb; cbn [evict_loop]; [by apply conserves_same|].
  destruct (_ <? _)%Z; [|by apply conserves_same].
  pose proof (evict_conserves b rest s C Hb) as E.
  apply (conserves_trans [] [] s (evict b rest s) (evict_loop rest (evict b rest s)) E).
  apply IH; [by eapply conserves_counter|].
  unfold evict. destruct (if available (disk_buffer _) then _ else _); [|done]. by destruct (push _ _) as [[] ?].
Qed.

Lemma admit_conserves s b : counter_ok s -> conserves [b] s (admit_batch s b).
Proof.
  intros C. unfold admit_batch. apply (conserves_trans [b] [] s (set_buffer (buffer s ++ [b]) s)).
  - exists [], [], [], []. cbn [length]. rewrite Z.add_0_r, app_nil_r. split_and!; [done..| |done|done].
    unfold held. cbn. rewrite map_app. perm.
  - by apply evict_loop_conserves.
Qed.

Lemma absorb_conserves fresh s : counter_ok s -> conserves fresh s (absorb fresh s).
Proof.
  revert s. induction fresh as [|b rest IH]; intros s C; [by apply conserves_same|].
  pose proof (admit_conserves s b C) as A.
  apply (conserves_trans [b] rest s (admit_batch s b) (absorb rest (admit_batch s b)) A).
  apply IH. by eapply conserves_counter.
Qed.

(** Removing the head of the disk queue once a collector acknowledged it. *)
Lemma pop_conserves blob w f s :
  counter_ok s -> take 1 (contents (disk_buffer s)) = [blob] ->
  received w = received (collector s) ++ stored_metrics [blob] ->
  conserves [] s (count 0 0 1 (set_disk (pop 1 (disk_buffer s)) (set_link f w s))).
Proof.
  intros C Hhead Hw.
  exists (stored_metrics [blob]), (if decide (contents (pop 1 (disk_buffer s)) = contents (disk_buffer s)) then stored_metrics [blob] else []), [], [].
  split_and!; [exact Hw|destruct (decide _); [done|apply submseteq_nil_l]| |done|intros Hr; split; [done|by apply pop_roomy]].
  unfold held. cbn [collector buffer disk_buffer count set_disk set_link map]. rewrite Hw.
  destruct (decide _) as [E|E]; [rewrite E; perm|].
  destruct (pop_contents (disk_buffer s)) as [E'|E']; [done|]. rewrite E'.
  rewrite <- (take_drop 1 (contents (disk_buffer s))) at 1. rewrite Hhead, stored_metrics_app. perm.
Qed.

Lemma send_failed_conserves w f s :
  counter_ok s -> received w = received (collector s) -> conserves [] s (set_link f w s).
Proof. intros C Hw. by apply conserves_same. Qed.

Lemma drain_disk_conserves n s : counter_ok s -> conserves [] s (drain_disk n s).
Proof.
  revert s. induction n as [|n IH]; intros s C; cbn [drain_disk]; [by apply conserves_same|].
  destruct (stored_state (disk_buffer s)) as [P1 P2].
  destruct (stored (disk_buffer s)) as [size d]; cbn [fst snd] in P1, P2.
  destruct (size <=? 0)%Z; [by apply conserves_same|].
  cbn [disk_buffer set_disk]. destruct (peek_state 1 d) as [Q1 Q2].
  pose proof (peek_prefix d) as Q3.
  destruct (peek 1 d) as [blobs d']; cbn [fst snd] in Q1, Q2, Q3.
  fold (set_disk d s). fold (set_disk d' (set_disk d s)).
  assert (S2 : conserves [] s (set_disk d' (set_disk d s))) by (apply conserves_same; cbn; auto; congruence).
  set (s2 := set_disk d' (set_disk d s)) in *. pose proof (conserves_counter _ _ _ S2) as C2.
  destruct blobs as [|blob blobs]; [exact S2|].
  assert (Hhead : take 1 (contents (disk_buffer s2)) = [blob]).
  { cbn. rewrite Q1. destruct Q3 as [|Q3]; [done|].
    destruct (contents d) as [|x l]; [done|]. cbn in *. by simplify_eq. }
  assert (Hpop : forall w f, received w = received (collector s2) ++ stored_metrics [blob] ->
    conserves [] s (drain_disk n (count 0 0 1 (set_disk (pop 1 (disk_buffer s2)) (set_link f w s2))))).
  { intros w f Hw. pose proof (pop_conserves blob w f s2 C2 Hhead Hw) as S3.
    pose proof (conserves_trans [] [] _ _ _ S2 S3) as S4.
    eapply (conserves_trans [] [] _ _ _ S4), IH, conserves_counter, S4. }
  destruct (parse blob) as [pb|] eqn:Ep.
  - pose proof (send_received (b_agent_id pb) pb s2) as R.
    destruct (send _ _ _) as [[[] ov] w]; cbn [fst snd] in R.
    + apply Hpop. unfold stored_metrics. cbn. by rewrite Ep, R.
    + apply (conserves_trans [] [] _ _ _ S2). by apply send_failed_conserves.
  - apply (Hpop (collector s) (failover s)). unfold stored_metrics. cbn. by rewrite Ep, app_nil_r.
Qed.

Lemma send_loop_conserves now n s : counter_ok s -> conserves [] s (send_loop now n s).
Proof.
  revert s. induction n as [|n IH]; intros s C; cbn [send_loop]; [by apply conserves_same|].
  destruct (buffer s) as [|b rest] eqn:Eb; [by apply conserves_same|].
  set (s1 := set_times (last_heartbeat s) now s).
  pose proof (send_received (node_id cfg) b s1) as R.
  destruct (send _ _ _) as [[[] ov] w]; cbn [fst snd] in R.
  - set (s2 := set_pace _ ov _).
    change (collector s1) with (collector s) in R.
    assert (S2 : conserves [] s s2).
    { exists [b_metrics b], [], [], []. cbn [length]. rewrite Z.add_0_r, C.
      split_and!; [exact R|apply submseteq_nil_l| |done|done].
      unfold held. cbn. rewrite R, Eb. cbn. perm. }
    pose proof (conserves_counter _ _ _ S2) as C2.
    pose proof (conserves_trans [] [] _ _ _ S2 (drain_disk_conserves 10 s2 C2)) as S3.
    refine (conserves_trans [] [] _ _ _ S3 _). eapply IH, conserves_counter, S3.
  - by apply conserves_same.
Qed.

Lemma pace_conserves s : counter_ok s -> conserves [] s (pace s).
Proof. intros C. unfold pace. destruct (backpressure s); by apply conserves_same. Qed.

Lemma iterate_conserves now fresh s : counter_ok s -> conserves fresh s (iterate now fresh s).
Proof.
  intros C. unfold iterate.
  pose proof (beat_conserves now s C) as S1.
  pose proof (conserves_counter _ _ _ S1) as C1.
  pose proof (conserves_trans [] fresh _ _ _ S1 (absorb_conserves fresh _ C1)) as S2.
  cbv zeta. set (s2 := absorb fresh (beat now s)) in *.
  pose proof (conserves_counter _ _ _ S2) as C2.
  set (s3 := if should_send now fresh s2 then _ else s2).
  assert (S3 : conserves [] s2 s3).
  { unfold s3. destruct (should_send _ _ _); [by apply send_loop_conserves|by apply conserves_same]. }
  pose proof (conserves_trans _ _ _ _ _ S2 S3) as S4.
  pose proof (conserves_trans _ _ _ _ _ S4 (pace_conserves s3 (conserves_counter _ _ _ S3))) as S5.
  by rewrite !app_nil_r in S5.
Qed.

Lemma run_conserves inputs s : counter_ok s -> conserves (mjoin inputs.*2) s (run inputs s).
Proof.
  revert s. induction inputs as [|[now fresh] rest IH]; intros s C; [by apply conserves_same|].
  pose proof (iterate_conserves now fresh s C) as S1.
  refine (conserves_trans fresh (mjoin rest.*2) s (iterate now fresh s) (run rest (iterate now fresh s)) S1 _).
  apply IH. by eapply conserves_counter.
Qed.

End Laws.

(** *** What the calls preserve, the loop preserves *)
Section Preserved.
Variable P : W -> Prop.
Hypothesis P_heartbeat : forall ep w, P w -> P (snd (heartbeat ep w)).
Hypothesis P_batch : forall ep b w, P w -> P (snd (send_batch ep b w)).
Hypothesis P_stream : forall ep agent ms w, P w -> P (snd (stream_metrics ep agent ms w)).

Lemma send_preserves agent b s : P (collector s) -> P (snd (send agent b s)).
Proof. intros H1. unfold send. destruct (use_stream_metrics cfg); auto. Qed.

Lemma beat_preserves now s : P (collector s) -> P (collector (beat now s)).
Proof.
  intros H1. unfold beat. destruct (_ <=? _)%Z; [|done]. cbv zeta. set (s1 := set_times _ _ s).
  pose proof (P_heartbeat (endpoint s1) (collector s1) H1) as H2. by destruct (heartbeat _ _).
Qed.

Lemma evict_collector b rest s : collector (evict b rest s) = collector s.
Proof.
  unfold evict. destruct (if available (disk_buffer _) then _ else _); [|done]. by destruct (push _ _) as [[] ?].
Qed.
Lemma evict_loop_collector l s : collector (evict_loop l s) = collector s.
Proof.
  revert s. induction l as [|b rest IH]; intros s; [done|]. cbn [evict_loop].
  destruct (_ <? _)%Z; [|done]. by rewrite IH, evict_collector.
Qed.
Lemma absorb_collector fresh s : collector (absorb fresh s) = collector s.
Proof.
  revert s. induction fresh as [|b rest IH]; intros s; [done|]. cbn. rewrite IH. unfold admit_batch. cbv zeta.
  by rewrite evict_loop_collector.
Qed.

Lemma drain_disk_preserves n s : P (collector s) -> P (collector (drain_disk n s)).
Proof.
  revert s. induction n as [|n IH]; intros s Hs; [done|]. cbn [drain_disk].
  destruct (stored _) as [size d]. destruct (_ <=? _)%Z; [done|].
  destruct (peek _ _) as [blobs d']. destruct blobs as [|blob blobs]; [done|].
  destruct (parse blob) as [pb|]; [|by apply IH].
  match goal with |- context [send ?a ?b ?s'] => pose proof (send_preserves a b s' Hs) as Hw end.
  destruct (send _ _ _) as [[[] ov] w]; [by apply IH|done].
Qed.

Lemma send_loop_preserves now n s : P (collector s) -> P (collector (send_loop now n s)).
Proof.
  revert s. induction n as [|n IH]; intros s Hs; [done|]. cbn [send_loop].
  destruct (buffer s) as [|b rest]; [done|].
  match goal with |- context [send ?a ?b ?s'] => pose proof (send_preserves a b s' Hs) as Hw end.
  destruct (send _ _ _) as [[[] ov] w]; [|done]. by apply IH, drain_disk_preserves.
Qed.

Lemma iterate_preserves now fresh s : P (collector s) -> P (collector (iterate now fresh s)).
Proof.
  intros Hs. unfold iterate. cbv zeta. set (s2 := absorb fresh (beat now s)).
  assert (P (collector s2)) as H2 by (unfold s2; rewrite absorb_collector; by apply beat_preserves).
  unfold pace. destruct (backpressure _), (should_send _ _ _); cbn; auto using send_loop_preserves.
Qed.

Lemma run_preserves inputs s : P (collector s) -> P (collector (run inputs s)).
Proof. apply (fold_left_invariant (fun s => P (collector s))). intros s0 i. apply iterate_preserves. Qed.
End Preserved.

(** *** Bounds *)
Lemma evict_buffer b rest s : buffer (evict b rest s) = rest.
Proof.
  unfold evict. destruct (if available (disk_buffer _) then _ else _); [|done].
  by destruct (push _ _) as [[] ?].
Qed.

Definition within (s : state) : Prop := (Z.of_nat (length (buffer s)) <= max_buffer_size cfg)%Z.

Lemma evict_loop_within l s :
  (0 <= max_buffer_size cfg)%Z -> buffer s = l -> within (evict_loop l s) /\ suffix (buffer (evict_loop l s)) l.
Proof.
  intros Hm. revert s. induction l as [|b rest IH]; intros s Hb; cbn [evict_loop].
  - unfold within. rewrite Hb. split; [simpl; lia|done].
  - destruct (_ <? _)%Z eqn:E; bool_hyps.
    + destruct (IH (evict b rest s) (evict_buffer b rest s)) as [I1 I2]. split; [done|]. by apply suffix_cons_r.
    + unfold within. rewrite Hb. split; [lia|done].
Qed.

Lemma drain_disk_buffer n s : buffer (drain_disk n s) = buffer s.
Proof.
  revert s. induction n as [|n IH]; intros s; [done|]. cbn [drain_disk].
  destruct (stored _) as [size d]. destruct (_ <=? _)%Z; [done|].
  destruct (peek _ _) as [blobs d']. destruct blobs as [|blob blobs]; [done|].
  destruct (parse blob); [|by rewrite IH].
  destruct (send _ _ _) as [[[] ov] w]; [|done]. by rewrite IH.
Qed.

Lemma send_loop_suffix now n s : suffix (buffer (send_loop now n s)) (buffer s).
Proof.
  revert s. induction n as [|n IH]; intros s; cbn [send_loop]; [done|].
  destruct (buffer s) as [|b rest] eqn:Eb; [by rewrite Eb|].
  destruct (send _ _ _) as [[[] ov] w]; [|cbn; by rewrite Eb].
  etransitivity; [apply IH|]. rewrite drain_disk_buffer. cbn. by apply suffix_cons_r.
Qed.

(** What every part of an iteration but [pace] leaves alone. *)
Definition frame (s s' : state) : Prop :=
  current_interval_ms s' = current_interval_ms s /\
  (forall Q, Failover.closed Q -> Q (failover s) -> Q (failover s')).

#[local] Instance frame_preorder : PreOrder frame.
Proof. split; [by intros s|]. intros s1 s2 s3 [I1 G1] [I2 G2]. split; [congruence|]. intros Q HQ HQ1. by apply G2, G1. Qed.

Lemma evict_frame b rest s : frame s (evict b rest s).
Proof.
  unfold evict. destruct (if available (disk_buffer _) then _ else _); [|done].
  by destruct (push _ _) as [[] ?].
Qed.

Lemma evict_loop_frame l s : frame s (evict_loop l s).
Proof.
  revert s. induction l as [|b rest IH]; intros s; [done|]. cbn [evict_loop].
  destruct (_ <? _)%Z; [|done]. etransitivity; [apply evict_frame|apply IH].
Qed.

Lemma absorb_frame fresh s : frame s (absorb fresh s).
Proof.
  revert s. induction fresh as [|b rest IH]; intros s; [done|].
  etransitivity; [|apply IH]. unfold admit_batch. cbv zeta.
  exact (evict_loop_frame _ (set_buffer (buffer s ++ [b]) s)).
Qed.

Lemma drain_disk_frame n s : frame s (drain_disk n s).
Proof.
  revert s. induction n as [|n IH]; intros s; [done|]. cbn [drain_disk].
  destruct (stored _) as [size d]. destruct (_ <=? _)%Z; [done|].
  destruct (peek _ _) as [blobs d']. destruct blobs as [|blob blobs]; [done|].
  destruct (parse blob); [|by etransitivity; [|apply IH]].
  destruct (send _ _ _) as [[[] ov] w]; [|done]. by etransitivity; [|apply IH].
Qed.

Lemma send_loop_frame now n s : frame s (send_loop now n s).
Proof.
  revert s. induction n as [|n IH]; intros s; cbn [send_loop]; [done|].
  destruct (buffer s) as [|b rest]; [done|].
  destruct (send _ _ _) as [[[] ov] w].
  - etransitivity; [|apply IH]. etransitivity; [|apply drain_disk_frame].
    split; [done|]. intros Q HQ. cbn. apply HQ.
  - split; [done|]. intros Q HQ. cbn. apply HQ.
Qed.

Lemma beat_frame now s : frame s (beat now s).
Proof.
  unfold beat. destruct (_ <=? _)%Z; [|done]. cbv zeta. destruct (heartbeat _ _) as [ok w].
  split; [done|]. intros Q HQ. destruct ok; apply HQ.
Qed.

Lemma beat_buffer now s : buffer (beat now s) = buffer s.
Proof. unfold beat. destruct (_ <=? _)%Z; [|done]. cbv zeta. by destruct (heartbeat _ _). Qed.

Lemma absorb_within fresh s : (0 <= max_buffer_size cfg)%Z -> within s -> within (absorb fresh s).
Proof.
  intros Hm. revert s. induction fresh as [|b rest IH]; intros s Hs; [done|]. apply IH.
  by apply (evict_loop_within (buffer s ++ [b]) (set_buffer (buffer s ++ [b]) s)).
Qed.

Lemma within_suffix l s : suffix (buffer s) l -> (Z.of_nat (length l) <= max_buffer_size cfg)%Z -> within s.
Proof. intros H1 H2. apply suffix_length in H1. unfold within. lia. Qed.

Record bounded (s : state) : Prop := {
  bounded_buffer : within s;
  bounded_interval : (interval_ms cfg <= current_interval_ms s <= interval_ms cfg * 10)%Z;
  bounded_failover : Failover.good (failover s);
}.

Lemma pace_interval s :
  (0 < interval_ms cfg)%Z -> (interval_ms cfg * 20 < 2 ^ 31)%Z ->
  (interval_ms cfg <= current_interval_ms s <= interval_ms cfg * 10)%Z ->
  (interval_ms cfg <= current_interval_ms (pace s) <= interval_ms cfg * 10)%Z /\
  current_interval_ms (pace s) =
    if backpressure s then Z.min (current_interval_ms s * 2) (interval_ms cfg * 10) else interval_ms cfg.
Proof.
  intros H1 H2 H3. unfold pace.
  destruct (backpressure s); cbn [current_interval_ms set_pace]; [|lia].
  rewrite !Int.to_int32_small by (unfold Int.in_int32, Int.int32_min, Int.int32_max; lia). lia.
Qed.

Lemma iterate_interval now fresh s :
  (0 < interval_ms cfg)%Z -> (interval_ms cfg * 20 < 2 ^ 31)%Z ->
  (interval_ms cfg <= current_interval_ms s <= interval_ms cfg * 10)%Z ->
  current_interval_ms (iterate now fresh s) =
    if backpressure (iterate now fresh s)
    then Z.min (current_interval_ms s * 2) (interval_ms cfg * 10) else interval_ms cfg.
Proof.
  intros H1 H2 H3. unfold iterate. cbv zeta.
  set (s2 := absorb fresh (beat now s)).
  assert (F : frame s s2) by (etransitivity; [apply beat_frame|apply absorb_frame]).
  set (s3 := if should_send now fresh s2 then _ else s2).
  assert (F3 : frame s s3).
  { unfold s3. destruct (should_send _ _ _); [|done]. etransitivity; [exact F|apply send_loop_frame]. }
  destruct F3 as [F1 F2].
  destruct (pace_interval s3) as [_ ->]; [done..|by rewrite F1|].
  rewrite F1. unfold pace. by destruct (backpressure s3).
Qed.

Lemma iterate_bounded now fresh s :
  (0 < interval_ms cfg)%Z -> (interval_ms cfg * 20 < 2 ^ 31)%Z -> (0 <= max_buffer_size cfg)%Z ->
  bounded s -> bounded (iterate now fresh s).
Proof.
  intros H1 H2 H3 [Hb Hi Hf]. unfold iterate. cbv zeta.
  set (s2 := absorb fresh (beat now s)).
  assert (F : frame s s2) by (etransitivity; [apply beat_frame|apply absorb_frame]).
  assert (Hb2 : within s2).
  { apply absorb_within; [done|]. unfold within. by rewrite beat_buffer. }
  set (s3 := if should_send now fresh s2 then _ else s2).
  assert (F3 : frame s s3).
  { unfold s3. destruct (should_send _ _ _); [|done]. etransitivity; [exact F|apply send_loop_frame]. }
  assert (Hb3 : within s3).
  { unfold s3. destruct (should_send _ _ _); [|done]. by eapply within_suffix, Hb2; apply send_loop_suffix. }
  destruct F3 as [F1 F2].
  destruct (pace_interval s3) as [P1 _]; [done..|by rewrite F1|].
  split; [|exact P1|]; unfold pace, within; destruct (backpressure s3); try done; by apply (F2 _ Failover.good_closed).
Qed.

Lemma run_failover Q inputs s : Failover.closed Q -> Q (failover s) -> Q (failover (run inputs s)).
Proof.
  intros HQ. apply (fold_left_invariant (fun s => Q (failover s))). intros s0 [now fresh] Hs0. cbn.
  unfold iterate. cbv zeta. set (s2 := absorb fresh (beat now s0)).
  assert (F : frame s0 s2) by (etransitivity; [apply beat_frame|apply absorb_frame]).
  set (s3 := if should_send now fresh s2 then _ else s2).
  assert (F3 : frame s0 s3).
  { unfold s3. destruct (should_send _ _ _); [|done]. etransitivity; [exact F|apply send_loop_frame]. }
  destruct F3 as [_ F3]. unfold pace. destruct (backpressure s3); exact (F3 Q HQ Hs0).
Qed.

(** The agent talks to the collectors it was given, and to no other. *)
Lemma run_endpoint inputs now d endpoints w :
  endpoint (run inputs (start now d (Failover.FailoverClient endpoints) w)) ∈
    match endpoints with [] => ["localhost:50051"] | _ => endpoints end.
Proof.
  set (l := match endpoints with [] => _ | _ => _ end).
  destruct (run_failover _ inputs (start now d (Failover.FailoverClient endpoints) w) (Failover.endpoints_closed l)) as [E G].
  { split; [done|apply Failover.good_new]. }
  unfold endpoint, Failover.CurrentEndpoint. rewrite E. destruct G as [G _]. rewrite E in G.
  destruct (lookup_lt_is_Some_2 _ _ G) as [ep Eep]. rewrite Eep. by apply list_elem_of_lookup_2 in Eep.
Qed.

(** The main loop stays within its bounds.  With a sane
    configuration, after any number of iterations the memory buffer holds at
    most [max_buffer_size] batches, the sending interval lies between the
    configured one and ten times it, the failover client points to an
    existing endpoint; the interval doubles (up to that cap) while the last
    acknowledged batch signalled overload and is the configured one as soon
    as it did not. *)
Theorem run_bounded (now : Z) (d : S) (endpoints : list string) (w : W)
    (inputs : list (Z * list MetricsBatch)) (t : Z) (fresh : list MetricsBatch) :
  (0 < interval_ms cfg)%Z -> (interval_ms cfg * 20 < 2 ^ 31)%Z -> (0 <= max_buffer_size cfg)%Z ->
  let s := run inputs (start now d (Failover.FailoverClient endpoints) w) in
  let s' := iterate t fresh s in
  (Z.of_nat (length (buffer s)) <= max_buffer_size cfg)%Z /\
  (interval_ms cfg <= current_interval_ms s <= interval_ms cfg * 10)%Z /\
  is_Some (Failover.CurrentEndpoint (failover s)) /\
  current_interval_ms s' =
    if backpressure s' then Z.min (current_interval_ms s * 2) (interval_ms cfg * 10) else interval_ms cfg.
Proof.
  intros H1 H2 H3 s s'.
  assert (B : bounded s).
  { unfold s, run. apply (fold_left_invariant bounded).
    - intros s0 i. by apply iterate_bounded.
    - split; [unfold within; simpl; lia|simpl; lia|apply Failover.good_new]. }
  destruct B as [B1 B2 [B3 _]]. refine (conj B1 (conj B2 (conj _ _))).
  - by apply lookup_lt_is_Some.
  - by apply iterate_interval.
Qed.
(** *** Once the collectors are back *)
Section Recovery.
(** A state of the world in which batches that are [fine] are acknowledged. *)
Variable up : W -> Prop.
Variable fine : MetricsBatch -> Prop.
Hypothesis up_heartbeat : forall ep w, up w -> up (snd (heartbeat ep w)).
Hypothesis up_batch : forall ep b w, up w -> up (snd (send_batch ep b w)).
Hypothesis up_stream : forall ep agent ms w, up w -> up (snd (stream_metrics ep agent ms w)).
Hypothesis up_acks : forall ep agent b w, up w -> fine b ->
  fst (fst (send_batch ep b w)) = true /\ fst (fst (stream_metrics ep agent (b_metrics b) w)) = true.

Lemma send_acked agent b s : up (collector s) -> fine b -> fst (fst (send agent b s)) = true.
Proof.
  intros Hu Hb. unfold send. destruct (up_acks (endpoint s) agent b (collector s) Hu Hb).
  by destruct (use_stream_metrics cfg).
Qed.

Lemma send_loop_up now n s :
  up (collector s) -> Forall fine (buffer s) -> buffer (send_loop now n s) = drop n (buffer s).
Proof.
  revert s. induction n as [|n IH]; intros s Hu Hf; [done|]. cbn [send_loop].
  destruct (buffer s) as [|b rest] eqn:E; [by rewrite E|]. apply Forall_cons in Hf as [Hb Hf].
  match goal with |- context [send ?a ?b ?s'] =>
    pose proof (send_acked a b s' Hu Hb) as Ha;
    pose proof (send_preserves up up_batch up_stream a b s' Hu) as Hw end.
  destruct (send _ _ _) as [[ok ov] w]. cbn in Ha. subst ok. rewrite IH; rewrite ?drain_disk_buffer; [done| |done].
  by apply (drain_disk_preserves up up_batch up_stream).
Qed.

Lemma absorb_suffix fresh s : (0 <= max_buffer_size cfg)%Z -> suffix (buffer (absorb fresh s)) (buffer s ++ fresh).
Proof.
  intros Hm. revert s. induction fresh as [|b rest IH]; intros s; [by rewrite app_nil_r|].
  etransitivity; [apply IH|].
  destruct (evict_loop_within (buffer s ++ [b]) (set_buffer (buffer s ++ [b]) s) Hm eq_refl) as [_ [l E]].
  exists l. unfold admit_batch. cbv zeta.
  change (buffer (set_buffer (buffer s ++ [b]) s)) with (buffer s ++ [b]).
  transitivity ((buffer s ++ [b]) ++ rest); [by rewrite <- app_assoc|]. rewrite E at 1. by rewrite <- app_assoc.
Qed.

Lemma iterate_up now fresh s :
  (0 <= max_buffer_size cfg)%Z -> up (collector s) -> Forall fine (buffer s ++ fresh) ->
  length (buffer (iterate now fresh s)) <= Nat.max 1 (length (buffer s) + length fresh - kMaxBatchesPerCycle) /\
  Forall fine (buffer (iterate now fresh s)).
Proof.
  intros Hm Hu Hf. unfold iterate. cbv zeta. set (s2 := absorb fresh (beat now s)).
  assert (up (collector s2)) as H2 by (unfold s2; rewrite absorb_collector; by apply (beat_preserves up)).
  pose proof (absorb_suffix fresh (beat now s) Hm) as Hs. rewrite beat_buffer in Hs. fold s2 in Hs.
  assert (Forall fine (buffer s2)) as Hf2.
  { destruct Hs as [l E]. rewrite E in Hf. by apply Forall_app in Hf as [_ Hf]. }
  apply suffix_length in Hs. rewrite length_app in Hs.
  assert (forall s3, buffer (pace s3) = buffer s3) as Hp by (intros s3; unfold pace; by destruct (backpressure s3)).
  rewrite Hp. clear Hp.
  assert (should_send now fresh s2 = false -> length (buffer s2) <= 1) as Hsend.
  { unfold should_send. destruct (buffer s2) as [|b [|b' l]]; cbn; [lia..|]. by rewrite orb_true_r. }
  destruct (should_send now fresh s2); [|specialize (Hsend eq_refl); split; [lia|done]].
  rewrite send_loop_up by done. split; [|by apply Forall_drop]. rewrite length_drop.
  destruct (Nat.ltb_spec 1 (length (buffer s2))); unfold kMaxBatchesPerCycle in *; lia.
Qed.

(** Claim C19: after an outage the backlog is worked off.  From a state in which the
    collectors acknowledge the batches, and with at most [m] fresh batches per
    iteration, every iteration takes up to eight batches off the memory buffer:
    after [k] of them no more than the initial length less [k] times [8 - m]
    is left, or a single batch that waits for its interval. *)
Theorem backlog_drains (m : nat) (inputs : list (Z * list MetricsBatch)) (s : state) :
  (0 <= max_buffer_size cfg)%Z -> up (collector s) -> Forall fine (buffer s) ->
  m <= kMaxBatchesPerCycle -> Forall (fun i => length i.2 <= m /\ Forall fine i.2) inputs ->
  length (buffer (run inputs s)) <=
    Nat.max 1 (length (buffer s) - length inputs * (kMaxBatchesPerCycle - m)).
Proof.
  intros Hm. revert s. induction inputs as [|[now fresh] rest IH]; intros s Hu Hf Hk Hi; [cbn; lia|].
  apply Forall_cons in Hi as [[Hl Hff] Hi]. cbn [snd] in *.
  destruct (iterate_up now fresh s Hm Hu) as [Hlen Hfine]; [by apply Forall_app|].
  change (run ((now, fresh) :: rest) s) with (run rest (iterate now fresh s)).
  etransitivity; [apply IH; try done; by apply (iterate_preserves up)|].
  unfold kMaxBatchesPerCycle in *. cbn [length]. nia.
Qed.
End Recovery.
End MainLoop.

(** *** A concrete collector and disk *)

(** It answers as scripted (acknowledged, overloaded), then always accepts. *)
Record wire : Type := mkWire { w_received : list (list Metric); w_answers : list (bool * bool) }.

Definition wire_send (ms : list Metric) (w : wire) : bool * bool * wire :=
  match w_answers w with
  | [] => (true, false, mkWire (w_received w ++ [ms]) [])
  | (ok, ov) :: rest => (ok, ov, mkWire (if ok then w_received w ++ [ms] else w_received w) rest)
  end.

#[global] Instance wire_uplink : Uplink wire := {|
  heartbeat := fun _ w => (true, w);
  send_batch := fun _ b w => wire_send (b_metrics b) w;
  stream_metrics := fun _ _ ms w => wire_send ms w;
|}.
#[global] Instance wire_uplink_laws : UplinkLaws wire.
Proof.
  refine {| received := w_received |}; [done| |].
  - by intros ep b [l [|[[] ov] a]].
  - by intros ep agent ms [l [|[[] ov] a]].
Defined.

(** Batches of one metric, serialised as its target. *)
Definition demo_metric (name : string) : Metric :=
  mkMetric CHECK_TYPE_DNS_RESOLUTION name true "" VALUE_NOT_SET None ∅ 0 0.
Definition demo_batch (name : string) : MetricsBatch := mkBatch "agent" 0 [demo_metric name].
Definition demo_serialize (b : MetricsBatch) : option string :=
  match b_metrics b with
  | [m] => if decide (b = demo_batch (target m)) then Some (target m) else None
  | _ => None
  end.
Definition demo_parse (x : string) : option MetricsBatch := Some (demo_batch x).
Definition demo_cfg : config := mkConfig "agent" 1000 2 false.

Lemma demo_parse_serialize b x : demo_serialize b = Some x -> demo_parse x = Some b.
Proof.
  unfold demo_serialize, demo_parse. destruct (b_metrics b) as [|m [|]]; [done| |done].
  destruct (decide _) as [E|]; [|done]. intros [= <-]. by rewrite <- E.
Qed.

(** In the build without SQLite every batch is acknowledged, in memory, or
    dropped and counted. *)
Lemma run_without_disk {W : Type} `{UplinkLaws W} serialize parse cfg
    (parse_serialize : forall b x, serialize b = Some x -> parse x = Some b)
    (now : Z) (f : Failover.client) (w : W) (inputs : list (Z * list MetricsBatch)) :
  let s := run serialize parse cfg inputs (start cfg now (NoSqlite.mkImpl) f w) in
  exists gained lost, received (collector s) = received w ++ gained /\
    map b_metrics (mjoin inputs.*2) ⊆+ gained ++ map b_metrics (buffer s) ++ lost /\
    buffer_drops s = Int.u64 (Z.of_nat (length lost)).
Proof.
  intros s. destruct (run_conserves serialize parse cfg parse_serialize inputs (start cfg now NoSqlite.mkImpl f w))
    as (g & a & l & t & R & A & P & D & T); [done|].
  fold s in R, P, D, T. exists g, l. split; [exact R|]. split; [|exact D]. destruct (T I) as [-> _].
  unfold held in P. rewrite R in P. cbn in P.
  transitivity (map b_metrics (mjoin inputs.*2) ++ a); [by apply submseteq_inserts_r|].
  apply Permutation_submseteq. perm.
Qed.

Definition demo_inputs : list (Z * list MetricsBatch) :=
  [(0, map demo_batch ["a long name"; "a"; "b"; "c"])]%Z.
Definition demo_disk : DiskBuffer.impl := DiskBuffer.mkImpl true 0 0 4 [] [].
Definition demo_wire : wire := mkWire [] [(false, false)].

Definition demo_run (w : wire) : state :=
  run demo_serialize demo_parse demo_cfg demo_inputs
    (start demo_cfg 0 demo_disk (Failover.FailoverClient []) w).


Lemma run_bounded_witness :
  let s := demo_run (mkWire [] [(true, true); (true, false); (true, true)]) in
  current_interval_ms s = 2000%Z /\
  current_interval_ms (iterate demo_serialize demo_parse demo_cfg 2000 [] s) = 4000%Z.
Proof.
  cbv zeta. split; [vm_compute; reflexivity|]. unfold demo_run.
  pose proof (run_bounded demo_serialize demo_parse demo_cfg 0 demo_disk []
                (mkWire [] [(true, true); (true, false); (true, true)]) demo_inputs 2000 [] ltac:(done) ltac:(done) ltac:(done)) as (_ & _ & _ & T).
  cbv zeta in T. rewrite T. vm_compute. reflexivity.
Defined.

(** Twelve batches are left of an outage; two more come in every iteration. *)
Definition demo_backlog : state :=
  set_buffer (replicate 12 (demo_batch "x")) (start demo_cfg 0 demo_disk (Failover.FailoverClient []) (mkWire [] [])).
Abbreviation demo_drain k :=
  (run demo_serialize demo_parse (mkConfig "agent" 1000 20 false)
     (replicate k (100%Z, map demo_batch ["a"; "b"])) demo_backlog).

Lemma backlog_drains_witness : length (buffer (demo_drain 1)) = 6 /\ length (buffer (demo_drain 2)) <= 1.
Proof.
  split; [vm_compute; reflexivity|].
  refine (backlog_drains demo_serialize demo_parse (mkConfig "agent" 1000 20 false) (fun w => w_answers w = []) (fun _ => True)
            _ _ _ _ 2 (replicate 2 (100%Z, map demo_batch ["a"; "b"])) demo_backlog _ _ _ _ _).
  - done.
  - by intros ep b [l []] [=].
  - by intros ep agent ms [l []] [=].
  - by intros ep agent b [l []] [=] _.
  - vm_compute. congruence.
  - reflexivity.
  - by apply Forall_true.
  - apply Nat.leb_le. reflexivity.
  - apply Forall_replicate. split; [apply Nat.leb_le; reflexivity|by apply Forall_true].
Defined.
End MainLoop.
