(* ===== verification/CommandStore.v ===== *)
(** * CommandStore: what the HTTP handlers need of the storage

    The class [CommandStore] is the part of [TimescaleStorage] the schedule and
    command handlers of [http_server.cpp] call.  [timescale_store] is the
    program's implementation; its behaviour depends on the database server, so
    what the handlers rely on is stated as [CommandStoreLaws] over the two
    tables of the file Schedules, and [memory], those tables behind a
    connection that may fail at every call, is an implementation that obeys
    them. *)
From stdpp Require Import base gmap strings list.
From Stdlib Require Import ZArith Lia.
From S2P Require Import Prelude Schedules Storage.
#[local] Open Scope string_scope.
#[local] Open Scope list_scope.

(** The string of a result is the error text, "" when left alone. *)
Class CommandStore (S : Type) : Type := {
  is_healthy : S -> bool * S;
  list_schedules : S -> outcome (list CommandSchedule) * S;
  create_schedule : CommandSchedule -> S -> bool * string * S;
  enable_schedule : string -> bool -> S -> bool * string * S;
  delete_schedule : string -> S -> bool * string * S;
  list_runs : string -> string -> string -> Z -> S -> outcome (list CommandRun) * S;
  insert_run : CommandRun -> S -> outcome Z * string * S;
  finish_run : CommandRun -> S -> bool * string * S;
}.

Class CommandStoreLaws (S : Type) `{CommandStore S} : Type := {
  schedules : S -> list CommandSchedule;
  runs : S -> Tables.runs_table;
  is_healthy_tables s :
    schedules (snd (is_healthy s)) = schedules s /\ runs (snd (is_healthy s)) = runs s;
  list_schedules_tables s :
    schedules (snd (list_schedules s)) = schedules s /\ runs (snd (list_schedules s)) = runs s;
  list_schedules_rows s l :
    fst (list_schedules s) = Returns l -> l = [] \/ l = Tables.ListCommandSchedules (schedules s);
  create_schedule_tables c s :
    let '(ok, _, s') := create_schedule c s in
    runs s' = runs s /\
    (ok, schedules s') = Tables.CreateCommandSchedule c (schedules s) \/
    ok = false /\ schedules s' = schedules s /\ runs s' = runs s;
  enable_schedule_tables id b s :
    let '(ok, _, s') := enable_schedule id b s in
    runs s' = runs s /\
    (ok, schedules s') = Tables.SetCommandScheduleEnabled id b (schedules s) \/
    ok = false /\ schedules s' = schedules s /\ runs s' = runs s;
  delete_schedule_tables id s :
    let '(ok, _, s') := delete_schedule id s in
    runs s' = runs s /\
    (ok, schedules s') = Tables.DeleteCommandSchedule id (schedules s) \/
    ok = false /\ schedules s' = schedules s /\ runs s' = runs s;
  list_runs_tables a c i n s :
    schedules (snd (list_runs a c i n s)) = schedules s /\ runs (snd (list_runs a c i n s)) = runs s;
  list_runs_rows a c i n s l :
    fst (list_runs a c i n s) = Returns l -> l = [] \/ l = Tables.ListCommandRuns a c i n (runs s);
  insert_run_tables r s :
    let '(id, _, s') := insert_run r s in
    schedules s' = schedules s /\
    ((forall i, id = Returns i -> i = (-1)%Z) /\ runs s' = runs s \/
     exists i, id = Returns i /\ (i, runs s') = Tables.InsertCommandRun r (runs s));
  finish_run_tables r s :
    let '(ok, _, s') := finish_run r s in
    schedules s' = schedules s /\
    (ok = true /\ runs s' = Tables.FinishCommandRun r (runs s) \/ ok = false /\ runs s' = runs s);
}.

(** ** The program's implementation *)
#[global] Instance timescale_store {W} `{Libpq W} : CommandStore (@Timescale.impl W) := {|
  is_healthy := Timescale.IsHealthy;
  list_schedules := Timescale.ListCommandSchedules;
  create_schedule := Timescale.CreateCommandSchedule;
  enable_schedule := Timescale.SetCommandScheduleEnabled;
  delete_schedule := Timescale.DeleteCommandSchedule;
  list_runs := Timescale.ListCommandRuns;
  insert_run := Timescale.InsertCommandRun;
  finish_run := Timescale.FinishCommandRun;
|}.

(** ** Tables behind an unreliable connection *)
Module Memory.
(** [outages]: whether each of the next calls finds the server down; an
    exhausted list stands for up. *)
Record memory : Type := mkMemory {
  outages : list bool;
  m_schedules : list CommandSchedule;
  m_runs : Tables.runs_table;
}.

Definition tick (s : memory) : bool * memory :=
  match outages s with
  | [] => (true, s)
  | down :: rest => (negb down, mkMemory rest (m_schedules s) (m_runs s))
  end.

Definition on_schedules (f : list CommandSchedule -> bool * list CommandSchedule) (s : memory)
    : bool * string * memory :=
  let '(up, s) := tick s in
  if up then
    let '(ok, t) := f (m_schedules s) in
    (ok, if ok then "" else "refused", mkMemory (outages s) t (m_runs s))
  else (false, "storage not available", s).

Definition reading {A} (f : memory -> list A) (s : memory) : outcome (list A) * memory :=
  let '(up, s) := tick s in (Returns (if up then f s else []), s).

Definition insert (r : CommandRun) (s : memory) : outcome Z * string * memory :=
  let '(up, s) := tick s in
  if up then
    let '(id, t) := Tables.InsertCommandRun r (m_runs s) in
    (Returns id, "", mkMemory (outages s) (m_schedules s) t)
  else (Returns (-1)%Z, "storage not available", s).

Definition finish (r : CommandRun) (s : memory) : bool * string * memory :=
  let '(up, s) := tick s in
  if up then (true, "", mkMemory (outages s) (m_schedules s) (Tables.FinishCommandRun r (m_runs s)))
  else (false, "storage not available", s).

#[global] Instance memory_store : CommandStore memory := {|
  is_healthy := tick;
  list_schedules := reading (fun s => Tables.ListCommandSchedules (m_schedules s));
  create_schedule := fun c => on_schedules (Tables.CreateCommandSchedule c);
  enable_schedule := fun id b => on_schedules (Tables.SetCommandScheduleEnabled id b);
  delete_schedule := fun id => on_schedules (Tables.DeleteCommandSchedule id);
  list_runs := fun a c i n => reading (fun s => Tables.ListCommandRuns a c i n (m_runs s));
  insert_run := insert;
  finish_run := finish;
|}.

Lemma tick_tables s :
  m_schedules (snd (tick s)) = m_schedules s /\ m_runs (snd (tick s)) = m_runs s.
Proof. unfold tick. by destruct (outages s). Qed.

Ltac ticked s s1 :=
  let T1 := fresh in let T2 := fresh in
  pose proof (tick_tables s) as [T1 T2]; destruct (tick s) as [[] s1]; cbn [fst snd] in *;
  rewrite <- ?T1, <- ?T2.

Lemma on_schedules_tables f s :
  let '(ok, _, s') := on_schedules f s in
  m_runs s' = m_runs s /\ (ok, m_schedules s') = f (m_schedules s) \/
  ok = false /\ m_schedules s' = m_schedules s /\ m_runs s' = m_runs s.
Proof.
  unfold on_schedules. ticked s s1; [|by right]. destruct (f (m_schedules s1)) eqn:E. by left.
Qed.

Lemma reading_tables {A} (f : memory -> list A) s :
  m_schedules (snd (reading f s)) = m_schedules s /\ m_runs (snd (reading f s)) = m_runs s.
Proof. unfold reading. by ticked s s1. Qed.

Lemma reading_rows {A} (f : memory -> list A) s l :
  (forall s', m_schedules s' = m_schedules s -> m_runs s' = m_runs s -> f s' = f s) ->
  fst (reading f s) = Returns l -> l = [] \/ l = f s.
Proof.
  intros Hf. unfold reading. pose proof (tick_tables s) as [T1 T2].
  destruct (tick s) as [[] s1]; cbn; intros [= <-]; [right; by apply Hf|by left].
Qed.

#[global] Instance memory_laws : CommandStoreLaws memory.
Proof.
  refine {| schedules := m_schedules; runs := m_runs |}.
  - apply tick_tables.
  - intros s. exact (reading_tables _ s).
  - intros s l. refine (reading_rows _ s l _). intros s' E1 E2. by rewrite E1.
  - intros c s. apply on_schedules_tables.
  - intros id b s. apply on_schedules_tables.
  - intros id s. apply on_schedules_tables.
  - intros a c i n s. exact (reading_tables _ s).
  - intros a c i n s l. refine (reading_rows _ s l _). intros s' E1 E2. by rewrite E2.
  - intros r s. cbn. unfold insert. ticked s s1; (split; [done|]).
    + right. by eexists.
    + left. split; [congruence|done].
  - intros r s. cbn. unfold finish. ticked s s1; (split; [done|]); [by left|by right].
Defined.
End Memory.
