(* ===== verification/Http.v ===== *)
(** * Http: the request handlers of the collector's HTTP server

    Models [collector/src/http_server.cpp] apart from the Prometheus text (the
    file Exporter).  Routing, sockets and the mapping of an exception to a 500
    answer belong to cpp-httplib: a handler is a function from the request and
    the state of the component it uses to the response it fills in, or to the
    exception it throws, and the new state.  [Agents], [Alerts] and [Schedules]
    group the handlers by component; [Calls] are those that call an agent,
    whose answers are a parameter. *)
From stdpp Require Import base gmap strings list.
From Stdlib Require Import ZArith Lia Ascii.
From S2P Require Import Prelude Double Proto Text Json AlertRule AlertManager.
From S2P Require Import AgentRegistry Schedules Scheduler Storage CommandStore Dists.
Import Str.
#[local] Open Scope string_scope.
#[local] Open Scope list_scope.

(** JSON text with backquotes for the double quotes. *)
Definition js : string -> string :=
  map_chars (fun c => if Ascii.eqb c (c_of 96) then dquote else c).

Record request : Type := mkRequest {
  rq_body : string;
  rq_params : list (string * string);
}.

Definition has_param (req : request) (key : string) : bool :=
  existsb (fun p => String.eqb (fst p) key) (rq_params req).
(** The first value, "" when there is none. *)
Definition get_param_value (req : request) (key : string) : string :=
  match list_find (fun p => fst p = key) (rq_params req) with
  | Some (_, (_, v)) => v
  | None => ""
  end.

(** [rs_status] is [None] while the handler has not set one. *)
Record response : Type := mkResponse {
  rs_status : option Z;
  rs_headers : list (string * string);
  rs_content : string;
  rs_content_type : string;
}.

Definition json_response (status : option Z) (text : string) : response :=
  mkResponse status [] text "application/json".
Definition json_error (status : Z) (what : string) : response :=
  json_response (Some status) (js "{`error`:`" +:+ what +:+ js "`}").

Definition bool_text (b : bool) : string := if b then "true" else "false".

Section Handlers.
Context {J : Type} `{JsonOps J, JsonText J}.

(** The opening of every POST handler: parse the body or answer 400. *)
Definition with_body (req : request) {S} (s : S) (k : J -> outcome response * S) : outcome response * S :=
  match jparse (rq_body req) with
  | inl _ => (Returns (json_error 400 "invalid JSON body"), s)
  | inr body => k body
  end.

(** A step that may throw, inside a handler. *)
Definition or_throw {A S} (m : outcome A) (s : S) (k : A -> outcome response * S) : outcome response * S :=
  match m with
  | Returns a => k a
  | Throws w => (Throws w, s)
  end.

Definition health_handler (db_ok : bool) : response :=
  json_response None
    (js "{`status`:`" +:+ (if db_ok then "ok" else "degraded") +:+
     js "`,`component`:`collector`,`storage`:" +:+ bool_text db_ok +:+ "}").

(** ** The agent registry *)
Section Agents.
(** The traversal order of the registry's map. *)
Variable iter : gmap string AgentRegistry.AgentEntry -> list (string * AgentRegistry.AgentEntry).

Definition agents_handler (now : Z) (r : AgentRegistry.state) : response :=
  json_response None (AgentRegistry.DumpAgents iter now r).

Definition agents_response (now : Z) (success : bool) (error : string) (r : AgentRegistry.state) : string :=
  let agents :=
    match jparse (AgentRegistry.DumpAgents iter now r) with
    | inr dump =>
        match Json.value_as Returns dump "agents" (jarray []) with
        | Returns l => l
        | Throws _ => jarray []
        end
    | inl _ => jarray []
    end in
  jdump (jset "agents" agents (jset "error" (j_of_string error) (jset "success" (j_of_bool success) jnull))).

Definition delete_agent_handler (now : Z) (req : request) (r : AgentRegistry.state)
    : outcome response * AgentRegistry.state :=
  with_body req r (fun body =>
    let missing := (Returns (json_error 400 "'agent_id' is required"), r) in
    if negb (jis_object body) then missing else
    match jlookup body "agent_id" with
    | None => missing
    | Some v =>
        if negb (jis_string v) then missing else
        or_throw (jget_string v) r (fun agent_id =>
          if is_empty agent_id then missing
          else
            let '(ok, r) := AgentRegistry.RemoveAgent agent_id r in
            (Returns (json_response (Some (if ok then 200 else 404)%Z)
                        (agents_response now ok (if ok then "" else "agent not found") r)), r))
    end).
End Agents.

(** ** Metrics query *)

(** [query] is [QueryMetricsJson] on the storage, when there is one. *)
Definition metrics_handler {S} (query : option (string -> string -> Z -> S -> string * S))
    (req : request) (s : S) : response * S :=
  match query with
  | None => (json_error 503 "storage not available", s)
  | Some q =>
      let param k := if has_param req k then get_param_value req k else "" in
      let window_seconds :=
        if has_param req "window_seconds" then default 300%Z (stoll (get_param_value req "window_seconds"))
        else 300%Z in
      let '(text, s) := q (param "agent_id") (param "check_type") window_seconds s in
      (json_response None text, s)
  end.

(** ** Alerts *)
Section Alerts.
Import AlertManager.
(** The traversal order of the firing states. *)
Variable order : state -> list (string * FiringState).

(** The alert manager, if alerting is configured, and the files. *)
Definition alerting : Type := option state * disk.

Definition alerts_handler (a : alerting) : response :=
  match fst a with
  | Some m => if Enabled m then json_response None (ActiveAlertsJson (order m) m)
              else json_response (Some 200%Z) "[]"
  | None => json_response (Some 200%Z) "[]"
  end.

(** The limit is converted to an unsigned 64-bit size. *)
Definition history_limit (req : request) : Z :=
  if has_param req "limit" then
    match stoll (get_param_value req "limit") with
    | Some n => Int.u64 n
    | None => 200
    end
  else 200.
Definition alert_history_handler (req : request) (a : alerting) : response :=
  match fst a with
  | None => json_response None "[]"
  | Some m => json_response None (AlertHistoryJson (Z.to_nat (history_limit req)) m)
  end.

Definition alert_rules_handler (a : alerting) : response :=
  match fst a with
  | None => json_response None (js "{`rules`:[]}")
  | Some m => json_response None (RulesJson m)
  end.

(** Throws when the manager's own text does not parse. *)
Definition alert_rules_response (success : bool) (error : string) (a : alerting) : outcome string :=
  let finish doc :=
    Returns (jdump (jset "persisted" (j_of_bool (match fst a with
                                                 | Some m => negb (is_empty (m_rules_path m))
                                                 | None => false
                                                 end))
               (jset "error" (j_of_string error) (jset "success" (j_of_bool success) doc)))) in
  match fst a with
  | None => finish (jset "rules" (jarray []) jnull)
  | Some m =>
      match jparse (RulesJson m) with
      | inr doc => finish doc
      | inl what => Throws what
      end
  end.

(** The answer of a rule mutation whose error text is [err]. *)
Definition rule_answer (err : option string) (a : alerting) : outcome response * alerting :=
  let ok := match err with None => true | Some _ => false end in
  or_throw (alert_rules_response ok (default "" err) a) a (fun text =>
    (Returns (json_response (Some (if ok then 200 else 400)%Z) text), a)).

Definition upsert_rule_handler (req : request) (a : alerting) : outcome response * alerting :=
  match a with
  | (None, _) => (Returns (json_error 503 "alerting unavailable"), a)
  | (Some m, d) =>
      with_body req a (fun body =>
        let missing := (Returns (json_error 400 "a 'rule' object is required"), a) in
        if negb (jis_object body) then missing else
        match jlookup body "rule" with
        | None => missing
        | Some rule =>
            if jis_null rule || negb (jis_object rule) then missing else
            or_throw (UpsertRule (jdump rule) m d) a (fun r =>
              let '(m, d, err) := r in rule_answer err (Some m, d))
        end)
  end.

Definition delete_rule_handler (req : request) (a : alerting) : outcome response * alerting :=
  match a with
  | (None, _) => (Returns (json_error 503 "alerting unavailable"), a)
  | (Some m, d) =>
      with_body req a (fun body =>
        let missing := (Returns (json_error 400 "'rule_id' is required"), a) in
        if negb (jis_object body) then missing else
        or_throw (Json.value_string body "rule_id" "") a (fun rule_id =>
          if is_empty rule_id then missing
          else let '(m, d, err) := DeleteRule rule_id m d in rule_answer err (Some m, d)))
  end.

Definition ack_handler (req : request) (a : alerting) : outcome response * alerting :=
  match a with
  | (None, _) => (Returns (json_error 503 "alerting disabled"), a)
  | (Some m, d) =>
      let fields :=
        match jparse (rq_body req) with
        | inl what => Throws what
        | inr body =>
            let! rule_id := Json.value_string body "rule_id" "" in
            let! agent_id := Json.value_string body "agent_id" "" in
            let! target := Json.value_string body "target" "" in
            Returns (rule_id, agent_id, target)
        end in
      match fields with
      | Throws _ => (Returns (json_error 400 "invalid JSON body"), a)
      | Returns (rule_id, agent_id, target) =>
          if is_empty rule_id || is_empty agent_id then
            (Returns (json_error 400 "rule_id and agent_id are required"), a)
          else
            let '(m, acked) := Ack rule_id agent_id target m in
            (Returns (json_response None
                        (js "{`acknowledged`:" +:+ bool_text acked +:+ js ",`alerts`:" +:+
                         ActiveAlertsJson (order m) m +:+ "}")), (Some m, d))
      end
  end.
End Alerts.

(** ** Command schedules *)
Section Schedules.
Context {S : Type} `{!CommandStore S}.

(** [NewScheduleId] with the value of its counter. *)
Definition NewScheduleId (now_ms counter : Z) : string :=
  "cs_" +:+ of_Z (Z.quot now_ms 1000) +:+ "_" +:+ of_Z counter.

(** JSON text stored in the database, or a default when it does not parse. *)
Definition stored_json (text : string) (dflt : J) : J :=
  match jparse text with inr v => v | inl _ => dflt end.

Definition ScheduleToJson (s : CommandSchedule) (now_ms : Z) : J :=
  let next_in := Int.to_int64 (s_next_run_unix_ms s - now_ms) in
  jset "next_in_ms" (j_of_int (if (0 <? next_in)%Z then next_in else 0))
  (jset "active" (j_of_bool (s_enabled s && (s_window_start_unix_ms s <=? now_ms)%Z &&
                             (now_ms <=? s_window_end_unix_ms s)%Z))
  (jset "expired" (j_of_bool (s_window_end_unix_ms s <? now_ms)%Z)
  (jset "enabled" (j_of_bool (s_enabled s))
  (jset "next_run_unix_ms" (j_of_int (s_next_run_unix_ms s))
  (jset "interval_sec" (j_of_int (s_interval_sec s))
  (jset "window_end_unix_ms" (j_of_int (s_window_end_unix_ms s))
  (jset "window_start_unix_ms" (j_of_int (s_window_start_unix_ms s))
  (jset "params" (stored_json (s_params_json s) jempty_object)
  (jset "command_id" (j_of_string (s_command_id s))
  (jset "agent_id" (j_of_string (s_agent_id s))
  (jset "label" (j_of_string (s_label s))
  (jset "id" (j_of_string (s_id s)) jnull)))))))))))).

Definition RunToJson (r : CommandRun) : J :=
  jset "detail" (j_of_string (run_detail r))
  (jset "issues" (stored_json (issues_json r) (jarray []))
  (jset "fields" (stored_json (fields_json r) jempty_object)
  (jset "summary" (j_of_string (run_summary r))
  (jset "error" (j_of_string (run_error r))
  (jset "success" (j_of_bool (has_result r && run_success r))
  (jset "running" (j_of_bool (negb (has_result r)))
  (jset "finished_unix_ms" (j_of_int (finished_unix_ms r))
  (jset "started_unix_ms" (j_of_int (started_unix_ms r))
  (jset "scheduled_unix_ms" (j_of_int (scheduled_unix_ms r))
  (jset "command_id" (j_of_string (run_command_id r))
  (jset "agent_id" (j_of_string (run_agent_id r))
  (jset "schedule_id" (j_of_string (run_schedule_id r))
  (jset "run_id" (j_of_int (run_id r)) jnull))))))))))))).

(** [storage_ready]: the storage, when there is one, must answer. *)
Definition storage_ready (s : option S) (k : S -> outcome response * option S)
    : outcome response * option S :=
  let down s := (Returns (json_error 503 "scheduled commands require TimescaleDB storage"), s) in
  match s with
  | None => down None
  | Some s => let '(ok, s) := is_healthy s in if ok then k s else down (Some s)
  end.

Definition list_schedules_handler (now : Z) (s : option S) : outcome response * option S :=
  storage_ready s (fun s =>
    let '(rows, s) := list_schedules s in
    or_throw rows (Some s) (fun rows =>
      (Returns (json_response None
         (jdump (jset "schedules" (jarray (map (fun c => ScheduleToJson c now) rows)) jnull))), Some s))).

Definition kMinIntervalSec : Z := 60.

(** A member that must be an integer. *)
Definition int_member (body : J) (key : string) : option J :=
  match jlookup body key with
  | Some v => if jis_integer v then Some v else None
  | None => None
  end.

Definition create_schedule_handler (now counter : Z) (req : request) (s : option S)
    : outcome response * option S :=
  storage_ready s (fun s =>
  with_body req (Some s) (fun body =>
  let bad what := (Returns (json_error 400 what), Some s) in
  if negb (jis_object body) then bad "a JSON object is required" else
  or_throw (Json.value_string body "agent_id" "") (Some s) (fun agent_id =>
  or_throw (Json.value_string body "command_id" "") (Some s) (fun command_id =>
  if is_empty agent_id || is_empty command_id then bad "agent_id and command_id are required" else
  or_throw (match int_member body "window_start_unix_ms" with
            | Some v => jget_int64 v
            | None => Returns now
            end) (Some s) (fun window_start =>
  match int_member body "window_end_unix_ms" with
  | None => bad "window_end_unix_ms is required"
  | Some v =>
  or_throw (jget_int64 v) (Some s) (fun window_end =>
  match int_member body "interval_sec" with
  | None => bad "interval_sec is required"
  | Some v =>
  or_throw (jget_int64 v) (Some s) (fun interval_sec =>
  if (interval_sec <? kMinIntervalSec)%Z then bad ("interval_sec must be >= " +:+ of_Z kMinIntervalSec)
  else if (window_end <=? window_start)%Z || (window_end <? now)%Z then
    bad "window_end_unix_ms must be after the start and in the future"
  else
  or_throw (Json.value_string body "label" "") (Some s) (fun label =>
  let params_json :=
    match jlookup body "params" with
    | Some p => if jis_object p then jdump p else "{}"
    | None => "{}"
    end in
  let c := mkSchedule (NewScheduleId now counter) label agent_id command_id params_json
             window_start window_end interval_sec (Z.max now window_start) true in
  let '(ok, err, s) := create_schedule c s in
  if ok then
    (Returns (json_response None
       (jdump (jset "schedule" (ScheduleToJson c now)
          (jset "error" (j_of_string "") (jset "success" (j_of_bool true) jnull))))), Some s)
  else
    (Returns (json_response (Some 400%Z)
       (jdump (jset "error" (j_of_string err) (jset "success" (j_of_bool false) jnull)))), Some s)))
  end) end))))).

Definition delete_schedule_handler (req : request) (s : option S) : outcome response * option S :=
  storage_ready s (fun s =>
  with_body req (Some s) (fun body =>
  or_throw (Json.value_string body "id" "") (Some s) (fun id =>
  if is_empty id then (Returns (json_error 400 "'id' is required"), Some s)
  else
    let '(ok, err, s) := delete_schedule id s in
    (Returns (json_response (Some (if ok then 200 else 400)%Z)
       (jdump (jset "error" (j_of_string (if ok then "" else err))
                 (jset "success" (j_of_bool ok) jnull)))), Some s)))).

Definition enable_schedule_handler (now : Z) (req : request) (s : option S) : outcome response * option S :=
  storage_ready s (fun s =>
  with_body req (Some s) (fun body =>
  or_throw (Json.value_string body "id" "") (Some s) (fun id =>
  match (if is_empty id then None else jlookup body "enabled") with
  | None => (Returns (json_error 400 "'id' and 'enabled' are required"), Some s)
  | Some v =>
    or_throw (jget_bool v) (Some s) (fun enabled =>
    let '(ok, err, s) := enable_schedule id enabled s in
    let doc := jset "error" (j_of_string (if ok then "" else err)) (jset "success" (j_of_bool ok) jnull) in
    let '(rows, s) := list_schedules s in
    or_throw rows (Some s) (fun rows =>
      let doc :=
        match list_find (fun c => s_id c = id) rows with
        | Some (_, c) => jset "schedule" (ScheduleToJson c now) doc
        | None => doc
        end in
      (Returns (json_response (Some (if ok then 200 else 400)%Z) (jdump doc)), Some s)))
  end))).

Definition runs_handler (req : request) (s : option S) : outcome response * option S :=
  storage_ready s (fun s =>
    let limit := if has_param req "limit" then default 50%Z (stoi (get_param_value req "limit")) else 50%Z in
    let '(rows, s) := list_runs (get_param_value req "agent_id") (get_param_value req "command_id")
                        (get_param_value req "schedule_id") limit s in
    or_throw rows (Some s) (fun rows =>
      (Returns (json_response None (jdump (jset "runs" (jarray (map RunToJson rows)) jnull))), Some s))).
End Schedules.

(** ** Calls to an agent *)
Section Calls.
(** The agent behind an endpoint: what its diagnostic service answers. *)
Record agent_api : Type := mkAgentApi {
  RunDiagnostic : string -> DiagnosticRequest -> Status * DiagnosticResponse;
  Reconfigure : string -> AgentConfigRequest -> Status * AgentConfigResponse;
  GetConfig : string -> string -> Status * AgentConfigResponse;
  ListCommands : string -> string -> Status * ListCommandsResponse;
  RunCommand : string -> RunCommandRequest -> Status * CommandResponse;
}.
Variable api : agent_api.
Variable iter : gmap string string -> list (string * string).

Definition PrepareAgentCall (r : AgentRegistry.state) (agent_id : string) : response + string :=
  let diag_endpoint := AgentRegistry.GetDiagnosticEndpoint r agent_id in
  if is_empty diag_endpoint then
    inl (json_response (Some 404%Z)
      (js "{`error`:`agent '" +:+ Text.escape agent_id +:+
       js ("' has no advertised diagnostic endpoint: the agent must be " +:+
           "online and either report diagnostic_endpoint in its heartbeat " +:+
           "or be reachable at its diagnostic port (default 50052)`}")))
  else inr diag_endpoint.

Definition rpc_error_text (status : Status) (endpoint : string) : string :=
  let msg :=
    if is_empty (st_message status) then
      match st_code status with
      | UNIMPLEMENTED =>
          "the gRPC server answered but does not implement the agent " +:+
          "DiagnosticService (wrong endpoint, a collector port, or an " +:+
          "agent build without pre-set commands)"
      | DEADLINE_EXCEEDED => "the agent did not answer in time"
      | UNAVAILABLE =>
          "the agent could not be reached (offline, firewall or a " +:+
          "wrong advertised address)"
      | _ => "agent RPC failed"
      end
    else st_message status in
  if is_empty endpoint then msg else msg +:+ " (diagnostic endpoint " +:+ endpoint +:+ ")".
Definition SendAgentRpcError (status : Status) (endpoint : string) : response :=
  json_error 502 (Text.escape (rpc_error_text status endpoint)).

(** The common tail of the handlers: prepare, call, report a failed call. *)
Definition call_agent {A} (r : AgentRegistry.state) (agent_id : string) (rpc : string -> Status * A)
    (k : A -> response) : response :=
  match PrepareAgentCall r agent_id with
  | inl resp => resp
  | inr endpoint =>
      let '(status, a) := rpc endpoint in
      if bool_decide (st_code status = OK) then k a else SendAgentRpcError status endpoint
  end.

Definition agent_id_required : response := json_error 400 "agent_id is required".

Definition diagnostic_handler (r : AgentRegistry.state) (req : request) : response :=
  let agent_id := get_param_value req "agent_id" in
  let pcap_duration_s :=
    if has_param req "pcap_duration_s" then default 0%Z (stoi (get_param_value req "pcap_duration_s"))
    else 0%Z in
  if is_empty agent_id then agent_id_required else
  call_agent r agent_id
    (fun ep => RunDiagnostic api ep (mkDiagnosticRequest agent_id (get_param_value req "trace_target")
                                       pcap_duration_s (get_param_value req "pcap_filter")))
    (fun d => json_response None
      (js "{`success`:" +:+ bool_text (dr_success d) +:+ js ",`timestamp_unix_ms`:" +:+
       of_Z (dr_timestamp_unix_ms d) +:+ js ",`result`:`" +:+ Text.escape (dr_result d) +:+ js "`}")).

Definition config_answer (c : AgentConfigResponse) : response :=
  json_response None
    (js "{`success`:" +:+ bool_text (ar_success c) +:+ js ",`applied`:`" +:+ Text.escape (ar_applied c) +:+
     js "`,`error`:`" +:+ Text.escape (ar_error c) +:+ js "`}").

(** [put]: the strings of an array member; other members are ignored. *)
Fixpoint strings_of (l : list J) : outcome (list string) :=
  match l with
  | [] => Returns []
  | v :: rest => let! s := jget_string v in let! t := strings_of rest in Returns (s :: t)
  end.
Definition put (body : J) (key : string) : outcome (list string) :=
  match jlookup body key with
  | Some v => if jis_array v then strings_of (jelements v) else Returns []
  | None => Returns []
  end.
Definition optional {A} (get : J -> outcome A) (body : J) (key : string) : outcome (option A) :=
  match jlookup body key with
  | Some v => let! a := get v in Returns (Some a)
  | None => Returns None
  end.

Definition config_request (agent_id : string) (body : J) : outcome AgentConfigRequest :=
  let! dns := put body "dns_targets" in
  let! tcp := put body "tcp_targets" in
  let! tls := put body "tls_targets" in
  let! http := put body "http_targets" in
  let! ping := put body "ping_targets" in
  let! count := optional jget_int32 body "ping_count" in
  let! gap := optional jget_int32 body "ping_gap_ms" in
  let! cert := optional jget_bool body "tls_cert_check" in
  let! retransmit := optional jget_bool body "tcp_retransmit_check" in
  let! handshake := optional jget_bool body "tcp_handshake_capture" in
  let! protocols := put body "http_protocols" in
  Returns (mkAgentConfigRequest agent_id dns tcp tls http ping (default 0%Z count) (default 0%Z gap)
             cert retransmit handshake protocols).

(** The endpoint is looked up before the body's other members are read. *)
Definition set_config_handler (r : AgentRegistry.state) (req : request) : outcome response :=
  fst (with_body req tt (fun body =>
    or_throw (Json.value_string body "agent_id" "") tt (fun agent_id =>
    if is_empty agent_id then (Returns agent_id_required, tt) else
    match PrepareAgentCall r agent_id with
    | inl resp => (Returns resp, tt)
    | inr endpoint =>
        or_throw (config_request agent_id body) tt (fun creq =>
        let '(status, c) := Reconfigure api endpoint creq in
        (Returns (if bool_decide (st_code status = OK) then config_answer c
                  else SendAgentRpcError status endpoint), tt))
    end))).

Definition get_config_handler (r : AgentRegistry.state) (req : request) : response :=
  let agent_id := get_param_value req "agent_id" in
  if is_empty agent_id then agent_id_required else
  call_agent r agent_id (fun ep => GetConfig api ep agent_id) config_answer.

Definition quoted (s : string) : string := js "`" +:+ Text.escape s +:+ js "`".

Definition command_info_json (c : CommandInfo) : string :=
  js "{`command_id`:`" +:+ Text.escape (ci_command_id c) +:+ js "`,`description`:`" +:+
  Text.escape (ci_description c) +:+ js "`,`param_names`:[" +:+
  sep_loop "," true "" (map quoted (ci_param_names c)) +:+ "]}".

Definition agent_commands_handler (r : AgentRegistry.state) (req : request) : response :=
  let agent_id := get_param_value req "agent_id" in
  if is_empty agent_id then agent_id_required else
  call_agent r agent_id (fun ep => ListCommands api ep agent_id)
    (fun l => json_response None
      (sep_loop "," true (js "{`success`:" +:+ bool_text (lc_success l) +:+ js ",`commands`:[")
         (map command_info_json (lc_commands l)) +:+ "]}")).

(** Only the string members of [params] are sent. *)
Fixpoint string_params (items : list (string * J)) (m : gmap string string) : outcome (gmap string string) :=
  match items with
  | [] => Returns m
  | (k, v) :: rest =>
      if jis_string v then let! s := jget_string v in string_params rest (<[k := s]> m)
      else string_params rest m
  end.

Definition command_answer (c : CommandResponse) : response :=
  json_response None
    (js "{`success`:" +:+ bool_text (c_success c) +:+ js ",`command_id`:`" +:+ Text.escape (c_command_id c) +:+
     js "`,`error`:`" +:+ Text.escape (c_error c) +:+ js "`,`timestamp_unix_ms`:" +:+
     of_Z (c_timestamp_unix_ms c) +:+ js ",`summary`:`" +:+ Text.escape (c_summary c) +:+ js "`,`fields`:{" +:+
     sep_loop "," true "" (map (fun kv => quoted (fst kv) +:+ ":" +:+ quoted (snd kv)) (iter (c_fields c))) +:+
     js "},`issues`:[" +:+ sep_loop "," true "" (map quoted (c_issues c)) +:+ js "],`detail`:`" +:+
     Text.escape (c_detail c) +:+ js "`}").

(** The history record of an ad-hoc run: inserted, then finished. *)
Definition adhoc_run (now_insert : Z) (agent_id command_id : string) (c : CommandResponse) : CommandRun :=
  let at_ms := if (0 <? c_timestamp_unix_ms c)%Z then c_timestamp_unix_ms c else now_insert in
  mkRun 0 "" agent_id command_id at_ms at_ms 0 false false "" "" "" "" "".

Definition record_adhoc {S} `{!CommandStore S} (now_insert now_finish : Z) (agent_id command_id : string)
    (c : CommandResponse) (s : S) : outcome unit * S :=
  let run := adhoc_run now_insert agent_id command_id c in
  let '(rid, _, s) := insert_run run s in
  match rid with
  | Throws w => (Throws w, s)
  | Returns rid =>
      if (0 <? rid)%Z then
        let run := Execute.set_result run rid now_finish (c_success c) (c_error c) (c_summary c)
                     (jdump (Execute.fields_object iter (c_fields c)))
                     (jdump (Execute.issues_array (c_issues c))) (c_detail c) in
        let '(_, _, s) := finish_run run s in (Returns tt, s)
      else (Returns tt, s)
  end.

Definition run_command_handler {S} `{!CommandStore S} (now_insert now_finish : Z) (r : AgentRegistry.state)
    (req : request) (s : option S) : outcome response * option S :=
  with_body req s (fun body =>
    or_throw (Json.value_string body "agent_id" "") s (fun agent_id =>
    or_throw (Json.value_string body "command_id" "") s (fun command_id =>
    if is_empty agent_id || is_empty command_id then
      (Returns (json_error 400 "agent_id and command_id are required"), s)
    else
    match PrepareAgentCall r agent_id with
    | inl resp => (Returns resp, s)
    | inr endpoint =>
        or_throw (match jlookup body "params" with
                  | Some p => if jis_object p then string_params (jitems p) ∅ else Returns ∅
                  | None => Returns ∅
                  end) s (fun params =>
        let '(status, c) := RunCommand api endpoint (mkRunCommandRequest agent_id command_id params) in
        if bool_decide (st_code status = OK) then
          match s with
          | None => (Returns (command_answer c), None)
          | Some st =>
              let '(done_, st) := record_adhoc now_insert now_finish agent_id command_id c st in
              or_throw done_ (Some st) (fun _ => (Returns (command_answer c), Some st))
          end
        else (Returns (SendAgentRpcError status endpoint), s))
    end))).
End Calls.

(** ** Downloads *)

Definition attachment (filename : string) (bytes : string) : response :=
  mkResponse None [("Content-Disposition", js "attachment; filename=`" +:+ filename +:+ js "`")]
    bytes "application/octet-stream".
Definition not_staged (kind platform : string) : response :=
  json_error 404 ("no " +:+ kind +:+ " staged for platform '" +:+ Text.escape platform +:+ "'").

Definition agent_versions_handler (s : AgentDist.state) : response :=
  json_response None (AgentDist.ManifestJson s).
Definition agent_download_handler (fs : Files.disk) (req : request) (s : AgentDist.state) : response :=
  let platform := get_param_value req "platform" in
  match AgentDist.Find platform s with
  | None => not_staged "agent binary" platform
  | Some p =>
      match AgentDist.LoadBinary fs platform s with
      | None => json_error 500 "failed to read agent binary"
      | Some bytes => attachment (AgentDist.filename p) bytes
      end
  end.

Definition installer_versions_handler (s : InstallerDist.state) : response :=
  json_response None (InstallerDist.ManifestJson s).
Definition installer_download_handler (fs : Files.disk) (req : request) (s : InstallerDist.state) : response :=
  let platform := get_param_value req "platform" in
  if negb (InstallerDist.Find platform s) then not_staged "installer" platform
  else
    match InstallerDist.Load fs platform s with
    | None => json_error 500 "failed to read installer"
    | Some bytes =>
        let name := InstallerDist.DownloadName platform (get_param_value req "config") s in
        if is_empty name then not_staged "installer" platform else attachment name bytes
    end.
End Handlers.

(** [Start]: the host and the port of "host:port"; the thread dies on a port
    that is not a number. *)
Definition split_address (addr : string) : string * option Z :=
  match srfind ":"%char addr with
  | Some colon => (stake colon addr, stoi (sdrop (colon + 1) addr))
  | None => (addr, stoi addr)
  end.
