(* ===== verification/HttpSpec.v ===== *)
(** * HttpSpec: what the request handlers promise

    The theorems on the definitions of the file Http.  [Api] is about the
    command schedules: what a creation request may put into the table, and an
    invariant of the table under every request and every action of the
    scheduler.  [Runs] is about ad-hoc commands and their history, [Fleet]
    about the removal of an agent, [Rules] about the alert rule requests.  The
    storage is any implementation of [CommandStore] that obeys its laws. *)
From stdpp Require Import base gmap strings list.
From Stdlib Require Import ZArith Lia.
From S2P Require Import Prelude Double Proto Text Json AlertRule AlertManager.
From S2P Require Import AgentRegistry Schedules Scheduler Storage CommandStore Http.
Import Str.
#[local] Open Scope string_scope.
#[local] Open Scope list_scope.

Definition refused (out : outcome response) : Prop :=
  forall r, out = Returns r -> exists st, rs_status r = Some st /\ (400 <= st)%Z.

Lemma refused_error st what : (400 <= st)%Z -> refused (Returns (json_error st what)).
Proof. intros Hst r [= <-]. by exists st. Qed.
Lemma refused_throws w : refused (Throws w).
Proof. done. Qed.
#[export] Hint Resolve refused_error refused_throws : pudim.

Module Api.
Section Api.
Context {J : Type} `{JsonOps J, JsonText J}.
Context {S : Type} `{!CommandStore S, !CommandStoreLaws S}.

(** The member a request body holds for an integer field. *)
Definition int_field (body : J) (key : string) (z : Z) : Prop :=
  exists v, jlookup body key = Some v /\ jis_integer v = true /\ jget_int64 v = Returns z.

(** What a schedule created from a request body at [now] may look like. *)
Record requested (now : Z) (body : J) (c : CommandSchedule) : Prop := {
  rq_agent : Json.value_string body "agent_id" "" = Returns (s_agent_id c) /\ s_agent_id c <> "";
  rq_command : Json.value_string body "command_id" "" = Returns (s_command_id c) /\ s_command_id c <> "";
  rq_label : Json.value_string body "label" "" = Returns (s_label c);
  rq_params_json : match jlookup body "params" with
                   | Some p => s_params_json c = (if jis_object p then jdump p else "{}")
                   | None => s_params_json c = "{}"
                   end;
  rq_start : match int_member body "window_start_unix_ms" with
             | Some v => jget_int64 v = Returns (s_window_start_unix_ms c)
             | None => s_window_start_unix_ms c = now
             end;
  rq_end : int_field body "window_end_unix_ms" (s_window_end_unix_ms c);
  rq_interval : int_field body "interval_sec" (s_interval_sec c);
  rq_min : (kMinIntervalSec <= s_interval_sec c)%Z;
  rq_window : (s_window_start_unix_ms c < s_window_end_unix_ms c)%Z /\ (now <= s_window_end_unix_ms c)%Z;
  rq_first : s_next_run_unix_ms c = Z.max now (s_window_start_unix_ms c);
  rq_enabled : s_enabled c = true;
}.

(** The tables are as before. *)
Definition same (s s' : S) : Prop := schedules s' = schedules s /\ runs s' = runs s.

Lemma same_trans s1 s2 s3 : same s1 s2 -> same s2 s3 -> same s1 s3.
Proof. unfold same. intuition congruence. Qed.

Lemma storage_ready_spec (s : S) k (P : outcome response * option S -> Prop) :
  (forall s1 what, same s s1 -> P (Returns (json_error 503 what), Some s1)) ->
  (forall s1, same s s1 -> P (k s1)) -> P (storage_ready (Some s) k).
Proof.
  intros Hd Hk. unfold storage_ready. pose proof (is_healthy_tables s) as Hs.
  destruct (is_healthy s) as [[] s1]; [by apply Hk|by apply Hd].
Qed.

Lemma with_body_spec req {T} (s : T) k (P : outcome response * T -> Prop) :
  (forall what, P (Returns (json_error 400 what), s)) ->
  (forall body, jparse (rq_body req) = inr body -> P (k body)) -> P (with_body req s k).
Proof. intros H1 H2. unfold with_body. destruct (jparse _); auto. Qed.

Lemma or_throw_spec {A T} (m : outcome A) (s : T) k (P : outcome response * T -> Prop) :
  (forall w, P (Throws w, s)) -> (forall a, m = Returns a -> P (k a)) -> P (or_throw m s k).
Proof. intros H1 H2. unfold or_throw. destruct m; auto. Qed.

Lemma int_member_spec body key v z :
  int_member body key = Some v -> jget_int64 v = Returns z -> int_field body key z.
Proof.
  unfold int_member. intros Hm Hz. destruct (jlookup body key) as [v'|] eqn:E; [|done].
  destruct (jis_integer v') eqn:Ei; simplify_eq. by exists v.
Qed.

(** What the creation request may do to the store. *)
Definition creates (now counter : Z) (req : request) (s : S) (res : outcome response * option S) : Prop :=
  exists s', snd res = Some s' /\ runs s' = runs s /\
    ((schedules s' = schedules s /\ refused (fst res)) \/
     (exists body c, jparse (rq_body req) = inr body /\ requested now body c /\ s_id c = NewScheduleId now counter /\
        Tables.CreateCommandSchedule c (schedules s) = (true, schedules s') /\
        fst res = Returns (json_response None
          (jdump (jset "schedule" (ScheduleToJson c now)
             (jset "error" (j_of_string "") (jset "success" (j_of_bool true) jnull))))))).

Lemma creates_refused now counter req s s1 out :
  same s s1 -> refused out -> creates now counter req s (out, Some s1).
Proof. intros [E1 E2] Hr. exists s1. split_and!; [done..|]. by left. Qed.

Lemma creates_stored now counter req body s s1 c :
  same s s1 -> jparse (rq_body req) = inr body -> requested now body c -> s_id c = NewScheduleId now counter ->
  creates now counter req s
    (let '(ok, err, s) := create_schedule c s1 in
     if ok then
       (Returns (json_response None
          (jdump (jset "schedule" (ScheduleToJson c now)
             (jset "error" (j_of_string "") (jset "success" (j_of_bool true) jnull))))), Some s)
     else
       (Returns (json_response (Some 400%Z)
          (jdump (jset "error" (j_of_string err) (jset "success" (j_of_bool false) jnull)))), Some s)).
Proof.
  intros [E1 E2] Hb Hc Hid. pose proof (create_schedule_tables c s1) as Ht.
  destruct (create_schedule c s1) as [[ok err] s2]. rewrite E1, E2 in Ht.
  assert (schedules s2 = schedules s -> runs s2 = runs s -> ok = false ->
    creates now counter req s (Returns (json_response (Some 400%Z)
       (jdump (jset "error" (j_of_string err) (jset "success" (j_of_bool false) jnull)))), Some s2)) as Hno.
  { intros Es Er _. exists s2. split_and!; [done..|]. left. split; [done|].
    intros r [= <-]. exists 400%Z. split; [done|lia]. }
  destruct Ht as [[Er Et]|(-> & Es & Er)]; [|by apply Hno].
  destruct ok.
  - exists s2. split_and!; [done..|]. right. exists body, c. by split_and!.
  - apply Hno; [|done..]. revert Et. unfold Tables.CreateCommandSchedule.
    by destruct (existsb _ _); intros [= ->].
Qed.

Lemma create_schedule_creates (now counter : Z) (req : request) (s : S) :
  creates now counter req s (create_schedule_handler now counter req (Some s)).
Proof.
  unfold create_schedule_handler. apply storage_ready_spec; [intros; apply creates_refused; auto with pudim lia|]. intros s1 Hs.
  assert (forall out, refused out -> creates now counter req s (out, Some s1)) as Hno
    by (intros; by apply creates_refused).
  assert (forall what, creates now counter req s (Returns (json_error 400 what), Some s1)) as Hbad
    by (intros; apply Hno; auto with pudim lia).
  apply with_body_spec; [done|]. intros body Hb. cbv zeta.
  destruct (jis_object body); [|apply Hbad]. cbn [negb].
  apply or_throw_spec; [by eauto with pudim|intros agent Ha].
  apply or_throw_spec; [by eauto with pudim|intros command Hc].
  destruct (is_empty agent || is_empty command) eqn:He; [apply Hbad|].
  apply or_throw_spec; [by eauto with pudim|intros start Hst].
  destruct (int_member body "window_end_unix_ms") as [ve|] eqn:Me; [|apply Hbad].
  apply or_throw_spec; [by eauto with pudim|intros end_ Hend].
  destruct (int_member body "interval_sec") as [vi|] eqn:Mi; [|apply Hbad].
  apply or_throw_spec; [by eauto with pudim|intros interval Hint].
  destruct (interval <? kMinIntervalSec)%Z eqn:Hmin; [apply Hbad|].
  destruct ((end_ <=? start)%Z || (end_ <? now)%Z) eqn:Hw; [apply Hbad|].
  apply or_throw_spec; [by eauto with pudim|intros label Hl].
  bool_hyps. apply (creates_stored _ _ _ body); [done..| |done].
  split; cbn; try done.
  - by destruct (jlookup body "params").
  - destruct (int_member body "window_start_unix_ms"); [exact Hst|by injection Hst].
  - by eapply int_member_spec.
  - by eapply int_member_spec.
Qed.

(** Claim C7: a request to create a schedule changes the store only by adding
    the schedule it asks for: the ids, the label and the parameters of the
    body, a window that starts as asked or now and ends after it starts and not in the past, an interval of at least a
    minute, enabled, with the first run at the window start or now, under an id
    not in the table; exactly then it is answered with that schedule.  Every
    other outcome (storage down, malformed body, a missing or bad member, a
    refused insertion, an exception) is an error answer or an exception, and
    both tables are as before. *)
Theorem create_schedule_spec (now counter : Z) (req : request) (s : S) :
  creates now counter req s (create_schedule_handler now counter req (Some s)).
Proof. apply create_schedule_creates. Qed.

(** *** The table stays well formed *)

Definition row_ok (c : CommandSchedule) : Prop :=
  (kMinIntervalSec <= s_interval_sec c)%Z /\
  (s_window_start_unix_ms c < s_window_end_unix_ms c)%Z /\
  (s_window_start_unix_ms c <= s_next_run_unix_ms c)%Z.
Definition table_ok (t : list CommandSchedule) : Prop := NoDup (Tables.keys t) /\ Forall row_ok t.

Lemma requested_ok now body c : requested now body c -> row_ok c.
Proof. intros [_ _ _ _ _ _ _ Hm [Hw _] Hf _]. unfold row_ok. lia. Qed.

Lemma table_ok_create now body c t t' :
  requested now body c -> Tables.CreateCommandSchedule c t = (true, t') -> table_ok t -> table_ok t'.
Proof.
  unfold Tables.CreateCommandSchedule. intros R Hc [Hnd Hok].
  destruct (existsb _ t) eqn:E; [done|]. injection Hc as <-. split.
  - unfold Tables.keys. rewrite map_app. apply NoDup_app. split_and!; [done| |apply NoDup_singleton].
    intros i [r [-> Hr]]%list_elem_of_fmap Hx%list_elem_of_singleton.
    apply not_true_iff_false in E. apply E, existsb_exists. exists r.
    split; [by apply list_elem_of_In|]. by apply String.eqb_eq.
  - apply Forall_app. split; [done|]. constructor; [|done]. by eapply requested_ok.
Qed.

(** An update that keeps the ids and the good rows. *)
Lemma table_ok_update p f t :
  (forall c, s_id (f c) = s_id c) -> (forall c, c ∈ t -> p c = true -> row_ok c -> row_ok (f c)) ->
  table_ok t -> table_ok (snd (Tables.update_where p f t)).
Proof.
  intros Hid Hf [Hnd Hok]. split; [by rewrite Tables.update_where_keys|]. cbn.
  apply Forall_map, Forall_forall. intros c Hc. rewrite Forall_forall in Hok.
  specialize (Hok c Hc). destruct (p c) eqn:E; auto.
Qed.

Lemma table_ok_delete id t : table_ok t -> table_ok (snd (Tables.DeleteCommandSchedule id t)).
Proof.
  intros [Hnd Hok]. cbn. split.
  - refine (sublist_NoDup _ _ Hnd _). apply fmap_sublist, sublist_filter.
  - rewrite Forall_forall in *. intros c [_ Hc]%list_elem_of_filter. auto.
Qed.

Lemma rebase_ok now c c' :
  Tables.stale now c = true -> Tables.rebase now c = Some c' -> row_ok c -> s_id c' = s_id c /\ row_ok c'.
Proof.
  unfold Tables.stale, Tables.rebase, Tables.bigint, Tables.kToleranceMs, row_ok, kMinIntervalSec.
  intros Hs Hr (Hi & Hw & Hn). bool_hyps.
  repeat (case_match; simplify_option_eq; try done).
  cbn. split; [done|]. split_and!; [done..|].
  assert (0 <= (now - s_window_start_unix_ms c) ÷ (s_interval_sec c * 1000))%Z by (apply Z.quot_pos; lia).
  nia.
Qed.

Lemma table_ok_reschedule now t : table_ok t -> table_ok (Tables.RescheduleStaleSchedules now t).
Proof.
  unfold Tables.RescheduleStaleSchedules. intros [Hnd Hok].
  destruct (mapM _ t) as [t'|] eqn:E; [|done].
  apply mapM_Some in E. enough (Tables.keys t' = Tables.keys t /\ Forall row_ok t') as [Ek Ht]
    by (split; [by rewrite Ek|done]).
  clear Hnd. induction E as [|c c' t t' Ec _ IH]; [done|].
  inversion Hok as [|? ? Hc Hok']; subst. destruct (IH Hok') as [Ek Ht]. cbn.
  enough (s_id c' = s_id c /\ row_ok c') as [-> ?] by (split; [by f_equal|by constructor]).
  destruct (Tables.stale now c) eqn:Es; [by eapply rebase_ok|]. by simplify_eq.
Qed.

Lemma NextSlot_from ws i now : (ws <= now)%Z -> (ws <= Slots.NextSlot ws i now)%Z.
Proof.
  intros Hn. unfold Slots.NextSlot. destruct (i <=? 0)%Z eqn:Ei; [lia|].
  destruct (now <=? ws)%Z eqn:En; bool_hyps; [lia|].
  assert (0 <= (now - ws) ÷ i)%Z by (apply Z.quot_pos; lia). nia.
Qed.

Lemma table_ok_claim now c t :
  Tables.due now c = true ->
  (forall r, r ∈ t -> s_id r = s_id c -> s_window_start_unix_ms r = s_window_start_unix_ms c) ->
  table_ok t ->
  table_ok (snd (Tables.AdvanceCommandScheduleNextRun (s_id c) (s_next_run_unix_ms c)
    (Slots.NextSlot (s_window_start_unix_ms c) (Int.to_int64 (s_interval_sec c * 1000)) now) t)).
Proof.
  unfold Tables.AdvanceCommandScheduleNextRun, Tables.due. intros Hd Hw Ht. bool_hyps.
  set (n := Slots.NextSlot _ _ _).
  change (snd _) with (snd (Tables.update_where (Tables.claimable (s_id c) (s_next_run_unix_ms c))
                             (set_next_run n) t)).
  apply table_ok_update; [done| |done].
  intros r Hr Hcl (Hi & Hwin & _). unfold Tables.claimable, Tables.has_id in Hcl. bool_hyps.
  split_and!; [done..|]. cbn. rewrite (Hw r) by done. by apply NextSlot_from.
Qed.

(** Every request and every action of the scheduler on the table. *)
Inductive step : S -> S -> Prop :=
  | step_list now s s' :
      snd (list_schedules_handler now (Some s)) = Some s' -> step s s'
  | step_create now counter req s s' :
      snd (create_schedule_handler now counter req (Some s)) = Some s' -> step s s'
  | step_delete req s s' :
      snd (delete_schedule_handler req (Some s)) = Some s' -> step s s'
  | step_enable now req s s' :
      snd (enable_schedule_handler now req (Some s)) = Some s' -> step s s'
  | step_runs req s s' :
      snd (runs_handler req (Some s)) = Some s' -> step s s'
  | step_reschedule now s s' :
      schedules s' = Tables.RescheduleStaleSchedules now (schedules s) -> step s s'
  | step_claim now c s s' :
      Tables.due now c = true ->
      (forall r, r ∈ schedules s -> s_id r = s_id c -> s_window_start_unix_ms r = s_window_start_unix_ms c) ->
      schedules s' = snd (Tables.AdvanceCommandScheduleNextRun (s_id c) (s_next_run_unix_ms c)
        (Slots.NextSlot (s_window_start_unix_ms c) (Int.to_int64 (s_interval_sec c * 1000)) now) (schedules s)) ->
      step s s'.

(** A handler's result keeps the table well formed. *)
Definition keeps (s : S) (res : outcome response * option S) : Prop :=
  forall s', snd res = Some s' -> table_ok (schedules s) -> table_ok (schedules s').

Lemma keeps_same s s1 out : schedules s1 = schedules s -> keeps s (out, Some s1).
Proof. intros E s' [= <-]. by rewrite E. Qed.

Lemma list_keeps now s : keeps s (list_schedules_handler now (Some s)).
Proof.
  unfold list_schedules_handler. apply storage_ready_spec; [intros ?? []; by apply keeps_same|]. intros s1 [Hs _].
  pose proof (list_schedules_tables s1) as [Hl _]. destruct (list_schedules s1) as [rows s2].
  cbn in Hl. rewrite Hs in Hl. apply or_throw_spec; intros; by apply keeps_same.
Qed.

Lemma create_keeps now counter req s : keeps s (create_schedule_handler now counter req (Some s)).
Proof.
  destruct (create_schedule_creates now counter req s) as (s1 & E & _ & Hc).
  intros s' E' Ht. rewrite E in E'. injection E' as <-.
  destruct Hc as [[-> _]|(body & c & _ & Hr & _ & Hc & _)]; [done|]. by eapply table_ok_create.
Qed.

Lemma delete_keeps req s : keeps s (delete_schedule_handler req (Some s)).
Proof.
  unfold delete_schedule_handler. apply storage_ready_spec; [intros ?? []; by apply keeps_same|]. intros s1 [Hs _].
  apply with_body_spec; [intros; by apply keeps_same|]. intros body _.
  apply or_throw_spec; [intros; by apply keeps_same|]. intros id _.
  destruct (is_empty id); [by apply keeps_same|].
  pose proof (delete_schedule_tables id s1) as Hd. destruct (delete_schedule id s1) as [[ok err] s2].
  destruct Hd as [[_ Hd]|(_ & Hd & _)]; [|apply keeps_same; congruence].
  intros s' [= <-] Ht. rewrite Hs in Hd. apply (f_equal snd) in Hd. cbn [snd] in Hd. rewrite Hd. by apply table_ok_delete.
Qed.

Lemma enable_keeps now req s : keeps s (enable_schedule_handler now req (Some s)).
Proof.
  unfold enable_schedule_handler. apply storage_ready_spec; [intros ?? []; by apply keeps_same|]. intros s1 [Hs _].
  apply with_body_spec; [intros; by apply keeps_same|]. intros body _.
  apply or_throw_spec; [intros; by apply keeps_same|]. intros id _.
  destruct (if is_empty id then None else _) as [v|]; [|by apply keeps_same].
  apply or_throw_spec; [intros; by apply keeps_same|]. intros b _.
  pose proof (enable_schedule_tables id b s1) as He. destruct (enable_schedule id b s1) as [[ok err] s2].
  pose proof (list_schedules_tables s2) as [Hl _]. destruct (list_schedules s2) as [rows s3]. cbn in Hl.
  cut (table_ok (schedules s) -> table_ok (schedules s2)).
  { intros Hk. apply or_throw_spec; intros; intros s' [= <-]; by rewrite Hl. }
  destruct He as [[_ He]|(_ & He & _)]; [|congruence].
  rewrite Hs in He. apply (f_equal snd) in He. cbn [snd] in He. rewrite He.
  apply table_ok_update; [done|]. intros c _ _. by destruct c.
Qed.

Lemma runs_keeps req s : keeps s (runs_handler req (Some s)).
Proof.
  unfold runs_handler. apply storage_ready_spec; [intros ?? []; by apply keeps_same|]. intros s1 [Hs _].
  set (a := get_param_value req "agent_id"). set (c := get_param_value req "command_id").
  set (i := get_param_value req "schedule_id"). set (n := if has_param req "limit" then _ else _).
  cbv zeta. pose proof (list_runs_tables a c i n s1) as [Hl _]. destruct (list_runs a c i n s1) as [rows s2].
  cbn in Hl. rewrite Hs in Hl. apply or_throw_spec; intros; by apply keeps_same.
Qed.

(** Claim C35: from any store whose schedule table is well formed (distinct
    ids, intervals of at least a minute, windows that end after they start, no
    next run before the window), every sequence of schedule requests and of
    the scheduler's re-basing and claims leaves it well formed, so the
    scheduler never meets a schedule without a positive interval; this holds
    whatever requests arrive and whenever the database fails.  A claim is for
    a schedule the scheduler has read, whose row, if it is still there, has the
    window that was read: no operation changes it. *)
Theorem schedules_well_formed (s : S) :
  Steps.reachable (fun s => table_ok (schedules s)) step s -> table_ok (schedules s).
Proof.
  revert s. apply Steps.reachable_invariant.
  - done.
  - intros s t _ Hs Hst. destruct Hst as [????|??????|????|?????|????|??? E|?????? E].
    + by eapply list_keeps.
    + by eapply create_keeps.
    + by eapply delete_keeps.
    + by eapply enable_keeps.
    + by eapply runs_keeps.
    + rewrite E. by apply table_ok_reschedule.
    + rewrite E. by apply table_ok_claim.
Qed.
End Api.

Import Reference Memory.

Definition demo_body : jval :=
  JObject [("agent_id", JString "a1"); ("command_id", JString "ping");
           ("window_end_unix_ms", JInt 9000000); ("interval_sec", JInt 60)].
Definition demo_req : request := mkRequest (jdump demo_body) [].
Definition demo_store : memory := mkMemory [] [] (Tables.mkRuns 1 []).
Definition demo_created : outcome response * option memory :=
  create_schedule_handler (J := jval) 5000 0 demo_req (Some demo_store).

Lemma create_schedule_spec_witness :
  (option_map (fun s => map s_next_run_unix_ms (m_schedules s)) (snd demo_created) = Some [5000%Z]) /\
  creates (J := jval) 5000 0 demo_req demo_store demo_created.
Proof. split; [vm_compute; reflexivity|]. apply create_schedule_spec. Defined.

(** The database is down at the second call, the insertion. *)
Example create_during_outage :
  match create_schedule_handler (J := jval) 5000 0 demo_req
          (Some (mkMemory [false; true] [] (Tables.mkRuns 1 []))) with
  | (Returns r, Some s) => rs_status r = Some 400%Z /\ m_schedules s = []
  | _ => False
  end.
Proof. vm_compute. done. Qed.

(** A table with a schedule, to which a request adds one. *)
Definition demo_held : memory :=
  mkMemory [] [mkSchedule "s0" "old" "a1" "ping" "{}" 1000 90000000 600 601000 true] (Tables.mkRuns 1 []).
Definition demo_after : memory :=
  default demo_held (snd (create_schedule_handler (J := jval) 5000 0 demo_req (Some demo_held))).
Lemma schedules_well_formed_witness :
  Steps.reachable (fun s => table_ok (schedules s)) (step (J := jval)) demo_after /\
  length (schedules demo_after) = 2%nat /\ table_ok (schedules demo_after).
Proof.
  assert (table_ok (schedules demo_held)) as H0.
  { split; [apply (bool_decide_unpack _); vm_compute; exact I|].
    constructor; [|constructor]. split; [|split]; vm_compute; congruence. }
  assert (Steps.reachable (fun s => table_ok (schedules s)) (step (J := jval)) demo_after) as Hr.
  { apply (Steps.reach_step _ _ demo_held); [by apply Steps.reach_init|].
    apply (step_create 5000 0 demo_req). vm_compute. reflexivity. }
  split; [exact Hr|]. split; [vm_compute; reflexivity|].
  by apply (schedules_well_formed (J := jval)).
Defined.
End Api.

Module Runs.
Section Runs.
Context {J : Type} `{JsonOps J, JsonText J}.
Context {S : Type} `{!CommandStore S, !CommandStoreLaws S}.
Variable api : agent_api.
Variable iter : gmap string string -> list (string * string).

(** The agent answered this command request. *)
Definition answered (r : AgentRegistry.state) (req : request) (agent_id command_id : string)
    (c : CommandResponse) : Prop :=
  exists body params,
    jparse (rq_body req) = inr body /\
    Json.value_string body "agent_id" "" = Returns agent_id /\ agent_id <> "" /\
    Json.value_string body "command_id" "" = Returns command_id /\ command_id <> "" /\
    AgentRegistry.GetDiagnosticEndpoint r agent_id <> "" /\
    let '(status, a) := RunCommand api (AgentRegistry.GetDiagnosticEndpoint r agent_id)
                          (mkRunCommandRequest agent_id command_id params) in
    st_code status = OK /\ a = c.

(** The history row of the answer [c], unfinished or finished. *)
Definition row_of (now_insert now_finish : Z) (agent_id command_id : string) (c : CommandResponse)
    (id : Z) (row : CommandRun) : Prop :=
  run_id row = id /\ run_schedule_id row = "" /\ run_agent_id row = agent_id /\
  run_command_id row = command_id /\
  started_unix_ms row = (if (0 <? c_timestamp_unix_ms c)%Z then c_timestamp_unix_ms c else now_insert) /\
  (has_result row = true ->
   run_success row = c_success c /\ run_error row = c_error c /\ run_summary row = c_summary c /\
   run_detail row = c_detail c /\ finished_unix_ms row = now_finish).

(** What recording the answer may do to the history. *)
Definition kept (now_insert now_finish : Z) (agent_id command_id : string) (c : CommandResponse)
    (s s' : S) : Prop :=
  runs s' = runs s \/
  exists row, row_of now_insert now_finish agent_id command_id c (Tables.next_serial (runs s)) row /\
    Tables.rows (runs s') = Tables.rows (runs s) ++ [row].

Lemma record_adhoc_spec now_insert now_finish agent_id command_id c s :
  Tables.serials_fresh (runs s) -> (0 < Tables.next_serial (runs s))%Z ->
  let res := record_adhoc iter now_insert now_finish agent_id command_id c s in
  schedules (snd res) = schedules s /\ kept now_insert now_finish agent_id command_id c s (snd res).
Proof.
  intros Hf Hpos. cbv zeta. unfold record_adhoc.
  set (run := adhoc_run now_insert agent_id command_id c).
  pose proof (insert_run_tables run s) as Hi. destruct (insert_run run s) as [[[i|w] err] s1].
  - destruct Hi as [Es [[Hno Er]|(j & [= <-] & Er)]].
    + rewrite (Hno i eq_refl). cbn. split; [done|]. by left.
    + cbn [Tables.InsertCommandRun] in Er. injection Er as -> Er.
      rewrite (proj2 (Z.ltb_lt 0 _)) by done.
      set (fin := Execute.set_result _ _ _ _ _ _ _ _ _).
      pose proof (finish_run_tables fin s1) as Hfin. destruct (finish_run fin s1) as [[ok e] s2].
      destruct Hfin as [Es2 Hfin]. cbn [snd]. split; [congruence|]. right.
      destruct Hfin as [[_ Er2]|[_ Er2]]; rewrite Er2.
      * exists (Tables.finish_row fin (Tables.inserted run (Tables.next_serial (runs s)))).
        split; [by split_and!|]. rewrite <- Tables.finish_inserted; [|done..]. by rewrite Er.
      * exists (Tables.inserted run (Tables.next_serial (runs s))).
        split; [by split_and!|]. by rewrite Er.
  - cbn [snd]. destruct Hi as [Es [[_ Er]|(j & E & _)]]; [|done]. split; [done|]. by left.
Qed.

(** Claim C37: an ad-hoc command.  The answer to the client does not depend on
    the storage: it is the one given without any storage (unless reading the
    new row's id throws), whatever call to the database fails.  When the agent
    answered, the history gains at most one row, for this agent and command,
    not tied to a schedule, under the next serial, and if the row is finished
    it tells the agent's answer; when the agent did not answer, nothing is
    stored.  The schedules are never touched. *)
Theorem run_command_recorded now_insert now_finish r req s :
  Tables.serials_fresh (runs s) -> (0 < Tables.next_serial (runs s))%Z ->
  let res := run_command_handler api iter now_insert now_finish r req (Some s) in
  let out := fst (run_command_handler api iter now_insert now_finish r req (@None S)) in
  exists s', snd res = Some s' /\ schedules s' = schedules s /\
    ((exists agent_id command_id c,
        answered r req agent_id command_id c /\ out = Returns (command_answer iter c) /\
        (fst res = out \/ exists w, fst res = Throws w) /\
        kept now_insert now_finish agent_id command_id c s s') \/
     (fst res = out /\ s' = s)).
Proof.
  intros Hf Hpos. cbv zeta. unfold run_command_handler, with_body.
  destruct (jparse (rq_body req)) as [what|body] eqn:Eb; [exists s; eauto|]. cbn [snd fst].
  destruct (Json.value_string body "agent_id" "") as [agent|] eqn:Ea; [|exists s; eauto]. cbn [or_throw].
  destruct (Json.value_string body "command_id" "") as [command|] eqn:Ec; [|exists s; eauto]. cbn [or_throw].
  destruct (is_empty agent || is_empty command) eqn:Ee; [exists s; eauto|]. bool_hyps.
  unfold PrepareAgentCall. destruct (is_empty (AgentRegistry.GetDiagnosticEndpoint r agent)) eqn:Ep;
    [exists s; eauto|]. bool_hyps.
  destruct (match jlookup body "params" with Some _ => _ | None => _ end) as [params|];
    [|exists s; eauto]. cbn [or_throw].
  destruct (RunCommand api _ _) as [status c] eqn:Ecall.
  destruct (bool_decide (st_code status = OK)) eqn:Eok; [|exists s; eauto]. apply bool_decide_eq_true in Eok.
  pose proof (record_adhoc_spec now_insert now_finish agent command c s Hf Hpos) as [Es Hk].
  destruct (record_adhoc iter now_insert now_finish agent command c s) as [done_ s'].
  exists s'. destruct done_; cbn [or_throw snd fst].
  all: split; [done|]; split; [done|]; left; exists agent, command, c;
    split_and!; eauto; exists body, params; split_and!; eauto; by rewrite Ecall.
Qed.
End Runs.

Import Reference Memory.

Definition demo_api : agent_api :=
  mkAgentApi (fun _ _ => (Status_OK, mkDiagnosticResponse false "" 0 ""))
    (fun _ _ => (Status_OK, mkAgentConfigResponse true "" ""))
    (fun _ _ => (Status_OK, mkAgentConfigResponse true "" ""))
    (fun _ _ => (Status_OK, mkListCommandsResponse true "" []))
    (fun _ rq => (Status_OK, mkCommandResponse true (rc_command_id rq) "" 4000 "fine" ∅ [] "text")).
Definition demo_req : request :=
  mkRequest (jdump (JObject [("agent_id", JString "a"); ("command_id", JString "ping")])) [].
Definition demo_run (outages : list bool) : outcome response * option memory :=
  run_command_handler (J := jval) demo_api map_to_list 5000 5100 AgentRegistry.demo demo_req
    (Some (mkMemory outages [] (Tables.mkRuns 1 []))).

(** Up, down at the insertion, down at the second write. *)
Example demo_histories :
  map (fun o => option_map (fun s => map has_result (Tables.rows (m_runs s))) (snd (demo_run o)))
    [[]; [true]; [false; true]] = [Some [true]; Some []; Some [false]].
Proof. vm_compute. reflexivity. Qed.

Lemma run_command_recorded_witness :
  Tables.serials_fresh (Tables.mkRuns 1 []) /\
  exists s', snd (demo_run []) = Some s' /\ schedules s' = [].
Proof.
  assert (Tables.serials_fresh (Tables.mkRuns 1 [])) as Hf
    by (split; [constructor|intros r []%not_elem_of_nil]).
  split; [exact Hf|].
  destruct (run_command_recorded (J := jval) (CommandStoreLaws0 := memory_laws) demo_api map_to_list 5000 5100 AgentRegistry.demo demo_req
              (mkMemory [] [] (Tables.mkRuns 1 [])) Hf ltac:(vm_compute; reflexivity))
    as (s' & E & Es & _).
  exists s'. split; [exact E|exact Es].
Defined.
End Runs.

Module Fleet.
Section Fleet.
Context {J : Type} `{JsonOps J, JsonText J}.
Variable iter : gmap string AgentRegistry.AgentEntry -> list (string * AgentRegistry.AgentEntry).

(** A request to forget an agent removes exactly the agent it names
    and answers 200 when the registry knew it; from then on the agent is not
    alive, and a diagnostic or command request for it is answered 404 without
    a call, until its next heartbeat.  An unknown agent is answered 404, and
    after that answer or any other refusal the registry is as before. *)
Theorem delete_agent_spec (now : Z) (req : request) (r : AgentRegistry.state) :
  let '(out, r') := delete_agent_handler iter now req r in
  (refused out /\ r' = r) \/
  exists body v agent_id,
    jparse (rq_body req) = inr body /\ jlookup body "agent_id" = Some v /\ jget_string v = Returns agent_id /\
    out = Returns (json_response (Some 200%Z) (agents_response iter now true "" r')) /\
    is_Some (AgentRegistry.m_agents r !! agent_id) /\
    (forall i, i <> agent_id -> AgentRegistry.m_agents r' !! i = AgentRegistry.m_agents r !! i) /\
    (forall t timeout, AgentRegistry.IsAgentAlive t r' agent_id timeout = false) /\
    (exists resp, rs_status resp = Some 404%Z /\ PrepareAgentCall r' agent_id = inl resp /\
       forall api rq, get_param_value rq "agent_id" = agent_id ->
         diagnostic_handler api r' rq = resp /\ agent_commands_handler api r' rq = resp /\
         get_config_handler api r' rq = resp).
Proof.
  unfold delete_agent_handler. apply Api.with_body_spec; [intros; left; split; auto with pudim lia|].
  intros body Hb. cbv zeta.
  destruct (jis_object body); cbn [negb]; [|left; split; auto with pudim lia].
  destruct (jlookup body "agent_id") as [v|] eqn:Ev; [|left; split; auto with pudim lia].
  destruct (jis_string v); cbn [negb]; [|left; split; auto with pudim lia].
  apply Api.or_throw_spec; [intros; left; split; auto with pudim|]. intros id Hid.
  destruct (is_empty id) eqn:Ee; [left; split; auto with pudim lia|].
  pose proof (AgentRegistry.RemoveAgent_lookup id r) as Hl.
  unfold AgentRegistry.RemoveAgent in *. destruct (AgentRegistry.m_agents r !! id) as [e|] eqn:El.
  - right. exists body, v, id. cbn [snd] in Hl. split_and!; eauto.
    + intros i Hi. rewrite Hl. by rewrite decide_False.
    + intros t timeout. unfold AgentRegistry.IsAgentAlive. by rewrite Hl, decide_True.
    + unfold diagnostic_handler, agent_commands_handler, get_config_handler, call_agent, PrepareAgentCall,
        AgentRegistry.GetDiagnosticEndpoint. rewrite Hl, decide_True by done.
      eexists. split_and!; [|reflexivity|]; [done|].
      intros api rq ->. by rewrite Ee, Hl, decide_True.
  - left. split; [|done]. intros r0 [= <-]. eexists. split; [done|lia].
Qed.
End Fleet.
End Fleet.

Module Rules.
Import AlertRule.AlertRule AlertManager.
Section Rules.
Context {J : Type} `{JsonOps J, JsonText J, !JsonLaws J, !JsonTextLaws J}.

(** The rules a client reads in an answer. *)
Definition rules_in (text : string) : outcome (string + list AlertRule) :=
  match jparse text with
  | inl what => Returns (inl what)
  | inr doc => match jlookup doc "rules" with
               | Some l => ParseRules (jelements l)
               | None => Returns (inl "no rules")
               end
  end.

Definition says_success (text : string) : Prop :=
  exists doc, jparse text = inr doc /\ Json.value_bool doc "success" false = Returns true.

(** The request a client sends for a rule. *)
Definition upsert_request (rule : AlertRule) : request :=
  mkRequest (jdump (jset "rule" (RuleToJson rule) jnull)) [].

Lemma replace_rule_valid rule rules :
  valid_rule rule -> Forall valid_rule rules -> Forall valid_rule (replace_rule rule rules).
Proof.
  intros Hr. induction 1 as [|r rs H1 H2 IH]; cbn; [by apply Forall_singleton|].
  destruct (String.eqb _ _); by constructor.
Qed.

Lemma answer_rules ok err m d :
  Forall valid_rule (m_rules m) -> utf8 err = true ->
  exists text, alert_rules_response ok err (Some m, d) = Returns text /\
    rules_in text = Returns (inr (m_rules m)) /\
    exists doc, jparse text = inr doc /\ Json.value_bool doc "success" false = Returns ok.
Proof.
  intros Hv He. unfold alert_rules_response, RulesJson. cbn [fst]. pose proof (printable_rules _ Hv) as Hp.
  rewrite jparse_dump by by printable_object.
  eexists. split; [reflexivity|]. unfold rules_in. rewrite jparse_dump by (printable_object; [by apply printable_string|done]). split.
  - rewrite !jlookup_set_ne by (intros [=]). rewrite jlookup_set_eq, jelements_array.
    by apply ParseRules_map.
  - eexists. split; [reflexivity|]. unfold Json.value_bool, Json.value_as.
    assert (jis_object (jset "rules" (jarray (RuleToJson <$> m_rules m)) jnull) = true) as Ho
      by (apply jis_object_set; by right).
    rewrite !jis_object_set by (left; repeat first [exact Ho | apply jis_object_set; left]).
    rewrite !jlookup_set_ne by (intros [=]). by rewrite jlookup_set_eq, jget_bool_of.
Qed.

(** A valid rule sent to the server comes back unchanged.  The
    answer to an upsert request reports success, and the rule list in it,
    parsed as the manager parses rules, is exactly the manager's list, in
    which the rule sent is the one found under its id and every other rule is
    as before; the rules file, when there is one, mirrors the list. *)
Theorem upsert_rule_roundtrip (rule : AlertRule) (m : state) (d : disk) :
  valid_rule rule -> Forall valid_rule (m_rules m) ->
  (m_rules_path m = "" \/ opens d (m_rules_path m) = true /\ writes d (m_rules_path m) = true) ->
  exists text m' d',
    upsert_rule_handler (upsert_request rule) (Some m, d) =
      (Returns (json_response (Some 200%Z) text), (Some m', d')) /\
    says_success text /\ rules_in text = Returns (inr (m_rules m')) /\
    FindRule (m_rules m') (id rule) = Some rule /\
    (forall rid, rid <> id rule -> FindRule (m_rules m') rid = FindRule (m_rules m) rid) /\
    mirrors m' d'.
Proof.
  intros Hr Hv Hd.
  assert (exists d', persist (replace_rule rule (m_rules m)) m d = (d', None)) as [d' Hp].
  { unfold persist, WriteRulesFileLocked. destruct (is_empty (m_rules_path m)) eqn:E; bool_hyps; [eauto|].
    destruct Hd as [?|[-> ->]]; [done|]. cbn. eauto. }
  assert (jis_object (jset "rule" (RuleToJson rule) jnull) = true) as Ho by (apply jis_object_set; by right).
  set (m' := set_rules (replace_rule rule (m_rules m)) m).
  destruct (answer_rules true "" m' d') as (text & Ht & Hrules & Hok);
    [by apply replace_rule_valid|done|].
  exists text, m', d'. split.
  - unfold upsert_rule_handler, with_body, upsert_request. cbn [rq_body].
    rewrite jparse_dump, Ho by (apply printable_set; [done|by apply printable_RuleToJson|apply printable_null|by right]).
    cbn [negb]. rewrite jlookup_set_eq, is_object_RuleToJson, jis_null_object by apply is_object_RuleToJson.
    cbn [negb orb].
    unfold UpsertRule. rewrite jparse_dump, is_object_RuleToJson by by apply printable_RuleToJson. cbn [negb].
    rewrite parse_RuleToJson by done. cbn [obind]. rewrite Hp. cbn [or_throw].
    fold m'. unfold rule_answer. change (default "" (@None string)) with "". by rewrite Ht.
  - split_and!; [done|done|apply replace_rule_lookup|by intros; apply replace_rule_other|by eapply persist_ok].
Qed.
End Rules.

Lemma upsert_rule_roundtrip_witness :
  valid_rule Demo.rule1 /\
  exists text m' d', upsert_rule_handler (upsert_request Demo.rule1) (Some init, Demo.disk1) =
    (Returns (json_response (Some 200%Z) text), (Some m', d')) /\
    FindRule (m_rules m') (id Demo.rule1) = Some Demo.rule1.
Proof.
  assert (valid_rule Demo.rule1) as Hv by (apply (Forall_singleton valid_rule), Demo.rule1_valid).
  split; [exact Hv|].
  destruct (upsert_rule_roundtrip (J := Reference.jval) Demo.rule1 init Demo.disk1 Hv (Forall_nil_2 _)
              (or_introl eq_refl)) as (text & m' & d' & E & _ & _ & F & _).
  exists text, m', d'. split; [exact E|exact F].
Defined.
End Rules.
