(* ===== verification/Exporter.v ===== *)
(** * Exporter: the Prometheus text of the collector

    Models [HttpServer::FormatPrometheusMetrics] of
    [collector/src/http_server.cpp].  The text is built from the counters of
    the other components; [scrape] is a reference reader of the exposition
    format, and the theorem says that it reads back exactly these counters. *)
From stdpp Require Import base gmap strings list.
From Stdlib Require Import ZArith Lia Ascii.
From S2P Require Import Prelude Proto AlertManager AgentRegistry Storage Kafka MetricsService.
Import Str.
#[local] Open Scope string_scope.
#[local] Open Scope list_scope.

Inductive metric_type : Type := Counter | Gauge.
Definition type_name (t : metric_type) : string :=
  match t with Counter => "counter" | Gauge => "gauge" end.

(** One family: its HELP, TYPE and sample lines. *)
Record family : Type := mkFamily {
  f_name : string;
  f_help : string;
  f_type : metric_type;
  f_value : Z;
}.

Definition eol : string := chr nl.
Definition family_text (f : family) : string :=
  "# HELP " +:+ f_name f +:+ " " +:+ f_help f +:+ eol +:+
  "# TYPE " +:+ f_name f +:+ " " +:+ type_name (f_type f) +:+ eol +:+
  f_name f +:+ " " +:+ of_Z (f_value f) +:+ eol.

(** Everything the exporter reads; the optional parts are the components the
    collector may run without.  The storage appears with the health it answers. *)
Record sources {S W : Type} : Type := mkSources {
  registry : AgentRegistry.state;
  metrics_service : option (Endpoints.service S);
  alert_manager : option AlertManager.state;
  kafka_producer : option (@Producer.state W);
  storage : option (StorageStats * bool);
}.
#[global] Arguments sources : clear implicits.
#[global] Arguments mkSources {S W} _ _ _ _ _.

Section Exporter.
Context {S W : Type}.
Variable iter : gmap string AgentRegistry.AgentEntry -> list (string * AgentRegistry.AgentEntry).
Variable now : Z.

Definition when {A} (o : option A) (f : A -> list family) : list family :=
  match o with Some a => f a | None => [] end.

Definition families (s : sources S W) : list family :=
  [mkFamily "pudim_heartbeats_received_total" "Total heartbeats received" Counter
     (AgentRegistry.HeartbeatCount (registry s));
   mkFamily "pudim_agents_active" "Current number of active agents" Gauge
     (Z.of_nat (AgentRegistry.ActiveAgentCount iter now (registry s) 30000));
   mkFamily "pudim_agents_registered" "Total registered agents" Gauge
     (Z.of_nat (AgentRegistry.TotalAgentCount (registry s)))] ++
  when (metrics_service s) (fun m =>
    [mkFamily "pudim_metrics_received_total" "Total metrics received" Counter (Endpoints.received_metrics m);
     mkFamily "pudim_metrics_batches_received_total" "Total metric batches received" Counter
       (Endpoints.batches_received m);
     mkFamily "pudim_metrics_rejected_total" "Total metrics rejected" Counter (Endpoints.rejected_metrics m)]) ++
  when (alert_manager s) (fun a =>
    [mkFamily "pudim_alerts_firing" "Currently firing alerts" Gauge (Z.of_nat (AlertManager.ActiveAlertCount a));
     mkFamily "pudim_alert_notifications_total" "Total alert notifications sent" Counter
       (AlertManager.TotalAlertsFired a);
     mkFamily "pudim_alert_rules_loaded" "Number of loaded alert rules" Gauge
       (Z.of_nat (AlertManager.RuleCount a))]) ++
  when (kafka_producer s) (fun k =>
    [mkFamily "pudim_kafka_produced_total" "Metrics batches produced to Kafka" Counter (Producer.produced_total k);
     mkFamily "pudim_kafka_delivery_failures_total" "Kafka delivery failures" Counter
       (Producer.delivery_failures k)]) ++
  when (metrics_service s) (fun m =>
    [mkFamily "pudim_clock_skew_warnings_total" "Clock-skew warnings" Counter (Endpoints.skew_warnings m);
     mkFamily "pudim_backpressure_signals_sent_total" "x-overloaded signals sent to agents" Counter
       (Endpoints.backpressure_signals_sent m)]) ++
  when (storage s) (fun '(st, healthy) =>
    [mkFamily "pudim_storage_metrics_written_total" "Metrics written to storage" Counter (metrics_written st);
     mkFamily "pudim_storage_batches_written_total" "Batches written to storage" Counter (batches_written st);
     mkFamily "pudim_storage_errors_total" "Storage errors" Counter (errors st);
     mkFamily "pudim_storage_insert_latency_total_ms" "Cumulative storage insert latency" Counter
       (insert_latency_total_ms st);
     mkFamily "pudim_storage_healthy" "Storage health (1=ok, 0=unhealthy)" Gauge (if healthy then 1 else 0)]).

Definition texts (l : list family) : string := fold_right (fun f out => family_text f +:+ out) "" l.
Definition FormatPrometheusMetrics (s : sources S W) : string := texts (families s).
End Exporter.

(** ** A reader of the format *)

(** The sample on a line; comment lines have none. *)
Definition sample (line : string) : option (string * Z) :=
  if has_prefix "#" line then None
  else
    i ← sfind " " line;
    v ← parse_int (sdrop (i + 1) line);
    Some (stake i line, v).

Definition scrape (text : string) : list (string * Z) := omap sample (lines "" text).

(** What makes a family readable: a name without spaces or a leading "#", and
    single-line texts. *)
Definition plain (f : family) : bool :=
  negb (has_char " " (f_name f)) && negb (has_char nl (f_name f)) && negb (has_char nl (f_help f)) &&
  negb (has_prefix "#" (f_name f)) && negb (is_empty (f_name f)).

Lemma of_Z_no_nl (z : Z) : has_char nl (of_Z z) = false.
Proof.
  unfold has_char. apply negb_false_iff, of_Z_chars; [|done].
  intros [[] [] [] [] [] [] [] []]; done.
Qed.

Lemma texts_lines f s :
  plain f = true ->
  lines "" (family_text f +:+ s) =
  ("# HELP " +:+ f_name f +:+ " " +:+ f_help f) ::
  ("# TYPE " +:+ f_name f +:+ " " +:+ type_name (f_type f)) ::
  (f_name f +:+ " " +:+ of_Z (f_value f)) :: lines "" s.
Proof.
  unfold plain. intros Hp. bool_hyps.
  assert (forall p t, has_char nl p = false -> has_char nl t = false ->
    has_char nl (p +:+ f_name f +:+ " " +:+ t) = false) as Hn.
  { intros p t Hp Ht. rewrite !has_char_app, Hp, Ht, orb_false_r. cbn; match goal with E : has_char nl (f_name f) = false |- _ => by rewrite E end. }
  assert (family_text f +:+ s =
    ("# HELP " +:+ f_name f +:+ " " +:+ f_help f) +:+ eol +:+
    (("# TYPE " +:+ f_name f +:+ " " +:+ type_name (f_type f)) +:+ eol +:+
     ((f_name f +:+ " " +:+ of_Z (f_value f)) +:+ eol +:+ s))) as ->.
  { unfold family_text. rewrite !sapp_assoc. done. }
  unfold eol; rewrite !lines_app; [done|..]; try (apply Hn; try done).
  - rewrite !has_char_app, of_Z_no_nl, orb_false_r. cbn; match goal with E : has_char nl (f_name f) = false |- _ => by rewrite E end.
  - by destruct (f_type f).
Qed.

Lemma sample_value f :
  plain f = true -> sample (f_name f +:+ " " +:+ of_Z (f_value f)) = Some (f_name f, f_value f).
Proof.
  unfold plain, sample. intros Hp. bool_hyps.
  assert (has_prefix "#" (f_name f +:+ " " +:+ of_Z (f_value f)) = false) as ->.
  { apply not_true_is_false. intros [t E]%sprefix_spec. destruct (f_name f) as [|c s]; [done|].
    injection E as -> _. by rewrite (sprefix_app "#" s : has_prefix "#" (String "#" s) = true) in *. }
  change (" " +:+ of_Z (f_value f)) with (String " " (of_Z (f_value f))).
  rewrite sfind_app_sep by done. cbn [mbind option_bind].
  rewrite Nat.add_1_r, sdrop_S_app, parse_int_of_Z. cbn [mbind option_bind]. by rewrite stake_app.
Qed.

Lemma scrape_texts l :
  forallb plain l = true -> scrape (texts l) = map (fun f => (f_name f, f_value f)) l.
Proof.
  unfold scrape. induction l as [|f l IH]; [done|]. cbn [forallb texts fold_right map].
  intros [Hf Hl]%andb_true_iff. change (fold_right _ "" l) with (texts l).
  rewrite texts_lines by done. cbn [omap list_omap].
  change (sample ("# HELP " +:+ _)) with (@None (string * Z)).
  change (sample ("# TYPE " +:+ _)) with (@None (string * Z)).
  rewrite sample_value by done. f_equal. by apply IH.
Qed.

(** The exposition text is readable and complete.  A reader of the
    Prometheus format gets from it exactly the counters of the components that
    are present, each under its name with its present value, in a fixed order
    and without duplicate names. *)
Theorem scrape_FormatPrometheusMetrics {S W : Type}
    (iter : gmap string AgentRegistry.AgentEntry -> list (string * AgentRegistry.AgentEntry)) (now : Z)
    (s : sources S W) :
  scrape (FormatPrometheusMetrics iter now s) = map (fun f => (f_name f, f_value f)) (families iter now s) /\
  NoDup (map f_name (families iter now s)).
Proof.
  split.
  - apply scrape_texts. destruct s as [r [m|] [a|] [k|] [[st h]|]]; reflexivity.
  - destruct s as [r [m|] [a|] [k|] [[st h]|]]; cbn [families when app map f_name registry
      metrics_service alert_manager kafka_producer storage]; apply (bool_decide_unpack _); vm_compute; exact I.
Qed.

Definition demo_sources : sources unit unit :=
  mkSources AgentRegistry.demo None (Some AlertManager.Demo.manager) None (Some (mkStats 5 1 0 12, true)).
Example demo_scrape :
  scrape (FormatPrometheusMetrics map_to_list 20000 demo_sources) !! 5%nat = Some ("pudim_alert_rules_loaded", 1%Z).
Proof. vm_compute. reflexivity. Qed.
