(* ===== verification/GetOpt.v ===== *)
(** * GetOpt: the option parser of the Windows build

    Models [agent/src/platform/getopt.cpp]: [getopt_long] as a function from the
    parser's static state ([optind], [g_pos], [optopt]) to its result and the
    next state.  [parse] is the loop of its caller.  Messages to stderr are left
    out.  The theorems: the loop ends on every command line, and a command line
    written from a list of options is read back as that list. *)
From stdpp Require Import base gmap strings list.
From Stdlib Require Import ZArith Lia Ascii.
From S2P Require Import Prelude.
Import Str.
#[local] Open Scope string_scope.
#[local] Open Scope list_scope.

Inductive arg_kind : Type := no_argument | required_argument | optional_argument.
#[global] Instance arg_kind_eq_dec : EqDecision arg_kind.
Proof. solve_decision. Defined.

(** [lo_flag] is the address written instead of returning the value. *)
Record long_option : Type := mkOption {
  lo_name : string;
  lo_has_arg : arg_kind;
  lo_flag : option nat;
  lo_val : Z;
}.

(** [g_pos] is the rest of the argument being read; [optind] indexes argv. *)
Record state : Type := mkState {
  optind : nat;
  g_pos : option string;
  optopt : Z;
  longindex : Z;
  flags : gmap nat Z;
}.

Definition start : state := mkState 1 None 0 0 ∅.

Definition question : Z := 63.
Definition colon : Z := 58.
Definition char_val (c : Ascii.ascii) : Z := Z.of_nat (Ascii.nat_of_ascii c).
(** A [char] returned as an [int]: [char] is signed on Windows. *)
Definition as_int (c : Ascii.ascii) : Z := if (char_val c <? 128)%Z then char_val c else char_val c - 256.

(** [FindLong]: an exact name at once, else the only name with this prefix. *)
Inductive found : Type := Exact (i : nat) | NoMatch | Ambiguous.
Fixpoint find_from (longopts : list long_option) (key : string) (i : nat) (m : option nat) (ambiguous : bool)
    : found :=
  match longopts with
  | [] => if ambiguous then Ambiguous else match m with Some j => Exact j | None => NoMatch end
  | lo :: rest =>
      if negb (has_prefix key (lo_name lo)) then find_from rest key (S i) m ambiguous
      else if Nat.eqb (String.length (lo_name lo)) (String.length key) then Exact i
      else match m with
           | Some _ => find_from rest key (S i) m true
           | None => find_from rest key (S i) (Some i) ambiguous
           end
  end.
Definition FindLong (longopts : list long_option) (key : string) : found :=
  find_from longopts key 0 None false.

(** Leaving the current argument. *)
Definition next (n : nat) (s : state) : state :=
  mkState n None (optopt s) (longindex s) (flags s).
Definition bad (opt : Z) (s : state) : state :=
  mkState (S (optind s)) None opt (longindex s) (flags s).

(** The answer to a missing argument. *)
Definition missing (optstring : string) : Z :=
  match optstring with
  | String c _ => if Ascii.eqb c ":" then colon else question
  | "" => question
  end.

(** The name is all after the dashes up to an "=". *)
Definition long (argv : list string) (optstring : string) (longopts : list long_option) (name : string)
    (s : state) : Z * option string * state :=
  let eq := sfind "=" name in
  let key := match eq with Some i => stake i name | None => name end in
  match FindLong longopts key with
  | Ambiguous | NoMatch => (question, None, bad question s)
  | Exact i =>
      match longopts !! i with
      | None => (question, None, bad question s)     (* not an index of the table *)
      | Some lo =>
          let s := mkState (optind s) (g_pos s) (optopt s) (Z.of_nat i) (flags s) in
          let value := match eq with Some i => Some (sdrop (i + 1) name) | None => None end in
          let found (arg : option string) (n : nat) :=
            match lo_flag lo with
            | Some a => (0%Z, arg, mkState n None (optopt s) (longindex s) (<[a := lo_val lo]> (flags s)))
            | None => (lo_val lo, arg, next n s)
            end in
          match lo_has_arg lo, value with
          | required_argument, Some v => found (Some v) (S (optind s))
          | required_argument, None =>
              match argv !! S (optind s) with
              | Some v => found (Some v) (S (S (optind s)))
              | None => (missing optstring, None, bad (lo_val lo) s)
              end
          | optional_argument, _ => found value (S (optind s))
          | no_argument, Some _ => (question, None, bad (lo_val lo) s)
          | no_argument, None => found None (S (optind s))
          end
      end
  end.

Definition short (argv : list string) (optstring : string) (c : Ascii.ascii) (rest : string) (s : state)
    : Z * option string * state :=
  match sfind c optstring with
  | None => (question, None, bad (char_val c) s)
  | Some i =>
      let takes_arg := match sdrop (i + 1) optstring with String d _ => Ascii.eqb d ":" | "" => false end in
      if takes_arg then
        if negb (is_empty rest) then (as_int c, Some rest, next (S (optind s)) s)
        else match argv !! S (optind s) with
             | Some v => (as_int c, Some v, next (S (S (optind s))) s)
             | None => (missing optstring, None, bad (char_val c) s)
             end
      else if is_empty rest then (as_int c, None, next (S (optind s)) s)
      else (as_int c, None, mkState (optind s) (Some rest) (optopt s) (longindex s) (flags s))
  end.

(** At an argument, [g_pos] not null. *)
Definition at_pos (argv : list string) (optstring : string) (longopts : option (list long_option))
    (pos : string) (s : state) : Z * option string * state :=
  match pos, longopts with
  | String c name, Some l =>
      if Ascii.eqb c "-" then long argv optstring l name s else short argv optstring c name s
  | String c name, None => short argv optstring c name s
  | "", _ => (question, None, bad 0 s)               (* g_pos never points at the end *)
  end.

Definition getopt_long (argv : list string) (optstring : string) (longopts : option (list long_option))
    (s : state) : Z * option string * state :=
  match argv !! optind s with
  | None => ((-1)%Z, None, s)
  | Some arg =>
      match g_pos s with
      | Some pos => at_pos argv optstring longopts pos s
      | None =>
          match arg with
          | String c0 (String c1 rest) =>
              if negb (Ascii.eqb c0 "-") then ((-1)%Z, None, s)
              else if Ascii.eqb c1 "-" && is_empty rest then ((-1)%Z, None, next (S (optind s)) s)
              else at_pos argv optstring longopts (String c1 rest) s
          | _ => ((-1)%Z, None, s)
          end
      end
  end.

Definition getopt (argv : list string) (optstring : string) (s : state) : Z * option string * state :=
  getopt_long argv optstring None s.

(** The caller's loop: the options up to -1, and the state it stops in. *)
Fixpoint parse (fuel : nat) (argv : list string) (optstring : string) (longopts : list long_option)
    (s : state) : option (list (Z * option string) * state) :=
  match fuel with
  | O => None
  | S fuel =>
      let '(opt, optarg, s') := getopt_long argv optstring (Some longopts) s in
      if (opt =? -1)%Z then Some ([], s')
      else
        '(l, s2) ← parse fuel argv optstring longopts s';
        Some ((opt, optarg) :: l, s2)
  end.

(** ** The loop ends *)

(** The characters still to be read. *)
Definition weight (l : list string) : nat := list_sum (map (fun a => S (String.length a)) l).
Definition left_over (argv : list string) (s : state) : nat :=
  match g_pos s with
  | None => weight (drop (optind s) argv)
  | Some p => S (String.length p) + weight (drop (S (optind s)) argv)
  end.

Lemma weight_drop argv n a :
  argv !! n = Some a -> weight (drop n argv) = S (String.length a) + weight (drop (S n) argv).
Proof. intros H. unfold weight. by rewrite (drop_S _ _ _ H). Qed.

Lemma weight_drop_le argv n : weight (drop (S n) argv) <= weight (drop n argv).
Proof.
  destruct (argv !! n) as [a|] eqn:E; [rewrite (weight_drop _ _ _ E); lia|].
  apply lookup_ge_None in E. by rewrite !drop_ge by lia.
Qed.

(** Whatever an option does, it leaves less to read than [k] plus the
    arguments after the current one. *)
Definition progress (argv : list string) (n k : nat) (r : Z * option string * state) : Prop :=
  left_over argv (snd r) < k + weight (drop (S n) argv).

Lemma progress_None argv n k o a n' opt li fl :
  0 < k -> n < n' -> progress argv n k (o, a, mkState n' None opt li fl).
Proof.
  intros Hk Hn. unfold progress, left_over. cbn [snd g_pos optind].
  enough (weight (drop n' argv) <= weight (drop (S n) argv)) by lia.
  induction Hn as [|n' Hn IH]; [done|]. pose proof (weight_drop_le argv n'). lia.
Qed.

Lemma long_progress argv os l name s k :
  0 < k -> progress argv (optind s) k (long argv os l name s).
Proof.
  intros Hk. unfold long, bad, next.
  repeat (case_match; try (by apply progress_None; cbn; lia)).
Qed.

Lemma short_progress argv os c rest s :
  progress argv (optind s) (S (S (String.length rest))) (short argv os c rest s).
Proof.
  unfold short, bad, next. repeat (case_match; try (by apply progress_None; cbn; lia)).
  all: unfold progress, left_over; cbn; lia.
Qed.

Lemma at_pos_progress argv os lo pos s :
  progress argv (optind s) (S (String.length pos)) (at_pos argv os lo pos s).
Proof.
  unfold at_pos. destruct pos as [|c name].
  - apply progress_None; lia.
  - destruct lo; [|apply short_progress]. destruct (Ascii.eqb c "-"); [|apply short_progress].
    apply long_progress. cbn. lia.
Qed.

Lemma getopt_long_progress argv os lo s opt arg s' :
  getopt_long argv os lo s = (opt, arg, s') -> opt <> (-1)%Z -> left_over argv s' < left_over argv s.
Proof.
  unfold getopt_long. destruct (argv !! optind s) as [a|] eqn:Ea; [|by intros [= <- <- <-]].
  unfold left_over at 2. destruct (g_pos s) as [p|].
  - intros E _. pose proof (at_pos_progress argv os lo p s) as Hp. rewrite E in Hp. apply Hp.
  - destruct a as [|c0 [|c1 rest]]; try (by intros [= <- <- <-]).
    destruct (negb _); [by intros [= <- <- <-]|]. destruct (_ && _); [by intros [= <- <- <-]|].
    intros E _. pose proof (at_pos_progress argv os lo (String c1 rest) s) as Hp. rewrite E in Hp.
    rewrite (weight_drop _ _ _ Ea). unfold progress in Hp. cbn [snd String.length] in *. lia.
Qed.

Lemma parse_ends fuel argv os l s : left_over argv s < fuel -> is_Some (parse fuel argv os l s).
Proof.
  revert s. induction fuel as [|fuel IH]; intros s Hf; [lia|]. cbn [parse].
  destruct (getopt_long argv os (Some l) s) as [[opt arg] s'] eqn:E.
  destruct (Z.eqb_spec opt (-1)); [eauto|]. apply getopt_long_progress in E; [|done].
  destruct (IH s' ltac:(lia)) as [[r s2] ->]. cbn. eauto.
Qed.

Lemma parse_fuel fuel fuel' argv os l s r :
  parse fuel argv os l s = Some r -> fuel <= fuel' -> parse fuel' argv os l s = Some r.
Proof.
  revert fuel' s r. induction fuel as [|fuel IH]; intros fuel' s r; [done|].
  intros E Hle. destruct fuel' as [|fuel']; [lia|]. cbn [parse] in *.
  destruct (getopt_long argv os (Some l) s) as [[opt arg] s']. destruct (opt =? -1)%Z; [done|].
  destruct (parse fuel argv os l s') as [[r1 s1]|] eqn:E1; [|done].
  by rewrite (IH fuel' s' _ E1) by lia.
Qed.

(** The number of calls the loop may take on a command line. *)
Definition enough (argv : list string) : nat := S (left_over argv start).

Definition parse_all (argv : list string) (os : string) (l : list long_option)
    : list (Z * option string) * state :=
  default ([], start) (parse (enough argv) argv os l start).

(** The option loop ends on every command line, whatever its
    arguments, option string and table: at most one call per character of the
    command line and one more, so [enough] fuel always gives the result, and
    more fuel gives the same one. *)
Theorem parse_terminates (argv : list string) (os : string) (l : list long_option) (fuel : nat) :
  enough argv <= fuel -> parse fuel argv os l start = Some (parse_all argv os l).
Proof.
  intros Hf. destruct (parse_ends (enough argv) argv os l start) as [r Er]; [unfold enough; lia|].
  unfold parse_all. rewrite Er. cbn. by eapply parse_fuel.
Qed.

(** ** Reading back a command line *)

(** The ways to write one option. *)
Inductive token : Type :=
  | LongEq (lo : long_option) (v : string)           (* --name=v *)
  | LongArg (lo : long_option) (v : string)          (* --name v *)
  | LongFlag (lo : long_option)                      (* --name *)
  | ShortArg (c : Ascii.ascii) (v : string)          (* -c v *)
  | ShortJoined (c : Ascii.ascii) (v : string)       (* -cv *)
  | ShortFlag (c : Ascii.ascii).                     (* -c *)

Definition args_of (t : token) : list string :=
  match t with
  | LongEq lo v => ["--" +:+ lo_name lo +:+ "=" +:+ v]
  | LongArg lo v => ["--" +:+ lo_name lo; v]
  | LongFlag lo => ["--" +:+ lo_name lo]
  | ShortArg c v => ["-" +:+ chr c; v]
  | ShortJoined c v => ["-" +:+ chr c +:+ v]
  | ShortFlag c => ["-" +:+ chr c]
  end.

Definition meaning (t : token) : Z * option string :=
  match t with
  | LongEq lo v | LongArg lo v => (lo_val lo, Some v)
  | LongFlag lo => (lo_val lo, None)
  | ShortArg c v | ShortJoined c v => (as_int c, Some v)
  | ShortFlag c => (as_int c, None)
  end.

(** Whether the option string lists the character, with or without argument. *)
Definition listed (os : string) (c : Ascii.ascii) (takes : bool) : bool :=
  match sfind c os with
  | Some i => Bool.eqb takes (match sdrop (i + 1) os with String d _ => Ascii.eqb d ":" | "" => false end)
  | None => false
  end.

(** A table whose entries can all be written by name. *)
Definition good_table (l : list long_option) : Prop :=
  NoDup (map lo_name l) /\
  Forall (fun lo => lo_name lo <> "" /\ has_char "=" (lo_name lo) = false /\ lo_flag lo = None /\
                    lo_val lo <> (-1)%Z) l.

(** The character that as an [int] is the end of the loop. *)
Definition last_char : Ascii.ascii := Ascii.ascii_of_nat 255.

Definition good_token (os : string) (l : list long_option) (t : token) : Prop :=
  match t with
  | LongEq lo _ => lo ∈ l /\ lo_has_arg lo <> no_argument
  | LongArg lo _ => lo ∈ l /\ lo_has_arg lo = required_argument
  | LongFlag lo => lo ∈ l /\ lo_has_arg lo = no_argument
  | ShortArg c _ => c <> "-"%char /\ c <> last_char /\ listed os c true = true
  | ShortJoined c v => c <> "-"%char /\ c <> last_char /\ v <> "" /\ listed os c true = true
  | ShortFlag c => c <> "-"%char /\ c <> last_char /\ listed os c false = true
  end.

Lemma as_int_end c : c <> last_char -> as_int c <> (-1)%Z.
Proof.
  intros Hc. unfold as_int, char_val. pose proof (Ascii.nat_ascii_bounded c) as Hb.
  destruct (Z.ltb_spec (Z.of_nat (Ascii.nat_of_ascii c)) 128); [lia|].
  assert (Ascii.nat_of_ascii c <> 255); [|lia]. intros E. apply Hc.
  by rewrite <- (Ascii.ascii_nat_embedding c), E.
Qed.

Lemma has_prefix_refl s : has_prefix s s = true.
Proof. unfold has_prefix. rewrite <- (sapp_nil_r s) at 2. apply sprefix_app. Qed.

Lemma prefix_same_length k s : has_prefix k s = true -> String.length s = String.length k -> s = k.
Proof.
  intros [t ->]%sprefix_spec. rewrite slength_app. intros E.
  assert (t = "") as -> by (destruct t; [done|cbn in E; lia]). apply sapp_nil_r.
Qed.

Lemma find_from_exact l i lo k m a :
  NoDup (map lo_name l) -> l !! i = Some lo -> find_from l (lo_name lo) k m a = Exact (k + i).
Proof.
  revert i k m a. induction l as [|lo' l IH]; intros i k m a Hnd Hi; [done|].
  inversion Hnd as [|? ? Hni Hnd']; subst. cbn [find_from]. destruct i as [|i]; cbn in Hi.
  - simplify_eq. by rewrite has_prefix_refl, Nat.eqb_refl, Nat.add_0_r.
  - rewrite Nat.add_succ_r, <- Nat.add_succ_l.
    destruct (has_prefix _ _) eqn:Ep; cbn [negb]; [|by apply IH].
    destruct (Nat.eqb_spec (String.length (lo_name lo')) (String.length (lo_name lo))) as [El|El].
    + exfalso. apply Hni. rewrite (prefix_same_length _ _ Ep El). apply list_elem_of_fmap.
      exists lo. split; [done|]. by eapply list_elem_of_lookup_2.
    + destruct m; by apply IH.
Qed.

(** One option is read: its meaning is returned and the parser stands at the
    next argument. *)
Definition reads (argv : list string) (os : string) (l : list long_option) (s : state) (r : Z * option string)
    (n : nat) : Prop :=
  exists opt li fl, getopt_long argv os (Some l) s = (fst r, snd r, mkState n None opt li fl).

Lemma drop_lookup (argv : list string) n a rest : drop n argv = a :: rest -> argv !! n = Some a.
Proof. intros H. pose proof (lookup_drop argv n 0) as E. rewrite H, Nat.add_0_r in E. by symmetry. Qed.
Lemma drop_lookup_S (argv : list string) n a b rest : drop n argv = a :: b :: rest -> argv !! S n = Some b.
Proof. intros H. pose proof (lookup_drop argv n 1) as E. rewrite H, Nat.add_1_r in E. by symmetry. Qed.

Lemma long_arg name : name <> "" -> exists c rest, "-" +:+ name = String "-" (String c rest) /\ name = String c rest.
Proof. destruct name as [|c rest]; [done|]. intros _. by exists c, rest. Qed.

(** At an argument of two dashes and more. *)
Lemma getopt_long_long argv os l s name rest :
  name <> "" -> g_pos s = None -> drop (optind s) argv = ("--" +:+ name) :: rest ->
  getopt_long argv os (Some l) s = long argv os l name s.
Proof.
  intros Hn Hg Hd. unfold getopt_long. rewrite (drop_lookup _ _ _ _ Hd), Hg.
  change ("--" +:+ name) with (String "-" (String "-" name)). cbn [negb Ascii.eqb Bool.eqb].
  destruct name as [|c name]; [done|]. done.
Qed.

Lemma getopt_long_short argv os l s c r rest :
  c <> "-"%char -> g_pos s = None -> drop (optind s) argv = ("-" +:+ chr c +:+ r) :: rest ->
  getopt_long argv os (Some l) s = short argv os c r s.
Proof.
  intros Hc Hg Hd. unfold getopt_long. rewrite (drop_lookup _ _ _ _ Hd), Hg.
  change ("-" +:+ chr c +:+ r) with (String "-" (String c r)). cbn [negb Ascii.eqb Bool.eqb at_pos].
  apply Ascii.eqb_neq in Hc. by rewrite Hc.
Qed.

Lemma FindLong_exact l lo :
  good_table l -> lo ∈ l ->
  exists i, FindLong l (lo_name lo) = Exact i /\ l !! i = Some lo /\ lo_name lo <> "" /\
    has_char "=" (lo_name lo) = false /\ lo_flag lo = None /\ lo_val lo <> (-1)%Z.
Proof.
  intros [Hnd Hg] Hin. apply list_elem_of_lookup in Hin as [i Hi]. exists i.
  rewrite Forall_lookup in Hg. destruct (Hg _ _ Hi) as (H1 & H2 & H3 & H4).
  split_and!; try done. unfold FindLong. by rewrite (find_from_exact _ i).
Qed.

Lemma reads_token argv os l s t rest :
  good_table l -> good_token os l t -> g_pos s = None ->
  drop (optind s) argv = args_of t ++ rest ->
  reads argv os l s (meaning t) (optind s + length (args_of t)) /\ fst (meaning t) <> (-1)%Z.
Proof.
  intros Hl Ht Hg Hd. unfold reads. destruct t as [lo v|lo v|lo|c v|c v|c]; cbn [args_of app meaning fst snd length] in *.
  1-3: destruct Ht as [Hin Ha]; destruct (FindLong_exact l lo Hl Hin) as (i & Hf & Hi & Hn & He & Hfl & Hv);
    split; [|done].
  - rewrite (getopt_long_long argv os l s (lo_name lo +:+ "=" +:+ v) rest); [|by destruct (lo_name lo)|done|done].
    unfold long. change ("=" +:+ v) with (String "=" v). rewrite sfind_app_sep, stake_app by done.
    rewrite Hf, Hi, Hfl, Nat.add_1_r, sdrop_S_app. unfold next. cbn.
    rewrite Nat.add_1_r. destruct (lo_has_arg lo); [done|eauto..].
  - rewrite (getopt_long_long argv os l s (lo_name lo) (v :: rest)) by done.
    unfold long. rewrite sfind_none, Hf, Hi, Hfl, Ha by done. cbn.
    rewrite (drop_lookup_S _ _ _ _ _ Hd). unfold next. cbn.
    rewrite Nat.add_comm. eauto.
  - rewrite (getopt_long_long argv os l s (lo_name lo) rest) by done.
    unfold long. rewrite sfind_none, Hf, Hi, Hfl, Ha by done. unfold next. cbn.
    rewrite Nat.add_comm. eauto.
  - destruct Ht as (Hc & Hend & Hli). split; [|by apply as_int_end]. unfold listed in Hli.
    rewrite (getopt_long_short argv os l s c "" (v :: rest)) by done.
    unfold short. destruct (sfind c os); [|done]. apply Bool.eqb_prop in Hli. rewrite <- Hli. cbn.
    rewrite (drop_lookup_S _ _ _ _ _ Hd). unfold next. rewrite Nat.add_comm. eauto.
  - destruct Ht as (Hc & Hend & Hv & Hli). split; [|by apply as_int_end]. unfold listed in Hli.
    rewrite (getopt_long_short argv os l s c v rest) by done.
    unfold short. destruct (sfind c os); [|done]. apply Bool.eqb_prop in Hli. rewrite <- Hli.
    rewrite (proj2 (is_empty_false v)) by done. cbn. unfold next. rewrite Nat.add_comm. eauto.
  - destruct Ht as (Hc & Hend & Hli). split; [|by apply as_int_end]. unfold listed in Hli.
    rewrite (getopt_long_short argv os l s c "" rest) by done.
    unfold short. destruct (sfind c os); [|done]. apply Bool.eqb_prop in Hli. rewrite <- Hli. cbn.
    unfold next. rewrite Nat.add_comm. eauto.
Qed.

(** Where option parsing stops: the end, an operand, or after "--". *)
Definition operand (a : string) : bool :=
  match a with
  | String c0 (String _ _) => negb (Ascii.eqb c0 "-")
  | _ => true
  end.
Definition stops (tail : list string) : Prop :=
  match tail with [] => True | a :: _ => operand a = true \/ a = "--" end.
Definition operands (tail : list string) : list string :=
  match tail with a :: rest => if String.eqb a "--" then rest else tail | [] => [] end.

Lemma parse_stop fuel argv os l s tail :
  g_pos s = None -> drop (optind s) argv = tail -> stops tail ->
  exists s', parse (S fuel) argv os l s = Some ([], s') /\ drop (optind s') argv = operands tail.
Proof.
  intros Hg Hd Hs. cbn [parse]. unfold getopt_long. destruct tail as [|a rest].
  - assert (argv !! optind s = None) as ->.
    { apply lookup_ge_None. apply (f_equal length) in Hd. rewrite length_drop in Hd. cbn in Hd. lia. }
    exists s. done.
  - rewrite (drop_lookup _ _ _ _ Hd), Hg. cbn in Hs. unfold operands.
    destruct (String.eqb_spec a "--") as [->|Hne].
    + cbn. eexists. split; [done|]. cbn. by rewrite <- Nat.add_1_r, <- drop_drop, Hd.
    + destruct Hs as [Hs|?]; [|done]. destruct a as [|c0 [|c1 r]]; try (eexists; split; [reflexivity|done]).
      cbn in Hs. rewrite Hs. eexists; split; [reflexivity|done].
Qed.

Lemma parse_tokens fuel argv os l ts tail s :
  good_table l -> Forall (good_token os l) ts -> stops tail -> g_pos s = None ->
  drop (optind s) argv = concat (map args_of ts) ++ tail -> length ts < fuel ->
  exists s', parse fuel argv os l s = Some (map meaning ts, s') /\ drop (optind s') argv = operands tail.
Proof.
  intros Hl Hts Hst. revert fuel s. induction Hts as [|t ts Ht _ IH]; intros fuel s Hg Hd Hf.
  - destruct fuel as [|fuel]; [cbn in Hf; lia|]. by apply parse_stop.
  - destruct fuel as [|fuel]; [cbn in Hf; lia|]. cbn [map concat] in Hd. rewrite <- app_assoc in Hd.
    destruct (reads_token argv os l s t _ Hl Ht Hg Hd) as [(opt & li & fl & E) Hv].
    cbn [parse]. rewrite E. destruct (Z.eqb_spec (fst (meaning t)) (-1)); [done|].
    destruct (IH fuel (mkState (optind s + length (args_of t)) None opt li fl)) as (s' & E' & Hd');
      [done| |cbn in Hf; lia|].
    + cbn [optind]. rewrite <- drop_drop, Hd. by rewrite drop_app_length.
    + rewrite E'. cbn. exists s'. split; [by destruct (meaning t)|done].
Qed.

(** Claim C26: the parser reads what was written.  Take a table whose options
    have distinct names that are not empty and hold no =, no flag address and
    values other than -1.  On a command line that spells a list of options in
    any mix of the accepted forms - --name=v for an option that takes an
    argument, --name v for one that requires it, --name for one that takes
    none, and -c v, -cv (v not empty) or -c for a character of the option
    string listed with or without a colon - and then ends, goes on with an
    operand or with --, the loop returns exactly the listed options with their
    arguments, in order, and stops at the operands; an option's full name is
    recognised even when it is a prefix of another one.  A long option is
    returned as its value of the table, a short one as its character, which
    is signed: one above 127 comes back negative, and the character 255, which
    is excluded here, would come back as the -1 that ends the loop. *)
Theorem parse_reads_tokens (prog : string) (os : string) (l : list long_option) (ts : list token)
    (tail : list string) :
  good_table l -> Forall (good_token os l) ts -> stops tail ->
  let argv := prog :: concat (map args_of ts) ++ tail in
  fst (parse_all argv os l) = map meaning ts /\
  drop (optind (snd (parse_all argv os l))) argv = operands tail.
Proof.
  intros Hl Hts Hst argv.
  destruct (parse_tokens (S (enough argv + length ts)) argv os l ts tail start) as (s' & E & Hd); try done; [lia|].
  destruct (parse_ends (enough argv) argv os l start) as [r Er]; [unfold enough; lia|].
  rewrite (parse_fuel _ (S (enough argv + length ts)) _ _ _ _ _ Er) in E by lia.
  unfold parse_all. rewrite Er. injection E as ->. done.
Qed.

Definition demo_table : list long_option :=
  [mkOption "ping-count" required_argument None 107; mkOption "ping" no_argument None 1000;
   mkOption "tls" optional_argument None 1001].
Definition demo_tokens : list token :=
  [LongFlag (mkOption "ping" no_argument None 1000); ShortJoined "k" "4";
   LongArg (mkOption "ping-count" required_argument None 107) "7"].
Lemma parse_reads_tokens_witness :
  concat (map args_of demo_tokens) = ["--ping"; "-k4"; "--ping-count"; "7"] /\
  fst (parse_all ("agent" :: concat (map args_of demo_tokens) ++ ["file"]) "k:" demo_table) =
    [(1000%Z, None); (107%Z, Some "4"); (107%Z, Some "7")].
Proof.
  split; [reflexivity|].
  refine (proj1 (parse_reads_tokens "agent" "k:" demo_table demo_tokens ["file"] _ _ _)).
  - split; [apply (bool_decide_unpack _); vm_compute; exact I|]. repeat constructor; done.
  - constructor; [|constructor; [|constructor; [|constructor]]]; cbn.
    + split; [right; left|done].
    + by split_and!.
    + split; [left|done].
  - by left.
Defined.

Lemma parse_terminates_witness :
  enough ["agent"; "-x"] <= 10 /\
  parse 10 ["agent"; "-x"] "k:" demo_table start = Some (parse_all ["agent"; "-x"] "k:" demo_table).
Proof. split; [vm_compute; lia|]. apply parse_terminates. vm_compute. lia. Defined.

(** A character above 127 comes back negative, and 255 as the end. *)
Theorem last_char_ends_loop (argv : list string) (os : string) (l : list long_option) (rest : string) (s : state) :
  listed os last_char false = true -> g_pos s = Some (String last_char rest) -> optind s < length argv ->
  exists s', parse 1 argv os l s = Some ([], s') /\ left_over argv s' < left_over argv s.
Proof.
  intros Hl Hp Ho. apply lookup_lt_is_Some in Ho as [a Ha].
  pose proof (short_progress argv os last_char rest s) as Hlt. cbn [parse].
  unfold getopt_long. rewrite Ha, Hp. cbn [at_pos]. change (Ascii.eqb last_char "-") with false. cbn iota beta.
  unfold progress in Hlt. unfold left_over at 2. rewrite Hp. cbn [String.length].
  destruct (short argv os last_char rest s) as [[opt arg] s'] eqn:E.
  assert (opt = (-1)%Z) as ->.
  { unfold short in E. unfold listed in Hl. destruct (sfind last_char os); [|done].
    apply Bool.eqb_prop in Hl. rewrite <- Hl in E. by destruct (is_empty rest); injection E as <- _ _. }
  exists s'. split; [done|]. exact Hlt.
Qed.
Lemma last_char_ends_loop_witness :
  exists s', parse 1 ["agent"; "-" +:+ chr last_char +:+ "x"; "-q"] (chr last_char +:+ "q") []
      (mkState 1 (Some (chr last_char +:+ "x")) 0 0 ∅) = Some ([], s').
Proof.
  destruct (last_char_ends_loop ["agent"; "-" +:+ chr last_char +:+ "x"; "-q"] (chr last_char +:+ "q") [] "x"
    (mkState 1 (Some (chr last_char +:+ "x")) 0 0 ∅)) as (s' & E & _); [reflexivity..|cbn; lia|].
  exists s'. exact E.
Defined.

(** An abbreviation stands for the only option it begins. *)
Example abbreviated : fst (parse_all ["agent"; "--ping-c=3"] "" demo_table) = [(107%Z, Some "3")].
Proof. vm_compute. reflexivity. Qed.
(** A dash inside a cluster starts a long option. *)
Example dash_in_cluster :
  fst (parse_all ["agent"; "-q-ping"] "q" demo_table) = [(113%Z, None); (1000%Z, None)].
Proof. vm_compute. reflexivity. Qed.
