(* ===== verification/AgentConfig.v ===== *)
(** * AgentConfig: the configuration of the agent

    Models [agent/src/config_file.h] ([ConfigFile]), the option table, the
    merging of file and command line and the audit lines of
    [agent/src/agent_config.cpp] ([AgentConfig]).  The file system is a function
    from paths to contents; the option loop of the C library is a parameter,
    which the file GetOpt instantiates for the Windows build.  Messages to
    stderr are left out. *)
From stdpp Require Import base gmap strings list functions sorting.
From Stdlib Require Import ZArith Lia Ascii.
From S2P Require Import Prelude ProbeRunner GetOpt.
Import Str.
#[local] Open Scope string_scope.
#[local] Open Scope list_scope.

Module ConfigFile.
(** A file that can be opened has contents. *)
Definition files : Type := string -> option string.

Definition Exists (fs : files) (path : string) : bool := bool_decide (is_Some (fs path)).

(** The text of a line, without a CR of a CRLF ending and outer white space. *)
Definition clean (line : string) : string :=
  trim (match last_char line with
        | Some c => if Ascii.eqb c cr then pop_back line else line
        | None => line
        end).

Definition comment (t : string) : bool :=
  match t with "" => true | String c _ => Ascii.eqb c "#" || Ascii.eqb c ";" end.

(** One line: skipped, a setting, or the error that ends the loading. *)
Definition read_line (line_no : Z) (line : string) (out : gmap string string)
    : string + gmap string string :=
  let t := clean line in
  if comment t then inr out
  else
    match sfind "=" t with
    | None => inl ("line " +:+ of_Z line_no +:+ ": expected key=value, got '" +:+ t +:+ "'")
    | Some eq =>
        let key := trim (stake eq t) in
        let val := trim (sdrop (eq + 1) t) in
        if is_empty key then inl ("line " +:+ of_Z line_no +:+ ": empty key")
        else inr (<[key := val]> out)
    end.

Fixpoint read_lines (line_no : Z) (l : list string) (out : gmap string string)
    : string + gmap string string :=
  match l with
  | [] => inr out
  | line :: rest =>
      match read_line line_no line out with
      | inl error => inl error
      | inr out => read_lines (line_no + 1) rest out
      end
  end.

(** The settings of a file, or the error text. *)
Definition LoadConfigFile (fs : files) (path : string) : string + gmap string string :=
  match fs path with
  | None => inl "cannot open file"
  | Some text => read_lines 1 (lines "" text) ∅
  end.

(** ** Reading back a file *)

(** The lines of a well-formed file. *)
Inductive item : Type :=
  | Setting (before key mid after val : string)  (* white space around key and value *)
  | Comment (text : string).                     (* or a blank line *)

Definition blank (s : string) : bool := sall is_space s && negb (has_char nl s).
Definition tidy (s : string) : Prop := trim s = s /\ has_char nl s = false.

Definition good_item (i : item) : Prop :=
  match i with
  | Setting before key mid after val =>
      blank before = true /\ blank mid = true /\ blank after = true /\
      tidy key /\ tidy val /\ has_char "=" key = false /\ comment key = false
  | Comment text => has_char nl text = false /\ comment (clean text) = true
  end.

Definition item_text (i : item) : string :=
  match i with
  | Setting before key mid after val => before +:+ key +:+ mid +:+ "=" +:+ after +:+ val
  | Comment text => text
  end.

Definition eol (crlf : bool) : string := if crlf then chr cr +:+ chr nl else chr nl.
Definition file_text (crlf : bool) (l : list item) : string :=
  fold_right (fun i s => item_text i +:+ eol crlf +:+ s) "" l.

(** What the file means: later settings win. *)
Definition settings (l : list item) : gmap string string :=
  fold_left (fun m i => match i with Setting _ k _ _ v => <[k := v]> m | Comment _ => m end) l ∅.

(** A carriage return at the end is white space like any other. *)
Lemma clean_trim line : clean line = trim line.
Proof.
  unfold clean. destruct (last_char line) as [c|] eqn:E; [|done].
  destruct (Ascii.eqb c cr) eqn:Ec; [|done]. apply Ascii.eqb_eq in Ec as ->.
  rewrite (pop_last _ _ E) at 2. unfold trim.
  rewrite <- !drop_while_swap. by rewrite drop_while_end_app_blank.
Qed.

Lemma read_setting n before key mid after val tail out :
  good_item (Setting before key mid after val) -> sall is_space tail = true ->
  read_line n (item_text (Setting before key mid after val) +:+ tail) out = inr (<[key := val]> out).
Proof.
  intros (Hb & Hm & Ha & [Hk Hkn] & [Hv Hvn] & Heq & Hc) Ht. unfold blank in *. bool_hyps.
  destruct (trim_fixed key Hk) as [Hk1 _].
  assert (key <> "") as Hne by (by destruct key).
  assert (clean (item_text (Setting before key mid after val) +:+ tail) =
          key +:+ mid +:+ String "=" (drop_while_end is_space (after +:+ val +:+ tail))) as Ec.
  { rewrite clean_trim. unfold trim, item_text. rewrite !sapp_assoc.
    rewrite drop_while_app_blank, drop_while_app by done.
    change ("=" +:+ after +:+ val +:+ tail) with (String "=" (after +:+ val +:+ tail)).
    rewrite <- (sapp_assoc key mid).
    rewrite drop_while_end_app by done. by rewrite !sapp_assoc. }
  unfold read_line. rewrite Ec. rewrite <- sapp_assoc.
  assert (comment (key +:+ mid +:+ String "=" (drop_while_end is_space (after +:+ val +:+ tail))) = false) as Hcom
    by (by destruct key).
  rewrite <- sapp_assoc in Hcom. rewrite Hcom.
  rewrite sfind_app_sep by (rewrite has_char_app, Heq; by apply blank_char).
  rewrite stake_app, Nat.add_1_r, sdrop_S_app. cbv zeta.
  assert (trim (key +:+ mid) = key) as -> by (by apply (trim_blank "" key mid)).
  rewrite trim_drop_while_end, trim_blank by done.
  by rewrite (proj2 (is_empty_false key)).
Qed.

Definition cr_of (crlf : bool) : string := if crlf then chr cr else "".

Lemma read_item n (crlf : bool) i out :
  good_item i ->
  read_line n (item_text i +:+ (cr_of crlf)) out =
  inr (match i with Setting _ k _ _ v => <[k := v]> out | Comment _ => out end : gmap string string).
Proof.
  intros Hi. destruct i as [before key mid after val|text].
  - apply read_setting; [done|]. by destruct crlf.
  - destruct Hi as [_ Hc]. unfold read_line. cbn [item_text]. rewrite clean_trim in Hc |- *.
    assert (trim (text +:+ (cr_of crlf)) = trim text) as ->; [|by rewrite Hc].
    unfold trim. rewrite <- !drop_while_swap. by rewrite drop_while_end_app_blank by (by destruct crlf).
Qed.

Lemma item_no_nl i : good_item i -> has_char nl (item_text i) = false.
Proof.
  destruct i as [before key mid after val|text]; [|by intros []].
  intros (Hb & Hm & Ha & [_ Hkn] & [_ Hvn] & _). unfold blank in *. bool_hyps. cbn [item_text].
  rewrite !has_char_app. by repeat match goal with E : has_char _ _ = false |- _ => rewrite E; clear E end.
Qed.

(** A configuration file means its settings.  A file of settings
    with any white space around keys and values, comment and blank lines,
    with LF or CRLF line ends, loads without error and gives exactly the
    settings written, a later setting of a key replacing an earlier one; a
    value may contain "=", "#" and inner white space. *)
Theorem LoadConfigFile_reads_settings (fs : files) (path : string) (crlf : bool) (l : list item) :
  Forall good_item l -> fs path = Some (file_text crlf l) -> LoadConfigFile fs path = inr (settings l).
Proof.
  intros Hl Hf. unfold LoadConfigFile. rewrite Hf. unfold settings. clear Hf.
  generalize 1%Z as n. generalize (∅ : gmap string string) as m.
  induction Hl as [|i l Hi Hl IH]; intros m n; [done|]. cbn [file_text fold_right fold_left].
  assert (lines "" (item_text i +:+ eol crlf +:+ file_text crlf l) =
          (item_text i +:+ (cr_of crlf)) :: lines "" (file_text crlf l)) as El.
  { pose proof (item_no_nl i Hi) as Hn. destruct crlf; cbn [eol].
    - rewrite sapp_assoc, <- (sapp_assoc (item_text i)). rewrite lines_app; [done|]. by rewrite has_char_app, Hn.
    - rewrite lines_app by done. by rewrite sapp_nil_r. }
  change (fold_right _ "" l) with (file_text crlf l). rewrite El. cbn [read_lines].
  rewrite read_item by done. apply IH.
Qed.

Definition demo_items : list item :=
  [Comment "# agent"; Setting "  " "node-id" "  " " " "web 01"; Comment ""; Setting "" "dns-expected" "" "" "e.com=A:1.2.3.4"].
Definition demo_files (path : string) : option string :=
  if String.eqb path "/etc/pudim/agent.conf" then Some (file_text true demo_items) else None.
Lemma LoadConfigFile_reads_settings_witness :
  Forall good_item demo_items /\
  LoadConfigFile demo_files "/etc/pudim/agent.conf" = inr (settings demo_items) /\
  settings demo_items !! "node-id" = Some "web 01".
Proof.
  assert (Forall good_item demo_items) as Hg by (repeat constructor).
  split; [exact Hg|]. split; [|reflexivity].
  exact (LoadConfigFile_reads_settings demo_files "/etc/pudim/agent.conf" true demo_items Hg eq_refl).
Defined.

Example bad_line :
  LoadConfigFile (fun _ => Some ("node-id=ok" +:+ chr nl +:+ "no equals")) "x" =
  inl "line 2: expected key=value, got 'no equals'".
Proof. vm_compute. reflexivity. Qed.
End ConfigFile.

Module AgentConfig.
Import ConfigFile Cycle.

Inductive LogLevel : Type := Debug | Info | Warn | Error.
Definition ParseLogLevel (s : string) : option LogLevel :=
  if String.eqb s "debug" then Some Debug
  else if String.eqb s "info" then Some Info
  else if String.eqb s "warn" then Some Warn
  else if String.eqb s "error" then Some Error
  else None.

Fixpoint list_loop (s cur : string) (out : list string) : list string :=
  match s with
  | "" => if is_empty cur then out else out ++ [cur]
  | String c s =>
      if Ascii.eqb c "," then list_loop s "" (if is_empty cur then out else out ++ [cur])
      else list_loop s (cur +:+ chr c) out
  end.
Definition ParseList (s : string) : list string := list_loop s "" [].

(** Format: host=TYPE:value,host2=TYPE:value *)
Definition add_expected (out : gmap string (list string)) (entry : string) : gmap string (list string) :=
  match sfind "=" entry with
  | None => out
  | Some eq =>
      let host := stake eq entry in
      let rec := sdrop (eq + 1) entry in
      if negb (is_empty host) && negb (is_empty rec) then <[host := default [] (out !! host) ++ [rec]]> out
      else out
  end.
Definition ApplyDnsExpected (s : string) (out : gmap string (list string)) : gmap string (list string) :=
  fold_left add_expected (ParseList s) out.

(** [win]: the state directory of a Windows build. *)
Definition DefaultConfigPath (win : option string) : string :=
  match win with Some dir => dir +:+ chr bslash +:+ "agent.conf" | None => "/etc/pudim/agent.conf" end.
Definition DefaultDiskBufferPath (win : option string) : string :=
  match win with Some dir => dir +:+ chr bslash +:+ "pending.db" | None => "/var/lib/pudim/pending.db" end.

(** The scan for the configuration file, over the arguments after argv[0]:
    the path and whether it was given. *)
Definition kConfigFileFlag : string := "--config-file=".
Fixpoint scan_config (args : list string) (path : string) (explicit_ : bool) : string * bool :=
  match args with
  | [] => (path, explicit_)
  | arg :: rest =>
      let joined :=
        if has_prefix kConfigFileFlag arg then
          scan_config rest (sdrop (String.length kConfigFileFlag) arg) true
        else scan_config rest path explicit_ in
      match rest with
      | value :: rest' => if String.eqb arg "--config-file" then scan_config rest' value true else joined
      | [] => joined
      end
  end.

(** The local variables of [LoadAgentConfig], by type. *)
Inductive svar : Type :=
  | collector_endpoint | node_id | trace_id | version | diagnostic_port | diagnostic_address
  | collector_endpoints_input | disk_buffer_path | tls_ca | tls_cert | tls_key | ntp_server | log_level_str.
Inductive ivar : Type :=
  | interval_ms | ping_count | ping_gap_ms | tcp_handshake_interval_ms | max_buffer_size | disk_buffer_max_mb.
Inductive bvar : Type :=
  | use_stream_metrics | tls_cert_check | tcp_retransmit_check | tcp_handshake_capture.
Inductive lvar : Type :=
  | dns_targets | tcp_targets | tls_targets | http_targets | ping_targets | http_protocols.
#[global] Instance svar_eq_dec : EqDecision svar. Proof. solve_decision. Defined.
#[global] Instance ivar_eq_dec : EqDecision ivar. Proof. solve_decision. Defined.
#[global] Instance bvar_eq_dec : EqDecision bvar. Proof. solve_decision. Defined.
#[global] Instance lvar_eq_dec : EqDecision lvar. Proof. solve_decision. Defined.

Record locals : Type := mkLocals {
  str : svar -> string;
  int : ivar -> Z;
  flag : bvar -> bool;
  lst : lvar -> list string;
  expected : gmap string (list string);
}.

(** The key of a variable in the file and its default. *)
Definition str_key (win : option string) (x : svar) : string * string :=
  match x with
  | collector_endpoint => ("collector-endpoint", "localhost:50051")
  | node_id => ("node-id", "agent-unknown")
  | trace_id => ("trace-id", "")
  | version => ("version", "0.1.0")
  | diagnostic_port => ("diagnostic-port", "50052")
  | diagnostic_address => ("diagnostic-address", "")
  | collector_endpoints_input => ("collector-endpoints", "")
  | disk_buffer_path => ("disk-buffer-path", DefaultDiskBufferPath win)
  | tls_ca => ("tls-ca", "")
  | tls_cert => ("tls-cert", "")
  | tls_key => ("tls-key", "")
  | ntp_server => ("ntp-server", "pool.ntp.org")
  | log_level_str => ("log-level", "info")
  end.
Definition int_key (x : ivar) : string * Z :=
  match x with
  | interval_ms => ("interval", 5000)
  | ping_count => ("ping-count", 4)
  | ping_gap_ms => ("ping-gap-ms", 200)
  | tcp_handshake_interval_ms => ("tcp-handshake-interval", 0)
  | max_buffer_size => ("max-buffer-size", 200)
  | disk_buffer_max_mb => ("disk-buffer-max-mb", 100)
  end%Z.
Definition lst_key (x : lvar) : string * string :=
  match x with
  | dns_targets => ("dns-targets", "")
  | tcp_targets => ("tcp-targets", "")
  | tls_targets => ("tls-targets", "")
  | http_targets => ("http-targets", "")
  | ping_targets => ("ping-targets", "")
  | http_protocols => ("http-protocols", "http1.1,http2")
  end.

Definition get_s (file : gmap string string) (key fallback : string) : string := default fallback (file !! key).
Definition get_i (file : gmap string string) (key : string) (fallback : Z) : Z :=
  match file !! key with
  | Some v => default fallback (stoi v)
  | None => fallback
  end.
Definition parse_bool (v : string) : option bool :=
  if existsb (String.eqb v) ["true"; "1"; "yes"; "on"] then Some true
  else if existsb (String.eqb v) ["false"; "0"; "no"; "off"] then Some false
  else None.
Definition get_b (file : gmap string string) (key : string) (fallback : bool) : bool :=
  match file !! key with
  | Some v => default fallback (parse_bool v)
  | None => fallback
  end.

(** The variables before the command line is read. *)
Definition from_file (win : option string) (file : gmap string string) : locals :=
  mkLocals
    (fun x => get_s file (fst (str_key win x)) (snd (str_key win x)))
    (fun x => get_i file (fst (int_key x)) (snd (int_key x)))
    (fun x => match x with
              | use_stream_metrics => get_b file "stream-metrics" false
              | tls_cert_check => negb (get_b file "no-tls-cert" false)
              | tcp_retransmit_check => negb (get_b file "no-tcp-retransmit" false)
              | tcp_handshake_capture => negb (get_b file "no-tcp-handshake" false)
              end)
    (fun x => ParseList (get_s file (fst (lst_key x)) (snd (lst_key x))))
    (ApplyDnsExpected (get_s file "dns-expected" "") ∅).

Definition opt_ (name : string) (kind : arg_kind) (val : Z) : long_option := mkOption name kind None val.
Definition long_options : list long_option :=
  [opt_ "collector-endpoint" required_argument (char_val "c");
   opt_ "node-id" required_argument (char_val "n");
   opt_ "interval" required_argument (char_val "i");
   opt_ "trace-id" required_argument (char_val "t");
   opt_ "version" required_argument (char_val "v");
   opt_ "dns-targets" required_argument (char_val "d");
   opt_ "tcp-targets" required_argument (char_val "p");
   opt_ "tls-targets" required_argument (char_val "s");
   opt_ "http-targets" required_argument (char_val "w");
   opt_ "ping-targets" required_argument (char_val "g");
   opt_ "ping-count" required_argument (char_val "k");
   opt_ "ping-gap-ms" required_argument (char_val "u");
   opt_ "stream-metrics" no_argument (char_val "m");
   opt_ "no-tls-cert" no_argument (char_val "q");
   opt_ "no-tcp-retransmit" no_argument (char_val "r");
   opt_ "no-tcp-handshake" no_argument (char_val "e");
   opt_ "tcp-handshake-interval" required_argument 1001;
   opt_ "log-level" required_argument 1000;
   opt_ "http-protocols" required_argument (char_val "x");
   opt_ "dns-expected" required_argument (char_val "y");
   opt_ "diagnostic-port" required_argument (char_val "z");
   opt_ "diagnostic-address" required_argument (char_val "a");
   opt_ "collector-endpoints" required_argument (char_val "b");
   opt_ "max-buffer-size" required_argument (char_val "f");
   opt_ "disk-buffer-path" required_argument (char_val "j");
   opt_ "disk-buffer-max-mb" required_argument (char_val "l");
   opt_ "tls-ca" required_argument (char_val "C");
   opt_ "tls-cert" required_argument (char_val "E");
   opt_ "tls-key" required_argument (char_val "K");
   opt_ "ntp-server" required_argument (char_val "o");
   opt_ "config-file" required_argument 1002;
   opt_ "help" no_argument (char_val "h")].
Definition optstring : string := "c:n:i:t:v:d:p:s:w:g:k:u:mo:qrex:y:z:a:b:f:j:l:C:E:K:h".

(** What the [switch] does for an option. *)
Inductive action : Type :=
  | SetStr (x : svar) | SetInt (x : ivar) | SetFlag (x : bvar) (v : bool) | SetList (x : lvar)
  | AddExpected | Skip | ShowHelp | Unknown.
#[global] Instance action_eq_dec : EqDecision action. Proof. solve_decision. Defined.

Definition cases : list (Z * action) :=
  [(char_val "c", SetStr collector_endpoint); (char_val "n", SetStr node_id); (char_val "i", SetInt interval_ms);
   (char_val "t", SetStr trace_id); (char_val "v", SetStr version); (char_val "d", SetList dns_targets);
   (char_val "p", SetList tcp_targets); (char_val "s", SetList tls_targets);
   (char_val "w", SetList http_targets); (char_val "g", SetList ping_targets);
   (char_val "k", SetInt ping_count); (char_val "u", SetInt ping_gap_ms);
   (char_val "m", SetFlag use_stream_metrics true); (char_val "q", SetFlag tls_cert_check false);
   (char_val "r", SetFlag tcp_retransmit_check false); (char_val "e", SetFlag tcp_handshake_capture false);
   (1001%Z, SetInt tcp_handshake_interval_ms); (1000%Z, SetStr log_level_str);
   (char_val "x", SetList http_protocols); (char_val "y", AddExpected); (1002%Z, Skip);
   (char_val "z", SetStr diagnostic_port); (char_val "a", SetStr diagnostic_address);
   (char_val "b", SetStr collector_endpoints_input); (char_val "f", SetInt max_buffer_size);
   (char_val "j", SetStr disk_buffer_path); (char_val "l", SetInt disk_buffer_max_mb);
   (char_val "C", SetStr tls_ca); (char_val "E", SetStr tls_cert); (char_val "K", SetStr tls_key);
   (char_val "o", SetStr ntp_server); (char_val "h", ShowHelp)].
Definition action_of (opt : Z) : action :=
  match list_find (fun c => fst c = opt) cases with
  | Some (_, (_, a)) => a
  | None => Unknown
  end.

Inductive ConfigResult : Type := Ok | Help | ErrorResult.

(** One iteration of the option loop; the argument of an option that takes one
    is never null. *)
Definition apply (a : action) (arg : string) (l : locals) : outcome (locals + ConfigResult) :=
  match a with
  | SetStr x => Returns (inl (mkLocals (<[x := arg]> (str l)) (int l) (flag l) (lst l) (expected l)))
  | SetInt x =>
      match stoi arg with
      | Some n => Returns (inl (mkLocals (str l) (<[x := n]> (int l)) (flag l) (lst l) (expected l)))
      | None => Throws "stoi"
      end
  | SetFlag x v => Returns (inl (mkLocals (str l) (int l) (<[x := v]> (flag l)) (lst l) (expected l)))
  | SetList x => Returns (inl (mkLocals (str l) (int l) (flag l) (<[x := ParseList arg]> (lst l)) (expected l)))
  | AddExpected => Returns (inl (mkLocals (str l) (int l) (flag l) (lst l) (ApplyDnsExpected arg (expected l))))
  | Skip => Returns (inl l)
  | ShowHelp => Returns (inr Help)
  | Unknown => Returns (inr ErrorResult)
  end.

Definition name_by_val (opt : Z) : option string :=
  match list.last (filter (fun o => lo_val o = opt /\ lo_name o <> "config-file") long_options) with
  | Some o => Some (lo_name o)
  | None => None
  end.
Definition record_option (opt : Z) (optarg : option string) (cli : gmap string string) : gmap string string :=
  match name_by_val opt with
  | Some name => <[name := default "" optarg]> cli
  | None => cli
  end.

Fixpoint option_loop (opts : list (Z * option string)) (l : locals) (cli : gmap string string)
    : outcome (locals * gmap string string + ConfigResult) :=
  match opts with
  | [] => Returns (inl (l, cli))
  | (opt, optarg) :: rest =>
      let cli := record_option opt optarg cli in
      match apply (action_of opt) (default "" optarg) l with
      | Throws w => Throws w
      | Returns (inr r) => Returns (inr r)
      | Returns (inl l) => option_loop rest l cli
      end
  end.

Record AgentConfig : Type := mkAgentConfig {
  a_config_path : string;
  a_cfg_loaded : bool;
  a_file_cfg : gmap string string;
  a_cli_options : gmap string string;
  a_collector_endpoint : string;
  a_collector_endpoints : list string;
  a_node_id : string;
  a_version : string;
  a_trace_id : string;
  a_interval_ms : Z;
  a_tls_ca : string;
  a_tls_cert : string;
  a_tls_key : string;
  a_diagnostic_port : string;
  a_diagnostic_address : string;
  a_ntp_server : string;
  a_log_level : LogLevel;
  a_probe_cfg : ProbeConfig;
  a_tcp_handshake_interval_ms : Z;
  a_use_stream_metrics : bool;
  a_max_buffer_size : Z;
  a_disk_buffer_path : string;
  a_disk_buffer_max_mb : Z;
}.

(** The assignments at the end; [ntp_check] keeps the value it had, as
    [log_level] does when the given level has no name. *)
Definition publish (path : string) (loaded : bool) (file cli : gmap string string) (l : locals)
    (out : AgentConfig) : AgentConfig :=
  mkAgentConfig path loaded file cli (str l collector_endpoint) (ParseList (str l collector_endpoints_input))
    (str l node_id) (str l version) (str l trace_id) (int l interval_ms) (str l tls_ca) (str l tls_cert)
    (str l tls_key) (str l diagnostic_port) (str l diagnostic_address) (str l ntp_server)
    (default (a_log_level out) (ParseLogLevel (str l log_level_str)))
    (mkProbeConfig (lst l dns_targets) (lst l tcp_targets) (lst l tls_targets) (lst l http_targets)
       (lst l ping_targets) (int l ping_count) (int l ping_gap_ms) (flag l tls_cert_check)
       (flag l tcp_retransmit_check) (flag l tcp_handshake_capture) (lst l http_protocols) (expected l)
       (ntp_check (a_probe_cfg out)))
    (int l tcp_handshake_interval_ms) (flag l use_stream_metrics) (int l max_buffer_size)
    (str l disk_buffer_path) (int l disk_buffer_max_mb).

Definition known_key (key : string) : bool := existsb (fun o => String.eqb key (lo_name o)) long_options.

Section Load.
(** The options the C library's [getopt_long] loop returns. *)
Variable getopt_all : list string -> string -> list long_option -> list (Z * option string).

Definition read_file (fs : files) (path : string) (explicit_ : bool) : option (bool * gmap string string) :=
  if explicit_ || Exists fs path then
    match LoadConfigFile fs path with
    | inl _ => None
    | inr m => Some (true, m)
    end
  else Some (false, ∅).

Definition LoadAgentConfig (win : option string) (fs : files) (argv : list string) (out : AgentConfig)
    : outcome (ConfigResult * AgentConfig) :=
  let '(config_path, explicit_) := scan_config (tail argv) "" false in
  let config_path := if is_empty config_path then DefaultConfigPath win else config_path in
  match read_file fs config_path explicit_ with
  | None => Returns (ErrorResult, out)
  | Some (cfg_loaded, file_cfg) =>
      if negb (forallb (fun kv => known_key (fst kv)) (map_to_list file_cfg)) then Returns (ErrorResult, out)
      else
        let! r := option_loop (getopt_all argv optstring long_options) (from_file win file_cfg) ∅ in
        match r with
        | inr result => Returns (result, out)
        | inl (l, cli) =>
            let out := publish config_path cfg_loaded file_cfg cli l out in
            match ParseLogLevel (str l log_level_str) with
            | None => Returns (ErrorResult, out)
            | Some _ => Returns (Ok, out)
            end
        end
  end.
End Load.

(** [LogConfigAudit]; [ordered] lists a [std::map] by increasing key. *)
Definition key_le (a b : string * string) : Prop := String.leb (fst a) (fst b) = true.
#[global] Instance key_le_dec a b : Decision (key_le a b).
Proof. unfold key_le. apply _. Defined.
Definition ordered (m : gmap string string) : list (string * string) := merge_sort key_le (map_to_list m).
Definition assigned (v : string) : string := if is_empty v then "" else "=" +:+ v.
Definition LogConfigAudit (cfg : AgentConfig) : list (LogLevel * string) :=
  flat_map (fun kv : string * string =>
    let '(k, v) := kv in
    match a_cli_options cfg !! k with
    | Some c =>
        if String.eqb c v then []
        else [(Info, "CLI --" +:+ k +:+ assigned c +:+ " overrides config file value '" +:+ v +:+ "'")]
    | None => [(Debug, "config file: " +:+ k +:+ "=" +:+ v)]
    end) (ordered (a_file_cfg cfg)) ++
  flat_map (fun kv : string * string =>
    let '(k, v) := kv in
    match a_file_cfg cfg !! k with
    | Some _ => []
    | None => [(Debug, "CLI --" +:+ k +:+ assigned v +:+ " (not set in config file)")]
    end) (ordered (a_cli_options cfg)).

(** ** Who wins *)

(** The arguments given for an action, in order. *)
Definition given (a : action) (opts : list (Z * option string)) : list string :=
  omap (fun o => if decide (action_of (fst o) = a) then Some (default "" (snd o)) else None) opts.
Definition flags_given (x : bvar) (opts : list (Z * option string)) : list bool :=
  omap (fun o => match action_of (fst o) with
                 | SetFlag y v => if decide (y = x) then Some v else None
                 | _ => None
                 end) opts.

Lemma last_cons_default {A} (v : A) l : list.last (v :: l) = Some (default v (list.last l)).
Proof. rewrite last_cons. by destruct (list.last l). Qed.

Lemma given_cons a o opts :
  given a (o :: opts) =
  if decide (action_of (fst o) = a) then default "" (snd o) :: given a opts else given a opts.
Proof. unfold given. cbn. by destruct (decide _). Qed.

(** What the option loop leaves in each variable. *)
Record merged (opts : list (Z * option string)) (l l' : locals) : Prop := {
  mg_str x : str l' x = default (str l x) (list.last (given (SetStr x) opts));
  mg_int x : match list.last (given (SetInt x) opts) with
             | Some v => stoi v = Some (int l' x)
             | None => int l' x = int l x
             end;
  mg_flag x : flag l' x = default (flag l x) (list.last (flags_given x opts));
  mg_lst x : lst l' x = default (lst l x) (ParseList <$> list.last (given (SetList x) opts));
  mg_expected : expected l' = fold_left (fun m v => ApplyDnsExpected v m) (given AddExpected opts) (expected l);
}.

Lemma merged_cons o opts l l1 l' :
  apply (action_of (fst o)) (default "" (snd o)) l = Returns (inl l1) ->
  merged opts l1 l' -> merged (o :: opts) l l'.
Proof.
  intros Ha [H1 H2 H3 H4 H5]. destruct (action_of (fst o)) as [y|y|y v|y| | | |] eqn:Ea; cbn in Ha; try done.
  2: destruct (stoi (default "" (snd o))) as [n|] eqn:En; [|done].
  all: injection Ha as <-; cbn [str int flag lst expected] in *.
  all: split; [intros x; specialize (H1 x)|intros x; specialize (H2 x)|intros x; specialize (H3 x)|
                intros x; specialize (H4 x)|].
  all: unfold flags_given in *; cbn [omap list_omap]; rewrite ?given_cons, ?Ea; try done.
  all: repeat case_decide; simplify_eq; try done.
  all: rewrite ?last_cons_default; cbn [default from_option fmap option_fmap option_map].
  all: try (rewrite H1; by rewrite ?fn_lookup_insert, ?fn_lookup_insert_ne by congruence).
  all: try (rewrite H3; by rewrite ?fn_lookup_insert, ?fn_lookup_insert_ne by congruence).
  all: try (rewrite H4; rewrite ?fn_lookup_insert, ?fn_lookup_insert_ne by congruence;
            by destruct (list.last _)).
  all: try (rewrite ?fn_lookup_insert, ?fn_lookup_insert_ne in H2 by congruence;
            by destruct (list.last _); cbn; congruence).
Qed.

Lemma option_loop_merged opts l cli l' cli' :
  option_loop opts l cli = Returns (inl (l', cli')) -> merged opts l l'.
Proof.
  revert l cli. induction opts as [|[opt arg] opts IH]; intros l cli.
  - intros [= <- <-]. by split.
  - cbn [option_loop]. destruct (apply _ _ l) as [[l1|r]|w] eqn:Ea; try done.
    intros E. by eapply (merged_cons (opt, arg)); [|eapply IH].
Qed.

Lemma option_loop_result opts l cli r : option_loop opts l cli = Returns (inr r) -> r <> Ok.
Proof.
  revert l cli. induction opts as [|[opt arg] opts IH]; intros l cli; [done|]. cbn [option_loop].
  destruct (apply _ _ l) as [[l1|r1]|w] eqn:Ea; [by eauto| |done]. intros [= ->].
  destruct (action_of opt); cbn in Ea; try destruct (stoi _); congruence.
Qed.

(** *** The settings, as the documentation lists them *)

(** The arguments an option was given, in order. *)
Definition values (code : Z) (opts : list (Z * option string)) : list string :=
  omap (fun o => if decide (fst o = code) then Some (default "" (snd o)) else None) opts.
Definition is_given (code : Z) (opts : list (Z * option string)) : bool := bool_decide (values code opts <> []).

(** How an option is spelled: its name, and its letter when it has one. *)
Definition spelled (key : string) (kind : arg_kind) (code : Z) : Prop :=
  mkOption key kind None code ∈ long_options /\
  ((code < 256)%Z ->
   listed optstring (Ascii.ascii_of_nat (Z.to_nat code)) (bool_decide (kind = required_argument)) = true).

(** The non-empty parts of a text between its commas. *)
Fixpoint pieces (s : string) : list string :=
  match s with
  | "" => [""]
  | String c s =>
      if decide (c = ","%char) then "" :: pieces s
      else match pieces s with p :: rest => String c p :: rest | [] => [] end
  end.
Definition items (s : string) : list string := filter (fun p => p <> "") (pieces s).
(** The records given for a host: of the items host=record, in order. *)
Definition records (host : string) (l : list string) : list string :=
  omap (fun e => match sfind "=" e with
                 | Some i =>
                     if decide (stake i e = host /\ host <> "" /\ sdrop (i + 1) e <> "") then Some (sdrop (i + 1) e)
                     else None
                 | None => None
                 end) l.

(** Field, name, code and default. *)
Definition texts (win : option string) : list ((AgentConfig -> string) * string * Z * string) :=
  [(a_collector_endpoint, "collector-endpoint", char_val "c", "localhost:50051");
   (a_node_id, "node-id", char_val "n", "agent-unknown");
   (a_trace_id, "trace-id", char_val "t", "");
   (a_version, "version", char_val "v", "0.1.0");
   (a_diagnostic_port, "diagnostic-port", char_val "z", "50052");
   (a_diagnostic_address, "diagnostic-address", char_val "a", "");
   (a_disk_buffer_path, "disk-buffer-path", char_val "j",
      match win with Some dir => dir +:+ chr bslash +:+ "pending.db" | None => "/var/lib/pudim/pending.db" end);
   (a_tls_ca, "tls-ca", char_val "C", "");
   (a_tls_cert, "tls-cert", char_val "E", "");
   (a_tls_key, "tls-key", char_val "K", "");
   (a_ntp_server, "ntp-server", char_val "o", "pool.ntp.org")].
Definition numbers : list ((AgentConfig -> Z) * string * Z * Z) :=
  [(a_interval_ms, "interval", char_val "i", 5000);
   (a_max_buffer_size, "max-buffer-size", char_val "f", 200);
   (a_disk_buffer_max_mb, "disk-buffer-max-mb", char_val "l", 100);
   (a_tcp_handshake_interval_ms, "tcp-handshake-interval", 1001, 0);
   (fun c => Cycle.ping_count (a_probe_cfg c), "ping-count", char_val "k", 4);
   (fun c => Cycle.ping_gap_ms (a_probe_cfg c), "ping-gap-ms", char_val "u", 200)]%Z.
Definition lists : list ((AgentConfig -> list string) * string * Z * string) :=
  [(a_collector_endpoints, "collector-endpoints", char_val "b", "");
   (fun c => Cycle.dns_targets (a_probe_cfg c), "dns-targets", char_val "d", "");
   (fun c => Cycle.tcp_targets (a_probe_cfg c), "tcp-targets", char_val "p", "");
   (fun c => Cycle.tls_targets (a_probe_cfg c), "tls-targets", char_val "s", "");
   (fun c => Cycle.http_targets (a_probe_cfg c), "http-targets", char_val "w", "");
   (fun c => Cycle.ping_targets (a_probe_cfg c), "ping-targets", char_val "g", "");
   (fun c => Cycle.http_protocols (a_probe_cfg c), "http-protocols", char_val "x", "http1.1,http2")].
(** Field, name, code and what the option makes of the field. *)
Definition switches : list ((AgentConfig -> bool) * string * Z * bool) :=
  [(a_use_stream_metrics, "stream-metrics", char_val "m", true);
   (fun c => Cycle.tls_cert_check (a_probe_cfg c), "no-tls-cert", char_val "q", false);
   (fun c => Cycle.tcp_retransmit_check (a_probe_cfg c), "no-tcp-retransmit", char_val "r", false);
   (fun c => Cycle.tcp_handshake_capture (a_probe_cfg c), "no-tcp-handshake", char_val "e", false)].

(** The last argument, else the file, else the default. *)
Definition chosen (code : Z) (key dflt : string) (opts : list (Z * option string)) (file : gmap string string) : string :=
  default (default dflt (file !! key)) (list.last (values code opts)).
Definition or_default (s dflt : string) : string := if decide (s = "") then dflt else s.
(** Whether the file switches an option on. *)
Definition on_in_file (key : string) (file : gmap string string) : bool :=
  match file !! key with Some v => bool_decide (v ∈ ["true"; "1"; "yes"; "on"]) | None => false end.

Lemma action_of_case o a : action_of o = a -> a <> Unknown -> (o, a) ∈ cases.
Proof.
  unfold action_of. destruct (list_find _ cases) as [[i [o' a']]|] eqn:E; [|by intros <-].
  apply list_find_Some in E as (Hi & Ho & _). cbn in Ho. intros <- _. subst o'. by eapply list_elem_of_lookup_2.
Qed.
(** One case of the switch and its actions. *)
Lemma given_values a code opts :
  a <> Unknown -> map fst (filter (fun c => snd c = a) cases) = [code] -> action_of code = a ->
  given a opts = values code opts.
Proof.
  intros Ha Hc Hcode. unfold given, values. apply list_omap_ext, Forall_Forall2_diag, Forall_forall. intros o _.
  assert (action_of (fst o) = a <-> fst o = code) as He; [|by repeat case_decide; tauto].
  split; [|by intros ->]. intros E. apply (action_of_case _ _ E) in Ha.
  assert (fst o ∈ map fst (filter (fun c => snd c = a) cases)) as Hin.
  { apply list_elem_of_fmap. exists (fst o, a). split; [done|]. by apply list_elem_of_filter. }
  rewrite Hc in Hin. by apply list_elem_of_singleton.
Qed.
Lemma last_flags x v code opts :
  map fst (filter (fun c => snd c = SetFlag x v) cases) = [code] -> action_of code = SetFlag x v ->
  map fst (filter (fun c => snd c = SetFlag x (negb v)) cases) = [] ->
  list.last (flags_given x opts) = if is_given code opts then Some v else None.
Proof.
  intros Hc Hcode Hno. unfold is_given. rewrite <- (given_values (SetFlag x v)) by done.
  assert (Forall (eq v) (flags_given x opts) /\ (flags_given x opts = [] <-> given (SetFlag x v) opts = [])) as [HF He].
  { unfold flags_given. induction opts as [|o opts IH]; [done|]. rewrite given_cons. cbn [omap list_omap].
    destruct (action_of (fst o)) as [y|y|y w|y| | | |] eqn:Ea; try (rewrite decide_False by done; exact IH).
    destruct (decide (y = x)) as [->|Hy]; [|rewrite decide_False by congruence; exact IH].
    destruct (decide (w = v)) as [->|Hw]; [rewrite decide_True by done; split; [constructor; [done|apply IH]|done]|].
    assert (w = negb v) as -> by (destruct w, v; done). apply action_of_case in Ea; [|done].
    assert (fst o ∈ map fst (filter (fun c => snd c = SetFlag x (negb v)) cases)) as Hin.
    { apply list_elem_of_fmap. exists (fst o, SetFlag x (negb v)). split; [done|]. by apply list_elem_of_filter. }
    rewrite Hno in Hin. by apply elem_of_nil in Hin. }
  destruct (list.last (flags_given x opts)) as [w|] eqn:El.
  - apply last_Some_elem_of in El as Hin. rewrite Forall_forall in HF. rewrite <- (HF w Hin).
    rewrite bool_decide_true; [done|]. intros E. apply He in E. rewrite E in El. done.
  - apply last_None in El. rewrite bool_decide_false; [done|]. intros E. apply E, He, El.
Qed.

Lemma pieces_some s : exists p r, pieces s = p :: r.
Proof.
  induction s as [|c s (p & r & E)]; cbn [pieces]; [by eexists _, _|].
  rewrite E. destruct (decide _); by eexists _, _.
Qed.
Lemma list_loop_pieces s cur out :
  list_loop s cur out = out ++ filter (fun p => p <> "") (match pieces s with p :: r => (cur +:+ p) :: r | [] => [] end).
Proof.
  revert cur out. induction s as [|c s IH]; intros cur out; cbn [list_loop pieces].
  - rewrite sapp_nil_r. rewrite filter_cons. destruct (decide (cur <> "")) as [Hc|Hc].
    + by rewrite (proj2 (is_empty_false cur) Hc).
    + apply dec_stable in Hc as ->. cbn. by rewrite app_nil_r.
  - rewrite !IH. destruct (Ascii.eqb_spec c ","); [rewrite decide_True by done|rewrite decide_False by done].
    + rewrite sapp_nil_r, (filter_cons _ cur). destruct (pieces_some s) as (p & r & ->).
      destruct (decide (cur <> "")) as [Hc|Hc].
      * by rewrite (proj2 (is_empty_false cur) Hc), <- app_assoc.
      * by apply dec_stable in Hc as ->.
    + destruct (pieces_some s) as (p & r & ->). by rewrite sapp_assoc.
Qed.
Lemma ParseList_items s : ParseList s = items s.
Proof. unfold ParseList, items. rewrite list_loop_pieces. by destruct (pieces s). Qed.

Definition listed_records (l : list string) : option (list string) := if decide (l = []) then None else Some l.
Lemma add_expected_records host m e l :
  m !! host = listed_records l -> add_expected m e !! host = listed_records (l ++ records host [e]).
Proof.
  unfold add_expected, records. cbn [omap list_omap]. intros Hm.
  destruct (sfind "=" e) as [i|]; [|by rewrite app_nil_r].
  destruct (negb (is_empty (stake i e)) && _) eqn:Eb.
  - apply andb_true_iff in Eb as [Eh%negb_true_iff Er%negb_true_iff]. rewrite is_empty_false in Eh, Er.
    destruct (decide (stake i e = host)) as [<-|Hne].
    + rewrite lookup_insert_eq, decide_True by done. unfold listed_records in *. rewrite decide_False by (by destruct l).
      rewrite Hm. by case_decide; subst.
    + rewrite lookup_insert_ne, decide_False by tauto. by rewrite app_nil_r.
  - apply andb_false_iff in Eb. rewrite !negb_false_iff, !is_empty_spec in Eb.
    rewrite decide_False; [by rewrite app_nil_r|]. intros (<- & H1 & H2). tauto.
Qed.
Lemma apply_expected_records host s m l :
  m !! host = listed_records l -> ApplyDnsExpected s m !! host = listed_records (l ++ records host (items s)).
Proof.
  unfold ApplyDnsExpected. rewrite ParseList_items. generalize (items s). intros es. revert m l.
  induction es as [|e es IH]; intros m l Hm; cbn [fold_left]; [by rewrite app_nil_r|].
  rewrite (IH _ _ (add_expected_records host m e l Hm)), <- app_assoc. do 2 f_equal.
  unfold records. cbn. by repeat case_match.
Qed.
Lemma expected_records host ss m l :
  m !! host = listed_records l ->
  fold_left (fun m v => ApplyDnsExpected v m) ss m !! host =
  listed_records (l ++ concat (map (fun s => records host (items s)) ss)).
Proof.
  revert m l. induction ss as [|s ss IH]; intros m l Hm; cbn [fold_left map concat]; [by rewrite app_nil_r|].
  by rewrite (IH _ _ (apply_expected_records host s m l Hm)), <- app_assoc.
Qed.

Lemma spelled_by key kind code :
  existsb (fun o => bool_decide (lo_name o = key /\ lo_has_arg o = kind /\ lo_flag o = None /\ lo_val o = code)) long_options
    = true ->
  ((code <? 256)%Z = true ->
   listed optstring (Ascii.ascii_of_nat (Z.to_nat code)) (bool_decide (kind = required_argument)) = true) ->
  spelled key kind code.
Proof.
  intros (o & Hin & E)%existsb_exists Hl. apply bool_decide_eq_true in E as (<- & <- & E & <-).
  split; [|by intros ?%Z.ltb_lt; apply Hl]. apply list_elem_of_In. by destruct o; cbn in *; subst.
Qed.
Lemma existsb_elem (v : string) (l : list string) : existsb (String.eqb v) l = bool_decide (v ∈ l).
Proof.
  symmetry. destruct (existsb (String.eqb v) l) eqn:E.
  - apply bool_decide_eq_true, list_elem_of_In. apply existsb_exists in E as (x & Hx & Ex).
    by apply String.eqb_eq in Ex as ->.
  - apply bool_decide_eq_false. rewrite list_elem_of_In. intros Hin. apply not_true_iff_false in E.
    apply E, existsb_exists. exists v. split; [done|apply String.eqb_refl].
Qed.
Lemma get_b_on file key : get_b file key false = on_in_file key file.
Proof.
  unfold get_b, on_in_file. destruct (file !! key) as [v|]; [|done]. unfold parse_bool. rewrite existsb_elem.
  destruct (bool_decide _); [done|]. by destruct (existsb _ _).
Qed.

(** The loading in terms of its local variables. *)
Lemma LoadAgentConfig_merged getopt_all win fs argv out cfg :
  LoadAgentConfig getopt_all win fs argv out = Returns (Ok, cfg) ->
  let '(named, explicit_) := scan_config (tail argv) "" false in
  exists l,
    cfg = publish (a_config_path cfg) (a_cfg_loaded cfg) (a_file_cfg cfg) (a_cli_options cfg) l out /\
    merged (getopt_all argv optstring long_options) (from_file win (a_file_cfg cfg)) l /\
    ParseLogLevel (str l log_level_str) = Some (a_log_level cfg) /\
    a_config_path cfg = or_default named (DefaultConfigPath win) /\
    (explicit_ = true -> a_cfg_loaded cfg = true) /\
    (a_cfg_loaded cfg = true -> LoadConfigFile fs (a_config_path cfg) = inr (a_file_cfg cfg)) /\
    (a_cfg_loaded cfg = false -> a_file_cfg cfg = ∅ /\ fs (a_config_path cfg) = None) /\
    (forall k, k ∈ dom (a_file_cfg cfg) -> known_key k = true).
Proof.
  unfold LoadAgentConfig. destruct (scan_config (tail argv) "" false) as [path0 explicit_].
  set (path := if is_empty path0 then _ else _). cbv zeta.
  destruct (read_file fs path explicit_) as [[loaded file]|] eqn:Ef; [|done].
  destruct (forallb _ _) eqn:Ek; cbn [negb]; [|done].
  destruct (option_loop _ _ _) as [[[l cli]|r]|w] eqn:El; cbn [obind];
    [|by intros [= -> <-]; apply option_loop_result in El|done].
  destruct (ParseLogLevel _) as [lev|] eqn:Elev; [|done]. intros [= <-].
  exists l. cbn. rewrite Elev. split_and!; try done.
  - by eapply option_loop_merged.
  - unfold path, or_default. by destruct path0.
  - intros ->. unfold read_file in Ef. cbn in Ef. destruct (LoadConfigFile fs path); [done|]. by injection Ef as <- _.
  - intros ->. unfold read_file in Ef. destruct (_ || _); [|done].
    destruct (LoadConfigFile fs path); [done|]. by injection Ef as ->.
  - intros ->. unfold read_file in Ef. destruct (_ || _) eqn:Ee.
    + by destruct (LoadConfigFile fs path).
    + injection Ef as <-. split; [done|]. apply orb_false_iff in Ee as [_ Ee].
      unfold Exists in Ee. apply bool_decide_eq_false in Ee. by apply eq_None_not_Some.
  - intros k [v Hv]%elem_of_dom. rewrite forallb_forall in Ek.
    apply (Ek (k, v)). apply list_elem_of_In, elem_of_map_to_list, Hv.
Qed.

Lemma ParseLogLevel_named t lev :
  ParseLogLevel t = Some lev -> (t, lev) ∈ [("debug", Debug); ("info", Info); ("warn", Warn); ("error", Error)].
Proof.
  unfold ParseLogLevel. rewrite list_elem_of_In. cbn [In].
  destruct (String.eqb_spec t "debug") as [->|]; [intros [= <-]; tauto|].
  destruct (String.eqb_spec t "info") as [->|]; [intros [= <-]; tauto|].
  destruct (String.eqb_spec t "warn") as [->|]; [intros [= <-]; tauto|].
  destruct (String.eqb_spec t "error") as [->|]; [intros [= <-]; tauto|done].
Qed.

Section Rows.
Context (win : option string) (file : gmap string string) (opts : list (Z * option string)) (l : locals)
  (Hm : merged opts (from_file win file) l).

(** The only case of the switch that does this. *)
Definition only_case (code : Z) (a : action) : Prop :=
  map fst (filter (fun c => snd c = a) cases) = [code] /\ action_of code = a.

Lemma text_row x code key dflt :
  str_key win x = (key, dflt) -> only_case code (SetStr x) -> str l x = chosen code key dflt opts file.
Proof. intros Hk [H1 H2]. rewrite (mg_str _ _ _ Hm), (given_values _ code) by done. cbn. by rewrite Hk. Qed.
Lemma number_row x code key dflt :
  int_key x = (key, dflt) -> only_case code (SetInt x) ->
  match list.last (values code opts) with
  | Some v => stoi v = Some (int l x)
  | None => int l x = default dflt (file !! key ≫= stoi)
  end.
Proof.
  intros Hk [H1 H2]. pose proof (mg_int _ _ _ Hm x) as E. rewrite (given_values _ code) in E by done.
  destruct (list.last _); [done|]. rewrite E. cbn. rewrite Hk. unfold get_i. cbn. by destruct (file !! key).
Qed.
Lemma list_row x code key dflt :
  lst_key x = (key, dflt) -> only_case code (SetList x) -> lst l x = items (chosen code key dflt opts file).
Proof.
  intros Hk [H1 H2]. rewrite (mg_lst _ _ _ Hm), (given_values _ code) by done. cbn. rewrite Hk.
  unfold chosen. destruct (list.last _); apply ParseList_items.
Qed.
Lemma switch_row x code key on :
  flag (from_file win file) x = (if on_in_file key file then on else negb on) -> only_case code (SetFlag x on) ->
  map fst (filter (fun c => snd c = SetFlag x (negb on)) cases) = [] ->
  flag l x = if is_given code opts || on_in_file key file then on else negb on.
Proof.
  intros Hf [H1 H2] H3. rewrite (mg_flag _ _ _ Hm), (last_flags x on code), Hf by done. by destruct (is_given code opts).
Qed.
End Rows.
#[local] Ltac spelling := apply spelled_by; [reflexivity|first [reflexivity|discriminate]].
#[local] Ltac row lem :=
  constructor; [split; [spelling|cbn [publish a_collector_endpoint]; eapply lem; (eassumption || done)]|].

(** Claim C27: which value wins, for every field.  The tables above list each
    field with the name and letter of its option and its default.  When the
    configuration loads: a text is the last argument given for its option,
    else the value of the file, else the default; a number is the same, where
    the argument has to be a number and an unreadable one of the file counts
    as absent; a list has the non-empty comma-separated parts of the text so
    chosen, and the log level is the one it names, which must be one of four.
    A switch is on when the command line has its option or the file says true,
    1, yes or on: the command line can set it and cannot clear it.  The
    expected records of a host are those of the file followed by those of all
    its options.  The NTP check keeps the value it had.  The file is the one
    the pre-scan of the command line found, or the default path; one that is
    named must load, and it has only the names of options. *)
Theorem LoadAgentConfig_precedence
    (getopt_all : list string -> string -> list long_option -> list (Z * option string))
    (win : option string) (fs : files) (argv : list string) (out cfg : AgentConfig) :
  LoadAgentConfig getopt_all win fs argv out = Returns (Ok, cfg) ->
  let opts := getopt_all argv optstring long_options in
  let file := a_file_cfg cfg in
  let '(named, explicit_) := scan_config (tail argv) "" false in
  Forall (fun '(field, key, code, dflt) =>
    spelled key required_argument code /\ field cfg = chosen code key dflt opts file) (texts win) /\
  Forall (fun '(field, key, code, dflt) =>
    spelled key required_argument code /\
    match list.last (values code opts) with
    | Some v => stoi v = Some (field cfg)
    | None => field cfg = default dflt (file !! key ≫= stoi)
    end) numbers /\
  Forall (fun '(field, key, code, dflt) =>
    spelled key required_argument code /\ field cfg = items (chosen code key dflt opts file)) lists /\
  Forall (fun '(field, key, code, on) =>
    spelled key no_argument code /\ field cfg = if is_given code opts || on_in_file key file then on else negb on)
    switches /\
  (spelled "log-level" required_argument 1000 /\
   (chosen 1000 "log-level" "info" opts file, a_log_level cfg) ∈
     [("debug", Debug); ("info", Info); ("warn", Warn); ("error", Error)]) /\
  (spelled "dns-expected" required_argument (char_val "y") /\
   forall host, dns_expected (a_probe_cfg cfg) !! host =
     listed_records (records host (items (default "" (file !! "dns-expected"))) ++
       concat (map (fun s => records host (items s)) (values (char_val "y") opts)))) /\
  ntp_check (a_probe_cfg cfg) = ntp_check (a_probe_cfg out) /\
  a_config_path cfg = or_default named (DefaultConfigPath win) /\
  (explicit_ = true -> a_cfg_loaded cfg = true) /\
  (a_cfg_loaded cfg = true -> LoadConfigFile fs (a_config_path cfg) = inr file) /\
  (a_cfg_loaded cfg = false -> file = ∅ /\ fs (a_config_path cfg) = None) /\
  (forall k, k ∈ dom file -> exists o, o ∈ long_options /\ lo_name o = k).
Proof.
  intros Hload opts file. pose proof (LoadAgentConfig_merged _ _ _ _ _ _ Hload) as Hx.
  destruct (scan_config (tail argv) "" false) as [named explicit_].
  destruct Hx as (l & Ec & Hm & Hlev & Hpath & Hexp & Hyes & Hno & Hknown). fold opts file in Hm, Ec.
  split; [rewrite Ec; repeat row text_row; constructor|].
  split; [rewrite Ec; repeat row number_row; constructor|].
  split.
  { rewrite Ec. constructor; [split; [spelling|]|repeat row list_row; constructor].
    cbn [publish a_collector_endpoints]. rewrite ParseList_items. f_equal. eapply text_row; (eassumption || done). }
  split.
  { rewrite Ec. repeat (constructor; [split; [spelling|
      eapply switch_row; [exact Hm|cbn; rewrite get_b_on; by destruct (on_in_file _ _)|done|done]]|]). constructor. }
  split_and!; try done.
  - spelling.
  - rewrite <- (text_row win file opts l Hm log_level_str 1000 "log-level" "info") by done.
    apply ParseLogLevel_named, Hlev.
  - spelling.
  - intros host. rewrite Ec. cbn [publish a_probe_cfg dns_expected]. rewrite (mg_expected _ _ _ Hm).
    rewrite (given_values AddExpected (char_val "y")) by done.
    rewrite (expected_records host _ _ (records host (items (default "" (file !! "dns-expected"))))); [done|].
    cbn [from_file expected]. unfold get_s. by rewrite (apply_expected_records host _ ∅ []).
  - by rewrite Ec.
  - intros k Hk. apply Hknown, existsb_exists in Hk as (o & Ho & E). apply String.eqb_eq in E.
    exists o. by rewrite list_elem_of_In.
Qed.
(** An [AgentConfig] as declared. *)
Definition default_AgentConfig : AgentConfig :=
  mkAgentConfig "" false ∅ ∅ "" [] "" "" "" 5000 "" "" "" "" "" "" Info default_ProbeConfig 0 false 200 "" 100.

(** The Windows build's option loop. *)
Definition getopt_windows (argv : list string) (os : string) (l : list long_option)
    : list (Z * option string) := fst (parse_all argv os l).

Definition demo_argv : list string := ["agent"; "--node-id=cli"; "-k"; "9"; "--dns-expected"; "f.com=A:2.2.2.2"].
Definition demo_load : outcome (ConfigResult * AgentConfig) :=
  LoadAgentConfig getopt_windows None demo_files demo_argv default_AgentConfig.

Example demo_loaded :
  match demo_load with
  | Returns (Ok, cfg) =>
      a_node_id cfg = "cli" /\ Cycle.ping_count (a_probe_cfg cfg) = 9%Z /\ Cycle.ping_gap_ms (a_probe_cfg cfg) = 200%Z /\
      dns_expected (a_probe_cfg cfg) = {["e.com" := ["A:1.2.3.4"]; "f.com" := ["A:2.2.2.2"]]} /\
      LogConfigAudit cfg =
        [(Info, "CLI --dns-expected=f.com=A:2.2.2.2 overrides config file value 'e.com=A:1.2.3.4'");
         (Info, "CLI --node-id=cli overrides config file value 'web 01'");
         (Debug, "CLI --ping-count=9 (not set in config file)")]
  | _ => False
  end.
Proof. vm_compute. done. Qed.

Lemma LoadAgentConfig_precedence_witness :
  exists cfg, demo_load = Returns (Ok, cfg) /\
  Forall (fun '(field, key, code, dflt) =>
    spelled key required_argument code /\
    field cfg = chosen code key dflt (getopt_windows demo_argv optstring long_options) (a_file_cfg cfg)) (texts None).
Proof.
  destruct demo_load as [[[] cfg]|] eqn:E; try (vm_compute in E; discriminate).
  exists cfg. split; [reflexivity|].
  exact (proj1 (LoadAgentConfig_precedence getopt_windows None demo_files demo_argv default_AgentConfig cfg E)).
Defined.

(** The option table can be written and read back in full. *)
Lemma long_options_good : good_table long_options.
Proof. split; [apply (bool_decide_unpack _); vm_compute; exact I|]. repeat constructor; vm_compute; done. Qed.

(** Every option of the table has its own case. *)
Example no_option_falls_through :
  Forall (fun o => action_of (lo_val o) <> Unknown) long_options /\ NoDup (map lo_val long_options).
Proof. split; apply (bool_decide_unpack _); vm_compute; exact I. Qed.

(** An abbreviated --config-file reaches the loop, which skips it: the file
    named is not read. *)
Example abbreviated_config_file :
  match LoadAgentConfig getopt_windows None demo_files ["agent"; "--config-f=/etc/other.conf"]
          default_AgentConfig with
  | Returns (Ok, cfg) => a_config_path cfg = "/etc/pudim/agent.conf" /\ a_node_id cfg = "web 01"
  | _ => False
  end.
Proof. vm_compute. done. Qed.
End AgentConfig.
