(* ===== verification/Stod.v ===== *)
(** * Stod: [std::stod]

    The conversion of text to a double: [strtod]'s grammar in the C locale
    (decimal and hexadecimal numbers with an exponent, "inf", "nan"), correctly
    rounded, and the range errors that make [std::stod] throw.  A trailing rest
    that is not part of the number is ignored, as [std::stod] does. *)
From stdpp Require Import base strings list.
From Stdlib Require Import ZArith Lia SpecFloat Ascii.
From S2P Require Import Prelude Double.
Import Str.
#[local] Open Scope Z_scope.

Module Stod.
(** The digits of a base at the start of a text: their value after [acc], how
    many there are, and the rest. *)
Definition digit_of (base : Z) (c : Ascii.ascii) : option Z :=
  let n := Z.of_nat (Ascii.nat_of_ascii c) in
  let d := if (48 <=? n) && (n <=? 57) then n - 48
           else if (97 <=? n) && (n <=? 102) then n - 87
           else if (65 <=? n) && (n <=? 70) then n - 55
           else base in
  if d <? base then Some d else None.
Fixpoint digits (base acc : Z) (count : nat) (s : string) : Z * nat * string :=
  match s with
  | String c s' =>
      match digit_of base c with
      | Some d => digits base (acc * base + d) (S count) s'
      | None => (acc, count, s)
      end
  | "" => (acc, count, s)
  end.

(** The mantissa: digits, perhaps a point and more digits; the value of all
    digits and the number after the point. *)
Definition mantissa (base : Z) (s : string) : option (Z * nat * string) :=
  let '(n, before, rest) := digits base 0 0 s in
  match rest with
  | String "." rest' =>
      let '(n', after, rest'') := digits base n 0 rest' in
      if Nat.eqb (before + after) 0 then None else Some (n', after, rest'')
  | _ => if Nat.eqb before 0 then None else Some (n, 0%nat, rest)
  end.

(** The exponent, when a complete one follows. *)
Definition exponent (marker : Ascii.ascii) (s : string) : Z :=
  match s with
  | String c rest =>
      if Ascii.eqb (to_lower_char c) marker then
        let '(neg, rest) := match rest with
                            | String "-" r => (true, r)
                            | String "+" r => (false, r)
                            | _ => (false, rest)
                            end in
        let '(e, count, _) := digits 10 0 0 rest in
        if Nat.eqb count 0 then 0 else if neg then - e else e
      else 0
  | "" => 0
  end.

(** A fraction rounded to the nearest double: the quotient with more bits than
    a double keeps, its last bit recording a remainder. *)
Definition of_fraction (neg : bool) (num den : Z) : double :=
  let signed z := if neg then - z else z in
  if num mod den =? 0 then binary_normalize Double.prec Double.emax (signed (num / den)) 0 neg
  else
    let k := Z.max 0 (58 + Z.log2 den - Z.log2 num) in
    let q := num * 2 ^ k / den in
    let sticky := if num * 2 ^ k mod den =? 0 then 0 else 1 in
    binary_normalize Double.prec Double.emax (signed (2 * q + sticky)) (- (k + 1)) neg.

(** [ERANGE]: an infinite result, or one too small to be normal and inexact. *)
Definition out_of_range (num den : Z) (d : double) : bool :=
  match d with
  | S754_infinity _ => true
  | S754_zero _ => negb (num =? 0)
  | S754_finite _ m e =>
      (Z.pos m <? 2 ^ 52) && negb (Z.pos m * den =? num * 2 ^ (- e))
  | S754_nan => false
  end.

Definition scaled (base : Z) (n e : Z) : Z * Z :=
  if 0 <=? e then (n * base ^ e, 1) else (n, base ^ (- e)).

Definition number (neg : bool) (s : string) : option double :=
  let finish num den :=
    let d := of_fraction neg num den in
    if out_of_range num den d then None else Some d in
  let decimal :=
    match mantissa 10 s with
    | Some (n, after, rest) =>
        let '(num, den) := scaled 10 n (exponent "e" rest - Z.of_nat after) in finish num den
    | None => None
    end in
  match s with
  | String "0" (String x s') =>
      if Ascii.eqb (to_lower_char x) "x" then
        match mantissa 16 s' with
        | Some (n, after, rest) =>
            let '(num, den) := scaled 2 n (exponent "p" rest - 4 * Z.of_nat after) in finish num den
        | None => decimal
        end
      else decimal
  | _ => decimal
  end.

(** [None] when [std::stod] throws. *)
Definition stod (s : string) : option double :=
  let s := drop_while is_space s in
  let '(neg, s) := match s with
                   | String "-" r => (true, r)
                   | String "+" r => (false, r)
                   | _ => (false, s)
                   end in
  if has_prefix "inf" (to_lower s) then Some (S754_infinity neg)
  else if has_prefix "nan" (to_lower s) then Some S754_nan
  else number neg s.

Example stod_decimal : map (fun s => Double.fixed 3 <$> stod s) ["12.5"; "-0.125e1ms"; " +3"; ".5"; "0x1p-2"; "x"] =
  [Some "12.500"; Some "-1.250"; Some "3.000"; Some "0.500"; Some "0.250"; None].
Proof. vm_compute. reflexivity. Qed.
Example stod_rounded : stod "0.1" = Some (Double.div (Double.of_Z 1) (Double.of_Z 10)).
Proof. vm_compute. reflexivity. Qed.
Example stod_range : map stod ["1e400"; "1e-400"; "-"; ""; "1-2"] = [None; None; None; None; Some (Double.of_Z 1)].
Proof. vm_compute. reflexivity. Qed.

(** Counts up to a bound, checked by evaluation. *)
Definition upto (n : nat) : list Z := map Z.of_nat (seq 0 (S n)).

Lemma upto_all (p : Z -> bool) (n : nat) (z : Z) :
  forallb p (upto n) = true -> 0 <= z <= Z.of_nat n -> p z = true.
Proof.
  intros H Hz. rewrite forallb_forall in H. apply H. unfold upto. apply in_map_iff.
  exists (Z.to_nat z). split; [lia|]. apply in_seq. lia.
Qed.

Lemma stod_count z : 0 <= z <= 1000 -> stod (of_Z z) = Some (Double.of_Z z).
Proof.
  intros Hz. apply (bool_decide_eq_true (stod (of_Z z) = Some (Double.of_Z z))).
  revert z Hz. refine (fun z => upto_all (fun z => bool_decide (stod (of_Z z) = Some (Double.of_Z z))) 1000 z _).
  vm_compute. reflexivity.
Qed.
End Stod.
