(* ===== verification/Commands.v ===== *)
(** * Commands: the agent's pre-set commands

    Models [agent/src/commands.cpp] as built for Linux.  [ToolText] holds the
    functions that read the output of external tools, [Host] is the interface
    to the operating system the commands use (shell, file system, volume
    usage), and [Catalog] the commands themselves, the catalogue and
    [RunCommand].  A command is a function from its parameters, the response
    filled so far and the host to the new response and host. *)
From stdpp Require Import base gmap strings list.
From Stdlib Require Import ZArith Lia SpecFloat Ascii.
From S2P Require Import Prelude Double Proto Stod ProbeRunner.
Import Str Stod.
#[local] Open Scope string_scope.
#[local] Open Scope list_scope.

Definition eol : string := chr nl.

Module ToolText.
(** [Trim] is the [trim] of the prelude. *)
Definition GetParam (params : gmap string string) (key def : string) : string :=
  match params !! key with
  | Some v => if is_empty v then def else v
  | None => def
  end.

Definition ParseIntParam (params : gmap string string) (key : string) (def lo hi : Z) : Z :=
  match params !! key with
  | Some s =>
      if is_empty s then def
      else match stoll s with
           | Some v => if (v <? lo)%Z then lo else if (hi <? v)%Z then hi else v
           | None => def
           end
  | None => def
  end.

Definition FirstToken (s : string) : string :=
  take_while (fun c => negb (is_space c)) (drop_while is_space s).

Definition quoted (key : string) : string := dq +:+ key +:+ dq.

(** A JSON string after its opening quote: a backslash keeps the next
    character. *)
Fixpoint unquote (s : string) : string :=
  match s with
  | "" => ""
  | String c rest =>
      if Ascii.eqb c dquote then ""
      else if Ascii.eqb c bslash then
        match rest with
        | String d rest' => String d (unquote rest')
        | "" => String c ""
        end
      else String c (unquote rest)
  end.

Definition scalar_end (c : Ascii.ascii) : bool :=
  existsb (Ascii.eqb c) [","; "}"; "]"; " "]%char || Ascii.eqb c tab || Ascii.eqb c nl || Ascii.eqb c cr.

Definition JsonValue (text key : string) : string :=
  let needle := quoted key in
  match sfind_str needle text with
  | None => ""
  | Some pos =>
      match drop_while (fun c => negb (Ascii.eqb c ":")) (sdrop (pos + String.length needle) text) with
      | "" => ""
      | String _ rest =>
          match drop_while (fun c => Ascii.eqb c " " || Ascii.eqb c tab) rest with
          | "" => ""
          | String c rest' as value =>
              if Ascii.eqb c dquote then unquote rest'
              else take_while (fun c => negb (scalar_end c)) value
          end
      end
  end.

Definition JsonNumber (text key : string) (def : double) : double :=
  let v := JsonValue text key in
  if is_empty v then def else default def (stod v).

Definition JsonBlock (text from to_ : string) : string :=
  let a := quoted from in
  match sfind_str a text with
  | None => ""
  | Some start =>
      let end_ :=
        if is_empty to_ then String.length text
        else match sfind_str_from (quoted to_) text (start + String.length a) with
             | Some e => e
             | None => String.length text
             end in
      substr text start (end_ - start)
  end.

Fixpoint drop_zeros (fuel : nat) (s : string) : string :=
  match fuel with
  | O => s
  | S fuel =>
      if Nat.ltb 1 (String.length s) then
        match last_char s with
        | Some "0"%char => drop_zeros fuel (pop_back s)
        | _ => s
        end
      else s
  end.

(** Two decimals, without trailing zeros and point. *)
Definition Fmt (v : double) : string :=
  let text := Double.fixed 2 v in
  let s := drop_zeros (String.length text) text in
  match last_char s with
  | Some "."%char => pop_back s
  | _ => s
  end.

(** The longest end of a text of characters satisfying [p]. *)
Fixpoint suffix_while (p : Ascii.ascii -> bool) (s : string) : string :=
  if sall p s then s else match s with "" => "" | String _ s' => suffix_while p s' end.

Definition number_char (c : Ascii.ascii) : bool := is_digit c || Ascii.eqb c "." || Ascii.eqb c "-".

(** The number just before a marker, 0 when there is none. *)
Definition NumberBefore (text marker : string) : double :=
  match sfind_str marker text with
  | None => Double.zero
  | Some pos =>
      default Double.zero (stod (suffix_while number_char (drop_while_end is_space (stake pos text))))
  end.

Definition SpeedtestRejectedFlags (out : string) : bool :=
  let lower := to_lower out in
  existsb (fun s => scontains s lower)
    ["usage:"; "unrecognized option"; "unknown option"; "unrecognized arguments"; "traceback"].

Definition SpeedtestCrashed (out : string) : bool :=
  existsb (fun s => scontains s out) ["terminate called"; "what():"; "core dumped"; "Segmentation fault"].

Definition result_mark : string := quoted "type" +:+ ":" +:+ quoted "result".

(** The first result object among the lines, else the first object. *)
Fixpoint result_line (l : list string) (first_object : string) : string :=
  match l with
  | [] => first_object
  | raw :: rest =>
      let line := trim raw in
      match line with
      | String "{" _ =>
          if scontains result_mark line then line
          else result_line rest (if is_empty first_object then line else first_object)
      | _ => result_line rest first_object
      end
  end.
Definition OoklaResultJson (out : string) : string := result_line (lines "" out) "".

Definition FirstMeaningfulLine (out : string) : string :=
  match list_find (fun l => trim l <> "") (lines "" out) with
  | Some (_, l) => trim l
  | None => ""
  end.

Definition SpeedtestBytesPerSecToMbps (bytes_per_s : double) : double :=
  Double.div (Double.mul bytes_per_s (Double.of_Z 8)) (Double.of_Z 1000000).

Definition not_space (c : Ascii.ascii) : bool := negb (is_space c).
Definition loss_char (c : Ascii.ascii) : bool := is_digit c || Ascii.eqb c ".".

(** The loss column after "|--" and the host. *)
Definition ParseMtrLoss (line : string) : option double :=
  match sfind_str "|--" line with
  | None => None
  | Some pos =>
      let rest := drop_while is_space (drop_while not_space (drop_while is_space (sdrop (pos + 3) line))) in
      let column := take_while loss_char rest in
      if is_empty column then None else stod column
  end.

(** The device a mount table gives for "/", without its partition number;
    [chunks] are the pieces [fgets] reads. *)
Fixpoint root_device (chunks : list string) : string :=
  match chunks with
  | [] => ""
  | s :: rest =>
      match sfind " " s with
      | None => root_device rest
      | Some i =>
          let device := stake i s in
          let s' := sdrop (i + 1) s in
          match sfind " " s' with
          | None => root_device rest
          | Some j => if String.eqb (stake j s') "/" then device else root_device rest
          end
      end
  end.
Definition whole_disk (dev : string) : string :=
  if has_prefix "/dev/" dev then
    let dev := drop_while_end is_digit dev in
    match last_char dev with
    | Some "p"%char => pop_back dev
    | _ => dev
    end
  else "".

(** Reads of at most [n] characters up to and with a line end. *)
Fixpoint fgets_chunks (n : nat) (cur : string) (s : string) : list string :=
  match s with
  | "" => if is_empty cur then [] else [cur]
  | String c s' =>
      let cur := cur +:+ chr c in
      if Ascii.eqb c nl || Nat.eqb (String.length cur) n then cur :: fgets_chunks n "" s'
      else fgets_chunks n cur s'
  end.
Definition RootDisk (mounts : option string) : string :=
  match mounts with
  | None => ""
  | Some text => whole_disk (root_device (fgets_chunks 1023 "" text))
  end.

(** A wait status: exited (low seven bits 0), stopped or continued (low
    seven bits all ones), killed by a signal. *)
Definition DescribeExitStatus (strsignal : Z -> option string) (status : Z) : string :=
  if (status <? 0)%Z then "no exit status"
  else
    let low := Z.land status 127 in
    if (0 <? low)%Z && (low <? 127)%Z then
      "killed by signal " +:+ of_Z low +:+
      match strsignal low with Some name => " (" +:+ name +:+ ")" | None => "" end
    else if (low =? 0)%Z then "exit " +:+ of_Z (Z.land (Z.shiftr status 8) 255)
    else "status " +:+ of_Z status.

(** The loss Windows' ping reports: the digits before the first "%" after
    "Lost =". *)
Definition windows_loss (out : string) : double :=
  match sfind_str "Lost =" out with
  | None => Double.zero
  | Some lost_marker =>
      let tail_ := sdrop lost_marker out in
      match sfind "%" tail_ with
      | None => Double.zero
      | Some pct => default Double.zero (stod (suffix_while loss_char (stake pct tail_)))
      end
  end.

(** The pieces of a text between slashes, the last one unless empty. *)
Fixpoint slashes (cur s : string) : list string :=
  match s with
  | "" => if is_empty cur then [] else [cur]
  | String c s' => if Ascii.eqb c "/" then cur :: slashes "" s' else slashes (cur +:+ chr c) s'
  end.

(** "min/avg/max/mdev = 1.2/2.3/3.4/0.5 ms": the numbers read until one fails
    keep their values. *)
Definition rtt_numbers (out : string) (eq : nat) : double * double * double * double :=
  let zero := Double.zero in
  let from := match sfind_from "=" out eq with Some i => i + 1 | None => 0 end in
  let part :=
    trim (match sfind_str_from " ms" out from with
          | Some b => substr out from (b - from)
          | None => sdrop from out
          end) in
  match slashes "" part with
  | n0 :: n1 :: n2 :: n3 :: _ =>
      match stod n0 with
      | None => (zero, zero, zero, zero)
      | Some min =>
          match stod n1 with
          | None => (min, zero, zero, zero)
          | Some avg =>
              match stod n2 with
              | None => (min, avg, zero, zero)
              | Some max => (min, avg, max, default zero (stod n3))
              end
          end
      end
  | _ => (zero, zero, zero, zero)
  end.
End ToolText.

(** ** The operating system *)

(** [W] is the state of the machine.  [popen_] runs a shell command line and
    gives its output and wait status, or [None] when the shell cannot start;
    [mkdir] tells whether the directory is there afterwards; [private_dir]
    whether it exists, is owned by the agent's user and not writable by others. *)
Class Host (W : Type) : Type := {
  popen_ : string -> W -> option (string * Z) * W;
  file_exists : string -> W -> bool;
  mkdir : string -> W -> bool * W;
  private_dir : string -> W -> bool;
  root_volume : W -> option (Z * Z * Z);     (* f_frsize, f_blocks, f_bavail *)
  self_mounts : W -> option string;
  gethostname : W -> option string;
  strsignal_ : Z -> option string;
  clock_ms : W -> Z;
}.

(** The machine, and the cached result of [ToolHomeDirImpl]. *)
Record machine {W : Type} : Type := mkMachine { tool_home : option string; world : W }.
#[global] Arguments machine : clear implicits.
#[global] Arguments mkMachine {W} _ _.

Module Shell.
Section Shell.
Context {W : Type} `{!Host W}.

(** The loop of [MakeDirs]: every prefix that ends before a slash, then all. *)
Fixpoint make_prefixes (done_ rest : string) (w : W) : bool * W :=
  match rest with
  | "" => mkdir done_ w
  | String c rest' =>
      if Ascii.eqb c "/" then
        let '(ok, w) := mkdir done_ w in
        if ok then make_prefixes (done_ +:+ chr c) rest' w else (false, w)
      else make_prefixes (done_ +:+ chr c) rest' w
  end.
Definition MakeDirs (path : string) (w : W) : bool * W :=
  match path with
  | "" => (false, w)
  | String c rest =>
      let '(ok, w) := make_prefixes (chr c) rest w in
      (ok && private_dir path w, w)
  end.

Fixpoint first_made (candidates : list string) (w : W) : string * W :=
  match candidates with
  | [] => ("", w)
  | dir :: rest =>
      let '(ok, w) := MakeDirs dir w in
      if ok then (dir, w) else first_made rest w
  end.
Definition tool_home_candidates : list string := ["/var/lib/pudim/tool-home"; "/tmp/pudim-tool-home"].

Definition ToolHomeDir (m : machine W) : string * machine W :=
  match tool_home m with
  | Some dir => (dir, m)
  | None => let '(dir, w) := first_made tool_home_candidates (world m) in (dir, mkMachine (Some dir) w)
  end.

Definition ToolHomePrefix (m : machine W) : string * machine W :=
  let '(home, m) := ToolHomeDir m in
  if is_empty home then ("", m)
  else
    let cfg := home +:+ "/.config" in
    let '(_, w) := MakeDirs cfg (world m) in
    ("HOME='" +:+ home +:+ "' XDG_CONFIG_HOME='" +:+ cfg +:+ "' ", mkMachine (tool_home m) w).

(** The output, empty when the shell cannot start, and the wait status, -1
    then. *)
Definition RunFixed (cmd : string) (m : machine W) : string * Z * machine W :=
  let '(prefix, m) := ToolHomePrefix m in
  let '(res, w) := popen_ ("( " +:+ prefix +:+ cmd +:+ " ) 2>&1") (world m) in
  let m := mkMachine (tool_home m) w in
  match res with
  | None => ("", (-1)%Z, m)
  | Some (out, status) => (out, status, m)
  end.

Definition RunBounded (cmd : string) (timeout_s : Z) (m : machine W) : string * Z * machine W :=
  RunFixed ("timeout " +:+ of_Z timeout_s +:+ " " +:+ cmd) m.

Definition FindTool (name : string) (paths : list string) (m : machine W) : string * machine W :=
  match list_find (fun p => file_exists p (world m) = true) paths with
  | Some (_, p) => (p, m)
  | None =>
      let '(out, _, m) := RunFixed ("command -v " +:+ name +:+ " || true") m in
      (ToolText.FirstToken (trim out), m)
  end.

Definition IsOoklaTool (bin : string) (m : machine W) : bool * machine W :=
  if is_empty bin then (false, m)
  else
    let '(out, _, m) := RunBounded (bin +:+ " --version") 15 m in
    (scontains "ookla" (to_lower out), m).

Definition Hostname (m : machine W) : string := default "unknown" (gethostname (world m)).
End Shell.
End Shell.

(** ** Filling a response *)
Definition AddField (key value : string) (r : CommandResponse) : CommandResponse :=
  mkCommandResponse (c_success r) (c_command_id r) (c_error r) (c_timestamp_unix_ms r) (c_summary r)
    (<[key := value]> (c_fields r)) (c_issues r) (c_detail r).
Definition add_issues (issue : string) (r : CommandResponse) : CommandResponse :=
  mkCommandResponse (c_success r) (c_command_id r) (c_error r) (c_timestamp_unix_ms r) (c_summary r)
    (c_fields r) (c_issues r ++ [issue]) (c_detail r).
Definition append_detail (text : string) (r : CommandResponse) : CommandResponse :=
  mkCommandResponse (c_success r) (c_command_id r) (c_error r) (c_timestamp_unix_ms r) (c_summary r)
    (c_fields r) (c_issues r) (c_detail r +:+ text).
Definition set_success (b : bool) (r : CommandResponse) : CommandResponse :=
  mkCommandResponse b (c_command_id r) (c_error r) (c_timestamp_unix_ms r) (c_summary r)
    (c_fields r) (c_issues r) (c_detail r).
Definition set_error (e : string) (r : CommandResponse) : CommandResponse :=
  mkCommandResponse (c_success r) (c_command_id r) e (c_timestamp_unix_ms r) (c_summary r)
    (c_fields r) (c_issues r) (c_detail r).
Definition set_summary (s : string) (r : CommandResponse) : CommandResponse :=
  mkCommandResponse (c_success r) (c_command_id r) (c_error r) (c_timestamp_unix_ms r) s
    (c_fields r) (c_issues r) (c_detail r).
(** A step under a condition. *)
Definition when (b : bool) (f : CommandResponse -> CommandResponse) (r : CommandResponse) : CommandResponse :=
  if b then f r else r.

(** The heading, the output, and a line end if the output lacks one. *)
Definition tool_output (heading out : string) (r : CommandResponse) : CommandResponse :=
  when (match last_char out with Some c => negb (Ascii.eqb c nl) | None => false end) (append_detail eol)
    (append_detail out (append_detail ("=== " +:+ heading +:+ " ===" +:+ eol) r)).

Module Catalog.
Import ToolText Shell.
Section Catalog.
Context {W : Type} `{!Host W}.

Abbreviation params := (gmap string string).

Definition RunAgentInfo (arch : string) (_ : params) (r : CommandResponse) (m : machine W)
    : CommandResponse * machine W :=
  let host := Hostname m in
  (set_success true (set_summary ("agent on linux/" +:+ arch +:+ " (" +:+ host +:+ ")")
     (AddField "hostname" host (AddField "arch" arch (AddField "os" "linux" r)))), m).

(** Usage of the root volume: unsigned 64-bit arithmetic, then an int. *)
Definition volume_usage (r : CommandResponse) (v : option (Z * Z * Z)) : CommandResponse :=
  match v with
  | None => AddField "disk_usage_percent" "unknown" r
  | Some (frsize, blocks, bavail) =>
      let total := Int.u64 (frsize * blocks) in
      let free_bytes := Int.u64 (frsize * bavail) in
      let used := if (free_bytes <? total)%Z then (total - free_bytes)%Z else 0%Z in
      let pct := if (0 <? total)%Z then Int.to_int32 (Int.u64 (used * 100) / total) else 0%Z in
      when (90 <=? pct)%Z (add_issues ("root volume usage is " +:+ of_Z pct +:+ "% (>= 90%)"))
        (AddField "disk_usage_percent" (of_Z pct) (AddField "disk_used_bytes" (of_Z used)
           (AddField "disk_total_bytes" (of_Z total) (AddField "volume" "/" r))))
  end.

Definition FindSmartctl (m : machine W) : string :=
  match list_find (fun p => file_exists p (world m) = true)
          ["/usr/sbin/smartctl"; "/sbin/smartctl"; "/usr/local/sbin/smartctl"] with
  | Some (_, p) => p
  | None => ""
  end.

Definition smart_report (disk out : string) (r : CommandResponse) : CommandResponse :=
  let passed := scontains "PASSED" out in
  let failed := scontains "FAILED" out in
  when failed (add_issues ("SMART health check FAILED for " +:+ disk))
    (append_detail out (append_detail ("=== smartctl -H -A " +:+ disk +:+ " ===" +:+ eol)
       (AddField "smart_passed" (if failed then "false" else if passed then "true" else "unknown") r))).

Definition RunHddCheck (_ : params) (r : CommandResponse) (m : machine W) : CommandResponse * machine W :=
  let r := volume_usage r (root_volume (world m)) in
  let smartctl := FindSmartctl m in
  let disk := RootDisk (self_mounts (world m)) in
  let '(r, m) :=
    if is_empty smartctl then
      (append_detail ("smartctl not installed; SMART health check skipped." +:+ eol)
         (AddField "smart_supported" "false" r), m)
    else if is_empty disk then
      (append_detail ("no raw block device found for the root volume; SMART health check skipped." +:+ eol)
         (AddField "smart_supported" "false" r), m)
    else
      let '(out, _, m) := RunFixed (smartctl +:+ " -H -A " +:+ disk) m in
      (smart_report disk out (AddField "smart_device" disk (AddField "smart_supported" "true" r)), m) in
  let summary :=
    "disk check finished: " +:+
    (if Nat.eqb (length (c_issues r)) 0 then "no issues found"
     else of_nat (length (c_issues r)) +:+ " issue(s) found") in
  (set_success true (set_summary summary r), m).

(** *** speedtest *)

Definition speedtest_command (tool : string) (ookla : bool) (server_id : string) : string :=
  let base := if ookla then tool +:+ " --format=json --accept-license --accept-gdpr" else tool +:+ " --json" in
  if is_empty server_id then base
  else base +:+ (if ookla then " --server-id=" +:+ server_id else " --server " +:+ server_id).

Definition tool_label (ookla : bool) : string := if ookla then "speedtest (ookla)" else "speedtest-cli".

(** The measurements read from the tool's output. *)
Definition speedtest_result (ookla : bool) (server_id out : string) (r : CommandResponse) : CommandResponse :=
  let zero := Double.zero in
  let positive d := Double.gt d zero in
  let r := AddField "tool" (tool_label ookla) (set_success true r) in
  let r := when (negb (is_empty server_id)) (AddField "server_id" server_id) r in
  let parse := if ookla then OoklaResultJson out else out in
  let parse := if is_empty parse then out else parse in
  let dl_json := JsonBlock parse "download" "upload" in
  let ul_json := JsonBlock parse "upload" "packetLoss" in
  let ul_json := if is_empty ul_json then JsonBlock parse "upload" "" else ul_json in
  let ping_json := JsonBlock parse "ping" "download" in
  let download_mbps := SpeedtestBytesPerSecToMbps
    (JsonNumber (if ookla then dl_json else parse) (if ookla then "bandwidth" else "download") zero) in
  let upload_mbps := SpeedtestBytesPerSecToMbps
    (JsonNumber (if ookla then ul_json else parse) (if ookla then "bandwidth" else "upload") zero) in
  let ping_ms := JsonNumber ping_json "latency" (JsonNumber parse "ping" zero) in
  let jitter_ms := JsonNumber ping_json "jitter" zero in
  let loss_pct := JsonNumber parse "packetLoss" (Double.of_Z (-1)) in
  let server_name := JsonValue (JsonBlock parse "server" "result") "name" in
  let server_name := if is_empty server_name then JsonValue parse "server" else server_name in
  let isp := JsonValue parse "isp" in
  let r := AddField "upload_mbps" (Fmt upload_mbps) (AddField "download_mbps" (Fmt download_mbps) r) in
  let r := when (positive ping_ms) (AddField "ping_ms" (Fmt ping_ms)) r in
  let r := when (positive jitter_ms) (AddField "jitter_ms" (Fmt jitter_ms)) r in
  let r := when (Double.ge loss_pct zero) (AddField "packet_loss_pct" (Fmt loss_pct)) r in
  let r := when (negb (is_empty server_name)) (AddField "server" server_name) r in
  let r := when (negb (is_empty isp)) (AddField "isp" isp) r in
  let r := when (Double.ge loss_pct (Double.of_Z 5))
             (add_issues ("speedtest measured " +:+ Fmt loss_pct +:+ "% packet loss")) r in
  let r := when (Double.le download_mbps zero && Double.le upload_mbps zero)
             (add_issues "speedtest reported zero throughput") r in
  set_summary ("download=" +:+ Fmt download_mbps +:+ " Mbps upload=" +:+ Fmt upload_mbps +:+
               " ping=" +:+ Fmt ping_ms +:+ " ms") r.

Definition speedtest_failed (ookla : bool) (out : string) (status : Z) (r : CommandResponse) : CommandResponse :=
  let line := FirstMeaningfulLine out in
  set_summary "speedtest failed"
    (set_error ("speedtest tool " +:+ (if is_empty (trim out) then "produced no output" else "crashed") +:+
                " (" +:+ DescribeExitStatus (strsignal_ (W := W)) status +:+ ")" +:+
                (if is_empty line then "" else ": " +:+ line))
       (AddField "tool" (tool_label ookla) (set_success false r))).

(** Ookla's client is preferred under either name. *)
Definition choose_tool (named cli : string) (m : machine W) : string * bool * machine W :=
  let '(ookla_named, m) := IsOoklaTool named m in
  if ookla_named then (named, true, m)
  else
    let '(ookla_cli, m) := IsOoklaTool cli m in
    if ookla_cli then (cli, true, m) else (if is_empty cli then named else cli, false, m).

Definition no_tool : string := "no speedtest tool on agent: install Ookla 'speedtest' or 'speedtest-cli'".

Definition RunSpeedtest (ps : params) (r : CommandResponse) (m : machine W) : CommandResponse * machine W :=
  let server_id := GetParam ps "server_id" "" in
  let '(named, m) := FindTool "speedtest"
    ["/usr/local/bin/speedtest"; "/usr/bin/speedtest"; "/opt/homebrew/bin/speedtest"] m in
  let '(cli, m) := FindTool "speedtest-cli" [] m in
  if is_empty named && is_empty cli then
    (set_summary "speedtest unavailable"
       (append_detail (no_tool +:+ eol) (set_error no_tool (set_success false r))), m)
  else
    let '(tool, ookla, m) := choose_tool named cli m in
    let '(out, status, m) := RunBounded (speedtest_command tool ookla server_id) 420 m in
    let '(out, status, m) :=
      if SpeedtestRejectedFlags out then RunBounded (speedtest_command tool (negb ookla) server_id) 420 m
      else (out, status, m) in
    let r := tool_output tool out r in
    (if is_empty (trim out) || SpeedtestCrashed out then speedtest_failed ookla out status r
     else speedtest_result ookla server_id out r, m).

(** *** ping_burst *)

(** What the output says: sent, received, loss in percent, and the four
    round-trip numbers. *)
Record ping_summary : Type := mkPing {
  pg_sent : double;
  pg_received : double;
  pg_loss : double;
  pg_rtt : double * double * double * double;     (* min, avg, max, mdev *)
}.

Definition read_ping (out : string) : ping_summary :=
  let '(sent, received, loss) :=
    if scontains "packets transmitted" out then
      (NumberBefore out "packets transmitted", NumberBefore out "received", NumberBefore out "% packet loss")
    else (NumberBefore out "Sent =", NumberBefore out "Received =", windows_loss out) in
  let rtt :=
    match sfind_str "min/avg/max/mdev =" out with
    | Some eq => rtt_numbers out eq
    | None => (NumberBefore out "Minimum =", NumberBefore out "Average =", NumberBefore out "Maximum =", Double.zero)
    end in
  mkPing sent received loss rtt.

Definition ping_result (target : string) (p : ping_summary) (r : CommandResponse) : CommandResponse :=
  let zero := Double.zero in
  let positive d := Double.gt d zero in
  let '(min_rtt, avg_rtt, max_rtt, mdev) := pg_rtt p in
  let parsed := positive (pg_sent p) in
  let r := when parsed (fun r => AddField "packet_loss_pct" (Fmt (pg_loss p))
             (AddField "received" (Fmt (pg_received p)) (AddField "sent" (Fmt (pg_sent p)) r))) r in
  let r := when (positive avg_rtt) (fun r =>
             AddField "rtt_max_ms" (if positive max_rtt then Fmt max_rtt else "0")
             (AddField "rtt_min_ms" (if positive min_rtt then Fmt min_rtt else "0")
             (AddField "rtt_avg_ms" (Fmt avg_rtt) r))) r in
  let r := when (positive mdev) (AddField "jitter_ms" (Fmt mdev)) r in
  let r :=
    if Double.ge (pg_loss p) (Double.of_Z 20) then
      add_issues ("packet loss of " +:+ Fmt (pg_loss p) +:+ "% toward " +:+ target) r
    else when (parsed && (Double.lt (pg_received p) (pg_sent p) || positive (pg_loss p)))
           (add_issues ("some packets lost toward " +:+ target)) r in
  let r := when (Double.ge avg_rtt (Double.of_Z 500))
             (add_issues ("average RTT " +:+ Fmt avg_rtt +:+ " ms toward " +:+ target +:+ " is high")) r in
  set_summary
    (if parsed then
       "burst to " +:+ target +:+ ": " +:+ Fmt (pg_sent p) +:+ " sent, " +:+ Fmt (pg_received p) +:+
       " received, " +:+ Fmt (pg_loss p) +:+ "% loss, avg " +:+ Fmt avg_rtt +:+ " ms"
     else "ping burst to " +:+ target +:+ " completed (output may be localized; see detail for raw results)")
    (set_success true r).

Definition ping_command (target : string) (count interval_ms : Z) : string :=
  "ping -c " +:+ of_Z count +:+ " -i " +:+
  Fmt (Double.div (Double.of_Z interval_ms) (Double.of_Z 1000)) +:+ " " +:+ target.

Definition RunPingBurst (ps : params) (r : CommandResponse) (m : machine W) : CommandResponse * machine W :=
  let target := GetParam ps "target" "1.1.1.1" in
  let count := ParseIntParam ps "count" 100 5 1000 in
  let interval_ms := ParseIntParam ps "interval_ms" 200 50 2000 in
  let r := AddField "count" (of_Z count) (AddField "target" target r) in
  let est_s := Z.quot (count * interval_ms) 1000 in
  let cmd := ping_command target count interval_ms in
  let '(out, _, m) := RunBounded cmd (est_s + 60) m in
  (ping_result target (read_ping out) (tool_output cmd out r), m).

(** *** route_quality *)

(** Hops counted, worst loss and its hop, loss at the last measured hop. *)
Record route : Type := mkRoute {
  rt_hops : Z;
  rt_worst_loss : double;
  rt_worst_hop : Z;
  rt_dest_loss : double;
  rt_dest_hop : Z;
}.
Definition no_route : route := mkRoute 0 Double.zero 0 Double.zero 0.

Definition mtr_line (p : route) (line : string) : route :=
  if negb (scontains "|--" line) then p
  else
    let hops := (rt_hops p + 1)%Z in
    match ParseMtrLoss line with
    | None => mkRoute hops (rt_worst_loss p) (rt_worst_hop p) (rt_dest_loss p) (rt_dest_hop p)
    | Some loss =>
        if Double.gt loss (rt_worst_loss p) then mkRoute hops loss hops loss hops
        else mkRoute hops (rt_worst_loss p) (rt_worst_hop p) loss hops
    end.

Definition traceroute_line (p : route) (line : string) : route :=
  let t := trim line in
  if is_empty t || Nat.ltb (String.length line) 3 then p
  else
    match line, t with
    | String " " _, String c _ =>
        if is_digit c || Ascii.eqb c "*" then
          mkRoute (rt_hops p + 1) (rt_worst_loss p) (rt_worst_hop p) (rt_dest_loss p) (rt_dest_hop p)
        else p
    | _, _ => p
    end.

Definition read_route (mtr : bool) (out : string) : route :=
  fold_left (if mtr then mtr_line else traceroute_line) (lines "" out) no_route.

Definition route_result (mtr : bool) (target : string) (p : route) (r : CommandResponse) : CommandResponse :=
  let zero := Double.zero in
  let mode := if mtr then "mtr" else "traceroute" in
  let hops := of_Z (rt_hops p) in
  let r := AddField "hops" hops r in
  let r := when (Double.gt (rt_worst_loss p) zero) (fun r =>
             AddField "worst_hop" (of_Z (rt_worst_hop p))
             (AddField "worst_hop_loss_pct" (Fmt (rt_worst_loss p)) r)) r in
  if negb mtr then
    set_summary (mode +:+ " to " +:+ target +:+ ": " +:+ hops +:+ " hops (per-hop loss unavailable)")
      (AddField "note" ("mtr not installed; per-hop loss parsing skipped (raw traceroute available in detail)") r)
  else
    let r := AddField "destination_loss_pct" (Fmt (rt_dest_loss p))
               (AddField "destination_hop" (of_Z (rt_dest_hop p)) r) in
    let r :=
      if Double.ge (rt_dest_loss p) (Double.of_Z 20) then
        add_issues ("destination loss of " +:+ Fmt (rt_dest_loss p) +:+ "% toward " +:+ target) r
      else when (Double.ge (rt_worst_loss p) (Double.of_Z 20))
             (AddField "note" ("loss on intermediate hops (" +:+ Fmt (rt_worst_loss p) +:+ "% at hop " +:+
                of_Z (rt_worst_hop p) +:+ ") is usually ICMP rate limiting; the target itself is " +:+
                Fmt (rt_dest_loss p) +:+ "%")) r in
    set_summary (mode +:+ " to " +:+ target +:+ ": " +:+ hops +:+ " hops, destination loss " +:+
                 Fmt (rt_dest_loss p) +:+ "%") r.

Definition RunRouteQuality (ps : params) (r : CommandResponse) (m : machine W) : CommandResponse * machine W :=
  let target := GetParam ps "target" "1.1.1.1" in
  let packets := ParseIntParam ps "packets" 20 5 100 in
  let r := AddField "packets" (of_Z packets) (AddField "target" target r) in
  let '(mtr, m) := FindTool "mtr" ["/usr/bin/mtr"; "/usr/sbin/mtr"; "/usr/local/bin/mtr"] m in
  let found := negb (is_empty mtr) in
  let '(out, _, m) :=
    if found then RunBounded (mtr +:+ " -r -c " +:+ of_Z packets +:+ " -n " +:+ target) 420 m
    else RunBounded ("traceroute -n -m 15 -w 1 " +:+ target) 120 m in
  let mode := if found then "mtr" else "traceroute" in
  let r := AddField "tool" mode (set_success true (tool_output (mode +:+ " " +:+ target) out r)) in
  (route_result found target (read_route found out) r, m).

(** *** The catalogue *)

(** [run] gives the response, the text of an exception if it threw one, and
    the machine. *)
Record CommandDef : Type := mkCommand {
  d_id : string;
  d_description : string;
  d_param_names : list string;
  d_run : params -> CommandResponse -> machine W -> CommandResponse * option string * machine W;
}.

(** A command that throws nothing. *)
Definition total (f : params -> CommandResponse -> machine W -> CommandResponse * machine W)
    (ps : params) (r : CommandResponse) (m : machine W) : CommandResponse * option string * machine W :=
  let '(r, m) := f ps r m in (r, None, m).

Definition commands (arch : string) : list CommandDef :=
  [mkCommand "hdd_check"
     ("Disk health check: usage of the volume holding the agent, plus a SMART self-assessment when " +:+
      "smartctl is available.") [] (total RunHddCheck);
   mkCommand "agent_info"
     "Reports the agent's OS, architecture and hostname (lightweight self-test)." [] (total (RunAgentInfo arch));
   mkCommand "speedtest"
     ("Heavy: measures internet download/upload throughput, latency, jitter and loss via a speedtest CLI " +:+
      "installed on the agent (Ookla 'speedtest' or 'speedtest-cli'). Takes roughly a minute.")
     ["server_id"] (total RunSpeedtest);
   mkCommand "ping_burst"
     ("Heavy: sustained ICMP burst (default 100 packets at 200 ms) measuring packet loss, RTT spread and " +:+
      "jitter toward a target. Runs for tens of seconds, unlike the light per-heartbeat probes.")
     ["target"; "count"; "interval_ms"] (total RunPingBurst);
   mkCommand "route_quality"
     ("Heavy: per-hop path loss toward a target using mtr (Linux) or pathping (Windows), with traceroute " +:+
      "as fallback.") ["target"; "packets"] (total RunRouteQuality)].

Definition ListCommands (catalog : list CommandDef) : ListCommandsResponse :=
  mkListCommandsResponse true ""
    (map (fun c => mkCommandInfo (d_id c) (d_description c) (d_param_names c)) catalog).

(** [false] for an unknown command.  [resp] is the response as passed in. *)
Definition RunCommand (catalog : list CommandDef) (id : string) (ps : params) (resp : CommandResponse)
    (m : machine W) : bool * CommandResponse * machine W :=
  let resp := mkCommandResponse (c_success resp) id (c_error resp) (clock_ms (world m)) (c_summary resp)
                (c_fields resp) (c_issues resp) (c_detail resp) in
  match list_find (fun c => d_id c = id) catalog with
  | Some (_, c) =>
      let '(resp, thrown, m) := d_run c ps resp m in
      let resp := match thrown with
                  | Some what => set_error ("command threw: " +:+ what) (set_success false resp)
                  | None => resp
                  end in
      let resp := when (is_empty (c_summary resp)) (set_summary (if c_success resp then "ok" else "failed")) resp in
      (true, resp, m)
  | None =>
      (false, set_error ("unknown command '" +:+ id +:+ "' (see ListCommands)") (set_success false resp), m)
  end.
End Catalog.
End Catalog.

(** ** The service the agent offers *)
Module Diagnostic.
Import Shell Cycle.
Section Diagnostic.
Context {W : Type} `{!Host W}.

Definition JoinList (items : list string) : string := sjoin "," items.
Definition on_off (b : bool) : string := if b then "on" else "off".

Definition SummaryOf (c : ProbeConfig) : string :=
  "dns=" +:+ JoinList (dns_targets c) +:+ " tcp=" +:+ JoinList (tcp_targets c) +:+
  " tls=" +:+ JoinList (tls_targets c) +:+ " http=" +:+ JoinList (http_targets c) +:+
  " ping=" +:+ JoinList (ping_targets c) +:+ " ping_count=" +:+ of_Z (ping_count c) +:+
  " ping_gap_ms=" +:+ of_Z (ping_gap_ms c) +:+ " tls_cert=" +:+ on_off (tls_cert_check c) +:+
  " tcp_retransmit=" +:+ on_off (tcp_retransmit_check c) +:+
  " tcp_handshake=" +:+ on_off (tcp_handshake_capture c) +:+
  " http_protocols=" +:+ JoinList (http_protocols c).

(** [RunShellCmd] of the diagnostic service. *)
Definition RunShellCmd (cmd : string) (w : W) : string * W :=
  let '(res, w) := popen_ (cmd +:+ " 2>&1") w in
  (match res with Some (out, _) => out | None => "popen failed" +:+ eol end, w).

Definition trace_part (target : string) (w : W) : string * W :=
  if is_empty target then ("", w)
  else
    let '(out, w) := RunShellCmd ("traceroute -n -m 15 -w 1 " +:+ target) w in
    ("=== traceroute " +:+ target +:+ " ===" +:+ eol +:+ out +:+ eol, w).

Definition pcap_part (pid : Z) (duration_s : Z) (pcap_filter : string) (w : W) : string * W :=
  if (duration_s <=? 0)%Z then ("", w)
  else
    let cap_file := "/tmp/pudim_diag_" +:+ of_Z pid +:+ "_" +:+ of_Z (clock_ms w) +:+ ".pcap" in
    let filter_ := if is_empty pcap_filter then "" else pcap_filter +:+ " " in
    let '(capture, w) :=
      RunShellCmd ("timeout " +:+ of_Z duration_s +:+ " tcpdump -i any -nn -c 500 " +:+ filter_ +:+
                   "-w " +:+ cap_file) w in
    let '(summary, w) := RunShellCmd ("tcpdump -r " +:+ cap_file +:+ " -nn -c 15 2>&1") w in
    let '(total, w) := RunShellCmd ("tcpdump -r " +:+ cap_file +:+ " -nn 2>/dev/null | wc -l") w in
    ("=== pcap capture (" +:+ of_Z duration_s +:+ "s, filter='" +:+ pcap_filter +:+ "') ===" +:+ eol +:+
     capture +:+ eol +:+ "=== pcap summary (first 15 packets) ===" +:+ eol +:+ summary +:+ eol +:+
     "total packets: " +:+ total, w).

Definition RunDiagnostic (pid : Z) (request : DiagnosticRequest) (w : W) : Status * DiagnosticResponse * W :=
  let '(trace, w) := trace_part (dq_trace_target request) w in
  let '(pcap, w) := pcap_part pid (dq_pcap_duration_s request) (dq_pcap_filter request) w in
  let idle := is_empty (dq_trace_target request) && (dq_pcap_duration_s request <=? 0)%Z in
  (Status_OK,
   mkDiagnosticResponse (negb idle) (trace +:+ pcap) (clock_ms w)
     (if idle then "diagnostic request has no work (set trace_target and/or pcap_duration_s)" else ""), w).

(** [m_store] is the probe configuration the probe runner reads. *)
Definition next_config (q : AgentConfigRequest) : ProbeConfig :=
  let d := default_ProbeConfig in
  mkProbeConfig (aq_dns_targets q) (aq_tcp_targets q) (aq_tls_targets q) (aq_http_targets q) (aq_ping_targets q)
    (if (0 <? aq_ping_count q)%Z then aq_ping_count q else ping_count d)
    (if (0 <? aq_ping_gap_ms q)%Z then aq_ping_gap_ms q else ping_gap_ms d)
    (default (tls_cert_check d) (aq_tls_cert_check q))
    (default (tcp_retransmit_check d) (aq_tcp_retransmit_check q))
    (default (tcp_handshake_capture d) (aq_tcp_handshake_capture q))
    (aq_http_protocols q) (dns_expected d) (ntp_check d).

Definition Reconfigure (request : AgentConfigRequest) (store : ProbeConfig)
    : Status * AgentConfigResponse * ProbeConfig :=
  let next := next_config request in
  (Status_OK, mkAgentConfigResponse true "" (SummaryOf next), next).

Definition GetConfig (store : ProbeConfig) : Status * AgentConfigResponse :=
  (Status_OK, mkAgentConfigResponse true "" (SummaryOf store)).

Definition ListCommands (arch : string) : Status * ListCommandsResponse :=
  (Status_OK, Catalog.ListCommands (Catalog.commands (W := W) arch)).

Definition RunCommand (arch : string) (command_id : string) (ps : gmap string string) (m : machine W)
    : Status * CommandResponse * machine W :=
  let '(_, resp, m) := Catalog.RunCommand (Catalog.commands arch) command_id ps empty_CommandResponse m in
  (Status_OK, resp, m).
End Diagnostic.
End Diagnostic.
