(* ===== verification/CommandsSpec.v ===== *)
(** * CommandsSpec: what the agent's commands promise

    Theorems on the file Commands: which numbers [ping_burst] reads from the
    tool's output, what reaches the shell, the answers of [RunCommand], reading
    back JSON strings, and the effect of a new probe configuration. *)
From stdpp Require Import base gmap strings list.
From Stdlib Require Import ZArith Lia SpecFloat Ascii.
From S2P Require Import Prelude Double Proto Text Stod ProbeRunner Commands.
Import Str Stod.
#[local] Open Scope string_scope.
#[local] Open Scope list_scope.

Module Search.
Lemma prefix_app_nl m a s :
  has_char nl m = false -> String.prefix m (a +:+ String nl s) = true -> String.prefix m a = true.
Proof.
  revert a. induction m as [|c m IH]; intros a Hm Hp; [by destruct a|].
  rewrite has_char_cons, orb_false_iff in Hm. destruct Hm as [Hc Hm]. destruct a as [|d a].
  - cbn in Hp. destruct (ascii_dec c nl) as [->|]; [by rewrite Ascii.eqb_refl in Hc|done].
  - change (String d a +:+ String nl s) with (String d (a +:+ String nl s)) in Hp. cbn in *.
    destruct (ascii_dec c d); [|done]. by apply IH.
Qed.

(** Skipping whole lines that do not hold the marker. *)
Lemma sfind_str_skip_lines m a s :
  m <> "" -> has_char nl m = false -> sfind_str m a = None ->
  sfind_str m (a +:+ String nl s) = (fun n => (String.length a + S n)%nat) <$> sfind_str m s.
Proof.
  intros Hne Hm. induction a as [|d a IH]; intros Ha.
  - change ("" +:+ String nl s) with (String nl s). cbn [sfind_str].
    destruct (String.prefix m (String nl s)) eqn:Ep; [|by destruct (sfind_str m s)].
    apply (prefix_app_nl m "" s Hm) in Ep. by destruct m.
  - change (String d a +:+ String nl s) with (String d (a +:+ String nl s)). cbn [sfind_str] in *.
    destruct (String.prefix m (String d a)) eqn:E; [done|].
    destruct (sfind_str m a) eqn:Ea; [done|].
    destruct (String.prefix m (String d (a +:+ String nl s))) eqn:Ep.
    + change (String d (a +:+ String nl s)) with (String d a +:+ String nl s) in Ep.
      apply prefix_app_nl in Ep; [congruence|done].
    + rewrite IH by done. by destruct (sfind_str m s).
Qed.

Lemma suffix_while_app p a c b :
  p c = false -> sall p b = true -> ToolText.suffix_while p (a +:+ String c b) = b.
Proof.
  intros Hc Hb. assert (ToolText.suffix_while p b = b) as Eb by (destruct b; cbn in *; by rewrite ?Hb).
  assert (forall a, sall p (a +:+ String c b) = false) as Hn.
  { clear a. induction a as [|d a IH]; [cbn; by rewrite Hc|].
    change (String d a +:+ String c b) with (String d (a +:+ String c b)). cbn. rewrite IH. apply andb_false_r. }
  induction a as [|d a IH].
  - change ("" +:+ String c b) with (String c b). cbn [ToolText.suffix_while sall]. by rewrite Hc.
  - pose proof (Hn (String d a)) as Hd.
    change (String d a +:+ String c b) with (String d (a +:+ String c b)) in *. cbn [ToolText.suffix_while].
    rewrite Hd. exact IH.
Qed.

(** A number between a separator and blanks before the marker is read. *)
Lemma NumberBefore_token m a c num blanks s v :
  sfind_str m (a +:+ String c num +:+ blanks +:+ m +:+ s) = Some (String.length (a +:+ String c num +:+ blanks)) ->
  ToolText.number_char c = false -> sall ToolText.number_char num = true -> num <> "" ->
  sall is_space blanks = true -> stod num = Some v ->
  ToolText.NumberBefore (a +:+ String c num +:+ blanks +:+ m +:+ s) m = v.
Proof.
  intros Hf Hc Hn Hne Hb Hv. unfold ToolText.NumberBefore. rewrite Hf.
  assert (a +:+ String c num +:+ blanks +:+ m +:+ s = (a +:+ String c num +:+ blanks) +:+ (m +:+ s)) as -> by
    by rewrite !sapp_assoc.
  rewrite stake_app. change (String c num +:+ blanks) with (String c (num +:+ blanks)).
  assert (drop_while_end is_space (a +:+ String c (num +:+ blanks)) = a +:+ String c num) as ->.
  { change (String c (num +:+ blanks)) with (String c num +:+ blanks). rewrite <- sapp_assoc.
    rewrite drop_while_end_app_blank by done.
    assert (exists n d, num = n +:+ chr d /\ is_space d = false) as (n & d & -> & Hd).
    { clear -Hn Hne. induction num as [|d num IH]; [done|]. cbn in Hn. apply andb_true_iff in Hn as [Hd Hn].
      destruct num as [|e num].
      - exists "", d. split; [done|]. clear -Hd. destruct d as [[] [] [] [] [] [] [] []]; done.
      - destruct (IH Hn ltac:(done)) as (n & x & E & Hx). exists (String d n), x. split; [|done].
        change (String d n +:+ chr x) with (String d (n +:+ chr x)). by rewrite <- E. }
    change (String c (n +:+ chr d)) with (String c n +:+ chr d). rewrite <- sapp_assoc.
    change (chr d) with (String d ""). by rewrite drop_while_end_app. }
  rewrite suffix_while_app by done. by rewrite Hv.
Qed.

(** A label instead of a number gives 0. *)
Lemma NumberBefore_label m a c blanks s :
  sfind_str m (a +:+ String c blanks +:+ m +:+ s) = Some (String.length (a +:+ String c blanks)) ->
  ToolText.number_char c = false -> is_space c = false -> sall is_space blanks = true ->
  ToolText.NumberBefore (a +:+ String c blanks +:+ m +:+ s) m = Double.zero.
Proof.
  intros Hf Hc Hsp Hb. unfold ToolText.NumberBefore. rewrite Hf.
  rewrite <- (sapp_assoc a), stake_app, drop_while_end_app by done.
  rewrite (drop_while_end_app_blank is_space "" blanks Hb : drop_while_end is_space blanks = "").
  by rewrite suffix_while_app.
Qed.
End Search.

Create HintDb same_call.

(** Steps that leave a field or an issue alone. *)
Lemma when_field b (f : CommandResponse -> CommandResponse) k r :
  (forall r, c_fields (f r) !! k = c_fields r !! k) -> c_fields (when b f r) !! k = c_fields r !! k.
Proof. intros H. by destruct b. Qed.
Lemma AddField_other k k' v r : k <> k' -> c_fields (AddField k v r) !! k' = c_fields r !! k'.
Proof. intros H. cbn. by rewrite lookup_insert_ne. Qed.
Lemma when_issue b i j r : i ∈ c_issues r -> i ∈ c_issues (when b (add_issues j) r).
Proof. intros H. destruct b; [|done]. cbn. apply elem_of_app. by left. Qed.

(** Moves a field lookup past the steps that do not set it. *)
Ltac other_fields :=
  repeat first
    [ rewrite AddField_other by (intros [=])
    | rewrite when_field by (intros ?; other_fields; done) ].

Module Ping.
Import ToolText Search Catalog.

(** The statistics of Linux' ping: everything before that line, the two
    counts, what may stand between them and the loss (such as an error
    count), the loss and the rest. *)
Definition ping_output (pre : string) (sent received : Z) (mid loss post : string) : string :=
  pre +:+ String nl (of_Z sent +:+ " packets transmitted, " +:+ of_Z received +:+ " received," +:+ mid +:+ " " +:+
                     loss +:+ "% packet loss" +:+ post).

(** The text before the statistics does not speak of them. *)
Definition quiet (pre : string) : Prop :=
  sfind_str "packets transmitted" pre = None /\ sfind_str "received" pre = None /\
  sfind_str "% packet loss" pre = None.

Lemma of_Z_lacks c z : is_digit c = false -> c <> "-"%char -> has_char c (of_Z z) = false.
Proof.
  intros Hd Hc. unfold has_char. apply negb_false_iff, of_Z_chars.
  - intros d Hd'. apply negb_true_iff, Ascii.eqb_neq. congruence.
  - apply negb_true_iff, Ascii.eqb_neq. exact Hc.
Qed.

Lemma of_Z_number z : (0 <= z)%Z -> sall number_char (of_Z z) = true /\ of_Z z <> "".
Proof.
  intros Hz. split.
  - apply of_Z_chars; [|done]. intros c Hc. unfold number_char. by rewrite Hc.
  - intros E. pose proof (parse_int_of_Z z) as P. rewrite E in P. done.
Qed.

Lemma loss_number t : sall loss_char t = true -> sall number_char t = true.
Proof. apply sall_impl. intros c Hc. unfold number_char, loss_char in *. by rewrite Hc. Qed.

Lemma loss_lacks_percent t : sall loss_char t = true -> has_char "%" t = false.
Proof.
  intros Ht. unfold has_char. apply negb_false_iff. revert Ht. apply sall_impl.
  intros c Hc. apply negb_true_iff, Ascii.eqb_neq. intros <-. done.
Qed.

(** Moves a marker search past text it cannot start in. *)
Ltac skip := rewrite sfind_str_skip_char by
  first [done | by apply of_Z_lacks | rewrite has_char_app; apply orb_false_iff; split; [by apply of_Z_lacks|done]].

Section Reading.
Context (pre mid loss post : string) (sent received : Z) (d : double).
Context (Hq : quiet pre) (Hs : (0 <= sent <= 1000)%Z) (Hr : (0 <= received <= 1000)%Z)
  (Hm : has_char "%" mid = false) (Hl : sall loss_char loss = true) (Hne : loss <> "") (Hd : stod loss = Some d).

Abbreviation out := (ping_output pre sent received mid loss post).

Lemma sent_at :
  sfind_str "packets transmitted" out = Some (String.length (pre +:+ String nl (of_Z sent) +:+ " ")).
Proof.
  unfold ping_output. rewrite sfind_str_skip_lines by (done || apply Hq).
  change (" packets transmitted, " +:+ ?x) with (" " +:+ "packets transmitted, " +:+ x).
  rewrite <- (sapp_assoc (of_Z sent)). skip.
  change ("packets transmitted, " +:+ ?x) with ("packets transmitted" +:+ ", " +:+ x).
  rewrite sfind_str_here. cbn [fmap option_fmap option_map]. f_equal.
  rewrite !slength_app. cbn [String.length]. lia.
Qed.

Lemma received_at :
  sfind_str "received" out =
  Some (String.length ((pre +:+ String nl (of_Z sent) +:+ " packets transmitted,") +:+ String " " (of_Z received) +:+ " ")).
Proof.
  unfold ping_output. rewrite sfind_str_skip_lines by (done || apply Hq). skip.
  assert (forall x, sfind_str "received" (" packets transmitted, " +:+ x) =
                    (fun n => (22 + n)%nat) <$> sfind_str "received" x) as ->
    by (intros x; cbn; by destruct (sfind_str "received" x)).
  change (" received," +:+ ?x) with (" " +:+ "received," +:+ x).
  rewrite <- (sapp_assoc (of_Z received)). skip.
  change ("received," +:+ ?x) with ("received" +:+ "," +:+ x).
  rewrite sfind_str_here. cbn [fmap option_fmap option_map]. f_equal.
  repeat (rewrite !slength_app; cbn [String.length]). lia.
Qed.

Lemma loss_at :
  sfind_str "% packet loss" out =
  Some (String.length ((pre +:+ String nl (of_Z sent) +:+ " packets transmitted, " +:+ of_Z received +:+
                        " received," +:+ mid) +:+ String " " loss +:+ "")).
Proof.
  unfold ping_output. rewrite sfind_str_skip_lines by (done || apply Hq). skip.
  rewrite sfind_str_skip_char by done. skip. rewrite sfind_str_skip_char by done.
  rewrite sfind_str_skip_char by done. rewrite sfind_str_skip_char by done.
  rewrite sfind_str_skip_char by (by apply loss_lacks_percent).
  rewrite sfind_str_here. cbn [fmap option_fmap option_map]. f_equal.
  repeat (rewrite !slength_app; cbn [String.length]). lia.
Qed.

Lemma read_statistics :
  NumberBefore out "packets transmitted" = Double.of_Z sent /\
  NumberBefore out "received" = Double.of_Z received /\ NumberBefore out "% packet loss" = d.
Proof.
  pose proof (of_Z_number sent (proj1 Hs)) as [Ns1 Ns2]. pose proof (of_Z_number received (proj1 Hr)) as [Nr1 Nr2].
  pose proof sent_at as S1. pose proof received_at as S2. pose proof loss_at as S3.
  assert (out = pre +:+ String nl (of_Z sent) +:+ " " +:+ "packets transmitted" +:+ ", " +:+ of_Z received +:+
            " received," +:+ mid +:+ " " +:+ loss +:+ "% packet loss" +:+ post) as E1 by done.
  assert (out = (pre +:+ String nl (of_Z sent) +:+ " packets transmitted,") +:+ String " " (of_Z received) +:+ " " +:+
            "received" +:+ "," +:+ mid +:+ " " +:+ loss +:+ "% packet loss" +:+ post) as E2
    by (unfold ping_output; by rewrite !sapp_assoc).
  assert (out = (pre +:+ String nl (of_Z sent) +:+ " packets transmitted, " +:+ of_Z received +:+ " received," +:+ mid)
            +:+ String " " loss +:+ "" +:+ "% packet loss" +:+ post) as E3
    by (unfold ping_output; by rewrite !sapp_assoc).
  split_and!.
  - rewrite E1 in S1 |- *. by apply NumberBefore_token; auto using stod_count.
  - rewrite E2 in S2 |- *. by apply NumberBefore_token; auto using stod_count.
  - rewrite E3 in S3 |- *. by apply NumberBefore_token; auto using loss_number.
Qed.
End Reading.

(** Counts are printed back as they were, checked by evaluation. *)
Lemma Fmt_count z : (0 <= z <= 1000)%Z -> Fmt (Double.of_Z z) = of_Z z.
Proof.
  intros Hz. apply (bool_decide_eq_true (Fmt (Double.of_Z z) = of_Z z)).
  refine (upto_all (fun z => bool_decide (Fmt (Double.of_Z z) = of_Z z)) 1000 z _ Hz).
  vm_compute. reflexivity.
Qed.

Definition count_facts (z : Z) : bool :=
  Bool.eqb (Double.gt (Double.of_Z z) Double.zero) (0 <? z)%Z.
Lemma count_positive z : (0 <= z <= 1000)%Z -> Double.gt (Double.of_Z z) Double.zero = (0 <? z)%Z.
Proof.
  intros Hz. apply eqb_prop. refine (upto_all count_facts 1000 z _ Hz). vm_compute. reflexivity.
Qed.

(** [ping_burst] reports what Linux' ping measured.  From any output
    whose statistics line gives the numbers sent and received (at most the
    1000 packets the command can send) and the loss, after any lines that do
    not mention them, the response carries exactly these numbers; a loss of
    20% or more is an issue that names it, any smaller loss or missing packet
    is an issue too, and without either none is raised for the packets. *)
Theorem ping_burst_reports (target pre mid loss post : string) (sent received : Z) (d : double)
    (r : CommandResponse) :
  quiet pre -> (0 < sent <= 1000)%Z -> (0 <= received <= 1000)%Z ->
  has_char "%" mid = false -> sall loss_char loss = true -> loss <> "" -> stod loss = Some d ->
  let p := read_ping (ping_output pre sent received mid loss post) in
  let r' := ping_result target p r in
  pg_sent p = Double.of_Z sent /\ pg_received p = Double.of_Z received /\ pg_loss p = d /\
  c_success r' = true /\
  c_fields r' !! "sent" = Some (of_Z sent) /\ c_fields r' !! "received" = Some (of_Z received) /\
  c_fields r' !! "packet_loss_pct" = Some (Fmt d) /\
  (Double.ge d (Double.of_Z 20) = true ->
     ("packet loss of " +:+ Fmt d +:+ "% toward " +:+ target) ∈ c_issues r') /\
  (Double.ge d (Double.of_Z 20) = false ->
     Double.lt (Double.of_Z received) (Double.of_Z sent) || Double.gt d Double.zero = true ->
     ("some packets lost toward " +:+ target) ∈ c_issues r').
Proof.
  intros Hq Hs Hr Hm Hl Hne Hd. cbv zeta.
  destruct (read_statistics pre mid loss post sent received d Hq ltac:(lia) Hr Hm Hl Hne Hd) as (E1 & E2 & E3).
  set (out := ping_output pre sent received mid loss post) in *.
  assert (scontains "packets transmitted" out = true) as Ec.
  { unfold scontains, out. rewrite sent_at by done. by apply bool_decide_eq_true. }
  assert (exists rtt, read_ping out = mkPing (Double.of_Z sent) (Double.of_Z received) d rtt) as [rtt ->].
  { unfold read_ping. rewrite Ec, E1, E2, E3. by eexists. }
  destruct rtt as [[[min avg] max] mdev]. unfold ping_result. cbn [pg_sent pg_received pg_loss pg_rtt].
  rewrite (count_positive sent), (proj2 (Z.ltb_lt 0 sent)) by lia. cbn [when andb].
  rewrite !Fmt_count by lia.
  set (r1 := AddField "packet_loss_pct" _ _).
  set (r3 := when (Double.gt mdev Double.zero) _ (when _ _ r1)).
  assert (forall k, k <> "jitter_ms" -> k <> "rtt_avg_ms" -> k <> "rtt_min_ms" -> k <> "rtt_max_ms" ->
            c_fields r3 !! k = c_fields r1 !! k) as H3.
  { intros k ????. unfold r3. rewrite !when_field; [done|intros; cbn beta; by rewrite !AddField_other by congruence..]. }
  set (loss_issue := "packet loss of " +:+ _). set (some_issue := "some packets lost toward " +:+ target).
  set (lost := Double.lt _ _ || _). set (high := Double.ge avg _). set (heavy := Double.ge d _).
  split_and!; try done.
  - transitivity (c_fields r3 !! "sent"); [by destruct high, heavy, lost|]. rewrite H3 by done. cbn. by simplify_map_eq.
  - transitivity (c_fields r3 !! "received"); [by destruct high, heavy, lost|]. rewrite H3 by done. cbn. by simplify_map_eq.
  - transitivity (c_fields r3 !! "packet_loss_pct"); [by destruct high, heavy, lost|]. rewrite H3 by done. cbn. by simplify_map_eq.
  - intros ->. apply (when_issue high loss_issue). apply elem_of_app. right. by apply list_elem_of_singleton.
  - intros -> Hlost. change (lost = true) in Hlost. rewrite Hlost.
    apply (when_issue high some_issue). apply elem_of_app. right. by apply list_elem_of_singleton.
Qed.


Definition demo_pre : string :=
  "PING 1.1.1.1 (1.1.1.1) 56(84) bytes of data." +:+ eol +:+ "64 bytes from 1.1.1.1: icmp_seq=1 ttl=57" +:+
  eol +:+ "--- 1.1.1.1 ping statistics ---".
Lemma ping_burst_reports_witness :
  let p := read_ping (ping_output demo_pre 64 60 "" "6.25" ", time 63093ms") in
  pg_sent p = Double.of_Z 64 /\
  ("some packets lost toward " +:+ "1.1.1.1") ∈ c_issues (ping_result "1.1.1.1" p empty_CommandResponse).
Proof.
  destruct (stod "6.25") as [d|] eqn:Ed; [|vm_compute in Ed; discriminate].
  destruct (ping_burst_reports "1.1.1.1" demo_pre "" "6.25" ", time 63093ms" 64 60 d empty_CommandResponse)
    as (H1 & _ & _ & _ & _ & _ & _ & _ & H2).
  - split_and!; vm_compute; reflexivity.
  - lia.
  - lia.
  - reflexivity.
  - reflexivity.
  - discriminate.
  - exact Ed.
  - split; [exact H1|]. apply H2; injection Ed as <-; vm_compute; reflexivity.
Defined.

(** The statistics as Windows' ping prints them. *)
Definition windows_ping_output (pre : string) (sent received lost : Z) (post : string) : string :=
  pre +:+ String nl ("    Packets: Sent = " +:+ of_Z sent +:+ ", Received = " +:+ of_Z received +:+
    ", Lost = " +:+ of_Z lost +:+ post).

Lemma windows_counts (pre : string) (sent received lost : Z) (post : string) :
  sfind_str "Sent =" pre = None -> sfind_str "Received =" pre = None ->
  NumberBefore (windows_ping_output pre sent received lost post) "Sent =" = Double.zero /\
  NumberBefore (windows_ping_output pre sent received lost post) "Received =" = Double.zero.
Proof.
  intros H1 H2. set (out := windows_ping_output _ _ _ _ _). split.
  - assert (out = (pre +:+ String nl "    Packets") +:+ String ":" " " +:+ "Sent =" +:+ " " +:+ of_Z sent +:+
              ", Received = " +:+ of_Z received +:+ ", Lost = " +:+ of_Z lost +:+ post) as ->
      by (unfold out, windows_ping_output; by rewrite !sapp_assoc).
    apply NumberBefore_label; try done. rewrite sapp_assoc.
    change (String nl "    Packets" +:+ ?x) with (String nl ("    Packets" +:+ x)).
    rewrite sfind_str_skip_lines by done.
    rewrite sfind_str_skip_char, sfind_str_skip_char, sfind_str_here by done. cbn. f_equal.
    repeat (rewrite !slength_app; cbn [String.length]). lia.
  - assert (out = (pre +:+ String nl ("    Packets: Sent = " +:+ of_Z sent)) +:+ String "," " " +:+ "Received =" +:+
              " " +:+ of_Z received +:+ ", Lost = " +:+ of_Z lost +:+ post) as ->
      by (unfold out, windows_ping_output; by rewrite !sapp_assoc).
    apply NumberBefore_label; try done. rewrite sapp_assoc.
    change (String nl ("    Packets: Sent = " +:+ of_Z sent) +:+ ?x) with
      (String nl (("    Packets: Sent = " +:+ of_Z sent) +:+ x)).
    rewrite sfind_str_skip_lines by done. rewrite sapp_assoc. rewrite sfind_str_skip_char by done. skip.
    rewrite sfind_str_skip_char, sfind_str_here by done. cbn. f_equal.
    repeat (rewrite !slength_app; cbn [String.length]). lia.
Qed.

(** The output of Windows' ping is not read.  The counts are looked
    for before "Sent =" and "Received =", where that ping prints its labels:
    whatever numbers it prints, both counts come out as 0, the response has no
    counts, and a loss under 20% raises no issue. *)
Theorem windows_ping_not_read (target pre : string) (sent received lost : Z) (post : string) (r : CommandResponse) :
  scontains "packets transmitted" (windows_ping_output pre sent received lost post) = false ->
  sfind_str "Sent =" pre = None -> sfind_str "Received =" pre = None ->
  let p := read_ping (windows_ping_output pre sent received lost post) in
  pg_sent p = Double.zero /\ pg_received p = Double.zero /\
  (Double.ge (pg_loss p) (Double.of_Z 20) = false -> Double.ge (snd (fst (fst (pg_rtt p)))) (Double.of_Z 500) = false ->
   c_issues (ping_result target p r) = c_issues r /\
   forall k, k = "sent" \/ k = "received" \/ k = "packet_loss_pct" ->
     c_fields (ping_result target p r) !! k = c_fields r !! k).
Proof.
  intros Hno H1 H2. cbv zeta.
  destruct (windows_counts pre sent received lost post H1 H2) as [E1 E2]. set (out := windows_ping_output _ _ _ _ _) in *.
  unfold read_ping. rewrite Hno, E1, E2. cbn [pg_sent pg_received pg_loss pg_rtt]. split; [done|]. split; [done|].
  intros Hloss Havg. unfold ping_result. cbn [pg_sent pg_received pg_loss pg_rtt].
  destruct (match sfind_str "min/avg/max/mdev =" out with Some _ => _ | None => _ end) as [[[min avg] max] mdev].
  cbn [fst snd] in *. rewrite Hloss, Havg. change (Double.gt Double.zero Double.zero) with false. cbn [when andb].
  split.
  - by destruct (Double.gt mdev _), (Double.gt avg _).
  - intros k Hk.
    transitivity (c_fields (when (Double.gt mdev Double.zero) (AddField "jitter_ms" (Fmt mdev))
      (when (Double.gt avg Double.zero) (fun r => AddField "rtt_max_ms" (if Double.gt max Double.zero then Fmt max else "0")
             (AddField "rtt_min_ms" (if Double.gt min Double.zero then Fmt min else "0")
             (AddField "rtt_avg_ms" (Fmt avg) r))) r)) !! k); [done|].
    rewrite !when_field; [done|intros; cbn beta; rewrite !AddField_other; [done|intros <-; by destruct Hk as [|[|]]..]..].
Qed.

Definition demo_windows : string :=
  "Reply from 1.1.1.1: bytes=32 time=4ms TTL=57" +:+ eol +:+ "Ping statistics for 1.1.1.1:".
Lemma windows_ping_not_read_witness :
  pg_sent (read_ping (windows_ping_output demo_windows 100 90 10 " (10% loss),")) = Double.zero.
Proof.
  refine (proj1 (windows_ping_not_read "1.1.1.1" demo_windows 100 90 10 " (10% loss)," empty_CommandResponse _ _ _));
    vm_compute; reflexivity.
Defined.
End Ping.

Module Service.
Import ToolText Shell Catalog Diagnostic Cycle.
Section Service.
Context {W : Type} `{!Host W}.

(** The response still answers the same call. *)
Definition same_call (r' r : CommandResponse) : Prop :=
  c_command_id r' = c_command_id r /\ c_timestamp_unix_ms r' = c_timestamp_unix_ms r.
Lemma same_call_refl r : same_call r r.
Proof. done. Qed.
Lemma same_when b f r r0 :
  (forall r, same_call (f r) r) -> same_call r r0 -> same_call (when b f r) r0.
Proof. intros Hf Hr. destruct b; [|done]. unfold when, same_call in *. destruct (Hf r). intuition congruence. Qed.
Lemma same_if (b : bool) r1 r2 r0 : same_call r1 r0 -> same_call r2 r0 -> same_call (if b then r1 else r2) r0.
Proof. by destruct b. Qed.
Lemma same_AddField k v r r0 : same_call r r0 -> same_call (AddField k v r) r0.
Proof. done. Qed.
Lemma same_issue i r r0 : same_call r r0 -> same_call (add_issues i r) r0.
Proof. done. Qed.
Lemma same_detail t r r0 : same_call r r0 -> same_call (append_detail t r) r0.
Proof. done. Qed.
Lemma same_success b r r0 : same_call r r0 -> same_call (set_success b r) r0.
Proof. done. Qed.
Lemma same_error e r r0 : same_call r r0 -> same_call (set_error e r) r0.
Proof. done. Qed.
Lemma same_summary t r r0 : same_call r r0 -> same_call (set_summary t r) r0.
Proof. done. Qed.
Hint Resolve same_call_refl same_if same_AddField same_issue same_detail same_success same_error same_summary : same_call.
Hint Extern 1 (same_call (when _ _ _) _) => (apply same_when; [intros ?|]) : same_call.
Ltac same := auto 60 with same_call nocore.

Lemma commands_keep arch c ps r m :
  c ∈ commands (W := W) arch -> let '(r', thrown, _) := d_run c ps r m in same_call r' r /\ thrown = None.
Proof.
  intros Hc. unfold commands in Hc. repeat (apply elem_of_cons in Hc as [->|Hc]); [..|by apply elem_of_nil in Hc];
    cbn [d_run]; unfold total.
  - unfold RunHddCheck. destruct (is_empty (FindSmartctl m)); [|destruct (is_empty (RootDisk _)); [|destruct (RunFixed _ m) as [[out st] m']]];
      (split; [|done]); unfold volume_usage, smart_report; destruct (root_volume (world m)) as [[[]]|]; same.
  - unfold RunAgentInfo. split; [|done]. same.
  - unfold RunSpeedtest. destruct (FindTool _ _ m) as [named m1], (FindTool _ [] m1) as [cli m2].
    destruct (is_empty named && is_empty cli); [split; [same|done]|].
    destruct (choose_tool named cli m2) as [[tool ookla] m3]. destruct (RunBounded _ _ m3) as [[out st] m4].
    destruct (if SpeedtestRejectedFlags out then _ else _) as [[out' st'] m5]. split; [|done].
    apply same_if; unfold speedtest_failed, speedtest_result, tool_output; same.
  - unfold RunPingBurst. destruct (RunBounded _ _ m) as [[out st] m1]. split; [|done].
    unfold ping_result, tool_output. destruct (pg_rtt _) as [[[]]]. same.
  - unfold RunRouteQuality. destruct (FindTool _ _ m) as [mtr m1].
    destruct (if negb (is_empty mtr) then _ else _) as [[out st] m2]. split; [|done].
    unfold route_result, tool_output. same.
Qed.

Definition answered_command (id : string) (m : machine W) '((known, r, m') : bool * CommandResponse * machine W)
    : Prop :=
  c_command_id r = id /\ c_timestamp_unix_ms r = clock_ms (world m) /\
  (known = true <-> id ∈ ["hdd_check"; "agent_info"; "speedtest"; "ping_burst"; "route_quality"]) /\
  (known = true -> c_summary r <> "") /\
  (known = false -> m' = m /\ c_success r = false /\ c_error r <> "").

(** Every command request is answered.  The response carries the
    id asked for and the agent's time; exactly the five ids of the catalogue
    are known, and their responses have a summary; any other id is refused
    with an error, and then nothing on the machine is touched. *)
Theorem RunCommand_answers (arch id : string) (ps : gmap string string) (resp : CommandResponse) (m : machine W) :
  answered_command id m (Catalog.RunCommand (commands arch) id ps resp m).
Proof.
  unfold answered_command, Catalog.RunCommand.
  set (r1 := mkCommandResponse (c_success resp) id _ _ _ _ _ _).
  change ["hdd_check"; "agent_info"; "speedtest"; "ping_burst"; "route_quality"] with
    (map d_id (commands (W := W) arch)).
  destruct (list_find (fun c => d_id c = id) (commands arch)) as [[i c]|] eqn:Ef.
  - apply list_find_Some in Ef as (Hi & Hid & _). pose proof (list_elem_of_lookup_2 _ _ _ Hi) as Hin.
    pose proof (commands_keep arch c ps r1 m Hin) as Hk. destruct (d_run c ps r1 m) as [[r2 thrown] m'].
    destruct Hk as [[K1 K2] ->]. split_and!.
    + by destruct (is_empty (c_summary r2)).
    + by destruct (is_empty (c_summary r2)).
    + split; [|done]. intros _. rewrite <- Hid. by apply list_elem_of_fmap_2.
    + intros _. destruct (is_empty (c_summary r2)) eqn:E; cbn.
      * by destruct (c_success r2).
      * by apply is_empty_false.
    + done.
  - apply list_find_None in Ef. rewrite Forall_forall in Ef. split_and!; try done.
    split; [done|]. intros [c [-> Hc]]%list_elem_of_fmap. by destruct (Ef c Hc).
Qed.

(** A new probe configuration takes effect and can be read back.
    After [Reconfigure] the store holds the targets, protocols and switches of
    the request, positive ping settings as given and the defaults for absent
    ones, and [GetConfig] answers the summary [Reconfigure] answered.  The
    expected DNS records and the NTP switch of the start-up configuration are
    not in the request and fall back to "none" and "on". *)
Theorem Reconfigure_then_GetConfig (q : AgentConfigRequest) (store : ProbeConfig) :
  let '(st, a, store') := Reconfigure q store in
  st_code st = OK /\ ar_success a = true /\ GetConfig store' = (Status_OK, a) /\
  dns_targets store' = aq_dns_targets q /\ tcp_targets store' = aq_tcp_targets q /\
  tls_targets store' = aq_tls_targets q /\ http_targets store' = aq_http_targets q /\
  ping_targets store' = aq_ping_targets q /\ http_protocols store' = aq_http_protocols q /\
  (0 < ping_count store')%Z /\ (0 < ping_gap_ms store')%Z /\
  (forall b, aq_tls_cert_check q = Some b -> tls_cert_check store' = b) /\
  (forall b, aq_tcp_retransmit_check q = Some b -> tcp_retransmit_check store' = b) /\
  (forall b, aq_tcp_handshake_capture q = Some b -> tcp_handshake_capture store' = b) /\
  dns_expected store' = ∅ /\ ntp_check store' = true.
Proof.
  unfold Reconfigure, GetConfig, next_config. cbn. split_and!; try done.
  - destruct (0 <? aq_ping_count q)%Z eqn:E; bool_hyps; [done|lia].
  - destruct (0 <? aq_ping_gap_ms q)%Z eqn:E; bool_hyps; [done|lia].
  - by intros b ->.
  - by intros b ->.
  - by intros b ->.
Qed.
End Service.
End Service.

Module Reading.
Import ToolText.

(** A JSON object member as the program's own escaper writes it. *)
Definition member (key value : string) : string := quoted key +:+ ":" +:+ dq +:+ Text.escape value +:+ dq.

Definition no_controls (s : string) : bool := negb (has_char nl s) && negb (has_char tab s).

Lemma unquote_escape v s : no_controls v = true -> unquote (Text.escape v +:+ String dquote s) = v.
Proof.
  unfold no_controls. induction v as [|c v IH]; intros Hv.
  - done.
  - rewrite !has_char_cons, !negb_orb in Hv. apply andb_true_iff in Hv as [[Hn1 Hn2]%andb_true_iff [Ht1 Ht2]%andb_true_iff].
    assert (unquote (Text.escape v +:+ String dquote s) = v) as IH' by (apply IH; by rewrite Hn2, Ht2).
    bool_hyps. cbn [Text.escape]. rewrite sapp_assoc. unfold Text.escape_char, Text.bs.
    destruct (Ascii.eqb c dquote) eqn:Eq; [apply Ascii.eqb_eq in Eq as ->; cbn; by f_equal|].
    destruct (Ascii.eqb c bslash) eqn:Eb; [apply Ascii.eqb_eq in Eb as ->; cbn; by f_equal|].
    rewrite (proj2 (Ascii.eqb_neq c nl)), (proj2 (Ascii.eqb_neq c tab)) by
      (intros ->; by rewrite Ascii.eqb_refl in *).
    change (chr c +:+ ?x) with (String c x). cbn [unquote]. rewrite Eq, Eb. by f_equal.
Qed.

(** A string written by the agent's own JSON escaper is read back
    by [JsonValue], whatever quotes and backslashes it holds, from any text in
    which its key does not occur earlier and whatever follows it, unless it
    holds a line end or a tab, which come back as the letters n and t. *)
Theorem JsonValue_reads_escaped (key v pre post : string) :
  no_controls v = true ->
  sfind_str (quoted key) (pre +:+ member key v +:+ post) = Some (String.length pre) ->
  JsonValue (pre +:+ member key v +:+ post) key = v.
Proof.
  intros Hv Hf. unfold JsonValue. rewrite Hf.
  assert (pre +:+ member key v +:+ post =
          (pre +:+ quoted key) +:+ (":" +:+ dq +:+ Text.escape v +:+ dq +:+ post)) as ->
    by (unfold member; by rewrite !sapp_assoc).
  rewrite <- slength_app, sdrop_app.
  change (":" +:+ dq +:+ ?x) with (String ":" (String dquote x)). cbn [drop_while Ascii.eqb Bool.eqb negb orb].
  change (dq +:+ post) with (String dquote post).
  change (drop_while _ (String dquote ?x)) with (String dquote x). cbv iota beta.
  by apply unquote_escape.
Qed.
Lemma JsonValue_reads_escaped_witness :
  JsonValue ("{" +:+ member "isp" ("a" +:+ dq +:+ "b") +:+ "}") "isp" = "a" +:+ dq +:+ "b".
Proof. apply JsonValue_reads_escaped; vm_compute; reflexivity. Defined.

Lemma ParseIntParam_range ps key def lo hi :
  (lo <= def <= hi)%Z -> (lo <= ParseIntParam ps key def lo hi <= hi)%Z.
Proof.
  intros Hd. unfold ParseIntParam. destruct (ps !! key) as [s|]; [|done]. destruct (is_empty s); [done|].
  destruct (stoll s) as [v|]; [|done]. destruct (v <? lo)%Z eqn:E1; [lia|]. destruct (hi <? v)%Z eqn:E2; lia.
Qed.

(** The device of a disk whose own letter is "p" loses that letter with the
    partition number; the names this strips correctly are shown beside it. *)
Example root_disks :
  map whole_disk ["/dev/sda1"; "/dev/nvme0n1p2"; "/dev/sdp1"; "tmpfs"] = ["/dev/sda"; "/dev/nvme0n1"; "/dev/sd"; ""].
Proof. vm_compute. reflexivity. Qed.
End Reading.

(** ** What reaches the shell *)

(** A machine that records the command lines given to the shell and answers
    each with an empty output. *)
Module Recorder.
Definition recorder : Type := list string.
#[global] Instance recorder_host : Host recorder := {|
  popen_ cmd w := (Some ("", 0%Z), w ++ [cmd]);
  file_exists _ _ := true;
  mkdir _ w := (true, w);
  private_dir _ _ := true;
  root_volume _ := None;
  self_mounts _ := None;
  gethostname _ := None;
  strsignal_ _ := None;
  clock_ms _ := 0%Z;
|}.

Definition fresh : machine recorder := mkMachine (Some "/h") [].
Definition home : string := "HOME='/h' XDG_CONFIG_HOME='/h/.config' ".

Lemma make_prefixes_ok a b (w : recorder) : Shell.make_prefixes a b w = (true, w).
Proof. revert a. induction b as [|c b IH]; intros a; [done|]. cbn. by destruct (Ascii.eqb c "/"). Qed.

Lemma RunFixed_records cmd l :
  Shell.RunFixed cmd (mkMachine (Some "/h") l) =
  ("", 0%Z, mkMachine (Some "/h") (l ++ ["( " +:+ home +:+ cmd +:+ " ) 2>&1"])).
Proof. reflexivity. Qed.

(** The pre-set commands do not confine the requester.  A ping burst
    runs one command line, at most 1000 packets and 2060 seconds long, and the
    target of the request stands in it as it is, unquoted, at its end: a
    target such as "x; reboot" adds a command of the requester's choice. *)
Theorem ping_burst_shell (target : string) (ps : gmap string string) :
  target <> "" -> ps !! "target" = Some target ->
  exists count timeout_s interval,
    (5 <= count <= 1000)%Z /\ (60 <= timeout_s <= 2060)%Z /\
    world (snd (Catalog.RunPingBurst ps empty_CommandResponse fresh)) =
    ["( " +:+ home +:+ "timeout " +:+ of_Z timeout_s +:+ " ping -c " +:+ of_Z count +:+ " -i " +:+ interval +:+ " " +:+
     target +:+ " ) 2>&1"].
Proof.
  intros Hne Ht. unfold Catalog.RunPingBurst, ToolText.GetParam.
  rewrite Ht, (proj2 (is_empty_false target)) by done.
  pose proof (Reading.ParseIntParam_range ps "count" 100 5 1000 ltac:(lia)) as Hc.
  pose proof (Reading.ParseIntParam_range ps "interval_ms" 200 50 2000 ltac:(lia)) as Hi.
  set (count := ToolText.ParseIntParam ps "count" 100 5 1000) in *.
  set (interval := ToolText.ParseIntParam ps "interval_ms" 200 50 2000) in *.
  exists count, (Z.quot (count * interval) 1000 + 60)%Z,
    (ToolText.Fmt (Double.div (Double.of_Z interval) (Double.of_Z 1000))).
  split; [done|]. split.
  - rewrite Z.quot_div_nonneg by nia. split.
    + assert (0 <= count * interval / 1000)%Z by (apply Z.div_pos; nia). lia.
    + assert (count * interval / 1000 <= 2000)%Z by (apply Z.div_le_upper_bound; nia). lia.
  - unfold Shell.RunBounded, fresh. rewrite RunFixed_records. cbn [snd world]. unfold Catalog.ping_command.
    cbn [app]. by rewrite !sapp_assoc.
Qed.
Lemma ping_burst_shell_witness :
  world (snd (Catalog.RunPingBurst {["target" := "x; reboot"]} empty_CommandResponse fresh)) =
    ["( " +:+ home +:+ "timeout 80 ping -c 100 -i 0.2 x; reboot ) 2>&1"] /\
  exists count timeout_s interval : Z, (5 <= count <= 1000)%Z /\ (60 <= timeout_s <= 2060)%Z.
Proof.
  split; [vm_compute; reflexivity|].
  destruct (ping_burst_shell "x; reboot" {["target" := "x; reboot"]}) as (c & t & i & H1 & H2 & _); [done|done|].
  exists c, t, 0%Z. split; [exact H1|exact H2].
Defined.
End Recorder.
