(* ===== verification/EndToEnd.v ===== *)
(** * EndToEnd: a configuration on its way from the dashboard to the probes

    The composition of the collector's POST /api/agents/config (file Http) with
    the agent's diagnostic service (file Commands): the JSON body a client
    sends, the request the collector builds from it, the configuration the
    agent stores, and the answer on the way back. *)
From stdpp Require Import base gmap strings list.
From Stdlib Require Import ZArith Lia Ascii.
From S2P Require Import Prelude Double Proto Json AgentRegistry ProbeRunner Http Commands.
Import Str.
#[local] Open Scope string_scope.
#[local] Open Scope list_scope.

Module Config.
Import Cycle.
Section Config.
Context {J : Type} `{JsonOps J, JsonText J, !JsonLaws J, !JsonTextLaws J}.

Definition strings (l : list string) : J := jarray (map j_of_string l).

(** The body a client sends for a probe configuration. *)
Definition body (agent_id : string) (c : ProbeConfig) : J :=
  jset "agent_id" (j_of_string agent_id)
  (jset "dns_targets" (strings (dns_targets c))
  (jset "tcp_targets" (strings (tcp_targets c))
  (jset "tls_targets" (strings (tls_targets c))
  (jset "http_targets" (strings (http_targets c))
  (jset "ping_targets" (strings (ping_targets c))
  (jset "ping_count" (j_of_int (ping_count c))
  (jset "ping_gap_ms" (j_of_int (ping_gap_ms c))
  (jset "tls_cert_check" (j_of_bool (tls_cert_check c))
  (jset "tcp_retransmit_check" (j_of_bool (tcp_retransmit_check c))
  (jset "tcp_handshake_capture" (j_of_bool (tcp_handshake_capture c))
  (jset "http_protocols" (strings (http_protocols c)) jnull))))))))))).

Definition sent_request (agent_id : string) (c : ProbeConfig) : AgentConfigRequest :=
  mkAgentConfigRequest agent_id (dns_targets c) (tcp_targets c) (tls_targets c) (http_targets c)
    (ping_targets c) (ping_count c) (ping_gap_ms c) (Some (tls_cert_check c)) (Some (tcp_retransmit_check c))
    (Some (tcp_handshake_capture c)) (http_protocols c).

Lemma strings_of_strings l : strings_of (map (j_of_string (J := J)) l) = Returns l.
Proof. induction l as [|s l IH]; [done|]. cbn. by rewrite jget_string_of, IH. Qed.

Ltac lookup_member :=
  repeat first [rewrite jlookup_set_eq | rewrite jlookup_set_ne by (intros [=])].

Lemma put_strings (b : J) key l :
  jlookup b key = Some (strings l) -> put b key = Returns l.
Proof.
  intros E. unfold put. rewrite E. unfold strings. rewrite jis_array_array, jelements_array.
  apply strings_of_strings.
Qed.

Lemma config_request_body agent_id c :
  Int.in_int32 (ping_count c) -> Int.in_int32 (ping_gap_ms c) ->
  config_request agent_id (body agent_id c) = Returns (sent_request agent_id c).
Proof.
  intros H1 H2. unfold config_request.
  repeat match goal with
  | |- context [put (body agent_id c) ?k] =>
      erewrite (put_strings (body agent_id c) k) by (unfold body; lookup_member; reflexivity)
  end.
  unfold optional, body. cbn [obind]. lookup_member.
  by rewrite !jget_int32_of, !jget_bool_of by done.
Qed.

Lemma body_object agent_id c : jis_object (body agent_id c) = true.
Proof. unfold body. repeat (apply jis_object_set; first [right; reflexivity | left]). Qed.

(** The texts a client puts in the body. *)
Definition texts (agent_id : string) (c : ProbeConfig) : list string :=
  agent_id :: dns_targets c ++ tcp_targets c ++ tls_targets c ++ http_targets c ++ ping_targets c ++ http_protocols c.

Lemma printable_strings l : Forall (fun t => utf8 t = true) l -> printable (strings l).
Proof.
  intros Hl. apply printable_array, Forall_map. eapply Forall_impl; [exact Hl|]. intros t. apply printable_string.
Qed.
Lemma printable_body agent_id c :
  Forall (fun t => utf8 t = true) (texts agent_id c) -> Int.in_int64 (ping_count c) -> Int.in_int64 (ping_gap_ms c) ->
  printable (body agent_id c).
Proof.
  intros [Ha Ht]%Forall_cons H1 H2. rewrite !Forall_app in Ht. destruct Ht as (? & ? & ? & ? & ? & ?).
  unfold body. printable_object;
    first [by apply printable_strings | by apply printable_string | by apply printable_int].
Qed.

(** Claim C36: a configuration reaches the probes unchanged.  Take an agent the
    registry knows an endpoint of, and a configuration with positive 32-bit
    ping settings and texts in UTF-8, sent by a client as the JSON body.  Whatever
    the agents answer, the collector's answer is made from what the agent at that endpoint answers to
    [Reconfigure] with that agent id and, field by field, the targets, ping settings, flags and
    protocols of the configuration.  The agent of this repository then holds
    exactly these (with no expected DNS records and NTP on, which a request
    cannot carry), and its answer, and that to a later [GetConfig], is success with the summary of what it holds. *)
Theorem config_reaches_probes (r : AgentRegistry.state) (agent_id endpoint : string) (c store : ProbeConfig) :
  agent_id <> "" -> endpoint <> "" -> AgentRegistry.GetDiagnosticEndpoint r agent_id = endpoint ->
  (0 < ping_count c <= Int.int32_max)%Z -> (0 < ping_gap_ms c <= Int.int32_max)%Z ->
  Forall (fun t => utf8 t = true) (texts agent_id c) ->
  let q := mkAgentConfigRequest agent_id (dns_targets c) (tcp_targets c) (tls_targets c) (http_targets c)
    (ping_targets c) (ping_count c) (ping_gap_ms c) (Some (tls_cert_check c)) (Some (tcp_retransmit_check c))
    (Some (tcp_handshake_capture c)) (http_protocols c) in
  let held := mkProbeConfig (dns_targets c) (tcp_targets c) (tls_targets c) (http_targets c) (ping_targets c)
    (ping_count c) (ping_gap_ms c) (tls_cert_check c) (tcp_retransmit_check c) (tcp_handshake_capture c)
    (http_protocols c) ∅ true in
  (forall api : agent_api,
    set_config_handler api r (mkRequest (jdump (body agent_id c)) []) =
      Returns (let '(status, answer) := Reconfigure api endpoint q in
               if decide (st_code status = OK) then config_answer answer else SendAgentRpcError status endpoint)) /\
  Diagnostic.Reconfigure q store = (Status_OK, mkAgentConfigResponse true "" (Diagnostic.SummaryOf held), held) /\
  Diagnostic.GetConfig held = (Status_OK, mkAgentConfigResponse true "" (Diagnostic.SummaryOf held)).
Proof.
  intros Hid Hep Hr Hc Hg Ht q held.
  assert (Int.in_int32 (ping_count c) /\ Int.in_int32 (ping_gap_ms c)) as [Hc32 Hg32]
    by (unfold Int.in_int32, Int.int32_min, Int.int32_max in *; lia).
  split; [|split; [|done]].
  2: { unfold Diagnostic.Reconfigure, Diagnostic.next_config, q, held. cbn. by rewrite !(proj2 (Z.ltb_lt 0 _)) by lia. }
  intros api. unfold set_config_handler, with_body. cbn [rq_body].
  rewrite jparse_dump by (apply printable_body; [done|unfold Int.in_int64, Int.int64_min, Int.int64_max, Int.int32_max in *; lia..]).
  unfold Json.value_string. rewrite Json.value_as_lookup with (v := j_of_string agent_id);
    [|apply body_object|unfold body; by rewrite jlookup_set_eq].
  rewrite jget_string_of. cbn [or_throw]. rewrite (proj2 (is_empty_false agent_id)) by done.
  unfold PrepareAgentCall. rewrite Hr, (proj2 (is_empty_false endpoint)) by done.
  rewrite config_request_body by done. cbn [or_throw]. change (sent_request agent_id c) with q.
  destruct (Reconfigure api endpoint q) as [status answer]. cbn. f_equal.
  by destruct (decide _) as [E|E]; [rewrite bool_decide_true|rewrite bool_decide_false].
Qed.
End Config.

Definition demo_cfg : ProbeConfig :=
  mkProbeConfig ["example.com"] [] [] ["https://example.com"] [] 3 100 true false true ["http2"] ∅ true.
Definition demo_store : ProbeConfig := default_ProbeConfig.
Definition demo_api : agent_api :=
  mkAgentApi (fun _ _ => (Status_OK, mkDiagnosticResponse false "" 0 ""))
    (fun _ q => fst (Diagnostic.Reconfigure q demo_store))
    (fun _ _ => Diagnostic.GetConfig demo_store)
    (fun _ _ => (Status_OK, mkListCommandsResponse true "" []))
    (fun _ _ => (Status_OK, empty_CommandResponse)).

Lemma config_reaches_probes_witness :
  snd (Diagnostic.Reconfigure (sent_request "a" demo_cfg) demo_store) = demo_cfg /\
  exists text, set_config_handler (J := Reference.jval) demo_api AgentRegistry.demo
    (mkRequest (jdump (body (J := Reference.jval) "a" demo_cfg)) []) = Returns (json_response None text).
Proof.
  destruct (config_reaches_probes (J := Reference.jval) AgentRegistry.demo "a"
              (AgentRegistry.GetDiagnosticEndpoint AgentRegistry.demo "a") demo_cfg demo_store) as (H1 & H2 & _).
  - discriminate.
  - vm_compute. discriminate.
  - reflexivity.
  - vm_compute. split; [reflexivity|discriminate].
  - vm_compute. split; [reflexivity|discriminate].
  - repeat constructor.
  - split; [exact (f_equal snd H2)|]. eexists. exact (H1 demo_api).
Defined.
End Config.
