(* ===== verification/Scheduled.v ===== *)
(** * Scheduled: a scheduled command on its way from the dashboard to the agent and back

    The composition of POST /command-schedules (files Http and HttpSpec), the
    claim and the execution of a run by the scheduler (file Scheduler), the
    registry filled by the agent's heartbeats (file AgentRegistry), the agent's
    diagnostic service with its commands (file Commands), and the history a
    client reads (file Schedules). *)
From stdpp Require Import base gmap strings list sorting.
From Stdlib Require Import ZArith Lia.
From S2P Require Import Prelude Proto Json AgentRegistry Schedules Scheduler Storage CommandStore Http HttpSpec Commands CommandsSpec.
Import Str.
#[local] Open Scope string_scope.
#[local] Open Scope list_scope.

Module Scheduled.
Import AgentRegistry Execute.
Section Scheduled.
Context {J : Type} `{JsonOps J, JsonText J, !JsonTextLaws J}.
Context {S : Type} `{!CommandStore S, !CommandStoreLaws S}.
Context {W : Type} `{!Host W}.
Variable iter : gmap string string -> list (string * string).

(** The agent behind the channel: its diagnostic service on the machine [m]. *)
Definition served_by (arch : string) (m : machine W) (e : env) : Prop :=
  forall q, run_command e q = fst (Diagnostic.RunCommand arch (rc_command_id q) (rc_params q) m).
(** What the command itself answers. *)
Definition outcome_of (arch command_id : string) (ps : gmap string string) (m : machine W) : CommandResponse :=
  snd (fst (Catalog.RunCommand (Catalog.commands arch) command_id ps empty_CommandResponse m)).

(** Both times the registry is asked, it knows the agent by a heartbeat less
    than thirty seconds old. *)
Definition announced (e : env) (agent_id : string) : Prop :=
  exists now peer hb r,
    hb_agent_id hb = agent_id /\
    registry_endpoint e = snd (AgentService.SendHeartbeat now peer hb r) /\ registry_alive e = registry_endpoint e /\
    GetDiagnosticEndpoint (registry_endpoint e) agent_id <> "" /\ (now_alive e - now < 30000)%Z.

(** The row of the history the run must leave. *)
Definition reported (e : env) (c : CommandSchedule) (a : CommandResponse) (id : Z) : CommandRun :=
  let text s := if is_empty s then "{}" else s in
  mkRun id (s_id c) (s_agent_id c) (s_command_id c) (s_next_run_unix_ms c) (now_start e) (now_finish e)
    (c_success a) true (c_error a)
    (if is_empty (c_summary a) then (if c_success a then "ok" else "failed") else c_summary a)
    (text (jdump (fields_object (J := J) iter (c_fields a))))
    (if is_empty (jdump (issues_array (J := J) (c_issues a))) then "[]" else jdump (issues_array (J := J) (c_issues a)))
    (c_detail a).

(** The conditions under which the agent is called. *)
Definition callable (e : env) (sched : CommandSchedule) : bool :=
  (now_window e <=? s_window_end_unix_ms sched)%Z &&
  negb (is_empty (GetDiagnosticEndpoint (registry_endpoint e) (s_agent_id sched))) &&
  IsAgentAlive (now_alive e) (registry_alive e) (s_agent_id sched) 30000 && dials e.

Lemma announced_callable e c :
  announced e (s_agent_id c) -> (now_window e <= s_window_end_unix_ms c)%Z -> dials e = true -> callable e c = true.
Proof.
  intros (now & peer & hb & r & Hid & Er & Ea & Hep & Hage) Hw Hd. unfold callable.
  rewrite Hd, (proj2 (Z.leb_le _ _) Hw), (proj2 (is_empty_false _) Hep), Ea, andb_true_r. cbn [negb andb].
  pose proof (AgentService.SendHeartbeat_spec now peer hb r) as Hs.
  destruct (AgentService.SendHeartbeat now peer hb r) as [[status resp] r'] eqn:E. cbn in Er.
  destruct Hs as (_ & _ & _ & Halive & _). rewrite Er, <- Hid, Halive. by apply Z.ltb_lt.
Qed.

Lemma execute_served arch m e c t :
  served_by arch m e -> callable e c = true ->
  Tables.serials_fresh t -> (0 <= Tables.next_serial t)%Z -> insert_up e = true -> finish_up e = true ->
  snd (ExecuteRun iter e c t) = Some (request_of c) /\
  Tables.rows (fst (ExecuteRun iter e c t)) =
    Tables.rows t ++ [reported e c (outcome_of arch (s_command_id c) (rc_params (request_of c)) m) (Tables.next_serial t)].
Proof.
  intros Hs Hc Hf Hn Hi Hup. unfold callable in Hc. apply andb_true_iff in Hc as [Hc Hd].
  apply andb_true_iff in Hc as [Hc Ha]. apply andb_true_iff in Hc as [Hw Hep]. apply Z.leb_le in Hw.
  unfold ExecuteRun. rewrite Hi.
  change (Tables.InsertCommandRun (started_run e c) t) with
    (Tables.next_serial t, snd (Tables.InsertCommandRun (started_run e c) t)).
  cbv iota beta zeta. rewrite (proj2 (Z.ltb_ge _ 0)) by done. rewrite (proj2 (Z.ltb_ge _ _)) by done.
  apply negb_true_iff in Hep. rewrite Hep, Ha, Hd. cbn [negb orb].
  rewrite Hs. unfold Diagnostic.RunCommand, outcome_of. cbn [rc_command_id rc_params request_of].
  destruct (Catalog.RunCommand _ _ _ _ m) as [[known a] m']. cbn [fst snd st_code Status_OK].
  split; [done|]. unfold record_result. rewrite Hup, Tables.finish_inserted by done.
  reflexivity.
Qed.

(** The only row of a schedule is all its history, whatever the limit. *)
Lemma history_of_one r t t' limit :
  Tables.rows t' = Tables.rows t ++ [r] -> run_schedule_id r <> "" ->
  (forall r', r' ∈ Tables.rows t -> run_schedule_id r' <> run_schedule_id r) ->
  Tables.ListCommandRuns "" "" (run_schedule_id r) limit t' = [r].
Proof.
  intros E Hne Hn. unfold Tables.ListCommandRuns. rewrite E, filter_app.
  assert (filter (fun x => Tables.wanted "" "" (run_schedule_id r) x = true) (Tables.rows t) = []) as ->.
  { destruct (filter _ (Tables.rows t)) as [|x l] eqn:Ex; [done|]. exfalso.
    assert (x ∈ filter (fun x => Tables.wanted "" "" (run_schedule_id r) x = true) (Tables.rows t)) as [Hx Hin]%list_elem_of_filter
      by (rewrite Ex; left).
    apply (Hn x Hin). unfold Tables.wanted in Hx. cbn [is_empty orb andb] in Hx.
    apply orb_true_iff in Hx as [Hx|Hx]; [by apply is_empty_spec in Hx|by apply String.eqb_eq]. }
  cbn [app]. rewrite filter_cons_True, filter_nil by (unfold Tables.wanted; by rewrite String.eqb_refl, orb_true_r).
  change (merge_sort Tables.newest_first [r]) with [r]. unfold Tables.run_limit.
  destruct (Z.leb_spec limit 0), (Z.ltb_spec 200 limit); cbn [orb]; try reflexivity.
  destruct (Z.to_nat limit) eqn:El; [lia|]. cbn. by rewrite take_nil.
Qed.

(** A schedule that was just created can be claimed. *)
Lemma fresh_claimable c table table' new_next :
  Tables.CreateCommandSchedule c table = (true, table') -> s_enabled c = true ->
  table' = table ++ [c] /\ fst (Tables.AdvanceCommandScheduleNextRun (s_id c) (s_next_run_unix_ms c) new_next table') = true.
Proof.
  unfold Tables.CreateCommandSchedule. destruct (existsb _ table) eqn:Ex; intros [= <-] He. split; [done|].
  unfold Tables.AdvanceCommandScheduleNextRun, Tables.update_where. cbn [fst]. rewrite filter_app.
  assert (filter (fun r => Tables.claimable (s_id c) (s_next_run_unix_ms c) r = true) table = []) as ->.
  { induction table as [|x l IH]; [done|]. cbn in Ex. apply orb_false_iff in Ex as [Ex Hl].
    rewrite filter_cons_False by (unfold Tables.claimable; by rewrite Ex). by apply IH. }
  cbn [app]. rewrite filter_cons_True; [done|]. unfold Tables.claimable, Tables.has_id.
  by rewrite String.eqb_refl, Z.eqb_refl, He.
Qed.

End Scheduled.

(** *** A ping burst every minute *)
Import Reference Memory.
Definition demo_params : jval := JObject [("target", JString "example.com"); ("count", JInt 5)].
Definition demo_body : jval :=
  JObject [("agent_id", JString "a"); ("command_id", JString "ping_burst"); ("params", demo_params);
           ("window_end_unix_ms", JInt 9000000); ("interval_sec", JInt 60)].
Definition demo_store : memory := mkMemory [] [] (Tables.mkRuns 1 []).
Definition demo_created : outcome response * option memory :=
  create_schedule_handler (J := jval) 5000 0 (mkRequest (jdump demo_body) []) (Some demo_store).
Definition demo_registry : AgentRegistry.state :=
  snd (AgentService.SendHeartbeat 4000 (Some "ipv4:10.0.0.7:4242") (mkHeartbeat "a" 4000 1000 "v1" "") AgentRegistry.empty).
Definition demo_env : env :=
  mkEnv 5100 true 5101 demo_registry demo_registry 5102 true
    (fun q => fst (Diagnostic.RunCommand "x86_64" (rc_command_id q) (rc_params q) CommandsSpec.Recorder.fresh)) 5900 true.
Definition demo_result (c : CommandSchedule) : Tables.runs_table :=
  fst (ExecuteRun (J := jval) map_to_list demo_env c (Tables.mkRuns 1 [])).

End Scheduled.
