(* ===== verification/Resolver.v ===== *)
(** * Resolver: the agent's caching DNS resolver

    Models [agent/src/dns_resolver.cpp].  [Chain] is the copy of an address
    list, with an oracle for the outcome of every allocation.  [Resolver] is
    [DnsResolver::Lookup] with its cache, the lookups in flight and their
    detached workers, as a step relation in which every section under a mutex
    is one step, over any number of concurrent callers.  [getaddrinfo] is the
    environment: the steps of a worker say what it answered, and the ghost
    fields [asked] and [kept] record those answers and what a worker put in the
    cache, with the time. *)
From stdpp Require Import base gmap strings list.
From Stdlib Require Import ZArith Lia.
From S2P Require Import Prelude.
Import Str.
#[local] Open Scope string_scope.
#[local] Open Scope list_scope.

(** ** Address lists *)
Module Chain.

(** A [struct addrinfo] without its link; [ai_addr] and [ai_canonname] are
    [None] for a null pointer. *)
Record addrinfo : Type := mkAddrinfo {
  ai_flags : Z;
  ai_family : Z;
  ai_socktype : Z;
  ai_protocol : Z;
  ai_addrlen : nat;
  ai_addr : option (list Z);
  ai_canonname : option string;
}.

(** The next allocation: its outcome and the oracle for the ones after it; an
    exhausted oracle stands for success. *)
Definition alloc (o : list bool) : bool * list bool :=
  match o with [] => (true, []) | b :: o => (b, o) end.

Definition StrDup (s : option string) (o : list bool) : option string * list bool :=
  match s with
  | None => (None, o)
  | Some s => let '(ok, o) := alloc o in (if ok then Some s else None, o)
  end.

(** The body of the copy loop once the node is there. *)
Definition copy_node (ai : addrinfo) (o : list bool) : addrinfo * list bool :=
  let '(addrlen, addr, o) :=
    match ai_addr ai with
    | Some a =>
        if Nat.ltb 0 (ai_addrlen ai) then
          let '(ok, o) := alloc o in
          if ok then (ai_addrlen ai, Some (take (ai_addrlen ai) a), o) else (0, None, o)
        else (ai_addrlen ai, None, o)
    | None => (ai_addrlen ai, None, o)
    end in
  let '(canon, o) := StrDup (ai_canonname ai) o in
  (mkAddrinfo (ai_flags ai) (ai_family ai) (ai_socktype ai) (ai_protocol ai) addrlen addr canon, o).

(** A null pointer is the empty list: when a node cannot be allocated, the
    nodes copied so far are freed and the result is null. *)
Fixpoint copy_loop (src : list addrinfo) (o : list bool) : option (list addrinfo) :=
  match src with
  | [] => Some []
  | ai :: src =>
      let '(ok, o) := alloc o in
      if ok then
        let '(node, o) := copy_node ai o in
        rest ← copy_loop src o; Some (node :: rest)
      else None
  end.
Definition DeepCopyChain (src : list addrinfo) (o : list bool) : list addrinfo := default [] (copy_loop src o).

(** What the operating system hands out: an address is as long as it says. *)
Definition proper (ai : addrinfo) : Prop :=
  match ai_addr ai with Some a => 0 < length a /\ ai_addrlen ai = length a | None => True end.

Lemma copy_node_exact ai : proper ai -> copy_node ai [] = (ai, []).
Proof.
  unfold proper, copy_node. destruct ai as [f fam st pr len [[|x a]|] [c|]]; cbn; try done; intros [Ha ->];
    try lia; cbn; by rewrite take_ge.
Qed.

Lemma DeepCopyChain_exact src : Forall proper src -> DeepCopyChain src [] = src.
Proof.
  unfold DeepCopyChain. intros H. enough (copy_loop src [] = Some src) as -> by done.
  induction H as [|ai src Hai _ IH]; [done|]. cbn [copy_loop alloc].
  rewrite (copy_node_exact ai Hai), IH. done.
Qed.

(** What a copied node keeps when allocations fail. *)
Definition degraded (c ai : addrinfo) : Prop :=
  ai_family c = ai_family ai /\ ai_socktype c = ai_socktype ai /\
  ai_protocol c = ai_protocol ai /\ ai_flags c = ai_flags ai /\
  (ai_addr c = None \/ ai_addr c = take (ai_addrlen ai) <$> ai_addr ai) /\
  (ai_canonname c = None \/ ai_canonname c = ai_canonname ai).

Lemma copy_node_fields ai o c o' : copy_node ai o = (c, o') -> degraded c ai.
Proof.
  unfold copy_node, degraded. destruct ai as [f fam st pr len addr name]. cbn [ai_addr ai_addrlen ai_canonname].
  assert (forall o, fst (StrDup name o) = None \/ fst (StrDup name o) = name) as Hn.
  { intros o1. unfold StrDup. destruct name as [n|]; [|by left]. destruct (alloc o1) as [[] ?]; auto. }
  destruct addr as [a|]; [destruct (Nat.ltb 0 len); [destruct (alloc o) as [[] o1]|]|];
    intros E;  match type of E with context [StrDup name ?x] => pose proof (Hn x) as Hx; destruct (StrDup name x) end;
    injection E as <- _; cbn in Hx |- *; split_and!; auto.
Qed.

(** With allocations failing anywhere the copy is null or has the same nodes,
    each with its address and name or without them. *)
Lemma DeepCopyChain_degrades src o :
  DeepCopyChain src o = [] \/ Forall2 degraded (DeepCopyChain src o) src.
Proof.
  unfold DeepCopyChain. revert o. induction src as [|ai src IH]; intros o; [by right|]. cbn [copy_loop].
  destruct (alloc o) as [[] o1]; [|by left]. destruct (copy_node ai o1) as [c o2] eqn:E.
  specialize (IH o2). destruct (copy_loop src o2) as [l|] eqn:El; [|by left]. cbn. right. cbn in IH.
  constructor.
  - apply (copy_node_fields ai o1 c o2 E).
  - destruct IH as [->|]; [|done]. destruct src; [constructor|].
    cbn in El. repeat (case_match; simplify_eq; try done). destruct (copy_loop src _); simplify_eq/=.
Qed.
End Chain.

(** ** Lookups *)
Module Resolver.
Import Chain.

Record LookupResult : Type := mkLookupResult {
  ok : bool;
  error : string;
  addrs : list addrinfo;
  canonname : string;
}.

(** The fields of the hints the callers of [Lookup] set. *)
Record hints : Type := mkHints { h_family : Z; h_socktype : Z; h_protocol : Z; h_flags : Z }.

Definition AI_CANONNAME : Z := 2.
Definition sep : string := chr unit_sep.
Definition MakeKey (host service : string) (h : hints) : string :=
  host +:+ sep +:+ service +:+ sep +:+ of_Z (h_family h) +:+ sep +:+ of_Z (h_socktype h) +:+ sep +:+
  of_Z (h_protocol h) +:+ sep +:+ of_Z (Z.land (h_flags h) AI_CANONNAME).

(** What the worker makes of the answer of [getaddrinfo]: its return code and
    the list ([[]] for a null pointer). *)
Definition worker_result (gai_strerror : Z -> string) (rc : Z) (raw : list addrinfo) (o : list bool) : LookupResult :=
  match (rc =? 0)%Z, raw with
  | true, ai :: _ => mkLookupResult true "" (DeepCopyChain raw o) (default "" (ai_canonname ai))
  | _, _ => mkLookupResult false (if (rc =? 0)%Z then "no addresses" else gai_strerror rc) [] ""
  end.

Definition timed_out (timeout_ms : Z) : LookupResult :=
  mkLookupResult false ("resolution timed out after " +:+ of_Z timeout_ms +:+ "ms") [] "".

Definition ns (ms : Z) : Z := (ms * 1000000)%Z.
Definition kDefaultTtlMs : Z := 60000.

Record CacheEntry : Type := mkEntry { result : LookupResult; expiry : Z }.

(** A [PendingLookup] and its worker: it runs [getaddrinfo], then [done] is
    set with the result, then the worker has left the maps in order. *)
Inductive phase : Type :=
  | Resolving
  | Stored (r : LookupResult)
  | Finished (r : LookupResult).
Record pending : Type := mkPending { p_key : string; p_started : Z; p_phase : phase }.
Definition done (l : pending) : option LookupResult :=
  match p_phase l with Resolving => None | Stored r | Finished r => Some r end.

(** Where a caller of [Lookup] stands. *)
Inductive source : Type := FromCache | FromLookup (p : nat) | TimedOut.
Inductive stage : Type :=
  | Called
  | Starting
  | Waiting (p : nat) (deadline : Z)
  | Answered (src : source) (r : LookupResult).
Record caller : Type := mkCaller {
  q_key : string; q_timeout_ms : Z; q_bypass : bool;
  q_called : Z;      (* [now], read before the lock is taken *)
  q_stage : stage;
}.
Definition at_stage (g : stage) (q : caller) : caller :=
  mkCaller (q_key q) (q_timeout_ms q) (q_bypass q) (q_called q) g.

Record state : Type := mkState {
  now : Z;
  cache : gmap string CacheEntry;
  inflight : gmap string nat;
  lookups : gmap nat pending;
  callers : gmap nat caller;
  asked : list (string * LookupResult * Z);
  kept : list (string * LookupResult * Z);
}.
Definition initial : state := mkState 0 ∅ ∅ ∅ ∅ [] [].

Definition set_caller (c : nat) (q : caller) (s : state) : state :=
  mkState (now s) (cache s) (inflight s) (lookups s) (<[c := q]> (callers s)) (asked s) (kept s).

(** [Lookup] is called and reads the clock. *)
Definition call (c : nat) (key : string) (timeout_ms : Z) (bypass_cache : bool) (s : state) : state :=
  set_caller c (mkCaller key timeout_ms bypass_cache (now s) Called) s.

(** The first section under the lock: the cache, then the lookups in flight. *)
Definition join (q : caller) (s : state) : stage :=
  match inflight s !! q_key q with
  | Some p => Waiting p (now s + ns (q_timeout_ms q))
  | None => Starting
  end.
Definition consult (q : caller) (s : state) : stage :=
  if q_bypass q then Starting
  else match cache s !! q_key q with
       | Some e => if (q_called q <? expiry e)%Z then Answered FromCache (result e) else join q s
       | None => join q s
       end.

(** The second one, which registers a new lookup, and the start of its worker. *)
Definition start (c : nat) (q : caller) (p : nat) (s : state) : state :=
  mkState (now s) (cache s) (<[q_key q := p]> (inflight s))
    (<[p := mkPending (q_key q) (now s) Resolving]> (lookups s))
    (<[c := at_stage (Waiting p (now s + ns (q_timeout_ms q))) q]> (callers s)) (asked s) (kept s).

(** The worker has its answer and sets [done]. *)
Definition answer (p : nat) (l : pending) (r : LookupResult) (s : state) : state :=
  mkState (now s) (cache s) (inflight s) (<[p := mkPending (p_key l) (p_started l) (Stored r)]> (lookups s))
    (callers s) (asked s ++ [(p_key l, r, now s)]) (kept s).

(** The worker's section under the lock. *)
Definition publish (p : nat) (l : pending) (r : LookupResult) (s : state) : state :=
  let stale := match cache s !! p_key l with Some e => (expiry e <=? now s)%Z | None => true end in
  mkState (now s)
    (if ok r && stale then <[p_key l := mkEntry r (now s + ns kDefaultTtlMs)]> (cache s) else cache s)
    (if decide (inflight s !! p_key l = Some p) then delete (p_key l) (inflight s) else inflight s)
    (<[p := mkPending (p_key l) (p_started l) (Finished r)]> (lookups s)) (callers s) (asked s)
    (if ok r && stale then kept s ++ [(p_key l, r, now s)] else kept s).

Definition Clear (s : state) : state := mkState (now s) ∅ ∅ (lookups s) (callers s) (asked s) (kept s).

(** What [getaddrinfo] may answer for a key. *)
Section Step.
Variable answers : string -> LookupResult -> Prop.

Inductive step : state -> state -> Prop :=
  | St_tick d s : (0 <= d)%Z ->
      step s (mkState (now s + d) (cache s) (inflight s) (lookups s) (callers s) (asked s) (kept s))
  | St_call c key timeout_ms bypass s : callers s !! c = None -> step s (call c key timeout_ms bypass s)
  | St_consult c q s : callers s !! c = Some q -> q_stage q = Called ->
      step s (set_caller c (at_stage (consult q s) q) s)
  | St_start c q p s : callers s !! c = Some q -> q_stage q = Starting -> lookups s !! p = None ->
      step s (start c q p s)
  | St_answer p l r s : lookups s !! p = Some l -> p_phase l = Resolving -> answers (p_key l) r ->
      step s (answer p l r s)
  | St_publish p l r s : lookups s !! p = Some l -> p_phase l = Stored r -> step s (publish p l r s)
  | St_wake c q p d l r s : callers s !! c = Some q -> q_stage q = Waiting p d ->
      lookups s !! p = Some l -> done l = Some r ->
      step s (set_caller c (at_stage (Answered (FromLookup p) r) q) s)
  | St_timeout c q p d l s : callers s !! c = Some q -> q_stage q = Waiting p d ->
      lookups s !! p = Some l -> done l = None -> (d <= now s)%Z ->
      step s (set_caller c (at_stage (Answered TimedOut (timed_out (q_timeout_ms q))) q) s)
  | St_clear s : step s (Clear s).

Definition reached : state -> Prop := Steps.reachable (fun s => s = initial) step.

(** ** What every reachable state satisfies *)

(** [getaddrinfo] gave this answer for the key at time [te]. *)
Definition told (s : state) (key : string) (r : LookupResult) (te : Z) : Prop := (key, r, te) ∈ asked s.

(** A worker put this answer in the cache for the key at time [tp], which it
    had been given before. *)
Definition cached (s : state) (key : string) (r : LookupResult) (tp : Z) : Prop :=
  (key, r, tp) ∈ kept s /\ exists te, told s key r te /\ (te <= tp)%Z.

Definition answer_ok (s : state) (q : caller) (src : source) (r : LookupResult) : Prop :=
  match src with
  | TimedOut => r = timed_out (q_timeout_ms q)
  | FromLookup _ => exists te, told s (q_key q) r te /\ (q_bypass q = true -> q_called q <= te)%Z
  | FromCache => q_bypass q = false /\ ok r = true /\
      exists tp, cached s (q_key q) r tp /\ (q_called q < tp + ns kDefaultTtlMs)%Z
  end.

Definition stage_ok (s : state) (q : caller) : Prop :=
  match q_stage q with
  | Called | Starting => True
  | Waiting p d => (d <= now s + ns (q_timeout_ms q))%Z /\
      exists l, lookups s !! p = Some l /\ p_key l = q_key q /\ (q_bypass q = true -> q_called q <= p_started l)%Z
  | Answered src r => answer_ok s q src r
  end.

Definition entry_ok (s : state) (key : string) (e : CacheEntry) : Prop :=
  ok (result e) = true /\ cached s key (result e) (expiry e - ns kDefaultTtlMs).

Definition lookup_ok (s : state) (l : pending) : Prop :=
  (p_started l <= now s)%Z /\
  forall r, done l = Some r -> exists te, told s (p_key l) r te /\ (p_started l <= te <= now s)%Z.

Record good (s : state) : Prop := {
  g_asked : forall key r te, told s key r te -> answers key r;
  g_cache : forall key e, cache s !! key = Some e -> entry_ok s key e;
  g_inflight : forall key p, inflight s !! key = Some p -> exists l, lookups s !! p = Some l /\ p_key l = key;
  g_lookups : forall p l, lookups s !! p = Some l -> lookup_ok s l;
  g_callers : forall c q, callers s !! c = Some q -> (q_called q <= now s)%Z /\ stage_ok s q;
}.

(** Time passes, answers are remembered, lookups keep their key and start. *)
Record later (s t : state) : Prop := {
  later_now : (now s <= now t)%Z;
  later_told key r te : told s key r te -> told t key r te;
  later_kept x : x ∈ kept s -> x ∈ kept t;
  later_lookups p l : lookups s !! p = Some l ->
    exists l', lookups t !! p = Some l' /\ p_key l' = p_key l /\ p_started l' = p_started l;
}.

Lemma later_same s t : now t = now s -> asked t = asked s -> kept t = kept s -> lookups t = lookups s -> later s t.
Proof. intros Hn Ha Hk Hl. split; [lia|unfold told; by rewrite Ha|by rewrite Hk|rewrite Hl; eauto]. Qed.

Lemma cached_later s t key r tp : later s t -> cached s key r tp -> cached t key r tp.
Proof. intros L (H & te & Ht & Hle). split; [by apply L|]. exists te. split; [by apply L|done]. Qed.

Lemma stage_ok_later s t q : later s t -> stage_ok s q -> stage_ok t q.
Proof.
  intros L. pose proof L as [Hn Ha _ Hl]. unfold stage_ok. destruct (q_stage q) as [| |p d|src r]; try done.
  - intros (Hd & l & Hp & Hk & Hb). split; [lia|]. destruct (Hl p l Hp) as (l' & Hp' & Hk' & Hs').
    exists l'. split; [done|]. rewrite Hk', Hs'. done.
  - destruct src; cbn; [|intros (te & H & Hb)|done].
    + intros (Hb & Ho & tp & H & Hr). eauto 10 using cached_later.
    + eauto.
Qed.

Lemma entry_ok_later s t key e : later s t -> entry_ok s key e -> entry_ok t key e.
Proof. intros L (Ho & H). split; [done|]. by eapply cached_later. Qed.

Lemma lookup_ok_later s t l : later s t -> lookup_ok s l -> lookup_ok t l.
Proof.
  intros L [Hs Hd]. pose proof (later_now _ _ L). split; [lia|]. intros r Hr.
  destruct (Hd r Hr) as (te & H1 & H2). exists te. split; [by apply L|lia].
Qed.

(** The caller's own steps leave the rest of the state as it is. *)
Lemma good_set_caller c q s :
  good s -> (q_called q <= now s)%Z -> stage_ok s q -> good (set_caller c q s).
Proof.
  intros [Ga Gc Gi Gl Gq] Hn Hq. split; try done. intros c' q' H. cbn in H.
  apply lookup_insert_Some in H as [[<- <-]|[_ H]]; [split; [done|exact Hq]|apply (Gq c' q' H)].
Qed.

Lemma join_ok q s : good s -> q_bypass q = false -> stage_ok s (at_stage (join q s) q).
Proof.
  intros G Hb. unfold join, stage_ok. cbn [at_stage q_stage q_key q_timeout_ms q_bypass q_called].
  destruct (inflight s !! q_key q) as [p|] eqn:Ei; [|done]. cbn.
  destruct (g_inflight s G _ _ Ei) as (l & Hl & Hk). split; [lia|]. exists l. by rewrite Hb.
Qed.

Lemma consult_ok q s : good s -> stage_ok s (at_stage (consult q s) q).
Proof.
  intros G. unfold consult. destruct (q_bypass q) eqn:Eb; [done|].
  destruct (cache s !! q_key q) as [e|] eqn:Ec; [|by apply join_ok].
  destruct (q_called q <? expiry e)%Z eqn:Ee; [|by apply join_ok]. bool_hyps.
  destruct (g_cache s G _ _ Ec) as (Ho & H).
  unfold stage_ok, answer_ok. cbn [at_stage q_stage q_key q_bypass q_called]. split; [done|]. split; [done|].
  exists (expiry e - ns kDefaultTtlMs)%Z. split; [done|]. lia.
Qed.

Lemma later_insert s t p l l' :
  lookups s !! p = Some l -> lookups t = <[p := l']> (lookups s) -> p_key l' = p_key l ->
  p_started l' = p_started l -> now t = now s -> (forall x, x ∈ asked s -> x ∈ asked t) ->
  (forall x, x ∈ kept s -> x ∈ kept t) -> later s t.
Proof.
  intros Hp Ht Hk Hs Hn Ha Hkept. split; [lia|by intros ???; apply Ha|exact Hkept|]. intros p' k H. rewrite Ht.
  destruct (decide (p' = p)) as [->|].
  - rewrite lookup_insert_eq. eexists. split; [done|]. by simplify_eq.
  - rewrite lookup_insert_ne by done. eauto.
Qed.

Lemma later_step s t : step s t -> later s t.
Proof.
  intros [d s1 Hd|? ? ? ? s1 ?|? ? s1 ? ?|c q p s1 Hc Hq Hp|p l r s1 Hp Hph Ha|p l r s1 Hp Hph|? ? ? ? ? ? s1 ? ? ? ?|? ? ? ? ? s1 ? ? ? ? ?|s1];
    try by apply later_same.
  - split; cbn; [lia|done|done|eauto].
  - split; cbn; [lia|done|done|]. intros p' k H. exists k. rewrite lookup_insert_ne by congruence. done.
  - eapply later_insert; [exact Hp|done..| |done]. cbn. intros x Hx. apply elem_of_app. by left.
  - eapply later_insert; [exact Hp|done..|]. cbn. intros x Hx. destruct (_ && _); [apply elem_of_app; by left|done].
Qed.

(** A new state whose maps hold what the old ones held, entry by entry or
    newly justified, is good. *)
Lemma good_later s t :
  good s -> later s t ->
  (forall key r te, told t key r te -> told s key r te \/ answers key r) ->
  (forall key e, cache t !! key = Some e -> cache s !! key = Some e \/ entry_ok t key e) ->
  (forall key p, inflight t !! key = Some p ->
     inflight s !! key = Some p \/ exists l, lookups t !! p = Some l /\ p_key l = key) ->
  (forall p l, lookups t !! p = Some l -> lookups s !! p = Some l \/ lookup_ok t l) ->
  (forall c q, callers t !! c = Some q -> callers s !! c = Some q \/ (q_called q <= now t)%Z /\ stage_ok t q) ->
  good t.
Proof.
  intros [Ga Gc Gi Gl Gq] L Ha Hc Hi Hl Hq. split.
  - intros key r te H. destruct (Ha _ _ _ H); [by eapply Ga|done].
  - intros key e H. destruct (Hc _ _ H); [|done]. eapply entry_ok_later; eauto.
  - intros key p H. destruct (Hi _ _ H) as [H'|]; [|done]. destruct (Gi _ _ H') as (l & H1 & H2).
    destruct (later_lookups _ _ L p l H1) as (l' & H3 & H4 & _). exists l'. by rewrite H4.
  - intros p l H. destruct (Hl _ _ H); [|done]. eapply lookup_ok_later; eauto.
  - intros c q H. destruct (Hq _ _ H) as [H'|]; [|done]. destruct (Gq _ _ H'). split; [pose proof (later_now _ _ L); lia|].
    eapply stage_ok_later; eauto.
Qed.

Lemma resolver_good_step s t : good s -> step s t -> good t.
Proof.
  intros G Hstep. pose proof (later_step s t Hstep) as L. pose proof (later_now _ _ L) as Hnow.
  destruct Hstep as [d s Hd|c key ms b s Hc|c q s Hc Hq|c q p s Hc Hq Hp|p l r s Hp Hph Ha|p l r s Hp Hph
    |c q p d l r s Hc Hq Hp Hr|c q p d l s Hc Hq Hp Hr Hd|s].
  - apply (good_later s); eauto.
  - apply good_set_caller; [done|cbn; lia|done].
  - destruct (g_callers s G _ _ Hc) as [Hn _]. apply good_set_caller; [done..|by apply consult_ok].
  - destruct (g_callers s G _ _ Hc) as [Hn _]. apply (good_later s); [done..|eauto|eauto| | |].
    + intros key p'. cbn. intros [[<- <-]|[_ H]]%lookup_insert_Some; [|by left]. right. eexists.
      split; [apply lookup_insert_eq|done].
    + intros p' l. cbn. intros [[<- <-]|[_ H]]%lookup_insert_Some; [|by left]. right. split; [cbn; lia|done].
    + intros c' q'. cbn. intros [[<- <-]|[_ H]]%lookup_insert_Some; [|by left]. right. split; [done|].
      unfold stage_ok. cbn. split; [lia|]. eexists. split; [apply lookup_insert_eq|]. cbn. split; [done|lia].
  - destruct (g_lookups s G _ _ Hp) as [Hs _]. apply (good_later s); [done..| |eauto|eauto| |eauto].
    + unfold told. cbn. intros key r' te [H|H]%elem_of_app; [by left|]. right. apply list_elem_of_singleton in H. by simplify_eq.
    + intros p' l'. cbn. intros [[<- <-]|[_ H]]%lookup_insert_Some; [|by left]. right. split; [done|].
      cbn. intros r' [= <-]. exists (now s). split; [|lia]. apply elem_of_app. right. by apply list_elem_of_singleton.
  - destruct (g_lookups s G _ _ Hp) as [Hs Hd].
    destruct (Hd r) as (te & Ht & Hte); [by unfold done; rewrite Hph|]. apply (good_later s); [done..|eauto| | | |eauto].
    + intros key e. unfold publish. cbn [cache]. destruct (ok r && _) eqn:Eo; [|by left].
      intros [[<- <-]|[_ H]]%lookup_insert_Some; [|by left]. right. cbn [result expiry].
      split; [by apply andb_true_iff in Eo as [? _]|]. unfold cached. cbn [kept expiry]. rewrite Z.add_simpl_r.
      split; [apply elem_of_app; right; by apply list_elem_of_singleton|]. exists te. split; [done|lia].
    + intros key p'. unfold publish. cbn [inflight]. destruct (decide _); [|by left]. intros [_ H]%lookup_delete_Some. by left.
    + intros p' l'. cbn. intros [[<- <-]|[_ H]]%lookup_insert_Some; [|by left]. right. split; [done|].
      cbn. intros r' [= <-]. eauto.
  - destruct (g_callers s G _ _ Hc) as [Hn Hok]. apply good_set_caller; [done..|]. unfold stage_ok in Hok |- *. rewrite Hq in Hok.
    destruct Hok as (_ & l' & Hp' & Hk & Hb). simplify_eq. destruct (g_lookups s G _ _ Hp) as [_ Hl].
    destruct (Hl r Hr) as (te & Ht & Hte). cbn. exists te. rewrite <- Hk. split; [done|]. intros Hb'. specialize (Hb Hb'). lia.
  - destruct (g_callers s G _ _ Hc) as [Hn Hok]. apply good_set_caller; done.
  - apply (good_later s); [done..|eauto|by intros|by intros|eauto|eauto].
Qed.

Lemma resolver_good_reached s : reached s -> good s.
Proof.
  apply Steps.reachable_invariant; [intros ? ->|eauto using resolver_good_step].
  split; unfold told; cbn; intros *; by rewrite ?elem_of_nil, ?lookup_empty.
Qed.

(** Claim C6: what a DNS lookup may answer.  Under any interleaving of
    concurrent callers, workers and [Clear], an answered lookup either reports
    its time-out, or returns what [getaddrinfo] answered for its own key: from
    the cache only when the cache may be used, only a success, and only one
    that a worker put there less than the 60 s of the cache before the call; a lookup that
    bypasses the cache gets an answer given after it was called. *)
Theorem lookup_answers_genuine (s : state) (c : nat) (q : caller) (src : source) (r : LookupResult) :
  reached s -> callers s !! c = Some q -> q_stage q = Answered src r ->
  match src with
  | TimedOut => r = timed_out (q_timeout_ms q)
  | FromLookup _ => exists te, told s (q_key q) r te /\ answers (q_key q) r /\ (q_bypass q = true -> q_called q <= te)%Z
  | FromCache => q_bypass q = false /\ ok r = true /\ answers (q_key q) r /\
      exists tp, cached s (q_key q) r tp /\ (q_called q < tp + 60000 * 1000000)%Z
  end.
Proof.
  intros Hr Hc Hq. pose proof (resolver_good_reached s Hr) as G. destruct (g_callers s G c q Hc) as [_ H].
  unfold stage_ok, answer_ok in H. rewrite Hq in H. destruct src.
  - destruct H as (Hb & Ho & tp & Ht & Hle). pose proof Ht as (_ & te & Hte & _). split_and!; eauto using g_asked.
  - destruct H as (te & Ht & Hb). eauto using g_asked.
  - done.
Qed.

Definition answered (c : nat) (s : state) : Prop :=
  exists q src r, callers s !! c = Some q /\ q_stage q = Answered src r.

(** No worker answered and no other caller moved from [s] to [t]. *)
Definition alone (c : nat) (s t : state) : Prop :=
  asked t = asked s /\ forall c', c' <> c -> callers t !! c' = callers s !! c'.
Lemma alone_set c q s t : alone c (set_caller c q s) t -> alone c s t.
Proof. intros [Ha Hc]. split; [done|]. intros c' H. rewrite Hc by done. cbn. by rewrite lookup_insert_ne. Qed.
Lemma alone_self c q s t : asked t = asked s -> callers t = <[c := q]> (callers s) -> alone c s t.
Proof. intros Ha Hc. split; [done|]. intros c' H. rewrite Hc. by rewrite lookup_insert_ne. Qed.

Lemma waiting_ends s c q p d :
  good s -> callers s !! c = Some q -> q_stage q = Waiting p d -> (0 <= q_timeout_ms q)%Z ->
  exists t, Steps.steps step s t /\ answered c t /\ alone c s t /\ (now t <= now s + ns (q_timeout_ms q))%Z.
Proof.
  intros G Hc Hq Hpos. destruct (g_callers s G c q Hc) as [_ H]. unfold stage_ok in H. rewrite Hq in H.
  destruct H as (Hd & l & Hl & _). unfold ns in *. destruct (done l) as [r|] eqn:E.
  - eexists. split; [eapply Steps.steps_one, St_wake; eauto|].
    split; [eexists _, _, _; split; [apply lookup_insert_eq|done]|]. split; [by eapply alone_self|cbn; lia].
  - eexists. split.
    + eapply Steps.steps_cons; [apply (St_tick (Z.max 0 (d - now s))); lia|].
      eapply Steps.steps_one, (St_timeout c q p d l); cbn; eauto. lia.
    + split; [eexists _, _, _; split; [apply lookup_insert_eq|done]|]. split; [by eapply alone_self|cbn; lia].
Qed.

Lemma starting_ends s c q :
  good s -> callers s !! c = Some q -> q_stage q = Starting -> (0 <= q_timeout_ms q)%Z ->
  exists t, Steps.steps step s t /\ answered c t /\ alone c s t /\ (now t <= now s + ns (q_timeout_ms q))%Z.
Proof.
  intros G Hc Hq Hpos. assert (lookups s !! fresh (dom (lookups s)) = None) as Hp by apply not_elem_of_dom, is_fresh.
  pose proof (St_start c q _ s Hc Hq Hp) as Hs. pose proof (resolver_good_step _ _ G Hs) as G'.
  destruct (waiting_ends _ c _ _ _ G' (lookup_insert_eq _ _ _) eq_refl Hpos) as (t & Ht & Ha & Hc' & Hn).
  exists t. split; [by eapply Steps.steps_cons|]. split; [done|]. split; [|done]. destruct Hc' as [H1 H2].
  split; [done|]. intros c' Hne. rewrite H2 by done. cbn. by rewrite lookup_insert_ne.
Qed.

(** Claim C21: every lookup ends.  Whatever state the resolver and the other
    callers are in, and even if no worker ever gets an answer, a pending call
    of [Lookup] can reach its answer without any step of a worker or of another
    caller, and no later than its timeout from now. *)
Theorem lookup_ends (s : state) (c : nat) (q : caller) :
  reached s -> callers s !! c = Some q -> (0 <= q_timeout_ms q)%Z ->
  exists t, Steps.steps step s t /\ answered c t /\ alone c s t /\ (now t <= now s + ns (q_timeout_ms q))%Z.
Proof.
  intros Hr Hc Hpos. pose proof (resolver_good_reached s Hr) as G. destruct (q_stage q) as [| |p d|src r] eqn:Hq.
  - pose proof (St_consult c q s Hc Hq) as Hs. pose proof (resolver_good_step _ _ G Hs) as G'.
    assert (callers (set_caller c (at_stage (consult q s) q) s) !! c = Some (at_stage (consult q s) q)) as Hc'
      by apply lookup_insert_eq.
    set (s1 := set_caller c (at_stage (consult q s) q) s) in *.
    assert (exists t, Steps.steps step s1 t /\ answered c t /\ alone c s1 t /\
              (now t <= now s + ns (q_timeout_ms q))%Z) as (t & Ht & Ha & Hal & Hn).
    { destruct (consult q s) as [| |p d|src r] eqn:E.
      - exfalso. unfold consult, join in E. repeat case_match; discriminate.
      - by apply (starting_ends _ c _ G' Hc').
      - by apply (waiting_ends _ c _ p d G' Hc').
      - exists s1. split; [constructor|]. split; [by eexists _, _, _|]. split; [done|cbn; unfold ns; lia]. }
    exists t. split; [by eapply Steps.steps_cons|]. split; [done|]. split; [by eapply alone_set|done].
  - by apply (starting_ends s c q G).
  - by apply (waiting_ends s c q p d G).
  - exists s. split; [constructor|]. split; [by exists q, src, r|]. split; [done|unfold ns; lia].
Qed.
End Step.

(** The key tells the questions apart: names hold no unit separator. *)
Lemma MakeKey_inj host service h host' service' h' :
  has_char unit_sep host = false -> has_char unit_sep host' = false ->
  has_char unit_sep service = false -> has_char unit_sep service' = false ->
  MakeKey host service h = MakeKey host' service' h' ->
  host = host' /\ service = service' /\ h_family h = h_family h' /\ h_socktype h = h_socktype h' /\
  h_protocol h = h_protocol h' /\ Z.land (h_flags h) AI_CANONNAME = Z.land (h_flags h') AI_CANONNAME.
Proof.
  assert (forall z, has_char unit_sep (of_Z z) = false) as Hz.
  { intros z. unfold has_char. apply negb_false_iff, of_Z_chars; [|done]. intros c H.
    destruct (Ascii.eqb_spec unit_sep c) as [<-|]; [discriminate H|done]. }
  intros H1 H2 H3 H4. unfold MakeKey, sep, chr. cbn.
  intros [-> [-> [Ha [Hb [Hc Hd]%sep_inj]%sep_inj]%sep_inj]%sep_inj]%sep_inj; split_and?; auto using of_Z_inj.
Qed.

(** ** At work *)
Section Demo.
Definition demo_hints : hints := mkHints 2 1 0 0.
Definition demo_key : string := MakeKey "example.org" "443" demo_hints.
Definition demo_answer : LookupResult := mkLookupResult true "" [mkAddrinfo 0 2 1 6 4 (Some [93; 184; 216; 34]%Z) None] "".
Definition demo_answers (key : string) (r : LookupResult) : Prop := key = demo_key /\ r = demo_answer.

(** The first caller asks, the second is answered from the cache a second later. *)
Definition demo1 : state := call 0 demo_key 3000 false initial.
Definition demo2 : state := set_caller 0 (at_stage Starting (mkCaller demo_key 3000 false 0 Called)) demo1.
Definition demo3 : state := start 0 (mkCaller demo_key 3000 false 0 Starting) 7 demo2.
Definition demo4 : state := answer 7 (mkPending demo_key 0 Resolving) demo_answer demo3.
Definition demo5 : state := publish 7 (mkPending demo_key 0 (Stored demo_answer)) demo_answer demo4.
Definition demo6 : state :=
  mkState (now demo5 + ns 1000) (cache demo5) (inflight demo5) (lookups demo5) (callers demo5) (asked demo5) (kept demo5).
Definition demo7 : state := call 1 demo_key 3000 false demo6.
Definition demo_caller : caller := mkCaller demo_key 3000 false (ns 1000) (Answered FromCache demo_answer).
Definition demo8 : state := set_caller 1 demo_caller demo7.

Lemma demo3_reached : reached demo_answers demo3.
Proof.
  eapply Steps.reach_step; [eapply Steps.reach_step; [eapply Steps.reach_step; [by constructor|]|]|].
  - by apply (St_call demo_answers 0 demo_key 3000 false initial).
  - by apply (St_consult demo_answers 0 (mkCaller demo_key 3000 false 0 Called) demo1).
  - by apply (St_start demo_answers 0 (mkCaller demo_key 3000 false 0 Starting) 7 demo2).
Qed.
Lemma demo8_reached : reached demo_answers demo8.
Proof.
  eapply Steps.reach_step; [eapply Steps.reach_step; [eapply Steps.reach_step; [eapply Steps.reach_step;
    [eapply Steps.reach_step; [apply demo3_reached|]|]|]|]|].
  - by apply (St_answer demo_answers 7 (mkPending demo_key 0 Resolving) demo_answer demo3).
  - by apply (St_publish demo_answers 7 (mkPending demo_key 0 (Stored demo_answer)) demo_answer demo4).
  - by apply (St_tick demo_answers (ns 1000) demo5).
  - by apply (St_call demo_answers 1 demo_key 3000 false demo6).
  - by apply (St_consult demo_answers 1 (mkCaller demo_key 3000 false (ns 1000) Called) demo7).
Qed.

Lemma lookup_answers_genuine_witness :
  kept demo8 = [(demo_key, demo_answer, 0%Z)] /\
  exists tp, cached demo8 demo_key demo_answer tp /\ (ns 1000 < tp + 60000 * 1000000)%Z.
Proof.
  split; [reflexivity|].
  exact (proj2 (proj2 (proj2 (lookup_answers_genuine demo_answers demo8 1 demo_caller FromCache demo_answer
    demo8_reached eq_refl eq_refl)))).
Defined.

Lemma lookup_ends_witness :
  exists t, Steps.steps (step demo_answers) demo3 t /\ answered 0 t /\ alone 0 demo3 t /\ (now t <= ns 3000)%Z.
Proof.
  exact (lookup_ends demo_answers demo3 0 (mkCaller demo_key 3000 false 0 (Waiting 7 (ns 3000))) demo3_reached
    eq_refl ltac:(by vm_compute)).
Defined.

(** Two callers that both look before either has registered its lookup both
    start one: the second replaces the first among those in flight. *)
Lemma concurrent_lookups :
  exists s, reached demo_answers s /\
    (exists l, lookups s !! 7 = Some l /\ p_key l = demo_key /\ p_phase l = Resolving) /\
    (exists l, lookups s !! 8 = Some l /\ p_key l = demo_key /\ p_phase l = Resolving) /\
    inflight s !! demo_key = Some 8.
Proof.
  set (q := mkCaller demo_key 3000 false 0).
  set (s1 := call 1 demo_key 3000 false demo2).
  set (s2 := set_caller 1 (at_stage Starting (q Called)) s1).
  set (s3 := start 0 (q Starting) 7 s2).
  exists (start 1 (q Starting) 8 s3). split.
  - eapply Steps.reach_step; [eapply Steps.reach_step; [eapply Steps.reach_step; [eapply Steps.reach_step;
      [eapply Steps.reach_step; [eapply Steps.reach_step; [by constructor|]|]|]|]|]|].
    + by apply (St_call demo_answers 0 demo_key 3000 false initial).
    + by apply (St_consult demo_answers 0 (q Called) demo1).
    + by apply (St_call demo_answers 1 demo_key 3000 false demo2).
    + by apply (St_consult demo_answers 1 (q Called) s1).
    + by apply (St_start demo_answers 0 (q Starting) 7 s2).
    + by apply (St_start demo_answers 1 (q Starting) 8 s3).
  - split_and!; [eexists; by split_and!..|apply lookup_insert_eq].
Qed.
End Demo.
End Resolver.
