(* ===== verification/Net.v ===== *)
(** * Net: what the probes need of the operating system and its libraries

    The class [Net] is the interface to the sockets API, OpenSSL, libcurl and
    the clocks, each call a function of an abstract world; [host] adds what the
    probes themselves hold: the last [errno], the open sockets, the TLS objects
    and session references they must give back, the datagrams not yet received
    on the raw socket, and the TLS session cache of
    [agent/src/tls_context.cpp].  [M] is the state monad over it. *)
From stdpp Require Import base gmap strings list.
From Stdlib Require Import ZArith Lia.
From S2P Require Import Prelude Double Resolver.
Import Str Chain Resolver.
#[local] Open Scope string_scope.
#[local] Open Scope list_scope.

Module Net.
Definition AF_UNSPEC : Z := 0.
Definition AF_INET : Z := 2.
Definition AF_INET6 : Z := 10.
Definition SOCK_STREAM : Z := 1.
Definition SOCK_DGRAM : Z := 2.
Definition SOCK_RAW : Z := 3.
Definition SOCK_CLOEXEC : Z := 524288.
Definition O_NONBLOCK : Z := 2048.
Definition IPPROTO_ICMP : Z := 1.
Definition IPPROTO_TCP : Z := 6.
Definition EAGAIN : Z := 11.
Definition EINPROGRESS : Z := 115.

(** A system call returns a value or fails with an error number. *)
Abbreviation sys A := (A + Z)%type.

(** What [ntp_adjtime] fills in. *)
Record timex : Type := mkTimex { tx_offset : Z; tx_status : Z; tx_maxerror : Z; tx_esterror : Z }.

(** What the certificate functions of OpenSSL say of a peer certificate. *)
Record certificate : Type := mkCertificate {
  x_subject : option string;
  x_issuer : option string;
  x_days_to_not_after : option Z;    (* [ASN1_TIME_diff], when it succeeds *)
  x_days_since_not_before : option Z;
  x_check_host : string -> Z;
}.

(** A packet as libpcap delivers it: its time stamp and the captured bytes.
    A read may also time out or fail. *)
Inductive captured : Type :=
  | Packet (tv_sec tv_usec : Z) (data : list Z)
  | NoPacket
  | CaptureError.

Class Net (W : Type) := {
  steady_ns : W -> Z * W;
  Lookup : string -> string -> hints -> Z -> bool -> W -> LookupResult * W;
  strerror : Z -> string;
  inet_ntop : Z -> list Z -> option string;
  (* descriptors are not negative *)
  sys_socket : Z -> Z -> Z -> W -> sys nat * W;
  sys_getfl : Z -> W -> sys Z * W;
  sys_setfl : Z -> Z -> W -> sys Z * W;
  sys_connect : Z -> addrinfo -> W -> sys Z * W;
  sys_select_write : Z -> Z -> W -> sys Z * W;
  sys_so_error : Z -> W -> sys Z * W;
  sys_tcp_retrans : Z -> W -> sys Z * W;
  sys_close : Z -> W -> sys Z * W;
  sys_getpid : W -> Z * W;
  (* the second result: the datagrams that arrive before the next silence of 3 s *)
  sys_sendto : Z -> list Z -> addrinfo -> W -> sys Z * list (list Z) * W;
  sys_recv_error : Z -> W -> Z * W;
  sleep_ms : Z -> W -> W;
  SSL_CTX_new : W -> bool * W;
  SSL_new : W -> option Z * W;
  (* the TLS object, its socket, the server name, a session to resume, peer verification *)
  SSL_connect : Z -> Z -> string -> option Z -> bool -> W -> Z * W;
  SSL_get1_session : Z -> W -> option Z * W;
  SSL_get_verify_result : Z -> W -> Z * W;
  SSL_get1_peer_certificate : Z -> W -> option certificate * W;
  X509_verify_cert_error_string : Z -> string;
  curl_easy_init : W -> bool * W;
  (* the URL and the HTTP version asked for; the answer is the status code and
     the total time in seconds, or an error code *)
  curl_easy_perform : string -> Z -> W -> sys (Z * double) * W;
  curl_easy_strerror : Z -> string;
  ntp_adjtime : W -> Z * timex * W;
  (* [[]] when it fails *)
  getaddrinfo : string -> string -> hints -> W -> list addrinfo * W;
  (* family and address bytes of the local end *)
  sys_local_address : Z -> W -> option (Z * list Z) * W;
  (* the local address and port of a socket *)
  sys_getsockname : Z -> W -> (list Z * Z) * W;
  (* the names of the devices, when there are any *)
  pcap_findalldevs : W -> option (list string) * W;
  pcap_open_live : string -> W -> (string + Z) * W;
  pcap_compile : Z -> string -> W -> Z * W;
  pcap_setfilter : Z -> W -> Z * W;
  (* what successive reads return until the given time *)
  pcap_read_until : Z -> Z -> W -> list captured * W;
}.

Definition remove_one {A} `{EqDecision A} (x : A) (l : list A) : list A :=
  match list_find (x =.) l with Some (i, _) => delete i l | None => l end.

Section Net.
Context {W : Type} `{!Net W}.

(** What a probe must give back: a descriptor, an [SSL] object, a peer
    certificate, a capture handle. *)
Inductive resource : Type := Descriptor (fd : Z) | Tls (s : Z) | Certificate | Capture (p : Z).
#[global] Instance resource_eq_dec : EqDecision resource.
Proof. solve_decision. Defined.

Record host : Type := mkHost {
  world : W;
  errno : Z;
  held : list resource;          (* what is open and not yet given back *)
  session_refs : list Z;         (* references to [SSL_SESSION] objects held *)
  sessions : gmap string Z;      (* the session cache *)
  ctx : option bool;             (* the shared [SSL_CTX]: not made yet, null or made *)
  curl : bool;                   (* this thread has its libcurl handle *)
  device : string;               (* the capture device found last, and when *)
  refreshed : Z;
  inbox : list (list Z);         (* datagrams to be received on the raw socket *)
}.

Definition M (A : Type) : Type := host -> A * host.
Definition ret {A} (a : A) : M A := fun h => (a, h).
Definition bind {A B} (m : M A) (k : A -> M B) : M B := fun h => let '(a, h) := m h in k a h.

Definition set_world (w : W) (h : host) : host :=
  mkHost w (errno h) (held h) (session_refs h) (sessions h) (ctx h) (curl h) (device h) (refreshed h) (inbox h).
Definition set_errno (e : Z) (h : host) : host :=
  mkHost (world h) e (held h) (session_refs h) (sessions h) (ctx h) (curl h) (device h) (refreshed h) (inbox h).
Definition set_held (l : list resource) (h : host) : host :=
  mkHost (world h) (errno h) l (session_refs h) (sessions h) (ctx h) (curl h) (device h) (refreshed h) (inbox h).
Definition set_refs (l : list Z) (h : host) : host :=
  mkHost (world h) (errno h) (held h) l (sessions h) (ctx h) (curl h) (device h) (refreshed h) (inbox h).
Definition set_sessions (m : gmap string Z) (h : host) : host :=
  mkHost (world h) (errno h) (held h) (session_refs h) m (ctx h) (curl h) (device h) (refreshed h) (inbox h).
Definition set_ctx (b : bool) (h : host) : host :=
  mkHost (world h) (errno h) (held h) (session_refs h) (sessions h) (Some b) (curl h) (device h) (refreshed h) (inbox h).
Definition set_curl (b : bool) (h : host) : host :=
  mkHost (world h) (errno h) (held h) (session_refs h) (sessions h) (ctx h) b (device h) (refreshed h) (inbox h).
Definition set_device (d : string) (at_ns : Z) (h : host) : host :=
  mkHost (world h) (errno h) (held h) (session_refs h) (sessions h) (ctx h) (curl h) d at_ns (inbox h).
Definition set_inbox (l : list (list Z)) (h : host) : host :=
  mkHost (world h) (errno h) (held h) (session_refs h) (sessions h) (ctx h) (curl h) (device h) (refreshed h) l.

(** A call that only looks at the world. *)
Definition ask {A} (f : W -> A * W) : M A := fun h => let '(a, w) := f (world h) in (a, set_world w h).
(** A system call: -1 and [errno] when it fails. *)
Definition syscall (f : W -> sys Z * W) : M Z := fun h =>
  let '(r, w) := f (world h) in
  match r with inl z => (z, set_world w h) | inr e => ((-1)%Z, set_errno e (set_world w h)) end.
Definition get_errno : M Z := fun h => (errno h, h).

(** The calls that change what is open. *)
Definition push (r : resource) (h : host) : host := set_held (r :: held h) h.
Definition release (r : resource) : M unit := fun h => (tt, set_held (remove_one r (held h)) h).

Definition socket (family type protocol : Z) : M Z := fun h =>
  let '(r, w) := sys_socket family type protocol (world h) in
  match r with
  | inl fd => (Z.of_nat fd, push (Descriptor (Z.of_nat fd)) (set_world w h))
  | inr e => ((-1)%Z, set_errno e (set_world w h))
  end.
Definition close (fd : Z) : M unit := fun h => let '(_, h) := syscall (sys_close fd) h in release (Descriptor fd) h.
Definition ssl_new : M (option Z) := fun h =>
  let '(s, h) := ask SSL_new h in (s, match s with Some s => push (Tls s) h | None => h end).
Definition SSL_free (s : Z) : M unit := release (Tls s).
Definition get1_peer_certificate (s : Z) : M (option certificate) := fun h =>
  let '(c, h) := ask (SSL_get1_peer_certificate s) h in
  (c, match c with Some _ => push Certificate h | None => h end).
Definition X509_free : M unit := release Certificate.
(** The error text, or the handle. *)
Definition pcap_open (dev : string) : M (string + Z) := fun h =>
  let '(r, h) := ask (pcap_open_live dev) h in
  (r, match r with inr p => push (Capture p) h | inl _ => h end).
Definition pcap_close (p : Z) : M unit := release (Capture p).
Definition get1_session (s : Z) : M (option Z) := fun h =>
  let '(x, h) := ask (SSL_get1_session s) h in
  (x, match x with Some x => set_refs (x :: session_refs h) h | None => h end).
Definition SSL_SESSION_up_ref (x : Z) : M unit := fun h => (tt, set_refs (x :: session_refs h) h).
Definition SSL_SESSION_free (x : Z) : M unit := fun h => (tt, set_refs (remove_one x (session_refs h)) h).
End Net.
Arguments host W : clear implicits.
Arguments M W A : clear implicits.
End Net.

Declare Scope net_scope.
Delimit Scope net_scope with net.
Notation "'let*' x ':=' m 'in' k" := (Net.bind m (fun x => k))
  (at level 10, x pattern, m at level 100, k at level 200) : net_scope.
Notation "m ';;;' k" := (Net.bind m (fun _ => k)) (at level 100, k at level 200, right associativity) : net_scope.

(** ** The TLS session cache *)
Module TlsSessionCache.
Import Net.
#[local] Open Scope net_scope.
Section Cache.
Context {W : Type} `{!Net W}.

(** [SharedSslCtx]: made once, null if that failed. *)
Definition SharedSslCtx : M W bool := fun h =>
  match ctx h with
  | Some b => (b, h)
  | None => let '(b, h) := ask SSL_CTX_new h in (b, set_ctx b h)
  end.

Definition Get (host_port : string) : M W (option Z) := fun h =>
  match sessions h !! host_port with
  | None => (None, h)
  | Some x => (SSL_SESSION_up_ref x ;;; ret (Some x)) h
  end.

Definition Put (host_port : string) (session : Z) : M W unit := fun h =>
  match sessions h !! host_port with
  | Some old =>
      let '(_, h) := SSL_SESSION_free old h in
      (tt, set_sessions (<[host_port := session]> (sessions h)) h)
  | None => (tt, set_sessions (<[host_port := session]> (sessions h)) h)
  end.
End Cache.
End TlsSessionCache.
