(* ===== verification/Probes.v ===== *)
(** * Probes: the agent's network probes

    Models [agent/src/metrics/probes.cpp] and [ntp_probe.cpp] as built for
    Linux, over the interface [Net].  A probe fills in the metric it is given:
    it is a function from that metric to the new one in the monad [M].
    [Connect] holds the socket helpers, [Icmp] the echo packets, [Probes] the
    probes themselves and [RunAllProbes]. *)
From stdpp Require Import base gmap strings list.
From Stdlib Require Import ZArith Lia.
From S2P Require Import Prelude Double Proto ProbeRunner Resolver Net.
Import Str Resolver Net Cycle.
#[local] Open Scope string_scope.
#[local] Open Scope list_scope.
#[local] Open Scope net_scope.

(** ** The fields of a metric *)
Module Fields.
Definition set_check_type (t : CheckType) (m : Metric) : Metric :=
  mkMetric t (target m) (success m) (detail m) (value m) (status_code m) (attributes m) (Proto.seq m) (monotonic_us m).
Definition set_target (t : string) (m : Metric) : Metric :=
  mkMetric (check_type m) t (success m) (detail m) (value m) (status_code m) (attributes m) (Proto.seq m) (monotonic_us m).
Definition set_success (b : bool) (m : Metric) : Metric :=
  mkMetric (check_type m) (target m) b (detail m) (value m) (status_code m) (attributes m) (Proto.seq m) (monotonic_us m).
Definition set_detail (d : string) (m : Metric) : Metric :=
  mkMetric (check_type m) (target m) (success m) d (value m) (status_code m) (attributes m) (Proto.seq m) (monotonic_us m).
Definition set_value (v : MetricValue) (m : Metric) : Metric :=
  mkMetric (check_type m) (target m) (success m) (detail m) v (status_code m) (attributes m) (Proto.seq m) (monotonic_us m).
Definition set_status_code (z : Z) (m : Metric) : Metric :=
  mkMetric (check_type m) (target m) (success m) (detail m) (value m) (Some z) (attributes m) (Proto.seq m) (monotonic_us m).
Definition set_attribute (k v : string) (m : Metric) : Metric :=
  mkMetric (check_type m) (target m) (success m) (detail m) (value m) (status_code m) (<[k := v]> (attributes m))
    (Proto.seq m) (monotonic_us m).
Definition set_monotonic_us (z : Z) (m : Metric) : Metric :=
  mkMetric (check_type m) (target m) (success m) (detail m) (value m) (status_code m) (attributes m) (Proto.seq m) z.

(** [success] and [detail] together, as every failing branch sets them. *)
Definition failed (d : string) (m : Metric) : Metric := set_detail d (set_success false m).
Definition FailureMetric (type : CheckType) (target detail : string) : Metric :=
  set_detail detail (set_success false (set_target target (set_check_type type empty_Metric))).
End Fields.
Import Fields.

Definition or_else (s d : string) : string := if is_empty s then d else s.

(** ** Sockets *)
Module Connect.
Section Connect.
Context {W : Type} `{!Net W}.

Definition SplitHostPort (host_port : string) : option (string * Z) :=
  match srfind (c_of 58) host_port with
  | None => Some (host_port, 80%Z)
  | Some colon =>
      port ← stoi (sdrop (colon + 1) host_port);
      let host := stake colon host_port in
      if is_empty host then None else Some (host, port)
  end.

Definition SetNonBlocking (s : Z) (nb : bool) : M W bool :=
  let* flags := syscall (sys_getfl s) in
  if (flags <? 0)%Z then ret false
  else
    let* rc := syscall (sys_setfl s (if nb then Z.lor flags O_NONBLOCK else Z.ldiff flags O_NONBLOCK)) in
    ret (rc =? 0)%Z.

Definition CreateStreamSocket (family protocol : Z) : M W Z :=
  socket family (Z.lor SOCK_STREAM SOCK_CLOEXEC) protocol.

(** The value of [SO_ERROR], or [errno] when it cannot be read. *)
Definition GetSocketError (s : Z) : M W Z := fun h =>
  let '(r, w) := sys_so_error s (world h) in
  match r with
  | inl so_err => (so_err, set_world w h)
  | inr e => (e, set_errno e (set_world w h))
  end.

(** The addresses in turn; the descriptor of the first that connects, or -1. *)
Fixpoint connect_loop (l : list Chain.addrinfo) : M W Z :=
  match l with
  | [] => ret (-1)%Z
  | ai :: rest =>
      let* fd := CreateStreamSocket (Chain.ai_family ai) (Chain.ai_protocol ai) in
      if (fd <? 0)%Z then connect_loop rest else
      let* nb := SetNonBlocking fd true in
      if negb nb then close fd ;;; connect_loop rest else
      let* rc := syscall (sys_connect fd ai) in
      let* e := get_errno in
      if (rc <? 0)%Z && negb (e =? EINPROGRESS)%Z then close fd ;;; connect_loop rest else
      let* rc := syscall (sys_select_write fd 3) in
      if (rc <=? 0)%Z then close fd ;;; connect_loop rest else
      let* so_err := GetSocketError fd in
      if negb (so_err =? 0)%Z then close fd ;;; connect_loop rest else
      SetNonBlocking fd false ;;; ret fd
  end.

Definition lookup (host service : string) (family socktype flags : Z) (bypass_cache : bool) : M W LookupResult :=
  ask (Lookup host service (mkHints family socktype 0 flags) 3000 bypass_cache).

(** The error text, or the connected descriptor. *)
Definition ConnectSocket (host : string) (port : Z) : M W (string + Z) :=
  let* lr := lookup host (of_Z port) AF_UNSPEC SOCK_STREAM 0 false in
  match ok lr, addrs lr with
  | true, (_ :: _) as l =>
      let* fd := connect_loop l in
      if (fd <? 0)%Z then let* e := get_errno in ret (inl ("connect failed: " +:+ strerror e))
      else ret (inr fd)
  | o, _ => ret (inl (if o then "no addresses" else or_else (error lr) "resolution failed"))
  end.

(** [std::chrono::duration<double, std::milli>] of a difference. *)
Definition ms_between (start_ns end_ns : Z) : double :=
  Double.div (Double.of_Z (end_ns - start_ns)) (Double.of_Z 1000000).

(** [platform::MonotonicUs]. *)
Definition MonotonicUs : M W Z := let* t := ask steady_ns in ret (Z.quot t 1000).

(** The three fields every probe sets first. *)
Definition begin_metric (t : CheckType) (target : string) (m : Metric) : M W Metric :=
  let* us := MonotonicUs in ret (set_monotonic_us us (set_target target (set_check_type t m))).
End Connect.
End Connect.

(** ** Echo requests *)
Module Icmp.
Import Connect.

Definition be16 (z : Z) : list Z := [Z.land (Z.shiftr z 8) 255; Z.land z 255].
Definition le16 (z : Z) : list Z := [Z.land z 255; Z.land (Z.shiftr z 8) 255].

(** The 16-bit words of a buffer, as a little-endian machine reads them. *)
Fixpoint words (l : list Z) : list Z :=
  match l with
  | a :: b :: l => (a + 256 * b)%Z :: words l
  | _ => []
  end.

(** [while (sum >> 16) sum = (sum & 0xffff) + (sum >> 16);] *)
Fixpoint fold_sum (fuel : nat) (sum : Z) : option Z :=
  if (Z.shiftr sum 16 =? 0)%Z then Some sum
  else match fuel with
       | O => None
       | S fuel => fold_sum fuel (Z.land sum 65535 + Z.shiftr sum 16)
       end.
Definition sum_words (l : list Z) : Z := fold_left Z.add (words l) 0%Z.
(** [~sum] in 16 bits, at most two rounds of folding for 64 bytes. *)
Definition checksum (l : list Z) : option Z :=
  sum ← fold_sum 2 (sum_words l); Some (Z.land (Z.lnot sum) 65535).

Definition ICMP_ECHO : Z := 8.
Definition ICMP_ECHOREPLY : Z := 0.

(** The packet with these two bytes as its checksum. *)
Definition echo_packet (id seq : Z) (sum : list Z) : list Z :=
  [ICMP_ECHO; 0%Z] ++ sum ++ be16 id ++ be16 seq ++ repeat 0%Z 56.
Definition packet (id seq : Z) : list Z :=
  echo_packet id seq (le16 (default 0%Z (checksum (echo_packet id seq [0; 0]%Z)))).

Record PingResult : Type := mkPing { ok : bool; detail : string; rtts_ms : list double }.

(** A byte of the receive buffer.  A raw socket delivers at least the 20 bytes
    of an IP header, so the bytes read before the length test are received ones. *)
Definition byte (buf : list Z) (i : nat) : Z := default 0%Z (buf !! i).

(** The datagram is the echo reply to request [seq] of process [id]. *)
Definition reply_to (id seq : Z) (buf : list Z) : bool :=
  if negb (byte buf 9 =? IPPROTO_ICMP)%Z then false else
  let ip_hdr_len := Z.to_nat (Z.land (byte buf 0) 15 * 4) in
  if Nat.ltb (length buf) (ip_hdr_len + 8) then false else
  (byte buf ip_hdr_len =? ICMP_ECHOREPLY)%Z &&
  bool_decide (take 2 (drop (ip_hdr_len + 4) buf) = be16 id) &&
  bool_decide (take 2 (drop (ip_hdr_len + 6) buf) = be16 seq).

(** Difference of two [struct timespec] readings. *)
Definition rtt (start_ns end_ns : Z) : double :=
  let sec t := (t / 1000000000)%Z in
  let nsec t := (t mod 1000000000)%Z in
  Double.add (Double.mul (Double.of_Z (sec end_ns - sec start_ns)) (Double.of_Z 1000))
    (Double.div (Double.of_Z (nsec end_ns - nsec start_ns)) (Double.of_Z 1000000)).

Section Icmp.
Context {W : Type} `{!Net W}.

(** The receive loop: [l] is what arrives before the next silence of 3 s. *)
Fixpoint recv_loop (fd id seq start_ns : Z) (l : list (list Z)) : M W PingResult :=
  match l with
  | [] =>
      let* e := ask (sys_recv_error fd) in
      ret (mkPing false (if (e =? EAGAIN)%Z then "timeout waiting for ICMP reply"
                         else "recv failed: " +:+ strerror e) [])
  | d :: rest => fun h =>
      let h := set_inbox rest h in
      if reply_to id seq (take 512 d) then
        (let* end_ns := ask steady_ns in ret (mkPing true "" [rtt start_ns end_ns])) h
      else recv_loop fd id seq start_ns rest h
  end.

Definition RunSinglePing (fd : Z) (addr : Chain.addrinfo) (id seq : Z) : M W PingResult := fun h =>
  let '(start_ns, h) := ask steady_ns h in
  let '(sent, arriving, w) := sys_sendto fd (packet id seq) addr (world h) in
  let h := set_inbox (inbox h ++ arriving) (set_world w h) in
  match sent with
  | inr e => (mkPing false ("sendto failed: " +:+ strerror e) [], set_errno e h)
  | inl _ => recv_loop fd id seq start_ns (inbox h) h
  end.

(** The loop of [RunIcmpProbe] from request [i]: sent, lost and round trips. *)
Fixpoint ping_loop (n : nat) (i : Z) (fd : Z) (addr : Chain.addrinfo) (id gap_ms : Z)
    (sent lost : Z) (rtts : list double) : M W (Z * Z * list double) :=
  match n with
  | O => ret (sent, lost, rtts)
  | S n =>
      let* res := RunSinglePing fd addr id (Z.land i 65535) in
      let pause := if (0 <? gap_ms)%Z then ask (fun w => (tt, sleep_ms gap_ms w)) else ret tt in
      pause ;;;
      if ok res then ping_loop n (i + 1) fd addr id gap_ms (sent + 1) lost (rtts ++ rtts_ms res)
      else ping_loop n (i + 1) fd addr id gap_ms (sent + 1) (lost + 1) rtts
  end.
End Icmp.

(** Mean and standard deviation as the loops compute them. *)
Definition mean (l : list double) : double :=
  Double.div (fold_left Double.add l Double.zero) (Double.of_Z (Z.of_nat (length l))).
Definition stddev (l : list double) : double :=
  let m := mean l in
  let var := fold_left (fun v r => Double.add v (Double.mul (Double.sub r m) (Double.sub r m))) l Double.zero in
  Double.sqrt (Double.div var (Double.of_Z (Z.of_nat (length l)))).

(** The three metrics after the loop. *)
Definition report (sent lost : Z) (rtts : list double) '((loss, rtt, jitter) : Metric * Metric * Metric)
    : Metric * Metric * Metric :=
  let loss_pct :=
    if (0 <? sent)%Z then Double.div (Double.mul (Double.of_Z 100) (Double.of_Z lost)) (Double.of_Z sent)
    else Double.of_Z 100 in
  let loss := set_success true (set_value (kPacketLossPct loss_pct) loss) in
  match rtts with
  | [] => (loss, failed "all pings lost" (set_success true rtt), failed "all pings lost" jitter)
  | _ => (loss, set_value (kRttMs (mean rtts)) (set_success true rtt),
          set_success true (set_value (kJitterMs (stddev rtts)) jitter))
  end.
End Icmp.

(** ** The probes *)
Module Probes.
Import Connect Icmp.
Section Probes.
Context {W : Type} `{!Net W}.

Definition RunDnsProbe (host : string) (metric : Metric) : M W Metric :=
  let* metric := begin_metric CHECK_TYPE_DNS_RESOLUTION host metric in
  let* start := ask steady_ns in
  let* lr := lookup host "" AF_UNSPEC SOCK_STREAM 0 true in
  let* stop := ask steady_ns in
  ret (if negb (Resolver.ok lr) then failed (or_else (error lr) "resolution failed") metric
       else set_success true (set_value (kLatencyMs (ms_between start stop)) metric)).

Definition RunTcpProbe (host_port : string) (metric : Metric) : M W Metric :=
  let* metric := begin_metric CHECK_TYPE_TCP_CONNECT host_port metric in
  match SplitHostPort host_port with
  | None => ret (FailureMetric CHECK_TYPE_TCP_CONNECT host_port "invalid host:port")
  | Some (host, port) =>
      let* start := ask steady_ns in
      let* c := ConnectSocket host port in
      match c with
      | inl err => ret (FailureMetric CHECK_TYPE_TCP_CONNECT host_port err)
      | inr fd =>
          let* stop := ask steady_ns in
          close fd ;;;
          ret (set_success true (set_value (kLatencyMs (ms_between start stop)) metric))
      end
  end.

Definition RunTcpRetransmitProbe (host_port : string) (metric : Metric) : M W Metric :=
  let* metric := begin_metric CHECK_TYPE_TCP_RETRANSMIT host_port metric in
  match SplitHostPort host_port with
  | None => ret (FailureMetric CHECK_TYPE_TCP_RETRANSMIT host_port "invalid host:port")
  | Some (host, port) =>
      let* c := ConnectSocket host port in
      match c with
      | inl err => ret (FailureMetric CHECK_TYPE_TCP_RETRANSMIT host_port err)
      | inr fd =>
          let* retrans := (fun h =>
            let '(r, w) := sys_tcp_retrans fd (world h) in
            match r with
            | inl n => (Some n, set_world w h)
            | inr e => (None, set_errno e (set_world w h))
            end) in
          close fd ;;;
          ret (match retrans with
               | Some n => set_success true (set_status_code n metric)
               | None => FailureMetric CHECK_TYPE_TCP_RETRANSMIT host_port "getsockopt(TCP_INFO) failed"
               end)
      end
  end.

Definition RunTlsProbe (host_port : string) (metric : Metric) : M W Metric :=
  let failure d := FailureMetric CHECK_TYPE_TLS_HANDSHAKE host_port d in
  let* metric := begin_metric CHECK_TYPE_TLS_HANDSHAKE host_port metric in
  match SplitHostPort host_port with
  | None => ret (failure "invalid host:port")
  | Some (host, port) =>
      let* c := ConnectSocket host port in
      match c with
      | inl err => ret (failure err)
      | inr fd =>
          let* start := ask steady_ns in
          let* ctx := TlsSessionCache.SharedSslCtx in
          if negb ctx then close fd ;;; ret (failure "SSL_CTX_new failed") else
          let* s := ssl_new in
          match s with
          | None => close fd ;;; ret (failure "SSL_new failed")
          | Some ssl =>
              let* cached := TlsSessionCache.Get host_port in
              (match cached with Some x => SSL_SESSION_free x | None => ret tt end) ;;;
              let* rc := ask (SSL_connect ssl fd host cached false) in
              (if (rc =? 1)%Z then
                 let* session := get1_session ssl in
                 match session with Some x => TlsSessionCache.Put host_port x | None => ret tt end
               else ret tt) ;;;
              let* stop := ask steady_ns in
              SSL_free ssl ;;;
              close fd ;;;
              ret (if (rc =? 1)%Z then set_success true (set_value (kLatencyMs (ms_between start stop)) metric)
                   else failed "TLS handshake failed" metric)
          end
      end
  end.

(** The attributes a peer certificate gives. *)
Definition cert_attributes (host : string) (cert : certificate) (m : Metric) : Metric :=
  let optional k v m := match v with Some v => set_attribute k v m | None => m end in
  let m := optional "tls_cert_subject" (x_subject cert) m in
  let m := optional "tls_cert_issuer" (x_issuer cert) m in
  let m := optional "tls_cert_expiry_days" (of_Z <$> x_days_to_not_after cert) m in
  let m := match x_days_since_not_before cert with
           | Some days => if (0 <? days)%Z then set_attribute "tls_cert_not_yet_valid" "true" m else m
           | None => m
           end in
  set_attribute "tls_cert_hostname_match" (of_bool (x_check_host cert host =? 1)%Z) m.

Definition cert_verdict (verify_result : Z) (host : string) (cert : certificate) (m : Metric) : Metric :=
  if negb (verify_result =? 0)%Z then
    failed ("certificate chain invalid: " +:+ X509_verify_cert_error_string verify_result) m
  else if negb (x_check_host cert host =? 1)%Z then failed "certificate hostname does not match" m
  else m.

Definition RunTlsCertProbe (host_port : string) (metric : Metric) : M W Metric :=
  let failure d := FailureMetric CHECK_TYPE_TLS_CERTIFICATE host_port d in
  let* metric := begin_metric CHECK_TYPE_TLS_CERTIFICATE host_port metric in
  let metric := set_success true metric in
  match SplitHostPort host_port with
  | None => ret (failure "invalid host:port")
  | Some (host, port) =>
      let* c := ConnectSocket host port in
      match c with
      | inl err => ret (failure err)
      | inr fd =>
          let* ctx := TlsSessionCache.SharedSslCtx in
          if negb ctx then close fd ;;; ret (failure "SSL_CTX_new failed") else
          let* s := ssl_new in
          match s with
          | None => close fd ;;; ret (failure "SSL_new failed")
          | Some ssl =>
              let* rc := ask (SSL_connect ssl fd host None true) in
              let* verify_result := ask (SSL_get_verify_result ssl) in
              let* cert := get1_peer_certificate ssl in
              let* metric :=
                match cert with
                | None =>
                    ret (failed (if (rc =? 1)%Z then "no peer certificate presented" else "TLS handshake failed") metric)
                | Some x =>
                    X509_free ;;; ret (cert_verdict verify_result host x (cert_attributes host x metric))
                end in
              SSL_free ssl ;;;
              close fd ;;;
              ret metric
          end
      end
  end.

(** [AI_CANONNAME] in the hints, the canonical name of the first address. *)
Definition canonical (lr : LookupResult) : string :=
  match Resolver.ok lr, addrs lr with
  | true, ai :: _ => default "" (Chain.ai_canonname ai)
  | _, _ => ""
  end.

(** The comma-separated addresses of one family: the bytes of the address
    start at this offset of the [sockaddr]. *)
Definition address_bytes (family : Z) (ai : Chain.addrinfo) : list Z :=
  let a := default [] (Chain.ai_addr ai) in
  if (family =? AF_INET)%Z then take 4 (drop 4 a) else take 16 (drop 8 a).
Definition add_address (family : Z) (out : string) (ai : Chain.addrinfo) : string :=
  match inet_ntop family (address_bytes family ai) with
  | Some text => (if is_empty out then out else out +:+ ",") +:+ text
  | None => out
  end.
Definition addresses (family : Z) (lr : LookupResult) : string :=
  if Resolver.ok lr then fold_left (add_address family) (addrs lr) "" else "".

(** One expected record "TYPE:value" against the attributes found. *)
Definition check_record (attrs : gmap string string) (detail : option string) (exp : string) : option string :=
  match sfind (c_of 58) exp with
  | None => detail
  | Some colon =>
      let type := stake colon exp in
      let value := sdrop (colon + 1) exp in
      let actual := default "" (attrs !! type) in
      if String.eqb actual value then detail
      else Some (default "" detail +:+ "expected " +:+ type +:+ "=" +:+ value +:+ " got " +:+
                 or_else actual "none" +:+ "; ")
  end.

Definition RunDnsRecordProbe (host : string) (expected : list string) (metric : Metric) : M W Metric :=
  let* metric := begin_metric CHECK_TYPE_DNS_RECORD host metric in
  let metric := set_success true metric in
  let* lr := lookup host "" AF_UNSPEC SOCK_STREAM AI_CANONNAME false in
  let canon := canonical lr in
  let metric := if is_empty canon || String.eqb canon host then metric else set_attribute "CNAME" canon metric in
  let* lr := lookup host "" AF_INET SOCK_STREAM 0 false in
  let a := addresses AF_INET lr in
  let metric := if is_empty a then metric else set_attribute "A" a metric in
  let* lr := lookup host "" AF_INET6 SOCK_STREAM 0 false in
  let aaaa := addresses AF_INET6 lr in
  let metric := if is_empty aaaa then metric else set_attribute "AAAA" aaaa metric in
  ret (match fold_left (check_record (attributes metric)) expected None with
       | Some detail => failed detail metric
       | None => metric
       end).

Definition RunIcmpProbe (host : string) (count gap_ms : Z) '((loss, rtt, jitter) : Metric * Metric * Metric)
    : M W (Metric * Metric * Metric) :=
  let* loss := begin_metric CHECK_TYPE_ICMP_PING host loss in
  let* rtt := begin_metric CHECK_TYPE_ICMP_PING host rtt in
  let* jitter := begin_metric CHECK_TYPE_JITTER host jitter in
  let all_failed d := ret (failed d loss, failed d rtt, failed d jitter) in
  let count := if (count <=? 0)%Z then 4%Z else count in
  let gap_ms := if (gap_ms <? 0)%Z then 0%Z else gap_ms in
  let* lr := lookup host "" AF_INET SOCK_RAW 0 false in
  match Resolver.ok lr, addrs lr with
  | true, (_ :: _) as l =>
      match list_find (fun ai => Chain.ai_family ai = AF_INET) l with
      | None => all_failed "no IPv4 address found"
      | Some (_, dst) =>
          let* fd := socket AF_INET SOCK_RAW IPPROTO_ICMP in
          if (fd <? 0)%Z then
            let* e := get_errno in all_failed ("raw socket requires CAP_NET_RAW: " +:+ strerror e)
          else
            let* pid := ask sys_getpid in
            let id := Z.land pid 65535 in
            let* r := ping_loop (Z.to_nat count) 0 fd dst id gap_ms 0 0 [] in
            close fd ;;;
            ret (report (fst (fst r)) (snd (fst r)) (snd r) (loss, rtt, jitter))
      end
  | o, _ => all_failed (if o then "no IPv4 address found" else or_else (error lr) "resolution failed")
  end.

Definition CURL_HTTP_VERSION_NONE : Z := 0.
Definition GetCurlHandle : M W bool := fun h =>
  if curl h then (true, h) else let '(b, h) := ask curl_easy_init h in (b, set_curl b h).

Definition RunHttpProbeVersioned (url protocol : string) (curl_version : Z) (metric : Metric) : M W Metric :=
  let* us := MonotonicUs in
  let metric :=
    set_target (if is_empty protocol then url else url +:+ ";" +:+ protocol)
      (set_monotonic_us us (set_check_type CHECK_TYPE_HTTP_REQUEST metric)) in
  let* handle := GetCurlHandle in
  if negb handle then ret (FailureMetric CHECK_TYPE_HTTP_REQUEST (target metric) "curl init failed") else
  let* rc := ask (curl_easy_perform url curl_version) in
  ret (match rc with
       | inr code => failed (curl_easy_strerror code) metric
       | inl (status_code, total) =>
           set_success true (set_status_code status_code
             (set_value (kLatencyMs (Double.mul total (Double.of_Z 1000))) metric))
       end).
Definition RunHttpProbe (url : string) : Metric -> M W Metric := RunHttpProbeVersioned url "" CURL_HTTP_VERSION_NONE.
Definition ProbeHttpProtocol (url protocol : string) : Metric -> M W Metric :=
  RunHttpProbeVersioned url protocol
    (if String.eqb protocol "http1.1" then 2%Z
     else if String.eqb protocol "http2" then 3%Z
     else if String.eqb protocol "http3" then 30%Z else CURL_HTTP_VERSION_NONE).

Definition STA_UNSYNC : Z := 64.
(** [attrs->insert]: a key that is there keeps its value. *)
Definition insert_attribute (k v : string) (m : Metric) : Metric :=
  match attributes m !! k with Some _ => m | None => set_attribute k v m end.
Definition ms_of_us (z : Z) : double := Double.div (Double.of_Z z) (Double.of_Z 1000).

Definition ProbeNtpOffset (metric : Metric) : M W Metric :=
  let* metric := begin_metric CHECK_TYPE_NTP_OFFSET "localhost" metric in
  let* r := ask (fun w => let '(rc, tx, w) := ntp_adjtime w in ((rc, tx), w)) in
  let '(rc, tx) := r in
  ret (if negb (rc =? 0)%Z then failed "ntp_adjtime() failed" metric
       else
         set_success true
           (insert_attribute "ntp_synchronised" (if (Z.land (tx_status tx) STA_UNSYNC =? 0)%Z then "true" else "false")
           (insert_attribute "ntp_esterror_ms" (Double.to_string (ms_of_us (tx_esterror tx)))
           (insert_attribute "ntp_maxerror_ms" (Double.to_string (ms_of_us (tx_maxerror tx)))
           (insert_attribute "ntp_status" (of_Z (tx_status tx))
           (set_value (kLatencyMs (ms_of_us (tx_offset tx))) metric)))))).

(** [RunAllProbes] in terms of what it calls: a probe run on a fresh metric
    gives the metrics pushed. *)
Variable ProbeTcpHandshake : string -> Metric -> M W Metric.

Definition one (p : Metric -> M W Metric) : M W (list Metric) := let* m := p empty_Metric in ret [m].
Definition run_call (c : call) : M W (list Metric) :=
  match c with
  | ProbeRunner.Cycle.ProbeNtpOffset => one ProbeNtpOffset
  | ProbeDns t => one (RunDnsProbe t)
  | ProbeDnsRecord t expected => one (RunDnsRecordProbe t expected)
  | ProbeTcp t => one (RunTcpProbe t)
  | ProbeTcpRetransmit t => one (RunTcpRetransmitProbe t)
  | ProbeTls t => one (RunTlsProbe t)
  | ProbeTlsCert t => one (RunTlsCertProbe t)
  | ProbeHttp t => one (RunHttpProbe t)
  | Cycle.ProbeHttpProtocol t p => one (ProbeHttpProtocol t p)
  | ProbeIcmp t count gap =>
      let* r := RunIcmpProbe t count gap (empty_Metric, empty_Metric, empty_Metric) in
      ret [fst (fst r); snd (fst r); snd r]
  | Cycle.ProbeTcpHandshake t => one (ProbeTcpHandshake t)
  end.

Fixpoint run_in_turn (l : list call) : M W (list Metric) :=
  match l with
  | [] => ret []
  | c :: l => let* m := run_call c in let* rest := run_in_turn l in ret (m ++ rest)
  end.

(** The calls of [RunAllProbes], loop by loop. *)
Definition all_calls (config : ProbeConfig) : list call :=
  (if ntp_check config then [ProbeRunner.Cycle.ProbeNtpOffset] else []) ++
  (t ← dns_targets config; dns_task config t) ++
  (t ← tcp_targets config;
   tcp_task config t ++ (if tcp_handshake_capture config then [Cycle.ProbeTcpHandshake t] else [])) ++
  (t ← tls_targets config; tls_task config t) ++
  (t ← http_targets config; mjoin (http_tasks config t)) ++
  (t ← ping_targets config; [ProbeIcmp t (ping_count config) (ping_gap_ms config)]).
Definition RunAllProbes (config : ProbeConfig) : M W (list Metric) := run_in_turn (all_calls config).
End Probes.
End Probes.
