(* ===== verification/Capture.v ===== *)
(** * Capture: timing a TCP handshake

    Models [agent/src/metrics/pcap_probe.cpp] as built for Linux, in both its
    variants.  [Packets] reads captured Ethernet frames and times the packets
    of one connection; [Pcap] is the probe with libpcap, [Socket] the one
    without.  The theorems: which bytes are read, that an encoded segment is
    read back, and that the handshake is timed whatever else is captured. *)
From stdpp Require Import base gmap strings list.
From Stdlib Require Import ZArith Lia.
From S2P Require Import Prelude Double Proto Resolver Net Probes.
Import Str Resolver Net Fields Connect.
#[local] Open Scope string_scope.
#[local] Open Scope list_scope.
#[local] Open Scope net_scope.

(** ** Captured packets *)
Module Packets.

(** The addresses and ports of the probe's own connection. *)
Record flow : Type := mkFlow { local_ip : list Z; local_port : Z; target_ip : list Z; port : Z }.

Record segment : Type := mkSegment {
  src_ip : list Z; dst_ip : list Z; sport : Z; dport : Z; syn : bool; ack : bool;
}.

Definition ntohs (l : list Z) : option Z :=
  match l with [a; b] => Some (256 * a + b)%Z | _ => None end.
(** [n] bytes from an offset; [None] reads past the captured bytes. *)
Definition read (data : list Z) (i n : nat) : option (list Z) :=
  if Nat.leb (i + n) (length data) then Some (take n (drop i data)) else None.

(** The tests of the loop up to the TCP header: outside [None] is a read past
    the captured bytes, inside it a packet the loop skips. *)
Definition packet (data : list Z) : option (option segment) :=
  if Nat.ltb (length data) 14 then Some None else
  b0 ← data !! 14;
  if negb (Z.shiftr b0 4 =? 4)%Z then Some None else
  let ip_hdr_len := Z.to_nat (Z.land b0 15 * 4) in
  if Nat.ltb (length data) (14 + ip_hdr_len + 20) then Some None else
  protocol ← data !! (14 + 9);
  if negb (protocol =? IPPROTO_TCP)%Z then Some None else
  let tcp := 14 + ip_hdr_len in
  src ← read data (14 + 12) 4;
  dst ← read data (14 + 16) 4;
  source ← read data tcp 2; sport ← ntohs source;
  dest ← read data (tcp + 2) 2; dport ← ntohs dest;
  flags ← data !! (tcp + 13);
  Some (Some (mkSegment src dst sport dport (Z.testbit flags 1) (Z.testbit flags 4))).

Record times : Type := mkTimes { t_syn : double; t_synack : double; t_ack : double }.
Definition unset : double := Double.of_Z (-1).
Definition none : times := mkTimes unset unset unset.

Definition uint16 (z : Z) : Z := (z mod 2 ^ 16)%Z.
(** Out of our end of the connection, into it. *)
Definition outgoing (f : flow) (s : segment) : bool :=
  bool_decide (src_ip s = local_ip f) && (sport s =? local_port f)%Z &&
  bool_decide (dst_ip s = target_ip f) && (dport s =? uint16 (port f))%Z.
Definition incoming (f : flow) (s : segment) : bool :=
  bool_decide (src_ip s = target_ip f) && (sport s =? uint16 (port f))%Z &&
  bool_decide (dst_ip s = local_ip f) && (dport s =? local_port f)%Z.

(** The first time stamp of each kind is kept. *)
Definition keep (old ts : double) : double := if Double.lt old Double.zero then ts else old.
Definition observe (f : flow) (ts : double) (s : segment) (t : times) : times :=
  if (syn s && negb (ack s)) && outgoing f s then mkTimes (keep (t_syn t) ts) (t_synack t) (t_ack t)
  else if (syn s && ack s) && incoming f s then mkTimes (t_syn t) (keep (t_synack t) ts) (t_ack t)
  else if (negb (syn s) && ack s) && outgoing f s then mkTimes (t_syn t) (t_synack t) (keep (t_ack t) ts)
  else t.

Definition timestamp (tv_sec tv_usec : Z) : double :=
  Double.add (Double.of_Z tv_sec) (Double.div (Double.of_Z tv_usec) (Double.of_Z 1000000)).

(** What the capture delivers until the deadline, in turn.  A byte read past
    the end of a packet is one the loop then makes nothing of. *)
Fixpoint read_loop (f : flow) (l : list captured) (t : times) : times :=
  match l with
  | [] | CaptureError :: _ => t
  | NoPacket :: l => read_loop f l t
  | Packet sec usec data :: l =>
      match packet data with
      | Some (Some s) =>
          let t := observe f (timestamp sec usec) s t in
          if Double.gt (t_synack t) Double.zero && Double.gt (t_ack t) Double.zero then t else read_loop f l t
      | _ => read_loop f l t
      end
  end.

(** The metric after the loop; [None] is the failure. *)
Definition handshake_metric (t : times) (m : Metric) : option Metric :=
  if Double.lt (t_syn t) Double.zero || Double.lt (t_synack t) Double.zero then None
  else
    let ms a b := Double.mul (Double.sub b a) (Double.of_Z 1000) in
    let m := set_value (kLatencyMs (ms (t_syn t) (t_synack t))) m in
    let m := if Double.gt (t_ack t) Double.zero
             then set_attribute "synack_ack_ms" (Double.to_string (ms (t_synack t) (t_ack t))) m else m in
    Some (set_success true m).
End Packets.

(** ** The probe with libpcap *)
Module Pcap.
Import Packets.
Section Pcap.
Context {W : Type} `{!Net W}.

Definition kRefreshInterval_ns : Z := 300000000000.
(** The first device that is not a loopback, remembered for five minutes. *)
Definition GetCaptureDevice : M W string := fun h =>
  let '(now, h) := ask steady_ns h in
  if negb (is_empty (device h)) && (now - refreshed h <? kRefreshInterval_ns)%Z then (device h, h)
  else
    let '(devs, h) := ask pcap_findalldevs h in
    let d := match list_find (fun n => has_prefix "lo" n = false) (default [] devs) with
             | Some (_, n) => n
             | None => ""
             end in
    (d, set_device d now h).

(** The IPv4 address in a [sockaddr_in], and the [sockaddr_in] to connect to. *)
Definition ip_of (ai : Chain.addrinfo) : list Z := take 4 (drop 4 (default [] (Chain.ai_addr ai))).
Definition endpoint (ip : list Z) (port : Z) : Chain.addrinfo :=
  Chain.mkAddrinfo 0 AF_INET SOCK_STREAM 0 16
    (Some (Icmp.le16 AF_INET ++ Icmp.be16 (uint16 port) ++ ip ++ repeat 0%Z 8)) None.

Definition fail (host_port d : string) (m : Metric) : Metric :=
  failed d (set_target host_port (set_check_type CHECK_TYPE_TCP_HANDSHAKE m)).

(** From the open capture handle on. *)
Definition capture (handle : Z) (target_ip : list Z) (port : Z) (failure : string -> Metric) (metric : Metric)
    : M W Metric :=
  let* rc := ask (pcap_compile handle ("tcp port " +:+ of_Z port)) in
  if (rc <? 0)%Z then pcap_close handle ;;; ret (failure "pcap_compile failed") else
  let* rc := ask (pcap_setfilter handle) in
  if (rc <? 0)%Z then pcap_close handle ;;; ret (failure "pcap_setfilter failed") else
  let* fd := socket AF_INET (Z.lor SOCK_STREAM SOCK_CLOEXEC) 0 in
  if (fd <? 0)%Z then pcap_close handle ;;; ret (failure "socket failed") else
  let* flags := syscall (sys_getfl fd) in
  syscall (sys_setfl fd (Z.lor flags O_NONBLOCK)) ;;;
  let* rc := syscall (sys_connect fd (endpoint target_ip port)) in
  let* e := get_errno in
  if (rc <? 0)%Z && negb (e =? EINPROGRESS)%Z then
    close fd ;;; pcap_close handle ;;; ret (failure "connect failed")
  else
    let* local := ask (sys_getsockname fd) in
    let* now := ask steady_ns in
    let* l := ask (pcap_read_until handle (now + 4000000000)) in
    let t := read_loop (mkFlow (fst local) (snd local) target_ip port) l none in
    close fd ;;;
    pcap_close handle ;;;
    ret (default (failure "handshake packets not captured (timeout)") (handshake_metric t metric)).

Definition ProbeTcpHandshake (host_port : string) (metric : Metric) : M W Metric :=
  let* metric := begin_metric CHECK_TYPE_TCP_HANDSHAKE host_port metric in
  let failure d := fail host_port d metric in
  match srfind (c_of 58) host_port with
  | None => ret (failure "invalid host:port")
  | Some colon =>
      match stoi (sdrop (colon + 1) host_port) with
      | None => ret (failure "invalid port")
      | Some port =>
          let* lr := lookup (stake colon host_port) (of_Z port) AF_INET SOCK_STREAM 0 false in
          match Resolver.ok lr, addrs lr with
          | true, ai :: _ =>
              let* dev := GetCaptureDevice in
              if is_empty dev then ret (failure "no non-loopback capture device") else
              let* r := pcap_open dev in
              match r with
              | inl errbuf => ret (failure ("pcap_open_live: " +:+ errbuf))
              | inr handle => capture handle (ip_of ai) port failure metric
              end
          | o, _ => ret (failure (if o then "no IPv4 address found" else or_else (error lr) "resolution failed"))
          end
      end
  end.
End Pcap.
End Pcap.

(** ** The probe without libpcap *)
Module Socket.
Section Socket.
Context {W : Type} `{!Net W}.

(** The addresses in turn, with the error so far; the time of the first that
    connects. *)
Fixpoint time_loop (l : list Chain.addrinfo) (err : string) : M W (string + double) :=
  match l with
  | [] => ret (inl err)
  | ai :: rest =>
      let* fd := socket (Chain.ai_family ai) (Chain.ai_socktype ai) (Chain.ai_protocol ai) in
      if (fd =? -1)%Z then time_loop rest err else
      let* flags := syscall (sys_getfl fd) in
      syscall (sys_setfl fd (Z.lor flags O_NONBLOCK)) ;;;
      let* start := ask steady_ns in
      let* rc := syscall (sys_connect fd ai) in
      let* e := get_errno in
      if negb (rc =? 0)%Z && negb ((e =? EINPROGRESS)%Z || (e =? EAGAIN)%Z) then
        close fd ;;; time_loop rest err
      else
        let* sel := syscall (sys_select_write fd 4) in
        if (sel <=? 0)%Z then
          close fd ;;; time_loop rest (if (sel =? 0)%Z then "handshake timed out" else "select failed")
        else
          let* so := GetSocketError fd in
          if negb (so =? 0)%Z then close fd ;;; time_loop rest "connect failed" else
          let* stop := ask steady_ns in
          close fd ;;;
          ret (inr (ms_between start stop))
  end.

Definition TimeTcpHandshake (host : string) (port : Z) : M W (string + double) :=
  let* lr := lookup host (of_Z port) AF_INET SOCK_STREAM 0 false in
  match Resolver.ok lr, addrs lr with
  | true, (_ :: _) as l => time_loop l "connect failed"
  | o, _ => ret (inl (if o then "no IPv4 address found" else or_else (error lr) "resolution failed"))
  end.

Definition ProbeTcpHandshake (host_port : string) (metric : Metric) : M W Metric :=
  let* metric := begin_metric CHECK_TYPE_TCP_HANDSHAKE host_port metric in
  match srfind (c_of 58) host_port with
  | None => ret (failed "invalid host:port" metric)
  | Some colon =>
      match stoi (sdrop (colon + 1) host_port) with
      | None => ret (failed "invalid port" metric)
      | Some port =>
          let* r := TimeTcpHandshake (stake colon host_port) port in
          ret (match r with
               | inl err => failed err metric
               | inr latency_ms => set_success true (set_attribute "method" "socket" (set_value (kLatencyMs latency_ms) metric))
               end)
      end
  end.
End Socket.
End Socket.

(** ** What the packet loop promises *)
Module Handshake.
Import Packets.

Lemma lookup_within {A} (l : list A) i : i < length l -> exists x, l !! i = Some x.
Proof. intros H. destruct (lookup_lt_is_Some_2 l i H) as [x Hx]. by exists x. Qed.
Lemma read_within data i n : i + n <= length data -> read data i n = Some (take n (drop i data)).
Proof. intros H. unfold read. by rewrite (proj2 (Nat.leb_le _ _) H). Qed.
Lemma ntohs_read data i : i + 2 <= length data -> exists z, ntohs (take 2 (drop i data)) = Some z.
Proof.
  intros H. assert (length (take 2 (drop i data)) = 2) as E by (rewrite length_take, length_drop; lia).
  destruct (take 2 (drop i data)) as [|a [|b [|]]]; try discriminate. by eexists.
Qed.

(** The capture loop stays inside the packet.  Whatever bytes are
    captured, and however short they are or however long the IP header claims
    to be, every byte the loop looks at is a captured one, with one exception:
    a packet of exactly 14 bytes passes the length test and the byte after its
    end is read. *)
Theorem packet_reads_captured_bytes (data : list Z) : packet data = None <-> length data = 14.
Proof.
  split.
  - unfold packet. destruct (Nat.ltb_spec (length data) 14) as [|Hl]; [discriminate|].
    intros H. destruct (decide (length data = 14)) as [|Hne]; [done|exfalso].
    destruct (lookup_within data 14 ltac:(lia)) as [b0 Hb0]. rewrite Hb0 in H. cbn [mbind option_bind] in H.
    destruct (negb (Z.shiftr b0 4 =? 4)%Z); [discriminate|].
    set (hl := Z.to_nat _) in H. destruct (Nat.ltb_spec (length data) (14 + hl + 20)) as [|Hlen]; [discriminate|].
    destruct (lookup_within data (14 + 9) ltac:(lia)) as [pr Hpr]. rewrite Hpr in H. cbn [mbind option_bind] in H.
    destruct (negb (pr =? IPPROTO_TCP)%Z); [discriminate|].
    rewrite !read_within in H by lia. cbn [mbind option_bind] in H.
    destruct (ntohs_read data (14 + hl) ltac:(lia)) as [z1 Hz1]. rewrite Hz1 in H. cbn [mbind option_bind] in H.
    destruct (ntohs_read data (14 + hl + 2) ltac:(lia)) as [z2 Hz2]. rewrite Hz2 in H. cbn [mbind option_bind] in H.
    destruct (lookup_within data (14 + hl + 13) ltac:(lia)) as [fl Hfl]. by rewrite Hfl in H.
  - intros H. unfold packet. rewrite H. cbn [Nat.ltb Nat.leb]. by rewrite (lookup_ge_None_2 data 14) by lia.
Qed.

(** ** Frames as a sender writes them *)

(** The fields the loop looks at and everything around them. *)
Record frame : Type := mkFrame {
  f_ether : list Z;       (* 14 bytes *)
  f_ihl : Z;              (* header length in words: 5 to 15 *)
  f_ip1 : list Z;         (* 8 bytes up to the protocol *)
  f_sum : list Z;         (* 2 bytes *)
  f_options : list Z;
  f_seq_ack : list Z;     (* 8 bytes of sequence and acknowledgement number *)
  f_offset : Z;
  f_flags : Z;            (* the TCP flags other than SYN and ACK *)
  f_rest : list Z;        (* window, checksum, urgent pointer, options, payload *)
}.
Definition well_formed (f : frame) (s : segment) : Prop :=
  length (f_ether f) = 14 /\ (5 <= f_ihl f <= 15)%Z /\ length (f_ip1 f) = 8 /\ length (f_sum f) = 2 /\
  length (f_options f) = Z.to_nat (f_ihl f * 4 - 20) /\ length (f_seq_ack f) = 8 /\ 6 <= length (f_rest f) /\
  length (src_ip s) = 4 /\ length (dst_ip s) = 4 /\ (0 <= sport s < 2 ^ 16)%Z /\ (0 <= dport s < 2 ^ 16)%Z /\
  Z.testbit (f_flags f) 1 = false /\ Z.testbit (f_flags f) 4 = false.

Definition flags_of (f : frame) (s : segment) : Z :=
  Z.lor (f_flags f) (Z.lor (if syn s then 2 else 0) (if ack s then 16 else 0)).
Definition encode (f : frame) (s : segment) : list Z :=
  f_ether f ++ [Z.lor 64 (f_ihl f)] ++ f_ip1 f ++ [IPPROTO_TCP] ++ f_sum f ++ src_ip s ++ dst_ip s ++ f_options f ++
  Icmp.be16 (sport s) ++ Icmp.be16 (dport s) ++ f_seq_ack f ++ [f_offset f; flags_of f s] ++ f_rest f.

Lemma ntohs_be16 z : (0 <= z < 2 ^ 16)%Z -> ntohs (Icmp.be16 z) = Some z.
Proof.
  intros H. unfold ntohs, Icmp.be16. f_equal. change 255%Z with (Z.ones 8).
  rewrite !Z.land_ones, Z.shiftr_div_pow2 by lia.
  rewrite (Z.mod_small (z / 2 ^ 8)) by (split; [apply Z.div_pos; lia|apply Z.div_lt_upper_bound; lia]).
  change 256%Z with (2 ^ 8)%Z. symmetry. apply Z.div_mod. lia.
Qed.

Lemma flags_syn f s : Z.testbit (f_flags f) 1 = false -> Z.testbit (flags_of f s) 1 = syn s.
Proof. intros H. unfold flags_of. rewrite !Z.lor_spec, H. by destruct (syn s), (ack s). Qed.
Lemma flags_ack f s : Z.testbit (f_flags f) 4 = false -> Z.testbit (flags_of f s) 4 = ack s.
Proof. intros H. unfold flags_of. rewrite !Z.lor_spec, H. by destruct (syn s), (ack s). Qed.

(** A part of a concatenation, by the length of what is in front. *)
Lemma slice {A} (a x b : list A) n k : length a = n -> length x = k -> take k (drop n (a ++ x ++ b)) = x.
Proof. intros <- <-. by rewrite drop_app_length, take_app_length. Qed.
Lemma element {A} (a b : list A) (x : A) n : length a = n -> (a ++ x :: b) !! n = Some x.
Proof. intros <-. by rewrite lookup_app_r, Nat.sub_diag by lia. Qed.
Lemma read_slice a x b n k : length a = n -> length x = k -> read (a ++ x ++ b) n k = Some x.
Proof. intros Ha Hx. rewrite read_within, slice by (rewrite ?length_app; lia). done. Qed.

Lemma version_ihl n : (5 <= n <= 15)%Z -> Z.shiftr (Z.lor 64 n) 4 = 4%Z /\ Z.land (Z.lor 64 n) 15 = n.
Proof.
  intros H. assert (n = 5 \/ n = 6 \/ n = 7 \/ n = 8 \/ n = 9 \/ n = 10 \/ n = 11 \/ n = 12 \/ n = 13 \/ n = 14 \/ n = 15)%Z
    as Hn by lia.
  by repeat (destruct Hn as [->|Hn]); [..|subst].
Qed.

(** Where the parts of an encoded frame are: [hl] bytes of IP header. *)
Section Encoded.
Variables (f : frame) (s : segment).
Hypothesis H : well_formed f s.
Let hl := Z.to_nat (f_ihl f * 4).
Let front := f_ether f ++ [Z.lor 64 (f_ihl f)] ++ f_ip1 f ++ [IPPROTO_TCP] ++ f_sum f.
Let head := front ++ src_ip s ++ dst_ip s ++ f_options f.
Let tcp := Icmp.be16 (sport s) ++ Icmp.be16 (dport s) ++ f_seq_ack f ++ [f_offset f; flags_of f s] ++ f_rest f.

Lemma front_length : length front = 26.
Proof. destruct H as (? & ? & ? & ? & ?). unfold front. rewrite !length_app. cbn. lia. Qed.
Lemma head_length : length head = 14 + hl.
Proof.
  pose proof front_length. destruct H as (? & ? & ? & ? & ? & ? & ? & ? & ? & ?). unfold head, hl. rewrite !length_app. lia.
Qed.
Lemma encode_front : encode f s = front ++ src_ip s ++ dst_ip s ++ f_options f ++ tcp.
Proof. unfold encode, front. by rewrite <- !app_assoc. Qed.
Lemma encode_head : encode f s = head ++ tcp.
Proof. rewrite encode_front. unfold head. by rewrite <- !app_assoc. Qed.

Lemma encode_length : 14 + hl + 20 <= length (encode f s).
Proof.
  rewrite encode_head, length_app, head_length. destruct H as (? & ? & ? & ? & ? & ? & ? & ?).
  unfold tcp. rewrite !length_app. cbn. lia.
Qed.
Lemma encode_version : encode f s !! 14 = Some (Z.lor 64 (f_ihl f)).
Proof. destruct H as (? & ?). by apply element. Qed.
Lemma encode_protocol : encode f s !! (14 + 9) = Some IPPROTO_TCP.
Proof.
  destruct H as (? & ? & ? & ? & ?).
  assert (encode f s = (f_ether f ++ [Z.lor 64 (f_ihl f)] ++ f_ip1 f) ++ IPPROTO_TCP ::
    (f_sum f ++ src_ip s ++ dst_ip s ++ f_options f ++ tcp)) as -> by (unfold encode; by rewrite <- !app_assoc).
  apply element. rewrite !length_app. cbn. lia.
Qed.
Lemma encode_src : read (encode f s) (14 + 12) 4 = Some (src_ip s).
Proof. rewrite encode_front. apply read_slice; [apply front_length|apply H]. Qed.
Lemma encode_dst : read (encode f s) (14 + 16) 4 = Some (dst_ip s).
Proof.
  rewrite encode_front, app_assoc. pose proof front_length. destruct H as (? & ? & ? & ? & ? & ? & ? & ? & ? & ?).
  apply read_slice; [rewrite length_app; lia|done].
Qed.
Lemma encode_ports :
  read (encode f s) (14 + hl) 2 = Some (Icmp.be16 (sport s)) /\
  read (encode f s) (14 + hl + 2) 2 = Some (Icmp.be16 (dport s)).
Proof.
  rewrite encode_head. pose proof head_length. unfold tcp. split; [by apply read_slice|].
  rewrite app_assoc. apply read_slice; [rewrite length_app; cbn; lia|done].
Qed.
Lemma encode_flags : encode f s !! (14 + hl + 13) = Some (flags_of f s).
Proof.
  assert (encode f s = (head ++ Icmp.be16 (sport s) ++ Icmp.be16 (dport s) ++ f_seq_ack f ++ [f_offset f]) ++
    flags_of f s :: f_rest f) as -> by (rewrite encode_head; unfold tcp; by rewrite <- !app_assoc).
  pose proof head_length. destruct H as (? & ? & ? & ? & ? & ? & ?). apply element. rewrite !length_app. cbn. lia.
Qed.

(** An encoded segment is read back, whatever else the frame carries. *)
Lemma packet_encode : packet (encode f s) = Some (Some s).
Proof.
  pose proof encode_length as Hlen. destruct encode_ports as [Hs Hd].
  destruct H as (_ & H2 & _ & _ & _ & _ & _ & _ & _ & H10 & H11 & H12 & H13).
  destruct (version_ihl (f_ihl f) H2) as [Hv Hi].
  unfold packet. rewrite (proj2 (Nat.ltb_ge _ _)) by lia.
  rewrite encode_version. cbn [mbind option_bind]. rewrite Hv, Hi. cbn [negb Z.eqb Pos.eqb]. fold hl.
  rewrite (proj2 (Nat.ltb_ge _ _)) by lia. rewrite encode_protocol. cbn [mbind option_bind].
  change (negb (IPPROTO_TCP =? IPPROTO_TCP)%Z) with false. cbn iota.
  rewrite encode_src, encode_dst, Hs, Hd. cbn [mbind option_bind].
  rewrite !ntohs_be16 by done. cbn [mbind option_bind].
  rewrite encode_flags. cbn [mbind option_bind]. rewrite flags_syn, flags_ack by done. by destruct s.
Qed.
End Encoded.

(** ** Timing *)

(** The three packets of a handshake, as this connection sends and receives them. *)
Inductive kind : Type := Syn | SynAck | Ack.
#[global] Instance kind_eq_dec : EqDecision kind.
Proof. solve_decision. Defined.
Definition segment_of (f : flow) (k : kind) : segment :=
  match k with
  | Syn => mkSegment (local_ip f) (target_ip f) (local_port f) (uint16 (port f)) true false
  | SynAck => mkSegment (target_ip f) (local_ip f) (uint16 (port f)) (local_port f) true true
  | Ack => mkSegment (local_ip f) (target_ip f) (local_port f) (uint16 (port f)) false true
  end.

Definition kind_of (f : flow) (e : captured) : option kind :=
  match e with
  | Packet _ _ data =>
      match packet data with
      | Some (Some s) =>
          if (syn s && negb (ack s)) && outgoing f s then Some Syn
          else if (syn s && ack s) && incoming f s then Some SynAck
          else if (negb (syn s) && ack s) && outgoing f s then Some Ack else None
      | _ => None
      end
  | _ => None
  end.
(** Anything else the device carries, and possibly repetitions of these kinds. *)
Definition noise (f : flow) (again : list kind) (e : captured) : Prop :=
  e <> CaptureError /\ forall k, kind_of f e = Some k -> k ∈ again.

Lemma kind_of_encode f k sec usec fr :
  well_formed fr (segment_of f k) -> kind_of f (Packet sec usec (encode fr (segment_of f k))) = Some k.
Proof.
  intros H. unfold kind_of. rewrite packet_encode by done.
  assert (outgoing f (segment_of f Syn) = true /\ outgoing f (segment_of f Ack) = true /\
          incoming f (segment_of f SynAck) = true) as (E1 & E2 & E3).
  { unfold outgoing, incoming. cbn. by rewrite !Z.eqb_refl, !bool_decide_true. }
  destruct k; [rewrite E1|rewrite E3|rewrite E2]; done.
Qed.

(** One event in the loop, by its kind. *)
Definition mark (k : kind) (ts : double) (t : times) : times :=
  match k with
  | Syn => mkTimes (keep (t_syn t) ts) (t_synack t) (t_ack t)
  | SynAck => mkTimes (t_syn t) (keep (t_synack t) ts) (t_ack t)
  | Ack => mkTimes (t_syn t) (t_synack t) (keep (t_ack t) ts)
  end.
Definition complete (t : times) : bool := Double.gt (t_synack t) Double.zero && Double.gt (t_ack t) Double.zero.

Lemma read_loop_kind f sec usec data l t k :
  kind_of f (Packet sec usec data) = Some k ->
  read_loop f (Packet sec usec data :: l) t =
  (let t := mark k (timestamp sec usec) t in if complete t then t else read_loop f l t).
Proof.
  cbn [kind_of read_loop]. destruct (packet data) as [[s|]|]; try discriminate. unfold observe.
  repeat (match goal with |- context [if ?b then Some _ else _] => destruct b end); by intros [= <-].
Qed.
Lemma read_loop_none f e l t :
  e <> CaptureError -> kind_of f e = None -> complete t = false -> read_loop f (e :: l) t = read_loop f l t.
Proof.
  intros He Hk Hc. destruct e as [sec usec data| |]; [|done..]. cbn [kind_of read_loop] in *.
  destruct (packet data) as [[s|]|]; [|done..]. unfold observe.
  repeat match goal with H : context [if ?b then Some _ else _] |- _ => destruct b; [discriminate|] end.
  unfold complete in Hc. by rewrite Hc.
Qed.

(** Noise is passed over, repetitions of packets already timed included. *)
Lemma read_loop_noise f again n l t :
  Forall (noise f again) n -> complete t = false -> (forall k ts, k ∈ again -> mark k ts t = t) ->
  read_loop f (n ++ l) t = read_loop f l t.
Proof.
  intros Hn Hc Hm. induction Hn as [|e n [He Hk] _ IH]; [done|]. cbn [app].
  destruct (kind_of f e) as [k|] eqn:E; [|by rewrite read_loop_none].
  destruct e as [sec usec data| |]; [|done..]. rewrite (read_loop_kind _ _ _ _ _ _ k E). cbv zeta.
  rewrite Hm by (by apply Hk). by rewrite Hc.
Qed.

Lemma keep_unset ts : keep unset ts = ts.
Proof. done. Qed.
Lemma positive_not_negative ts : Double.gt ts Double.zero = true -> Double.lt ts Double.zero = false.
Proof. intros H. apply not_true_is_false. intros E. apply Double.lt_gt_exclusive in E. congruence. Qed.
Lemma keep_positive ts ts' : Double.gt ts Double.zero = true -> keep ts ts' = ts.
Proof. intros H. unfold keep. by rewrite positive_not_negative. Qed.

Definition ms_since (a b : double) : double := Double.mul (Double.sub b a) (Double.of_Z 1000).

(** Claim C25: the handshake is timed, whatever else is on the wire.  From a
    capture in which the SYN, SYN-ACK and ACK of the probe's connection occur in
    this order, in frames with any headers, options and payload, between any
    other traffic, read time-outs, truncated or foreign packets and
    retransmissions, and whatever follows, the probe succeeds with the time from
    the first SYN to the first SYN-ACK, and reports the time from there to the
    ACK. *)
Theorem handshake_timed (f : flow) (n1 n2 n3 rest : list captured) (f1 f2 f3 : frame)
    (s1 u1 s2 u2 s3 u3 : Z) (m : Metric) :
  Forall (noise f []) n1 -> Forall (noise f [Syn]) n2 -> Forall (noise f [Syn; SynAck]) n3 ->
  well_formed f1 (segment_of f Syn) -> well_formed f2 (segment_of f SynAck) -> well_formed f3 (segment_of f Ack) ->
  Double.gt (timestamp s1 u1) Double.zero = true -> Double.gt (timestamp s2 u2) Double.zero = true ->
  Double.gt (timestamp s3 u3) Double.zero = true ->
  exists m',
    handshake_metric
      (read_loop f (n1 ++ Packet s1 u1 (encode f1 (segment_of f Syn)) :: n2 ++
                    Packet s2 u2 (encode f2 (segment_of f SynAck)) :: n3 ++
                    Packet s3 u3 (encode f3 (segment_of f Ack)) :: rest) none) m = Some m' /\
    success m' = true /\ value m' = kLatencyMs (ms_since (timestamp s1 u1) (timestamp s2 u2)) /\
    attributes m' !! "synack_ack_ms" = Some (Double.to_string (ms_since (timestamp s2 u2) (timestamp s3 u3))).
Proof.
  intros Hn1 Hn2 Hn3 W1 W2 W3 P1 P2 P3.
  assert (forall a b, complete (mkTimes a unset b) = false) as C1 by (intros; done).
  assert (forall a b, complete (mkTimes a b unset) = false) as C2 by (intros; unfold complete; cbn; by rewrite andb_false_r).
  rewrite (read_loop_noise f [] n1) by (done || by intros k ts Hk%elem_of_nil).
  rewrite (read_loop_kind _ _ _ _ _ _ Syn) by by apply kind_of_encode.
  cbn [mark none t_syn t_synack t_ack]. rewrite keep_unset. cbv zeta. rewrite C1.
  rewrite (read_loop_noise f [Syn] n2); [|done|apply C1|].
  2: { intros k ts ->%list_elem_of_singleton. cbn. by rewrite keep_positive. }
  rewrite (read_loop_kind _ _ _ _ _ _ SynAck) by by apply kind_of_encode.
  cbn [mark t_syn t_synack t_ack]. rewrite keep_unset. cbv zeta. rewrite C2.
  rewrite (read_loop_noise f [Syn; SynAck] n3); [|done|apply C2|].
  2: { intros k ts [->|[->|[]%elem_of_nil]%elem_of_cons]%elem_of_cons; cbn; by rewrite keep_positive. }
  rewrite (read_loop_kind _ _ _ _ _ _ Ack) by by apply kind_of_encode.
  cbn [mark t_syn t_synack t_ack]. rewrite keep_unset. cbv zeta.
  assert (complete (mkTimes (timestamp s1 u1) (timestamp s2 u2) (timestamp s3 u3)) = true) as ->
    by (unfold complete; cbn; by rewrite P2, P3).
  unfold handshake_metric. cbn [t_syn t_synack t_ack]. rewrite !positive_not_negative, P3 by done. cbn [orb].
  eexists. split; [done|]. cbn. split_and!; [done..|]. by rewrite lookup_insert_eq.
Qed.

Definition demo_flow : flow := mkFlow [192; 168; 1; 2]%Z 40000 [93; 184; 216; 34]%Z 443.
Definition demo_frame : frame :=
  mkFrame (repeat 0%Z 14) 6 (repeat 0%Z 8) [18; 52]%Z [1; 1; 1; 1]%Z (repeat 7%Z 8) 80 8 (repeat 0%Z 10).
Definition demo_stranger : captured :=
  Packet 1700000000 5 (encode demo_frame (mkSegment [10; 0; 0; 1]%Z [10; 0; 0; 2]%Z 443 40000 true false)).
Definition demo_again (k : kind) : captured := Packet 1700000000 300000 (encode demo_frame (segment_of demo_flow k)).

Lemma demo_well_formed k : well_formed demo_frame (segment_of demo_flow k).
Proof. destruct k; vm_compute; repeat split; try discriminate; lia. Qed.
Lemma demo_noise again e :
  e <> CaptureError -> match kind_of demo_flow e with Some k => bool_decide (k ∈ again) | None => true end = true ->
  noise demo_flow again e.
Proof. intros He H. split; [done|]. intros k E. rewrite E in H. by apply bool_decide_eq_true in H. Qed.

Lemma handshake_timed_witness :
  exists m',
    handshake_metric (read_loop demo_flow
      ([NoPacket; demo_stranger; Packet 1700000000 9 [1; 2; 3]%Z] ++
       Packet 1700000000 100000 (encode demo_frame (segment_of demo_flow Syn)) ::
       [demo_again Syn; Packet 1700000000 9 (repeat 0%Z 14)] ++
       Packet 1700000000 350000 (encode demo_frame (segment_of demo_flow SynAck)) ::
       [demo_again SynAck; NoPacket] ++
       Packet 1700000000 350500 (encode demo_frame (segment_of demo_flow Ack)) :: [CaptureError]) none) empty_Metric =
      Some m' /\ success m' = true /\
    value m' = kLatencyMs (ms_since (timestamp 1700000000 100000) (timestamp 1700000000 350000)) /\
    attributes m' !! "synack_ack_ms" =
      Some (Double.to_string (ms_since (timestamp 1700000000 350000) (timestamp 1700000000 350500))).
Proof.
  apply (handshake_timed demo_flow [NoPacket; demo_stranger; Packet 1700000000 9 [1; 2; 3]%Z]
    [demo_again Syn; Packet 1700000000 9 (repeat 0%Z 14)] [demo_again SynAck; NoPacket] [CaptureError]
    demo_frame demo_frame demo_frame 1700000000 100000 1700000000 350000 1700000000 350500 empty_Metric);
    try apply demo_well_formed; try (vm_compute; reflexivity);
    repeat (apply Forall_cons; split); try apply Forall_nil; try exact I;
    (apply demo_noise; [discriminate|vm_compute; reflexivity]).
Defined.
End Handshake.
