(* ===== verification/ProbesSpec.v ===== *)
(** * ProbesSpec: what the probes promise

    Theorems on the file Probes.  [Resources] is a small Hoare logic over what
    a probe holds open, with a rule for every primitive, and shows that no
    probe leaks a descriptor, a TLS object or a session reference.  [Echo] is
    about the checksum, the receive loop and the statistics of a ping,
    [Verdicts] about the answers of the other probes, [Schedule] relates
    [RunAllProbes] to the cycle of the probe runner. *)
From stdpp Require Import base gmap strings list.
From Stdlib Require Import ZArith Lia.
From S2P Require Import Prelude Double Proto ProbeRunner Resolver Net Probes Capture.
Import Str Resolver Net Cycle Fields Connect Icmp Probes.
#[local] Open Scope string_scope.
#[local] Open Scope list_scope.
#[local] Open Scope net_scope.

Module Resources.
Create HintDb quiet.
Section Resources.
Context {W : Type} `{!Net W}.

(** What is held, and that the session references are those of the cache and
    [extra]. *)
Definition holds (l : list resource) (extra : list Z) (h : host W) : Prop :=
  held h = l /\ session_refs h ≡ₚ extra ++ map snd (map_to_list (sessions h)).

Definition triple {A} (P : host W -> Prop) (m : M W A) (Q : A -> host W -> Prop) : Prop :=
  forall h, P h -> Q (fst (m h)) (snd (m h)).

Lemma triple_ret {A} (a : A) (Q : A -> host W -> Prop) : triple (Q a) (ret a) Q.
Proof. by intros h H. Qed.
Lemma triple_bind {A B} (m : M W A) (k : A -> M W B) P Q R :
  triple P m Q -> (forall a, triple (Q a) (k a) R) -> triple P (bind m k) R.
Proof.
  intros Hm Hk h HP. specialize (Hm h HP). unfold bind. destruct (m h) as [a h']. apply (Hk a h' Hm).
Qed.

(** Primitives that change nothing that is open. *)
Definition quiet {A} (m : M W A) : Prop := forall l x, triple (holds l x) m (fun _ => holds l x).
Lemma quiet_ret {A} (a : A) : quiet (ret a).
Proof. intros l x. exact (triple_ret a (fun _ => holds l x)). Qed.
Lemma quiet_bind {A B} (m : M W A) (k : A -> M W B) : quiet m -> (forall a, quiet (k a)) -> quiet (bind m k).
Proof. intros Hm Hk l x. eapply triple_bind; [apply Hm|intros a; apply Hk]. Qed.
Lemma quiet_ask {A} (g : W -> A * W) : quiet (ask g).
Proof. intros l x h H. unfold ask. by destruct (g (world h)). Qed.
Lemma quiet_syscall g : quiet (syscall g).
Proof. intros l x h H. unfold syscall. by destruct (g (world h)) as [[|] ?]. Qed.
Lemma quiet_errno : quiet get_errno.
Proof. by intros l x h H. Qed.
Lemma quiet_ctx : quiet TlsSessionCache.SharedSslCtx.
Proof. intros l x h H. unfold TlsSessionCache.SharedSslCtx. destruct (ctx h); [done|]. unfold ask. by destruct (SSL_CTX_new (world h)). Qed.
Lemma quiet_curl : quiet GetCurlHandle.
Proof. intros l x h H. unfold GetCurlHandle. destruct (curl h); [done|]. unfold ask. by destruct (curl_easy_init (world h)). Qed.
Lemma quiet_so_error s : quiet (GetSocketError s).
Proof. intros l x h H. unfold GetSocketError. by destruct (sys_so_error s (world h)) as [[|] ?]. Qed.

(** Those that open or close. *)
Lemma remove_one_cons {A} `{EqDecision A} (x : A) l : remove_one x (x :: l) = l.
Proof. unfold remove_one. cbn. by destruct (decide (x = x)). Qed.
Lemma triple_push r l x (m : host W) : holds l x m -> holds (r :: l) x (push r m).
Proof. intros [H1 H2]. split; [cbn; by rewrite H1|done]. Qed.
Lemma triple_release r l x : triple (holds (r :: l) x) (release r) (fun _ => holds l x).
Proof. intros h [H1 H2]. split; [cbn; by rewrite H1, remove_one_cons|done]. Qed.

Lemma triple_socket fam ty pr l x :
  triple (holds l x) (socket fam ty pr) (fun fd => holds (if (0 <=? fd)%Z then Descriptor fd :: l else l) x).
Proof.
  intros h Hh. unfold socket. destruct (sys_socket fam ty pr (world h)) as [[fd|e] w]; cbn; [|done].
  rewrite (proj2 (Z.leb_le _ _)) by lia. by apply triple_push.
Qed.
Lemma triple_close fd l x : triple (holds (Descriptor fd :: l) x) (close fd) (fun _ => holds l x).
Proof.
  intros h Hh. unfold close, syscall. destruct (sys_close fd (world h)) as [[r|e] w]; by apply triple_release.
Qed.
Lemma triple_ssl_new l x :
  triple (holds l x) ssl_new (fun s => holds (match s with Some s => Tls s :: l | None => l end) x).
Proof. intros h Hh. unfold ssl_new, ask. by destruct (SSL_new (world h)) as [[s|] w]; [apply triple_push|]. Qed.
Lemma triple_cert s l x :
  triple (holds l x) (get1_peer_certificate s)
    (fun c => holds (match c with Some _ => Certificate :: l | None => l end) x).
Proof.
  intros h Hh. unfold get1_peer_certificate, ask.
  by destruct (SSL_get1_peer_certificate s (world h)) as [[c|] w]; [apply triple_push|].
Qed.
Lemma triple_pcap_open dev l x :
  triple (holds l x) (pcap_open dev) (fun r => holds (match r with inr p => Capture p :: l | inl _ => l end) x).
Proof. intros h Hh. unfold pcap_open, ask. by destruct (pcap_open_live dev (world h)) as [[e|p] w]; [|apply triple_push]. Qed.

Lemma remove_one_perm (x : Z) l k : l ≡ₚ x :: k -> remove_one x l ≡ₚ k.
Proof.
  intros H. unfold remove_one. destruct (list_find (x =.) l) as [[i y]|] eqn:E.
  - apply list_find_Some in E as (Hi & <- & _). apply (Permutation_cons_inv (a := x)).
    rewrite <- H. symmetry. by apply delete_Permutation.
  - apply list_find_None in E. rewrite Forall_forall in E. exfalso. apply (E x); [|done]. rewrite H. by left.
Qed.
Lemma triple_get hp l :
  triple (holds l []) (TlsSessionCache.Get hp) (fun s => holds l (match s with Some s => [s] | None => [] end)).
Proof.
  intros h [H1 H2]. unfold TlsSessionCache.Get. destruct (sessions h !! hp) as [s|]; [|done].
  split; [done|]. cbn. by rewrite H2.
Qed.
Lemma triple_session_free s l : triple (holds l [s]) (SSL_SESSION_free s) (fun _ => holds l []).
Proof. intros h [H1 H2]. split; [done|]. cbn. by apply remove_one_perm. Qed.
Lemma triple_get1_session s l :
  triple (holds l []) (get1_session s) (fun x => holds l (match x with Some x => [x] | None => [] end)).
Proof.
  intros h [H1 H2]. unfold get1_session, ask. destruct (SSL_get1_session s (world h)) as [[x|] w]; [|done].
  split; [done|]. cbn. by rewrite H2.
Qed.
Lemma triple_put hp s l : triple (holds l [s]) (TlsSessionCache.Put hp s) (fun _ => holds l []).
Proof.
  intros h [H1 H2]. unfold TlsSessionCache.Put. destruct (sessions h !! hp) as [old|] eqn:E; (split; [done|]); cbn.
  - apply remove_one_perm. rewrite H2. rewrite <- (insert_delete_id _ _ _ E) at 1.
    rewrite <- (insert_delete_eq (sessions h) hp s).
    rewrite !map_to_list_insert by apply lookup_delete_eq. cbn. constructor.
  - rewrite H2. by rewrite map_to_list_insert.
Qed.

Lemma triple_quiet {A} (m : M W A) l x : quiet m -> triple (holds l x) m (fun _ => holds l x).
Proof. intros H. apply H. Qed.
Lemma triple_weaken {A} (m : M W A) P Q R : triple P m Q -> (forall a h, Q a h -> R a h) -> triple P m R.
Proof. intros H1 H2 h H. apply H2, H1, H. Qed.

#[local] Hint Resolve quiet_ret quiet_ask quiet_syscall quiet_errno quiet_ctx quiet_curl quiet_so_error : quiet.
#[local] Hint Extern 2 (quiet (bind _ _)) => apply quiet_bind; [|intros ?] : quiet.
#[local] Hint Extern 3 (quiet (if ?b then _ else _)) => destruct b : quiet.

Lemma quiet_nonblock s b : quiet (SetNonBlocking s b).
Proof. unfold SetNonBlocking. auto with quiet. Qed.
Lemma quiet_lookup host service fam ty fl b : quiet (lookup host service fam ty fl b).
Proof. unfold lookup. auto with quiet. Qed.
Lemma quiet_begin ty tg m : quiet (begin_metric ty tg m).
Proof. unfold begin_metric, MonotonicUs. auto with quiet. Qed.
#[local] Hint Resolve quiet_nonblock quiet_lookup quiet_begin : quiet.

(** One statement of a probe: a quiet one, or one with a rule of its own. *)
Ltac rule :=
  first [ apply triple_close | apply triple_release | apply triple_ssl_new | apply triple_cert
        | apply triple_pcap_open | apply triple_socket | apply triple_get | apply triple_get1_session
        | apply triple_quiet; solve [auto 6 with quiet] ].
Tactic Notation "next" "as" ident(y) := eapply triple_bind; [rule|intros y; cbn beta].
Ltac next := eapply triple_bind; [rule|intros ?; cbn beta].
Ltac finish := apply triple_quiet; solve [auto 6 with quiet].

Ltac branch := match goal with |- triple _ (if ?b then _ else _) _ => destruct b eqn:? end.

Lemma triple_connect_loop ais l x :
  triple (holds l x) (connect_loop ais) (fun fd => holds (if (0 <=? fd)%Z then Descriptor fd :: l else l) x).
Proof.
  induction ais as [|ai ais IH]; cbn [connect_loop].
  - exact (triple_ret (-1)%Z (fun fd => holds (if (0 <=? fd)%Z then Descriptor fd :: l else l) x)).
  - next as a. destruct (a <? 0)%Z eqn:E; bool_hyps.
    { replace (0 <=? a)%Z with false by (symmetry; apply Z.leb_gt; lia). exact IH. }
    replace (0 <=? a)%Z with true by (symmetry; apply Z.leb_le; lia).
    next. branch; [next; exact IH|]. next. next. branch; [next; exact IH|].
    next. branch; [next; exact IH|]. next. branch; [next; exact IH|]. next.
    intros h Hh. cbn. by rewrite (proj2 (Z.leb_le 0 a) E).
Qed.

Lemma triple_connect host port l x :
  triple (holds l x) (ConnectSocket host port)
    (fun c => holds (match c with inr fd => Descriptor fd :: l | inl _ => l end) x).
Proof.
  unfold ConnectSocket. next. destruct (Resolver.ok a), (addrs a) as [|ai ais]; try by intros h Hh.
  eapply triple_bind; [apply triple_connect_loop|]. intros fd. destruct (fd <? 0)%Z eqn:E; bool_hyps.
  - replace (0 <=? fd)%Z with false by (symmetry; apply Z.leb_gt; lia). by intros h Hh.
  - intros h Hh. cbn. by rewrite (proj2 (Z.leb_le 0 fd) E) in Hh.
Qed.

(** What is open after a probe is what was open before. *)
Definition balanced {A} (m : M W A) : Prop := forall l, triple (holds l []) m (fun _ => holds l []).
Lemma balanced_bind {A B} (m : M W A) (k : A -> M W B) : balanced m -> (forall a, balanced (k a)) -> balanced (bind m k).
Proof. intros Hm Hk l. eapply triple_bind; [apply Hm|intros a; apply Hk]. Qed.
Lemma balanced_quiet {A} (m : M W A) : quiet m -> balanced m.
Proof. intros H l. apply H. Qed.

(** The common start: a host and a port, and a connection. *)
Lemma balanced_dns host m : balanced (RunDnsProbe host m).
Proof. apply balanced_quiet. unfold RunDnsProbe. auto 10 with quiet. Qed.
Lemma balanced_records host expected m : balanced (RunDnsRecordProbe host expected m).
Proof. apply balanced_quiet. unfold RunDnsRecordProbe. auto 10 with quiet. Qed.
Lemma balanced_http url p v m : balanced (RunHttpProbeVersioned url p v m).
Proof. apply balanced_quiet. unfold RunHttpProbeVersioned, MonotonicUs. auto 10 with quiet. Qed.
Lemma balanced_ntp m : balanced (ProbeNtpOffset m).
Proof.
  apply balanced_quiet. unfold ProbeNtpOffset. apply quiet_bind; [auto with quiet|intros ?].
  apply quiet_bind; [auto with quiet|intros [rc tx]]. auto with quiet.
Qed.

Ltac connect :=
  next; destruct (SplitHostPort _) as [[h p]|]; [|finish]; cbn beta iota.
Lemma balanced_tcp hp m : balanced (RunTcpProbe hp m).
Proof.
  intros l. unfold RunTcpProbe. connect. next.
  eapply triple_bind; [apply triple_connect|]. intros [err|fd]; [finish|]. next. next. finish.
Qed.
Lemma balanced_retransmit hp m : balanced (RunTcpRetransmitProbe hp m).
Proof.
  intros l. unfold RunTcpRetransmitProbe. connect.
  eapply triple_bind; [apply triple_connect|]. intros [err|fd]; [finish|].
  eapply triple_bind; [|intros ?; next; finish]. intros g Hg. by destruct (sys_tcp_retrans fd (world g)) as [[|] ?].
Qed.
Lemma balanced_tls hp m : balanced (RunTlsProbe hp m).
Proof.
  intros l. unfold RunTlsProbe. connect.
  eapply triple_bind; [apply triple_connect|]. intros [err|fd]; [finish|].
  next. next. branch; [next; finish|]. next as s. destruct s as [ssl|]; [|next; finish].
  next as cached. apply (triple_bind _ _ _ (fun _ => holds (Tls ssl :: Descriptor fd :: l) [])).
  { destruct cached as [s|]; [apply triple_session_free|finish]. }
  intros _. next. apply (triple_bind _ _ _ (fun _ => holds (Tls ssl :: Descriptor fd :: l) [])).
  { branch; [|finish]. next as s. destruct s as [s|]; [apply triple_put|finish]. }
  intros _. next. next. next. finish.
Qed.
Lemma balanced_cert hp m : balanced (RunTlsCertProbe hp m).
Proof.
  intros l. unfold RunTlsCertProbe. connect.
  eapply triple_bind; [apply triple_connect|]. intros [err|fd]; [finish|].
  next. branch; [next; finish|]. next as s. destruct s as [ssl|]; [|next; finish].
  next. next. next as cert. apply (triple_bind _ _ _ (fun _ => holds (Tls ssl :: Descriptor fd :: l) [])).
  { destruct cert as [c|]; [next|]; finish. }
  intros ?. next. next. finish.
Qed.

Lemma quiet_recv_loop fd id seq start l : quiet (recv_loop fd id seq start l).
Proof.
  induction l as [|d l IH]; cbn [recv_loop]; [auto with quiet|].
  intros k x h Hh. destruct (reply_to id seq (take 512 d)).
  - unfold bind, ask. cbn. by destruct (steady_ns (world h)).
  - by apply (IH k x (set_inbox l h)).
Qed.
Lemma quiet_ping fd addr id seq : quiet (RunSinglePing fd addr id seq).
Proof.
  intros l x h Hh. unfold RunSinglePing, ask. destruct (steady_ns (world h)) as [t0 w0].
  cbn. destruct (sys_sendto fd _ addr _) as [[[z|e] arr] w]; [|done]. by apply quiet_recv_loop.
Qed.
#[local] Hint Resolve quiet_ping : quiet.
Lemma quiet_ping_loop k i fd addr id gap sent lost rtts : quiet (ping_loop k i fd addr id gap sent lost rtts).
Proof.
  revert i sent lost rtts. induction k as [|k IH]; intros; cbn [ping_loop]; [auto with quiet|].
  repeat (apply quiet_bind; [auto with quiet|intros ?]). by destruct (Icmp.ok _).
Qed.
#[local] Hint Resolve quiet_ping_loop : quiet.
Lemma balanced_icmp host count gap ms : balanced (RunIcmpProbe host count gap ms).
Proof.
  intros l. destruct ms as [[loss rtt] jitter]. unfold RunIcmpProbe. next. next. next. next as lr.
  destruct (Resolver.ok lr), (addrs lr) as [|ai ais]; try finish.
  destruct (list_find _ _) as [[i dst]|]; [|finish]. next as fd. destruct (fd <? 0)%Z eqn:E; bool_hyps.
  - replace (0 <=? fd)%Z with false by (symmetry; apply Z.leb_gt; lia). next. finish.
  - replace (0 <=? fd)%Z with true by (symmetry; apply Z.leb_le; lia). next. next. next. finish.
Qed.

(** The handshake probes, with and without libpcap. *)
Lemma quiet_device : quiet Pcap.GetCaptureDevice.
Proof.
  intros l x h Hh. unfold Pcap.GetCaptureDevice, ask. destruct (steady_ns (world h)) as [now w]. cbn.
  destruct (negb _ && _); [done|]. by destruct (pcap_findalldevs w).
Qed.
#[local] Hint Resolve quiet_device : quiet.
Lemma triple_capture handle ip port failure m l :
  triple (holds (Capture handle :: l) []) (Pcap.capture handle ip port failure m) (fun _ => holds l []).
Proof.
  unfold Pcap.capture. next. branch; [next; finish|]. next. branch; [next; finish|].
  next as fd. destruct (fd <? 0)%Z eqn:E; bool_hyps.
  { replace (0 <=? fd)%Z with false by (symmetry; apply Z.leb_gt; lia). next. finish. }
  replace (0 <=? fd)%Z with true by (symmetry; apply Z.leb_le; lia).
  next. next. next. next. branch; [next; next; finish|]. next. next. next. next. next. finish.
Qed.
Lemma balanced_pcap hp m : balanced (Pcap.ProbeTcpHandshake hp m).
Proof.
  intros l. unfold Pcap.ProbeTcpHandshake. next. destruct (srfind _ hp) as [colon|]; [|finish].
  destruct (stoi _) as [port|]; [|finish]. next as lr. destruct (Resolver.ok lr), (addrs lr) as [|ai ais]; try finish.
  next as dev. branch; [finish|]. next as r. destruct r as [e|handle]; [finish|apply triple_capture].
Qed.

Lemma triple_time_loop ais err l x : triple (holds l x) (Socket.time_loop ais err) (fun _ => holds l x).
Proof.
  revert err. induction ais as [|ai ais IH]; intros err; cbn [Socket.time_loop]; [finish|].
  apply (triple_bind _ _ _ (fun fd h => holds (if (fd =? -1)%Z then l else Descriptor fd :: l) x h)).
  { intros h Hh. unfold socket. destruct (sys_socket _ _ _ (world h)) as [[fd|e] w]; [|done].
    cbn [fst snd]. rewrite (proj2 (Z.eqb_neq _ _)) by lia. by apply triple_push. }
  intros fd. branch; [apply IH|]. next. next. next. next. next. branch; [next; apply IH|].
  next. branch; [next; apply IH|]. next. branch; [next; apply IH|]. next. next. finish.
Qed.
Lemma balanced_socket hp m : balanced (Socket.ProbeTcpHandshake hp m).
Proof.
  intros l. unfold Socket.ProbeTcpHandshake. next. destruct (srfind _ hp) as [colon|]; [|finish].
  destruct (stoi _) as [port|]; [|finish]. apply (triple_bind _ _ _ (fun _ => holds l [])); [|intros ?; finish].
  unfold Socket.TimeTcpHandshake. next as lr.
  destruct (Resolver.ok lr), (addrs lr) as [|ai ais]; try finish. apply triple_time_loop.
Qed.

Lemma balanced_all ProbeTcpHandshake config :
  (forall t m, balanced (ProbeTcpHandshake t m)) -> balanced (RunAllProbes ProbeTcpHandshake config).
Proof.
  intros Hh. unfold RunAllProbes. induction (all_calls config) as [|c l IH]; cbn [run_in_turn].
  - apply balanced_quiet; auto with quiet.
  - assert (forall p, (forall m, balanced (p m)) -> balanced (one p)) as Hone.
    { intros p Hp. apply balanced_bind; [apply Hp|intros ?; apply balanced_quiet; auto with quiet]. }
    apply balanced_bind; [|intros ?; apply balanced_bind; [done|intros ?; apply balanced_quiet; auto with quiet]].
    destruct c; cbn [run_call]; try (apply Hone; intros m).
    + apply balanced_ntp. + apply balanced_dns. + apply balanced_records. + apply balanced_tcp.
    + apply balanced_retransmit. + apply balanced_tls. + apply balanced_cert. + apply balanced_http. + apply balanced_http.
    + apply balanced_bind; [apply balanced_icmp|intros ?; apply balanced_quiet; auto with quiet].
    + apply Hh.
Qed.

(** Claim C10: the probes leak nothing.  Whatever the network, OpenSSL, libpcap
    and the operating system answer, and on every early return, a round of all
    the configured probes, with the handshake probe of either build, leaves
    open exactly the descriptors, TLS objects, certificates and capture handles
    that were open before, and holds exactly the session references the session
    cache accounts for. *)
Theorem RunAllProbes_leaks_nothing (config : ProbeConfig) :
  balanced (RunAllProbes Pcap.ProbeTcpHandshake config) /\ balanced (RunAllProbes Socket.ProbeTcpHandshake config).
Proof. split; apply balanced_all; intros; [apply balanced_pcap|apply balanced_socket]. Qed.
End Resources.
#[export] Hint Resolve quiet_ret quiet_ask quiet_syscall quiet_errno : quiet.
#[export] Hint Extern 2 (quiet (bind _ _)) => apply quiet_bind; [|intros ?] : quiet.
#[export] Hint Extern 3 (quiet (if ?b then _ else _)) => destruct b : quiet.
End Resources.

(** ** Pings *)
Module Echo.

Lemma fold_once s : (0 <= s)%Z -> (Z.land s 65535 + Z.shiftr s 16 = s mod 65536 + s / 65536)%Z.
Proof. intros H. change 65535%Z with (Z.ones 16). rewrite Z.land_ones, Z.shiftr_div_pow2 by lia. done. Qed.
Lemma fold_done s : (0 <= s < 65536)%Z -> (Z.shiftr s 16 =? 0)%Z = true.
Proof. intros H. apply Z.eqb_eq. rewrite Z.shiftr_div_pow2 by lia. apply Z.div_small. lia. Qed.

(** Folding keeps the sum modulo 65535, and two rounds are enough for any
    buffer of up to 8191 words. *)
Lemma fold_sum_spec s :
  (0 < s < 2 ^ 29)%Z ->
  exists r, fold_sum 2 s = Some r /\ (0 < r < 65536)%Z /\ (r mod 65535 = s mod 65535)%Z.
Proof.
  intros H. assert (forall x, (0 < x)%Z -> (0 < x mod 65536 + x / 65536)%Z /\
    ((x mod 65536 + x / 65536) mod 65535 = x mod 65535)%Z) as Hf.
  { intros x Hx. pose proof (Z.div_mod x 65536 ltac:(lia)). pose proof (Z.mod_pos_bound x 65536 ltac:(lia)).
    pose proof (Z.div_pos x 65536 ltac:(lia) ltac:(lia)). split; [lia|].
    replace (x mod 65536 + x / 65536)%Z with (x + (- (x / 65536)) * 65535)%Z by lia. by apply Z.mod_add. }
  cbn [fold_sum]. destruct (Z.shiftr s 16 =? 0)%Z eqn:E1.
  { apply Z.eqb_eq in E1. rewrite Z.shiftr_div_pow2 in E1 by lia. exists s. split; [done|]. split; [|done].
    pose proof (Z.div_mod s 65536 ltac:(lia)). pose proof (Z.mod_pos_bound s 65536 ltac:(lia)). change (2 ^ 16)%Z with 65536%Z in E1. lia. }
  rewrite fold_once by lia. destruct (Hf s ltac:(lia)) as [P1 M1]. set (s1 := (s mod 65536 + s / 65536)%Z) in *.
  assert (s1 < 65536 + 8192)%Z as B1.
  { subst s1. pose proof (Z.mod_pos_bound s 65536 ltac:(lia)). pose proof (Z.div_lt_upper_bound s 65536 8192 ltac:(lia) ltac:(lia)). lia. }
  destruct (Z.shiftr s1 16 =? 0)%Z eqn:E2.
  { apply Z.eqb_eq in E2. rewrite Z.shiftr_div_pow2 in E2 by lia. exists s1. split; [done|]. split; [|done].
    pose proof (Z.div_mod s1 65536 ltac:(lia)). pose proof (Z.mod_pos_bound s1 65536 ltac:(lia)). change (2 ^ 16)%Z with 65536%Z in E2. lia. }
  rewrite fold_once by lia. destruct (Hf s1 P1) as [P2 M2]. set (s2 := (s1 mod 65536 + s1 / 65536)%Z) in *.
  assert (s2 < 65536)%Z as B2.
  { apply Z.eqb_neq in E2. rewrite Z.shiftr_div_pow2 in E2 by lia. change (2 ^ 16)%Z with 65536%Z in E2.
    pose proof (Z.div_mod s1 65536 ltac:(lia)). pose proof (Z.mod_pos_bound s1 65536 ltac:(lia)).
    assert (s1 / 65536 = 1)%Z as Hq by (pose proof (Z.div_pos s1 65536); pose proof (Z.div_lt_upper_bound s1 65536 2); lia).
    subst s2. lia. }
  rewrite fold_done by lia. exists s2. split; [done|]. split; [lia|congruence].
Qed.

Lemma bytes16 z : (0 <= z < 65536)%Z -> (Z.land (Z.shiftr z 8) 255 + 256 * Z.land z 255 < 65536)%Z /\
  (0 <= Z.land (Z.shiftr z 8) 255 + 256 * Z.land z 255)%Z /\ (Z.land z 255 + 256 * Z.land (Z.shiftr z 8) 255 = z)%Z.
Proof.
  intros H. change 255%Z with (Z.ones 8). rewrite !Z.land_ones, Z.shiftr_div_pow2 by lia. change (2 ^ 8)%Z with 256%Z.
  pose proof (Z.mod_pos_bound (z / 256) 256 ltac:(lia)). pose proof (Z.mod_pos_bound z 256 ltac:(lia)).
  rewrite (Z.mod_small (z / 256)) in * by (split; [apply Z.div_pos; lia|apply Z.div_lt_upper_bound; lia]).
  pose proof (Z.div_mod z 256 ltac:(lia)). lia.
Qed.

Lemma sum_echo id seq a b :
  sum_words (echo_packet id seq [a; b]) =
  (8 + (a + 256 * b) + (Z.land (Z.shiftr id 8) 255 + 256 * Z.land id 255) +
   (Z.land (Z.shiftr seq 8) 255 + 256 * Z.land seq 255))%Z.
Proof. unfold sum_words, echo_packet, be16, ICMP_ECHO. cbn [app repeat words fold_left]. lia. Qed.

(** The echo requests carry a valid checksum.  For every process
    id and sequence number the folding loop ends within two rounds, and the
    receiver's test holds: the one's complement sum of the packet's words,
    checksum included, is 0xffff. *)
Theorem ping_checksum_verifies (id seq : Z) :
  (0 <= id < 2 ^ 16)%Z -> (0 <= seq < 2 ^ 16)%Z ->
  is_Some (checksum (echo_packet id seq [0; 0]%Z)) /\
  fold_sum 2 (sum_words (packet id seq)) = Some 65535%Z /\ length (packet id seq) = 64.
Proof.
  intros Hi Hs. change (2 ^ 16)%Z with 65536%Z in *.
  destruct (bytes16 id Hi) as (I1 & I2 & _). destruct (bytes16 seq Hs) as (S1 & S2 & _).
  pose proof (sum_echo id seq 0 0) as E0. set (s := sum_words (echo_packet id seq [0; 0]%Z)) in *.
  destruct (fold_sum_spec s ltac:(lia)) as (r & Hr & Br & Mr).
  assert (checksum (echo_packet id seq [0; 0]%Z) = Some (65535 - r)%Z) as Ec.
  { unfold checksum. fold s. rewrite Hr. cbn [mbind option_bind]. f_equal. change 65535%Z with (Z.ones 16) at 1.
    rewrite Z.land_ones by lia. unfold Z.lnot. change (2 ^ 16)%Z with 65536%Z.
    replace (Z.pred (- r))%Z with ((65535 - r) + (-1) * 65536)%Z by lia. rewrite Z.mod_add, Z.mod_small by lia. done. }
  split; [by rewrite Ec|]. split; [|done]. unfold packet. rewrite Ec. cbn [default].
  set (c := (65535 - r)%Z) in *. assert (0 <= c < 65535)%Z as Bc by lia. unfold le16. rewrite sum_echo.
  destruct (bytes16 c ltac:(lia)) as (_ & _ & Hc). unfold Datatypes.id. rewrite Hc.
  match goal with |- fold_sum 2 ?x = _ => destruct (fold_sum_spec x ltac:(lia)) as (q & Hq & Bq & Mq); rewrite Hq; f_equal;
    assert (x mod 65535 = 0)%Z as Hx end.
  { match goal with |- (?x mod _ = 0)%Z => replace x with (s - r + 65535)%Z by lia end.
    rewrite <- Zplus_mod_idemp_r. change (65535 mod 65535)%Z with 0%Z. rewrite Z.add_0_r.
    rewrite Zminus_mod, Mr, Z.sub_diag. done. }
  rewrite Hx in Mq. pose proof (Z.div_mod q 65535 ltac:(lia)).
  assert (q / 65535 = 1)%Z by (pose proof (Z.div_lt_upper_bound q 65535 2); pose proof (Z.div_pos q 65535); nia).
  lia.
Qed.
Lemma ping_checksum_verifies_witness : fold_sum 2 (sum_words (packet 4242 7)) = Some 65535%Z.
Proof. exact (proj1 (proj2 (ping_checksum_verifies 4242 7 ltac:(lia) ltac:(lia)))). Defined.

(** ** Replies *)

(** The datagram is an echo reply with this identifier and sequence number:
    protocol ICMP in the IP header, whose length its first byte tells, then the
    type 0 and, four and six bytes further, the two numbers in network order.
    Who sent it, its code, checksum and payload do not matter. *)
Definition answers (id seq : Z) (d : list Z) : Prop :=
  exists first, let hl := Z.to_nat (first mod 16 * 4) in
    d !! 0 = Some first /\ d !! 9 = Some IPPROTO_ICMP /\ d !! hl = Some ICMP_ECHOREPLY /\
    d !! (hl + 4) = Some (id / 256)%Z /\ d !! (hl + 5) = Some (id mod 256)%Z /\
    d !! (hl + 6) = Some (seq / 256)%Z /\ d !! (hl + 7) = Some (seq mod 256)%Z.

Lemma be16_bytes z : (0 <= z < 2 ^ 16)%Z -> be16 z = [z / 256; z mod 256]%Z.
Proof.
  intros H. unfold be16. change 255%Z with (Z.ones 8). rewrite !Z.land_ones, Z.shiftr_div_pow2 by lia.
  change (2 ^ 8)%Z with 256%Z. rewrite (Z.mod_small (z / 256)); [done|].
  split; [apply Z.div_pos; lia|apply Z.div_lt_upper_bound; lia].
Qed.
Lemma two_bytes (l : list Z) n a b : take 2 (drop n l) = [a; b] <-> l !! n = Some a /\ l !! (n + 1) = Some b.
Proof.
  split.
  - intros E. split; [rewrite <- (Nat.add_0_r n)|];
      rewrite <- lookup_drop, <- (lookup_take_lt _ 2) by lia; by rewrite E.
  - intros [H1 H2]. rewrite Nat.add_1_r in H2. by rewrite (drop_S _ _ _ H1), (drop_S _ _ _ H2).
Qed.

(** The test of the receive loop accepts exactly these. *)
Lemma reply_to_answers id seq d :
  (0 <= id < 2 ^ 16)%Z -> (0 <= seq < 2 ^ 16)%Z -> reply_to id seq (take 512 d) = true <-> answers id seq d.
Proof.
  intros Hi Hs. unfold reply_to, answers, byte. rewrite (be16_bytes id), (be16_bytes seq) by done.
  change 15%Z with (Z.ones 4). rewrite Z.land_ones, !lookup_take_lt by lia. change (2 ^ 4)%Z with 16%Z.
  destruct (d !! 9) as [p|] eqn:E9; [|split; [done|by intros (? & _ & ? & _)]].
  destruct (d !! 0) as [first|] eqn:E0; [|by destruct d]. cbn [default from_option]. unfold Datatypes.id.
  set (hl := Z.to_nat (first mod 16 * 4)).
  assert (hl <= 60) as Bh by (subst hl; pose proof (Z.mod_pos_bound first 16 ltac:(lia)); lia).
  destruct (Z.eqb_spec p IPPROTO_ICMP) as [->|Hp]; cbn [negb];
    [|by split; [|intros (? & _ & ? & _); congruence]].
  assert (Hlen : d !! (hl + 7) <> None <-> ~ (length (take 512 d) < hl + 8)).
  { rewrite length_take, lookup_ge_None. lia. }
  destruct (Nat.ltb_spec (length (take 512 d)) (hl + 8)) as [Hl|Hl].
  { split; [done|]. intros (f & E & _ & _ & _ & _ & _ & E7). assert (f = first) as -> by congruence. fold hl in E7.
    exfalso. apply (proj1 Hlen); [by rewrite E7|done]. }
  rewrite !andb_true_iff, Z.eqb_eq, !bool_decide_eq_true, !two_bytes, !lookup_take_lt, <- !Nat.add_assoc by lia.
  cbn [Nat.add]. destruct (lookup_lt_is_Some_2 d hl) as [x Hx]; [rewrite length_take in Hl; lia|]. rewrite Hx. cbn [default from_option]. unfold Datatypes.id.
  split.
  - intros [[-> [? ?]] [? ?]]. exists first. by split_and!.
  - intros (f & E & _ & Ht & ? & ? & ? & ?). assert (f = first) as -> by congruence. fold hl in Ht. split_and!; try done. congruence.
Qed.

Section Ping.
Context {W : Type} `{!Net W}.

Lemma recv_loop_finds fd id seq start noise d rest (h : host W) :
  Forall (fun d => reply_to id seq (take 512 d) = false) noise -> reply_to id seq (take 512 d) = true ->
  recv_loop fd id seq start (noise ++ d :: rest) h =
  (mkPing true "" [rtt start (fst (steady_ns (world h)))], set_world (snd (steady_ns (world h))) (set_inbox rest h)).
Proof.
  intros Hn Hd. revert h. induction Hn as [|e noise He _ IH]; intros h; cbn [app recv_loop].
  - rewrite Hd. unfold bind, ask. cbn. by destruct (steady_ns (world h)).
  - rewrite He, IH. done.
Qed.
Lemma recv_loop_silence fd id seq start noise (h : host W) :
  Forall (fun d => reply_to id seq (take 512 d) = false) noise -> inbox h = noise ->
  let '(r, h') := recv_loop fd id seq start noise h in
  Icmp.ok r = false /\ rtts_ms r = [] /\ inbox h' = [] /\
  (fst (sys_recv_error fd (world h)) = EAGAIN -> detail r = "timeout waiting for ICMP reply").
Proof.
  intros Hn. revert h. induction Hn as [|e noise He _ IH]; intros h Hin; cbn [recv_loop].
  - unfold bind, ask. destruct (sys_recv_error fd (world h)) as [e w]. cbn. split_and!; try done. intros ->. done.
  - rewrite He. exact (IH (set_inbox noise h) eq_refl).
Qed.
Lemma not_answers id seq l :
  (0 <= id < 2 ^ 16)%Z -> (0 <= seq < 2 ^ 16)%Z ->
  Forall (fun d => ~ answers id seq d) l -> Forall (fun d => reply_to id seq (take 512 d) = false) l.
Proof.
  intros Hi Hs Hl. eapply Forall_impl; [exact Hl|]. intros d Hd. apply not_true_iff_false. by rewrite reply_to_answers.
Qed.

(** Claim C30: a ping takes the first answer to its number.  When the request
    went out, the datagrams of the raw socket - those left from earlier
    requests, then those that arrive before the next silence of three seconds
    - are read in order.  Whatever comes before the first echo reply that has
    this request's identifier and sequence number is discarded: other
    protocols, other ICMP messages, damaged ones, late replies to earlier
    requests, replies to other processes; that reply ends the wait, with the
    time since the request, and everything after it stays for the next
    request.  When there is none, all is discarded and the ping fails, with
    the time-out text when the wait timed out.  The reply need not come from
    the address that was pinged: the identifier is the process's and the numbers
    start again for every target, so a late answer of the target before, with
    the same number, is taken too. *)
Theorem ping_takes_its_reply (fd : Z) (addr : Chain.addrinfo) (id seq : Z) (h : host W) (t0 : Z) (w0 w1 : W)
    (sent : Z) (arriving : list (list Z)) :
  (0 <= id < 2 ^ 16)%Z -> (0 <= seq < 2 ^ 16)%Z ->
  steady_ns (world h) = (t0, w0) -> sys_sendto fd (packet id seq) addr w0 = (inl sent, arriving, w1) ->
  let '(r, h') := RunSinglePing fd addr id seq h in
  (forall noise reply rest,
    inbox h ++ arriving = noise ++ reply :: rest ->
    Forall (fun d => ~ answers id seq d) noise -> answers id seq reply ->
    r = mkPing true "" [rtt t0 (fst (steady_ns w1))] /\ inbox h' = rest) /\
  (Forall (fun d => ~ answers id seq d) (inbox h ++ arriving) ->
    Icmp.ok r = false /\ rtts_ms r = [] /\ inbox h' = [] /\
    (fst (sys_recv_error fd w1) = EAGAIN -> detail r = "timeout waiting for ICMP reply")).
Proof.
  intros Hi Hs E0 E1. unfold RunSinglePing, ask. rewrite E0. cbn [world set_world]. rewrite E1.
  cbn [inbox set_inbox set_world].
  destruct (recv_loop _ _ _ _ _ _) as [r h'] eqn:E. split.
  - intros noise reply rest El Hn Ha. rewrite El, recv_loop_finds in E;
      [|by apply not_answers|by apply reply_to_answers].
    injection E as <- <-. done.
  - intros Hn.
    pose proof (recv_loop_silence fd id seq t0 _ (set_inbox (inbox h ++ arriving) (set_world w1 (set_world w0 h)))
      (not_answers id seq _ Hi Hs Hn) eq_refl) as Hx.
    rewrite E in Hx. exact Hx.
Qed.

(** ** Statistics *)

Lemma ping_loop_counts n i fd addr id gap sent lost rtts (h : host W) :
  exists k new h',
    ping_loop n i fd addr id gap sent lost rtts h = ((sent + Z.of_nat n, lost + Z.of_nat k, rtts ++ new)%Z, h') /\
    k + length new = n.
Proof.
  revert i sent lost rtts h. induction n as [|n IH]; intros; cbn [ping_loop].
  { exists 0, [], h. by rewrite app_nil_r, !Z.add_0_r. }
  unfold bind at 1. destruct (RunSinglePing fd addr id (Z.land i 65535) h) as [res h1] eqn:E.
  assert (Icmp.ok res = true -> length (rtts_ms res) = 1) as Hl.
  { clear IH. revert E. unfold RunSinglePing, ask. destruct (steady_ns (world h)) as [t0 w0].
    destruct (sys_sendto _ _ _ _) as [[[z|e] arr] w1]; [|by intros [= <- _]].
    generalize (set_inbox (inbox (set_world w0 h) ++ arr) (set_world w1 (set_world w0 h))). intros h2.
    generalize (inbox h2). intros l. revert h2. induction l as [|d l IHl]; intros h2; cbn [recv_loop].
    - unfold bind, ask. destruct (sys_recv_error fd (world h2)). by intros [= <- _].
    - destruct (reply_to _ _ _); [|apply IHl]. unfold bind, ask. cbn. destruct (steady_ns _). by intros [= <- _]. }
  unfold bind. match goal with |- context [let '(_, h) := ?p h1 in _] => destruct (p h1) as [[] h2] end.
  destruct (Icmp.ok res).
  - destruct (IH (i + 1)%Z (sent + 1)%Z lost (rtts ++ rtts_ms res) h2) as (k & new & h' & -> & Hk).
    exists k, (rtts_ms res ++ new), h'. rewrite length_app, (Hl eq_refl), app_assoc. split; [|lia].
    by replace (sent + 1 + Z.of_nat n)%Z with (sent + Z.of_nat (S n))%Z by lia.
  - destruct (IH (i + 1)%Z (sent + 1)%Z (lost + 1)%Z rtts h2) as (k & new & h' & -> & Hk).
    exists (S k), new, h'. split; [|lia]. replace (sent + 1 + Z.of_nat n)%Z with (sent + Z.of_nat (S n))%Z by lia.
    by replace (lost + 1 + Z.of_nat k)%Z with (lost + Z.of_nat (S k))%Z by lia.
Qed.

Lemma begin_metric_fields ty tg m (h : host W) :
  exists us h', begin_metric ty tg m h = (set_monotonic_us us (set_target tg (set_check_type ty m)), h').
Proof. unfold begin_metric, MonotonicUs, bind, ask. destruct (steady_ns (world h)). by eexists _, _. Qed.

(** The pings a configured count stands for. *)
Definition ping_number (count : Z) : nat := Z.to_nat (if (count <=? 0)%Z then 4 else count)%Z.

Definition of_target (host : string) '((loss, rtt, jitter) : Metric * Metric * Metric) : Prop :=
  target loss = host /\ target rtt = host /\ target jitter = host /\
  check_type loss = CHECK_TYPE_ICMP_PING /\ check_type rtt = CHECK_TYPE_ICMP_PING /\ check_type jitter = CHECK_TYPE_JITTER.
(** No ping was sent: the three metrics say why. *)
Definition not_run (d : string) '((loss, rtt, jitter) : Metric * Metric * Metric) : Prop :=
  Forall (fun m => success m = false /\ Proto.detail m = d /\ value m = VALUE_NOT_SET) [loss; rtt; jitter].
(** [lost] pings without an answer and these round trips. *)
Definition reported (lost : nat) (rtts : list double) '((loss, rtt, jitter) : Metric * Metric * Metric) : Prop :=
  success loss = true /\
  packet_loss_pct loss =
    Some (Double.div (Double.mul (Double.of_Z 100) (Double.of_Z (Z.of_nat lost)))
                     (Double.of_Z (Z.of_nat (lost + length rtts)))) /\
  success rtt = negb (bool_decide (rtts = [])) /\ success jitter = success rtt /\
  (rtts <> [] -> rtt_ms rtt = Some (mean rtts) /\ jitter_ms jitter = Some (stddev rtts)) /\
  (rtts = [] -> Proto.detail rtt = "all pings lost" /\ Proto.detail jitter = "all pings lost" /\
     value rtt = VALUE_NOT_SET /\ value jitter = VALUE_NOT_SET).

Lemma report_reported lost rtts ms :
  0 < lost + length rtts ->
  (let '(loss, rtt, jitter) := ms in value rtt = VALUE_NOT_SET /\ value jitter = VALUE_NOT_SET) ->
  reported lost rtts (report (0 + Z.of_nat (lost + length rtts)) (0 + Z.of_nat lost) rtts ms).
Proof.
  destruct ms as [[loss rtt] jitter]. intros Hn [V1 V2]. unfold report. rewrite !Z.add_0_l, (proj2 (Z.ltb_lt _ _)) by lia.
  destruct rtts as [|r l]; unfold reported; cbn [success packet_loss_pct value set_success set_value failed set_detail
    rtt_ms jitter_ms Proto.detail]; split_and!; done.
Qed.

Definition icmp_answer (host : string) (count : Z) (ms : Metric * Metric * Metric) : Prop :=
  of_target host ms /\
  ((exists d, not_run d ms) \/
   (exists lost rtts, lost + length rtts = ping_number count /\ reported lost rtts ms)).

Definition begun (host : string) (us : Z) (ty : CheckType) : Metric :=
  set_monotonic_us us (set_target host (set_check_type ty empty_Metric)).
Lemma icmp_failed host count d u1 u2 u3 (h : Net.host W) :
  icmp_answer host count
    (fst (ret (failed d (begun host u1 CHECK_TYPE_ICMP_PING), failed d (begun host u2 CHECK_TYPE_ICMP_PING),
               failed d (begun host u3 CHECK_TYPE_JITTER)) h)).
Proof. split; [by cbn|]. left. exists d. by repeat constructor. Qed.

Lemma icmp_reported host count u1 u2 u3 lost rtts :
  lost + length rtts = ping_number count ->
  icmp_answer host count
    (report (0 + Z.of_nat (ping_number count)) (0 + Z.of_nat lost) rtts
       (begun host u1 CHECK_TYPE_ICMP_PING, begun host u2 CHECK_TYPE_ICMP_PING, begun host u3 CHECK_TYPE_JITTER)).
Proof.
  intros Hk. split; [unfold report; by destruct rtts|]. right. exists lost, rtts. split; [done|]. rewrite <- Hk.
  apply report_reported; [|done]. rewrite Hk. unfold ping_number. destruct (count <=? 0)%Z eqn:E; bool_hyps; lia.
Qed.

(** What a ping probe reports.  Whatever happens, it gives three
    metrics for its target: either none could be sent and all three fail with
    the same reason, or exactly the configured number of pings was sent (4 for
    a count that is not positive), every one of them either lost or with its
    round trip, the loss metric succeeds with the percentage lost, and the round
    trip and jitter metrics carry the mean and the standard deviation of the
    round trips, or fail when every ping was lost. *)
Theorem RunIcmpProbe_reports (host : string) (count gap_ms : Z) (h : Net.host W) :
  icmp_answer host count
    (fst (RunIcmpProbe host count gap_ms (empty_Metric, empty_Metric, empty_Metric) h)).
Proof.
  unfold RunIcmpProbe.
  unfold bind at 1. destruct (begin_metric_fields CHECK_TYPE_ICMP_PING host empty_Metric h) as (u1 & h1 & ->).
  unfold bind at 1. destruct (begin_metric_fields CHECK_TYPE_ICMP_PING host empty_Metric h1) as (u2 & h2 & ->).
  unfold bind at 1. destruct (begin_metric_fields CHECK_TYPE_JITTER host empty_Metric h2) as (u3 & h3 & ->).
  fold (begun host u1 CHECK_TYPE_ICMP_PING). fold (begun host u2 CHECK_TYPE_ICMP_PING). fold (begun host u3 CHECK_TYPE_JITTER).
  unfold bind at 1. destruct (lookup _ _ _ _ _ _ h3) as [lr h4].
  destruct (Resolver.ok lr), (addrs lr) as [|ai l]; try apply icmp_failed.
  destruct (list_find (fun ai => Chain.ai_family ai = AF_INET) (ai :: l)) as [[j dst]|]; [|apply icmp_failed].
  unfold bind at 1. destruct (socket _ _ _ h4) as [fd h5].
  destruct (fd <? 0)%Z; [unfold bind at 1; destruct (get_errno h5); apply icmp_failed|].
  unfold bind at 1. destruct (ask sys_getpid h5) as [pid h6]. unfold bind at 1.
  destruct (ping_loop_counts (ping_number count) 0 fd dst (Z.land pid 65535) (if (gap_ms <? 0)%Z then 0%Z else gap_ms) 0 0 [] h6)
    as (k & rtts & h7 & Hp & Hk). unfold ping_number in Hp. rewrite Hp. fold (ping_number count).
  unfold bind. destruct (close fd h7) as [[] h8]. by apply icmp_reported.
Qed.
End Ping.
End Echo.

(** ** Answers of the other probes *)
Module Verdicts.
Section Verdicts.
Context {W : Type} `{!Net W}.

(** An expected record "TYPE:value" holds of the records found; text without a
    colon expects nothing. *)
Definition satisfied (attrs : gmap string string) (exp : string) : Prop :=
  match sfind (c_of 58) exp with
  | None => True
  | Some colon => default "" (attrs !! stake colon exp) = sdrop (colon + 1) exp
  end.
Lemma check_record_step attrs d exp :
  (satisfied attrs exp /\ check_record attrs d exp = d) \/
  (~ satisfied attrs exp /\ exists text, check_record attrs d exp = Some text).
Proof.
  unfold satisfied, check_record. destruct (sfind (c_of 58) exp) as [colon|]; [|by left].
  destruct (String.eqb_spec (default "" (attrs !! stake colon exp)) (sdrop (colon + 1) exp)); [by left|right; eauto].
Qed.
Lemma check_records attrs l d :
  (fold_left (check_record attrs) l d = None <-> d = None /\ Forall (satisfied attrs) l).
Proof.
  revert d. induction l as [|exp l IH]; intros d; cbn [fold_left]; [by intuition|].
  rewrite IH, Forall_cons. destruct (check_record_step attrs d exp) as [[Hs ->]|[Hs [text ->]]]; [tauto|].
  split; [by intros [[=] _]|tauto].
Qed.

(** The metric before the expected records are compared. *)
Definition found (host : string) (m : Metric) : Prop :=
  success m = true /\ Proto.detail m = "" /\ target m = host /\ check_type m = CHECK_TYPE_DNS_RECORD /\
  forall k v, attributes m !! k = Some v -> k ∈ ["CNAME"; "A"; "AAAA"] /\ v <> "".
Lemma found_add host m k v (b : bool) :
  found host m -> k ∈ ["CNAME"; "A"; "AAAA"] -> (b = false -> v <> "") ->
  found host (if b then m else set_attribute k v m).
Proof.
  intros (F1 & F2 & F3 & F4 & F5) Hk Hv. destruct b; [done|]. repeat (split; [done|]).
  intros k' v' H. cbn [attributes set_attribute] in H. apply lookup_insert_Some in H as [[<- <-]|[_ H]]; auto.
Qed.
Lemma record_probe_found host expected (h : Net.host W) :
  exists m, found host m /\
    fst (RunDnsRecordProbe host expected empty_Metric h) =
    match fold_left (check_record (attributes m)) expected None with Some d => failed d m | None => m end.
Proof.
  unfold RunDnsRecordProbe.
  unfold bind at 1. destruct (Echo.begin_metric_fields CHECK_TYPE_DNS_RECORD host empty_Metric h) as (us & h1 & ->).
  unfold bind at 1. destruct (lookup _ _ _ _ _ _ h1) as [r1 h2].
  unfold bind at 1. destruct (lookup _ _ _ _ _ _ h2) as [r2 h3].
  unfold bind. destruct (lookup _ _ _ _ _ _ h3) as [r3 h4]. cbn [ret fst].
  eexists. split; [|done]. repeat (apply found_add; [|set_solver|by intros ?; bool_hyps]). by repeat split.
Qed.

(** The verdict on DNS records.  The probe succeeds exactly when
    every expected record holds of the records it found, and then says nothing;
    otherwise it fails and says what it expected.  The records it found are
    in the metric: only canonical name and addresses, never empty. *)
Theorem record_probe_verdict (host : string) (expected : list string) (h : Net.host W) :
  let m := fst (RunDnsRecordProbe host expected empty_Metric h) in
  target m = host /\ check_type m = CHECK_TYPE_DNS_RECORD /\
  (success m = true <-> Forall (satisfied (attributes m)) expected) /\
  (success m = true -> Proto.detail m = "") /\
  (forall k v, attributes m !! k = Some v -> k ∈ ["CNAME"; "A"; "AAAA"] /\ v <> "").
Proof.
  destruct (record_probe_found host expected h) as (m1 & (F1 & F2 & F3 & F4 & F5) & E). cbv zeta. rewrite E. clear E.
  pose proof (check_records (attributes m1) expected None) as Hc.
  destruct (fold_left _ expected None) as [d|].
  - split; [done|]. split; [done|]. split; [|done]. split; [done|]. intros H.
    assert (Some d = None) as [=] by by apply Hc.
  - split; [done|]. split; [done|]. split; [|done]. split; [intros _|done]. by apply Hc.
Qed.

(** What [ASN1_TIME_diff] calls positive is a start in the past: a certificate
    valid for a day or more is marked "not yet valid", and one that is not yet
    valid is not. *)
Lemma valid_certificate_marked host cert m days :
  attributes m !! "tls_cert_not_yet_valid" = None -> x_days_since_not_before cert = Some days ->
  attributes (cert_attributes host cert m) !! "tls_cert_not_yet_valid" =
  if (0 <? days)%Z then Some "true" else None.
Proof.
  intros Hm Hd. unfold cert_attributes. rewrite Hd.
  assert (forall k (o : option string) m, k <> "tls_cert_not_yet_valid" ->
    attributes (match o with Some v => set_attribute k v m | None => m end) !! "tls_cert_not_yet_valid" =
    attributes m !! "tls_cert_not_yet_valid") as Ho.
  { intros k [v|] m' Hk; [|done]. cbn. by rewrite lookup_insert_ne. }
  cbn [attributes set_attribute]. rewrite lookup_insert_ne by done.
  destruct (0 <? days)%Z; [cbn [attributes set_attribute]; by rewrite lookup_insert_eq|].
  rewrite !Ho by done. done.
Qed.

(** A kernel that is not synchronised answers [TIME_ERROR], not 0: the probe
    fails, and the attribute that would say so is never set. *)
Lemma unsynchronised_clock_fails (m : Metric) (h : Net.host W) rc tx w :
  ntp_adjtime (snd (steady_ns (world h))) = (rc, tx, w) -> rc <> 0%Z ->
  let m' := fst (ProbeNtpOffset m h) in
  success m' = false /\ Proto.detail m' = "ntp_adjtime() failed" /\ attributes m' = attributes m.
Proof.
  intros E Hrc. unfold ProbeNtpOffset, begin_metric, MonotonicUs, bind, ask. destruct (steady_ns (world h)) as [t w0].
  cbn in *. rewrite E. cbn. by rewrite (proj2 (Z.eqb_neq _ _) Hrc).
Qed.

(** A machine on which every connection is started and then refused: the
    socket becomes writable with [reason] as its [SO_ERROR]. *)
Record refusing (reason : Z) : Prop := {
  r_socket : forall fam ty pr w, exists fd w', sys_socket fam ty pr w = (inl fd, w');
  r_getfl : forall fd w, exists fl w', sys_getfl fd w = (inl fl, w') /\ (0 <= fl)%Z;
  r_setfl : forall fd fl w, exists w', sys_setfl fd fl w = (inl 0%Z, w');
  r_connect : forall fd ai w, exists w', sys_connect fd ai w = (inr EINPROGRESS, w');
  r_select : forall fd w, exists w', sys_select_write fd 3 w = (inl 1%Z, w');
  r_so_error : forall fd w, exists w', sys_so_error fd w = (inl reason, w');
  r_close : forall fd w, exists w', sys_close fd w = (inl 0%Z, w');
}.

Lemma refused_loop reason l h :
  refusing reason -> reason <> 0%Z -> l <> [] ->
  let '(fd, h') := connect_loop l h in fd = (-1)%Z /\ errno h' = EINPROGRESS.
Proof.
  intros [Hso Hgf Hsf Hco Hse Her Hcl] Hr. revert h. induction l as [|ai l IH]; intros g Hl; [done|]. cbn [connect_loop].
  unfold bind at 1, CreateStreamSocket, socket. destruct (Hso (Chain.ai_family ai) (Z.lor SOCK_STREAM SOCK_CLOEXEC)
    (Chain.ai_protocol ai) (world g)) as (fd & w1 & ->). rewrite (proj2 (Z.ltb_ge _ _)) by lia.
  unfold SetNonBlocking at 1, bind, syscall. cbn [push set_held set_world world].
  destruct (Hgf (Z.of_nat fd) w1) as (fl & w2 & -> & Hfl). rewrite (proj2 (Z.ltb_ge fl 0)) by lia.
  cbn [world set_world]. destruct (Hsf (Z.of_nat fd) (Z.lor fl O_NONBLOCK) w2) as (w3 & ->). cbn.
  destruct (Hco (Z.of_nat fd) ai w3) as (w4 & ->). cbn. destruct (Hse (Z.of_nat fd) w4) as (w5 & ->). cbn.
  unfold GetSocketError. cbn. destruct (Her (Z.of_nat fd) w5) as (w6 & ->).
  rewrite (proj2 (Z.eqb_neq _ _) Hr). cbn. unfold close, syscall. cbn. destruct (Hcl (Z.of_nat fd) w6) as (w7 & ->).
  cbn. destruct l as [|ai' l]; [done|]. by apply IH.
Qed.

(** A refused connection is misreported.  When every address refuses
    the connection after it was started, as a closed port does, the error that
    [SO_ERROR] tells is not used: the text is that of the pending [connect],
    "Operation now in progress", whatever the reason was. *)
Theorem refused_connection_misreported (host : string) (port : Z) (h : Net.host W) (lr : LookupResult) (w0 : W) (reason : Z) :
  refusing reason -> reason <> 0%Z ->
  Lookup host (of_Z port) (mkHints AF_UNSPEC SOCK_STREAM 0 0) 3000 false (world h) = (lr, w0) ->
  Resolver.ok lr = true -> addrs lr <> [] ->
  fst (ConnectSocket host port h) = inl ("connect failed: " +:+ strerror EINPROGRESS).
Proof.
  intros Hm Hr El Hok Hne. unfold ConnectSocket, bind at 1, lookup, ask. rewrite El, Hok.
  destruct (addrs lr) as [|ai l] eqn:Ea; [done|]. unfold bind.
  pose proof (refused_loop reason (ai :: l) (set_world w0 h) Hm Hr ltac:(done)) as Hloop.
  destruct (connect_loop (ai :: l) (set_world w0 h)) as [fd h']. destruct Hloop as [-> He]. cbn. by rewrite He.
Qed.
End Verdicts.
End Verdicts.

(** ** The round of all probes and the cycle of the probe runner *)
Module Schedule.

Lemma mbind_parts {A B} (f g : A -> list B) (l : list A) :
  (l ≫= fun t => f t ++ g t) ≡ₚ (l ≫= f) ++ (l ≫= g).
Proof. induction l as [|x l IH]; [done|]. rewrite !bind_cons, IH. solve_Permutation. Qed.
(** The calls of a cycle of the probe runner, without their places. *)
Definition cycle_calls (config : ProbeConfig) : list call := map snd (planned config true).

Lemma planned_calls config :
  cycle_calls config =
  (if ntp_check config then [ProbeRunner.Cycle.ProbeNtpOffset] else []) ++
  (dns_targets config ≫= dns_task config) ++ (tcp_targets config ≫= tcp_task config) ++
  (tls_targets config ≫= tls_task config) ++ (http_targets config ≫= fun t => mjoin (http_tasks config t)) ++
  (ping_targets config ≫= fun t => [ProbeIcmp t (ping_count config) (ping_gap_ms config)]) ++
  (tcp_targets config ≫= fun t => if tcp_handshake_capture config then [Cycle.ProbeTcpHandshake t] else []).
Proof.
  assert ((tcp_targets config ≫= fun t => if tcp_handshake_capture config then [Cycle.ProbeTcpHandshake t] else []) =
          map snd (handshakes config true)) as ->.
  { unfold handshakes. cbn [andb]. destruct (tcp_handshake_capture config); [by rewrite mbind_single, calls_indexed|].
    cbn. by induction (tcp_targets config). }
  unfold cycle_calls, planned. rewrite !map_app, calls_of_tasks. unfold tasks. rewrite !join_app, <- !app_assoc.
  rewrite mbind_join_join, mbind_single, !mbind_join. unfold pings. rewrite calls_indexed. f_equal.
  unfold inline_ntp. by destruct (ntp_check config).
Qed.

(** [RunAllProbes] measures what the cycle of the probe runner
    measures.  For every configuration the two make the same probe calls with
    the same arguments, each as often as the other; only the order differs, and
    only for the handshake captures. *)
Theorem RunAllProbes_same_calls (config : ProbeConfig) :
  all_calls config ≡ₚ cycle_calls config /\
  (tcp_handshake_capture config = false -> all_calls config = cycle_calls config).
Proof.
  rewrite planned_calls. unfold all_calls. split.
  - rewrite mbind_parts. solve_Permutation.
  - intros ->. do 2 f_equal.
    assert (forall l : list string, (l ≫= fun _ => @nil call) = []) as -> by by induction l.
    rewrite app_nil_r. f_equal. clear. induction (tcp_targets config) as [|t l IH]; [done|].
    by rewrite !bind_cons, app_nil_r, IH.
Qed.
End Schedule.

(** ** At work *)
Module Demo.
Import Echo Verdicts.

(** A machine whose clock advances 1 ms at each reading, on which every
    connection is started and then refused, and which receives [arriving] after
    a ping is sent. *)
Definition demo_addr : Chain.addrinfo := Chain.mkAddrinfo 0 AF_INET SOCK_STREAM 6 16 (Some (repeat 1%Z 16)) None.
Definition demo_net (arriving : list (list Z)) : Net Z := {|
  steady_ns w := (w, (w + 1000000)%Z);
  Lookup _ _ _ _ _ w := (mkLookupResult true "" [demo_addr; demo_addr] "", w);
  strerror e := if (e =? EINPROGRESS)%Z then "Operation now in progress" else "error " +:+ of_Z e;
  inet_ntop _ _ := None;
  sys_socket _ _ _ w := (inl 5, w);
  sys_getfl _ w := (inl 2%Z, w);
  sys_setfl _ _ w := (inl 0%Z, w);
  sys_connect _ _ w := (inr EINPROGRESS, w);
  sys_select_write _ _ w := (inl 1%Z, w);
  sys_so_error _ w := (inl 111%Z, w);
  sys_tcp_retrans _ w := (inl 0%Z, w);
  sys_close _ w := (inl 0%Z, w);
  sys_getpid w := (4242%Z, w);
  sys_sendto _ packet _ w := (inl (Z.of_nat (length packet)), arriving, w);
  sys_recv_error _ w := (EAGAIN, w);
  sleep_ms ms w := (w + ms * 1000000)%Z;
  SSL_CTX_new w := (true, w);
  SSL_new w := (Some 1%Z, w);
  SSL_connect _ _ _ _ _ w := (1%Z, w);
  SSL_get1_session _ w := (None, w);
  SSL_get_verify_result _ w := (0%Z, w);
  SSL_get1_peer_certificate _ w := (None, w);
  X509_verify_cert_error_string _ := "";
  curl_easy_init w := (true, w);
  curl_easy_perform _ _ w := (inl (200%Z, Double.of_Z 1), w);
  curl_easy_strerror _ := "";
  ntp_adjtime w := (0%Z, mkTimex 0 0 0 0, w);
  getaddrinfo _ _ _ w := ([], w);
  sys_local_address _ w := (None, w);
  sys_getsockname _ w := (([127; 0; 0; 1]%Z, 40000%Z), w);
  pcap_findalldevs w := (Some ["lo"; "eth0"], w);
  pcap_open_live _ w := (inr 9%Z, w);
  pcap_compile _ _ w := (0%Z, w);
  pcap_setfilter _ w := (0%Z, w);
  pcap_read_until _ _ w := ([], w);
|}.
Definition demo_host : host Z := mkHost 0%Z 0 [] [] ∅ None false "" 0 [].

(** An echo reply from this address. *)
Definition demo_reply (from id seq : Z) : list Z :=
  [69; 0]%Z ++ repeat 0%Z 7 ++ [IPPROTO_ICMP; 0; 0; from; 0; 0; 1; 10; 0; 0; 2]%Z ++
  [ICMP_ECHOREPLY; 0; 0; 0]%Z ++ be16 id ++ be16 seq ++ repeat 65%Z 56.
(** The port cannot be reached, and a reply to an earlier request. *)
Definition demo_noise : list (list Z) := [<[20 := 3%Z]> (demo_reply 10 4242 1); demo_reply 10 4242 0].

Lemma ping_takes_its_reply_witness :
  let '(r, h') := RunSinglePing (Net0 := demo_net (demo_noise ++ [demo_reply 99 4242 1; demo_reply 9 9 9]))
                    5 demo_addr 4242 1 demo_host in
  r = mkPing true "" [rtt 0 1000000] /\ inbox h' = [demo_reply 9 9 9].
Proof.
  pose proof (ping_takes_its_reply (Net0 := demo_net (demo_noise ++ [demo_reply 99 4242 1; demo_reply 9 9 9]))
    5 demo_addr 4242 1 demo_host 0%Z 1000000%Z 1000000%Z 64%Z (demo_noise ++ [demo_reply 99 4242 1; demo_reply 9 9 9])
    ltac:(lia) ltac:(lia) eq_refl eq_refl) as Hx.
  destruct (RunSinglePing _ _ _ _ _) as [r h'].
  refine (proj1 Hx demo_noise (demo_reply 99 4242 1) [demo_reply 9 9 9] eq_refl _ _).
  - apply Forall_cons. split; [|apply Forall_cons; split; [|apply Forall_nil; exact I]];
      intros (f & H0 & _ & Ht & _ & _ & _ & Hq); injection H0 as <-; vm_compute in Ht, Hq; discriminate.
  - exists 69%Z. vm_compute. repeat split; reflexivity.
Defined.

Lemma refused_connection_misreported_witness :
  fst (ConnectSocket (Net0 := demo_net []) "example.org" 81 demo_host) =
  inl ("connect failed: " +:+ "Operation now in progress").
Proof.
  apply (refused_connection_misreported (Net0 := demo_net []) "example.org" 81 demo_host
    (mkLookupResult true "" [demo_addr; demo_addr] "") 0%Z 111); try reflexivity; try discriminate.
  constructor; intros; cbn; eauto. exists 2%Z, w. split; [reflexivity|lia].
Defined.
End Demo.
