(* ===== verification/Platform.v ===== *)
(** * Platform: the endpoint an agent advertises

    Models [AdvertisedDiagnosticEndpoint] of
    [agent/src/platform/platform.cpp] (Linux) over the interface [Net]: the
    address from which the agent reaches its collector, with the port of its
    diagnostic service.  The theorems: which host is looked up, what an answer
    looks like, and that no socket stays open. *)
From stdpp Require Import base gmap strings list.
From Stdlib Require Import ZArith Lia.
From S2P Require Import Prelude Resolver Net Probes ProbesSpec.
Import Str Resolver Net Resources.
#[local] Open Scope string_scope.
#[local] Open Scope list_scope.
#[local] Open Scope net_scope.

Section Platform.
Context {W : Type} `{!Net W}.

(** "host:port", "host" and "[v6]:port". *)
Definition host_of (collector_endpoint : string) : string :=
  match collector_endpoint with
  | "" => ""
  | String c _ =>
      if Ascii.eqb c (c_of 91) then
        match sfind (c_of 93) collector_endpoint with
        | None => ""
        | Some close => substr collector_endpoint 1 (close - 1)
        end
      else
        match srfind (c_of 58) collector_endpoint with
        | None => collector_endpoint
        | Some sep => stake sep collector_endpoint
        end
  end.

(** The text for the local end of a connected socket. *)
Definition local_text (diagnostic_port : string) (local : option (Z * list Z)) : string :=
  match local with
  | None => ""
  | Some (family, bytes) =>
      if (family =? AF_INET6)%Z then
        match inet_ntop AF_INET6 bytes with Some t => "[" +:+ t +:+ "]:" +:+ diagnostic_port | None => "" end
      else if (family =? AF_INET)%Z then
        match inet_ntop AF_INET bytes with Some t => t +:+ ":" +:+ diagnostic_port | None => "" end
      else ""
  end.

Fixpoint address_loop (diagnostic_port : string) (l : list Chain.addrinfo) : M W string :=
  match l with
  | [] => ret ""
  | ai :: rest =>
      let* fd := socket (Chain.ai_family ai) (Chain.ai_socktype ai) (Chain.ai_protocol ai) in
      if (fd <? 0)%Z then address_loop diagnostic_port rest else
      let* rc := syscall (sys_connect fd ai) in
      let* out :=
        if (rc =? 0)%Z then
          let* local := ask (sys_local_address fd) in ret (local_text diagnostic_port local)
        else ret "" in
      close fd ;;;
      if is_empty out then address_loop diagnostic_port rest else ret out
  end.

Definition AdvertisedDiagnosticEndpoint (collector_endpoint diagnostic_port : string) : M W string :=
  if is_empty collector_endpoint || is_empty diagnostic_port then ret "" else
  let host := host_of collector_endpoint in
  if is_empty host then ret "" else
  let* addrs := ask (getaddrinfo host "9" (mkHints AF_UNSPEC SOCK_DGRAM 0 0)) in
  address_loop diagnostic_port addrs.

(** ** Which host is looked up *)
Lemma host_of_forms host port :
  host <> "" -> has_char (c_of 58) port = false -> has_char (c_of 93) host = false ->
  (forall s, host <> String (c_of 91) s) ->
  host_of (host +:+ String (c_of 58) port) = host /\
  host_of (String (c_of 91) (host +:+ String (c_of 93) port)) = host /\
  (has_char (c_of 58) host = false -> host_of host = host).
Proof.
  intros Hne Hp Hb Hs. destruct host as [|c host]; [done|].
  assert (Ascii.eqb c (c_of 91) = false) as Hc.
  { apply Ascii.eqb_neq. intros ->. by apply (Hs host). }
  split_and!.
  - unfold host_of. cbn [String.append]. rewrite Hc. change (String c (String.append ?a ?b)) with (String c a +:+ b).
    rewrite srfind_app_sep by done. by rewrite stake_app.
  - unfold host_of. rewrite Ascii.eqb_refl.
    change (String (c_of 91) (?a +:+ ?b)) with ((String (c_of 91) a) +:+ b).
    rewrite sfind_app_sep by (by rewrite has_char_cons). cbn [String.length Nat.sub].
    unfold substr. change (sdrop 1 (String (c_of 91) (String c host) +:+ ?b)) with (sdrop 0 (String c host +:+ b)).
    rewrite sdrop_0. apply (stake_app (String c host)).
  - intros H. unfold host_of. rewrite Hc. by rewrite srfind_none.
Qed.

(** ** What an answer looks like *)

(** The text of the address with which the system answers for the local end. *)
Definition names_address (port : string) (local : option (Z * list Z)) (out : string) : Prop :=
  exists bytes t,
    (local = Some (AF_INET6, bytes) /\ inet_ntop AF_INET6 bytes = Some t /\ out = "[" +:+ t +:+ "]:" +:+ port) \/
    (local = Some (AF_INET, bytes) /\ inet_ntop AF_INET bytes = Some t /\ out = t +:+ ":" +:+ port).
Lemma local_text_names port local :
  local_text port local <> "" -> names_address port local (local_text port local).
Proof.
  unfold local_text, names_address. destruct local as [[family bytes]|]; [|done].
  destruct (Z.eqb_spec family AF_INET6) as [->|].
  { destruct (inet_ntop AF_INET6 bytes) as [t|] eqn:E; [|done]. intros _. exists bytes, t. by left. }
  destruct (Z.eqb_spec family AF_INET) as [->|]; [|done].
  destruct (inet_ntop AF_INET bytes) as [t|] eqn:E; [|done]. intros _. exists bytes, t. by right.
Qed.

(** The answer [out] comes from an address of the list: those before it gave
    none; for this one a datagram socket is opened, connected to that address,
    and asked for its own address. *)
Definition own_address_towards (port : string) (l : list Chain.addrinfo) (h0 : host W) (out : string) : Prop :=
  exists pre ai post h1 fd h2 h3,
    l = pre ++ ai :: post /\ address_loop port pre h0 = ("", h1) /\
    socket (Chain.ai_family ai) (Chain.ai_socktype ai) (Chain.ai_protocol ai) h1 = (fd, h2) /\ (0 <= fd)%Z /\
    syscall (sys_connect fd ai) h2 = (0%Z, h3) /\
    names_address port (fst (sys_local_address fd (world h3))) out.

Lemma address_loop_cons port ai l h :
  address_loop port (ai :: l) h =
  let '(out, h1) := address_loop port [ai] h in if is_empty out then address_loop port l h1 else (out, h1).
Proof.
  cbn [address_loop]. unfold bind. destruct (socket _ _ _ h) as [fd h2]. destruct (fd <? 0)%Z; [done|].
  destruct (syscall _ h2) as [rc h3]. destruct (if (rc =? 0)%Z then _ else _) as [out h4].
  destruct (close fd h4) as [u h5]. destruct (is_empty out) eqn:E; cbn; [done|by rewrite E].
Qed.
Lemma address_loop_single port ai h out h' :
  address_loop port [ai] h = (out, h') -> out <> "" ->
  exists fd h2 h3,
    socket (Chain.ai_family ai) (Chain.ai_socktype ai) (Chain.ai_protocol ai) h = (fd, h2) /\ (0 <= fd)%Z /\
    syscall (sys_connect fd ai) h2 = (0%Z, h3) /\
    names_address port (fst (sys_local_address fd (world h3))) out.
Proof.
  cbn [address_loop]. unfold bind. destruct (socket _ _ _ h) as [fd h2].
  destruct (Z.ltb_spec fd 0); [by intros [= <- _]|]. destruct (syscall _ h2) as [rc h3] eqn:Ec.
  destruct (Z.eqb_spec rc 0) as [->|]; intros E Hne.
  - exists fd, h2, h3. split_and!; [done..|]. unfold ask in E.
    destruct (sys_local_address fd (world h3)) as [local w]. cbn in E. destruct (close fd _) as [u h5].
    destruct (is_empty (local_text port local)) eqn:Eo; cbn in E; [by injection E as <- _|].
    injection E as <- _. by apply local_text_names.
  - cbn in E. destruct (close fd h3) as [u h5]. by injection E as <- _.
Qed.
Lemma address_loop_answer port l h out h' :
  address_loop port l h = (out, h') -> out <> "" -> own_address_towards port l h out.
Proof.
  revert h. induction l as [|ai l IH]; intros h E Hne; [by injection E as <- _|]. rewrite address_loop_cons in E.
  destruct (address_loop port [ai] h) as [o h1] eqn:E1. destruct (is_empty o) eqn:Eo.
  - apply is_empty_spec in Eo as ->. destruct (IH h1 E Hne) as (pre & ai' & post & h1' & fd & h2 & h3 & -> & Ep & Hx).
    exists (ai :: pre), ai', post, h1', fd, h2, h3. split; [done|]. split; [|exact Hx].
    by rewrite address_loop_cons, E1.
  - injection E as <- _. apply is_empty_false in Eo.
    destruct (address_loop_single _ _ _ _ _ E1 Eo) as (fd & h2 & h3 & Hx).
    exists [], ai, l, h, fd, h2, h3. split; [done|]. by split.
Qed.

Lemma balanced_address_loop port l : balanced (address_loop port l).
Proof.
  intros k. induction l as [|ai l IH]; cbn [address_loop]; [apply triple_quiet; auto with quiet|].
  eapply triple_bind; [apply triple_socket|]. intros fd. cbn beta. destruct (fd <? 0)%Z eqn:E; bool_hyps.
  { replace (0 <=? fd)%Z with false by (symmetry; apply Z.leb_gt; lia). exact IH. }
  replace (0 <=? fd)%Z with true by (symmetry; apply Z.leb_le; lia).
  eapply triple_bind; [apply triple_quiet; auto with quiet|intros rc; cbn beta].
  eapply triple_bind; [apply triple_quiet; auto 6 with quiet|intros out; cbn beta].
  eapply triple_bind; [apply triple_close|intros ?; cbn beta].
  destruct (is_empty out); [exact IH|apply triple_quiet; auto with quiet].
Qed.

(** The endpoint found from the host [h] on: none, or the own address towards
    one of the addresses of the collector's name. *)
Definition endpoint_of_this_machine (collector_endpoint port : string) (h : host W) (out : string) : Prop :=
  out = "" \/
  exists l h0,
    ask (getaddrinfo (host_of collector_endpoint) "9" (mkHints AF_UNSPEC SOCK_DGRAM 0 0)) h = (l, h0) /\
    own_address_towards port l h0 out.

Lemma balanced_AdvertisedDiagnosticEndpoint ep port : balanced (AdvertisedDiagnosticEndpoint ep port).
Proof.
  unfold AdvertisedDiagnosticEndpoint. destruct (_ || _); [apply balanced_quiet; auto with quiet|].
  destruct (is_empty (host_of _)); [apply balanced_quiet; auto with quiet|].
  apply balanced_bind; [apply balanced_quiet; auto with quiet|intros ?; apply balanced_address_loop].
Qed.
Lemma AdvertisedDiagnosticEndpoint_answer ep port h :
  endpoint_of_this_machine ep port h (fst (AdvertisedDiagnosticEndpoint ep port h)).
Proof.
  unfold endpoint_of_this_machine, AdvertisedDiagnosticEndpoint. destruct (_ || _); [by left|].
  destruct (is_empty (host_of ep)); [by left|]. unfold bind. destruct (ask _ h) as [l h0].
  destruct (address_loop port l h0) as [out h'] eqn:E. destruct (decide (out = "")) as [->|Hne]; [by left|].
  right. exists l, h0. split; [done|]. by eapply address_loop_answer.
Qed.

(** The endpoint an agent advertises.  Whatever the resolver and the
    sockets answer, it is empty or the text of the local address of a socket
    connected towards an address of the collector, in brackets for IPv6, with
    exactly the port asked for; and every socket opened on the way is closed
    again. *)
Theorem AdvertisedDiagnosticEndpoint_spec (collector_endpoint diagnostic_port : string) (h : host W) :
  balanced (AdvertisedDiagnosticEndpoint collector_endpoint diagnostic_port) /\
  endpoint_of_this_machine collector_endpoint diagnostic_port h
    (fst (AdvertisedDiagnosticEndpoint collector_endpoint diagnostic_port h)).
Proof. split; [apply balanced_AdvertisedDiagnosticEndpoint|apply AdvertisedDiagnosticEndpoint_answer]. Qed.
End Platform.
