(* ===== verification/Trace.v ===== *)
(** * Trace: the agent's trace identifiers

    Models [agent/src/trace_context.cpp] and the source of random bytes in
    [agent/src/platform/platform.cpp] (Linux).  [read_traceparent] is a
    reference reader of the W3C header; the theorems say that a generated header
    is read back as its identifiers, and what [NextSpanId] does to it. *)
From stdpp Require Import base strings list.
From Stdlib Require Import ZArith Lia Ascii.
From S2P Require Import Prelude.
Import Str.
#[local] Open Scope string_scope.
#[local] Open Scope list_scope.

(** [platform::RandomBytes]: what [getrandom] delivered ([[]] when it failed)
    and what "/dev/urandom" would ([None] when it cannot be opened). *)
Definition RandomBytes (n : nat) (getrandom : list Z) (urandom : option (list Z)) : option (list Z) :=
  if Nat.eqb n 0 then Some []
  else if Nat.ltb 0 (length getrandom) && Nat.eqb (length getrandom) n then Some getrandom
  else
    bytes ← urandom;
    if Nat.eqb (length bytes) n then Some bytes else None.

(** "0123456789abcdef" at an index. *)
Definition hex (d : Z) : ascii := c_of (Z.to_nat (if (d <? 10)%Z then 48 + d else 87 + d)%Z).
Fixpoint BytesToHex (bytes : list Z) : string :=
  match bytes with
  | [] => ""
  | b :: l => String (hex (Z.land (Z.shiftr b 4) 15)) (String (hex (Z.land b 15)) (BytesToHex l))
  end.

(** The two draws, in the order they are made. *)
Definition GenerateTraceParent (trace_id span_id : option (list Z)) : string :=
  match trace_id, span_id with
  | Some t, Some s => "00-" +:+ BytesToHex t +:+ "-" +:+ BytesToHex s +:+ "-01"
  | _, _ => "00-00000000000000000000000000000000-0000000000000000-01"
  end.

Definition dash : ascii := c_of 45.
(** [draws]: the bytes for a new span; the header generated instead when the
    text has fewer than three dashes. *)
Definition NextSpanId (traceparent : string) (span_id : option (list Z)) (generated : string) : string :=
  let next pos := match pos with Some p => sfind_from dash traceparent (p + 1) | None => None end in
  let first_dash := sfind dash traceparent in
  let second_dash := next first_dash in
  let third_dash := next second_dash in
  match third_dash with
  | None => generated
  | Some third =>
      match span_id with
      | None => traceparent
      | Some bytes =>
          let flags := sdrop (third + 1) traceparent in
          let flags := if is_empty flags then "01" else flags in
          stake (third + 1) traceparent +:+ BytesToHex bytes +:+ "-" +:+ flags
      end
  end.

Definition TraceIdOf (traceparent : string) : string :=
  match sfind dash traceparent with
  | None => ""
  | Some first_dash => stake first_dash traceparent
  end.

(** ** A reader of the header *)

Definition unhex (c : ascii) : option Z :=
  let n := Z.of_nat (nat_of_ascii c) in
  if (48 <=? n)%Z && (n <=? 57)%Z then Some (n - 48)%Z
  else if (97 <=? n)%Z && (n <=? 102)%Z then Some (n - 87)%Z else None.
Fixpoint read_hex (n : nat) (s : string) : option (list Z * string) :=
  match n, s with
  | O, _ => Some ([], s)
  | S n, String a (String b s) =>
      x ← unhex a; y ← unhex b; r ← read_hex n s; Some ((16 * x + y)%Z :: fst r, snd r)
  | S _, _ => None
  end.
Definition read_dash (s : string) : option string :=
  match s with String c s => if Ascii.eqb c dash then Some s else None | "" => None end.

(** Version, trace id of 16 bytes, span id of 8, flags, and nothing else. *)
Definition read_traceparent (s : string) : option (list Z * list Z * list Z * list Z) :=
  v ← read_hex 1 s; s ← read_dash (snd v);
  t ← read_hex 16 s; s ← read_dash (snd t);
  p ← read_hex 8 s; s ← read_dash (snd p);
  f ← read_hex 1 s;
  if is_empty (snd f) then Some (fst v, fst t, fst p, fst f) else None.

Definition bytes_of (n : nat) (l : list Z) : Prop := length l = n /\ Forall (fun b => (0 <= b < 256)%Z) l.

Lemma unhex_hex d : (0 <= d < 16)%Z -> unhex (hex d) = Some d.
Proof.
  intros H. assert (d = 0 \/ d = 1 \/ d = 2 \/ d = 3 \/ d = 4 \/ d = 5 \/ d = 6 \/ d = 7 \/ d = 8 \/ d = 9 \/ d = 10 \/
    d = 11 \/ d = 12 \/ d = 13 \/ d = 14 \/ d = 15)%Z as Hd by lia.
  by repeat (destruct Hd as [->|Hd]); [..|subst].
Qed.
Lemma nibbles b : (0 <= b < 256)%Z ->
  (0 <= Z.land (Z.shiftr b 4) 15 < 16)%Z /\ (0 <= Z.land b 15 < 16)%Z /\
  (16 * Z.land (Z.shiftr b 4) 15 + Z.land b 15 = b)%Z.
Proof.
  intros H. change 15%Z with (Z.ones 4). rewrite !Z.land_ones, Z.shiftr_div_pow2 by lia. change (2 ^ 4)%Z with 16%Z.
  rewrite (Z.mod_small (b / 16)) by (split; [apply Z.div_pos; lia|apply Z.div_lt_upper_bound; lia]).
  pose proof (Z.div_mod b 16 ltac:(lia)). pose proof (Z.mod_pos_bound b 16 ltac:(lia)).
  pose proof (Z.div_pos b 16 ltac:(lia) ltac:(lia)). pose proof (Z.div_lt_upper_bound b 16 16 ltac:(lia) ltac:(lia)). lia.
Qed.
Lemma read_BytesToHex n l s : bytes_of n l -> read_hex n (BytesToHex l +:+ s) = Some (l, s).
Proof.
  intros [<- H]. induction H as [|b l Hb _ IH]; [done|]. destruct (nibbles b Hb) as (H1 & H2 & H3).
  change (length (b :: l)) with (S (length l)). cbn [BytesToHex String.append read_hex].
  change (String.append ?x ?y) with (x +:+ y).
  rewrite !unhex_hex by done. cbn [mbind option_bind]. rewrite IH. cbn [mbind option_bind fst snd]. by rewrite H3.
Qed.

Lemma read_dash_dash s : read_dash (String dash s) = Some s.
Proof. unfold read_dash. by rewrite Ascii.eqb_refl. Qed.

(** The text of a header with these fields. *)
Definition header (t s : list Z) (rest : string) : string :=
  BytesToHex [0%Z] +:+ String dash (BytesToHex t +:+ String dash (BytesToHex s +:+ String dash rest)).
Lemma generated_header t s : GenerateTraceParent (Some t) (Some s) = header t s "01".
Proof. done. Qed.
Lemma read_header t s rest :
  bytes_of 16 t -> bytes_of 8 s ->
  read_traceparent (header t s rest) =
  (f ← read_hex 1 rest; if is_empty (snd f) then Some ([0%Z], t, s, fst f) else None).
Proof.
  intros Ht Hs. unfold read_traceparent, header.
  assert (bytes_of 1 [0%Z]) as H0 by (split; [done|repeat constructor; lia]).
  rewrite (read_BytesToHex 1 [0%Z]) by done. cbn [mbind option_bind fst snd].
  rewrite read_dash_dash. cbn [mbind option_bind].
  rewrite (read_BytesToHex 16 t) by done. cbn [mbind option_bind fst snd].
  rewrite read_dash_dash. cbn [mbind option_bind].
  rewrite (read_BytesToHex 8 s) by done. cbn [mbind option_bind fst snd].
  rewrite read_dash_dash. by cbn [mbind option_bind].
Qed.

(** A generated trace header is well formed and carries its draws.
    Read as the W3C format prescribes, it has version 0, exactly the bytes drawn
    as trace and span identifier, and the sampled flag; when no random bytes
    can be had it is still well formed, with zero identifiers. *)
Theorem GenerateTraceParent_reads_back (t s : list Z) :
  bytes_of 16 t -> bytes_of 8 s ->
  read_traceparent (GenerateTraceParent (Some t) (Some s)) = Some ([0%Z], t, s, [1%Z]) /\
  read_traceparent (GenerateTraceParent None (Some s)) = Some ([0%Z], repeat 0%Z 16, repeat 0%Z 8, [1%Z]) /\
  read_traceparent (GenerateTraceParent (Some t) None) = Some ([0%Z], repeat 0%Z 16, repeat 0%Z 8, [1%Z]).
Proof. intros Ht Hs. split; [|done]. by rewrite generated_header, read_header. Qed.
Lemma GenerateTraceParent_reads_back_witness :
  read_traceparent (GenerateTraceParent (Some (repeat 171%Z 16)) (Some (repeat 7%Z 8))) =
  Some ([0%Z], repeat 171%Z 16, repeat 7%Z 8, [1%Z]).
Proof.
  apply (GenerateTraceParent_reads_back (repeat 171%Z 16) (repeat 7%Z 8)); (split; [reflexivity|]); cbn; repeat constructor; lia.
Defined.

(** ** What the other two functions do to such a header *)
Lemma hex_no_dash d : (0 <= d < 16)%Z -> Ascii.eqb dash (hex d) = false.
Proof.
  intros H. assert (d = 0 \/ d = 1 \/ d = 2 \/ d = 3 \/ d = 4 \/ d = 5 \/ d = 6 \/ d = 7 \/ d = 8 \/ d = 9 \/ d = 10 \/
    d = 11 \/ d = 12 \/ d = 13 \/ d = 14 \/ d = 15)%Z as Hd by lia.
  by repeat (destruct Hd as [->|Hd]); [..|subst].
Qed.
Lemma BytesToHex_no_dash n l : bytes_of n l -> has_char dash (BytesToHex l) = false.
Proof.
  intros [_ H]. induction H as [|b l Hb _ IH]; [done|]. destruct (nibbles b Hb) as (H1 & H2 & _). cbn [BytesToHex].
  by rewrite !has_char_cons, !hex_no_dash.
Qed.
Lemma sfind_from_app c (a b s : string) :
  has_char c b = false -> sfind_from c (a +:+ b +:+ String c s) (String.length a) = Some (String.length (a +:+ b)).
Proof. intros H. unfold sfind_from. rewrite sdrop_app, sfind_app_sep by done. cbn. by rewrite slength_app. Qed.

Lemma third_dash t s rest :
  bytes_of 16 t -> bytes_of 8 s ->
  let front := BytesToHex [0%Z] +:+ String dash (BytesToHex t +:+ String dash (BytesToHex s)) in
  header t s rest = front +:+ String dash rest /\
  sfind dash (header t s rest) = Some 2 /\ sfind_from dash (header t s rest) 3 = Some (3 + String.length (BytesToHex t)) /\
  sfind_from dash (header t s rest) (S (3 + String.length (BytesToHex t))) = Some (String.length front).
Proof.
  intros Ht Hs front. assert (header t s rest = front +:+ String dash rest) as E.
  { unfold header, front. cbn. by rewrite !sapp_assoc. }
  split; [done|]. split; [done|]. split.
  - change 3 with (String.length "00-"). change (header t s rest) with ("00-" +:+ BytesToHex t +:+ String dash (BytesToHex s +:+ String dash rest)).
    rewrite sfind_from_app by by eapply BytesToHex_no_dash. by rewrite slength_app.
  - set (a := "00-" +:+ BytesToHex t +:+ "-").
    assert (String.length a = S (3 + String.length (BytesToHex t))) as <- by (unfold a; rewrite !slength_app; cbn; lia).
    assert (header t s rest = a +:+ BytesToHex s +:+ String dash rest) as -> by (unfold a; by rewrite !sapp_assoc).
    rewrite sfind_from_app by by eapply BytesToHex_no_dash. do 2 f_equal. unfold a, front. by rewrite !sapp_assoc.
Qed.

(** [NextSpanId] does not replace the span.  Of a generated header
    it keeps the whole text up to the flags, the old span included, and inserts
    the new span after it: the result has one field too many and is no header
    any more, and [TraceIdOf] answers the version field, not the trace id. *)
Theorem NextSpanId_appends (t s n : list Z) (generated : string) :
  bytes_of 16 t -> bytes_of 8 s -> bytes_of 8 n ->
  let tp := GenerateTraceParent (Some t) (Some s) in
  NextSpanId tp (Some n) generated =
    "00-" +:+ BytesToHex t +:+ "-" +:+ BytesToHex s +:+ "-" +:+ BytesToHex n +:+ "-01" /\
  read_traceparent (NextSpanId tp (Some n) generated) = None /\
  TraceIdOf tp = "00".
Proof.
  intros Ht Hs Hn. cbv zeta. rewrite generated_header.
  destruct (third_dash t s "01" Ht Hs) as (E & D1 & D2 & D3). set (front := BytesToHex [0%Z] +:+ String dash (BytesToHex t +:+ String dash (BytesToHex s))) in *.
  assert (NextSpanId (header t s "01") (Some n) generated = header t s (BytesToHex n +:+ "-01")) as ->.
  { unfold NextSpanId. cbv zeta. rewrite D1. change (2 + 1) with 3. rewrite D2. replace (3 + String.length (BytesToHex t) + 1) with (S (3 + String.length (BytesToHex t))) by lia.
    rewrite D3, Nat.add_1_r, E, sdrop_S_app. cbn [is_empty].
    assert (stake (S (String.length front)) (front +:+ String dash "01") = front +:+ "-") as ->.
    { replace (S (String.length front)) with (String.length (front +:+ "-")) by (rewrite slength_app; cbn; lia).
      change (String dash "01") with ("-" +:+ "01"). by rewrite <- sapp_assoc, stake_app. }
    unfold header, front. cbn. do 3 (rewrite ?sapp_assoc; cbn). done. }
  split; [done|]. split; [|done]. rewrite read_header by done.
  destruct n as [|b n]; [by destruct Hn|]. destruct Hn as [Hl Hb]. apply Forall_cons in Hb as [Hb _].
  destruct (nibbles b Hb) as (H1 & H2 & H3). cbn [BytesToHex]. change (String ?a (String ?b ?x) +:+ ?y) with (String a (String b (x +:+ y))).
  cbn [read_hex]. rewrite !unhex_hex by done. cbn. by destruct n.
Qed.
Lemma NextSpanId_appends_witness :
  read_traceparent (NextSpanId (GenerateTraceParent (Some (repeat 171%Z 16)) (Some (repeat 7%Z 8)))
    (Some (repeat 9%Z 8)) "") = None.
Proof.
  apply (NextSpanId_appends (repeat 171%Z 16) (repeat 7%Z 8) (repeat 9%Z 8) ""); (split; [reflexivity|]); cbn;
    repeat constructor; lia.
Defined.
