(* ===== verification/CollectorMain.v ===== *)
(** * CollectorMain: start-up of the collector

    Models [main] of [collector/src/main.cpp]: [Options] is the settings, from
    the defaults, the environment and the command line, [Run] the order in which
    the components are started, kept in step with the release mirror, and
    stopped.  The components are in the files of their own; here they are the
    actions of a trace, with their outcomes as arguments. *)
From stdpp Require Import base functions gmap strings list.
From Stdlib Require Import ZArith Lia.
From S2P Require Import Prelude Kafka.
Import Str.
#[local] Open Scope string_scope.
#[local] Open Scope list_scope.

Module Options.

Inductive str_var : Type :=
  | grpc_addr | http_addr | db_host | db_name | db_user | db_password | alert_rules_path
  | kafka_brokers | kafka_topic | tls_ca | tls_cert | tls_key | agent_dist_dir | installer_dist_dir
  | github_owner | github_repo | github_api_base | github_token.
Inductive int_var : Type := db_port | skew_threshold_ms | backpressure_threshold_ms | release_sync_seconds.
#[global] Instance str_var_eq_dec : EqDecision str_var.
Proof. solve_decision. Defined.
#[global] Instance int_var_eq_dec : EqDecision int_var.
Proof. solve_decision. Defined.

Record options : Type := mkOptions { str : str_var -> string; int : int_var -> Z }.
Definition set_str (x : str_var) (v : string) (o : options) : options := mkOptions (<[x := v]> (str o)) (int o).
Definition set_int (x : int_var) (v : Z) (o : options) : options := mkOptions (str o) (<[x := v]> (int o)).

Definition defaults : options :=
  mkOptions
    (fun x => match x with
              | grpc_addr => "0.0.0.0:50051"
              | http_addr => "0.0.0.0:8080"
              | db_host => "localhost"
              | db_name => "pudimnetmon"
              | db_user | db_password => "pudim"
              | kafka_topic => "network.metrics"
              | agent_dist_dir => "/usr/share/pudim/agents"
              | installer_dist_dir => "/usr/share/pudim/installers"
              | github_api_base => "https://api.github.com"
              | _ => ""
              end)
    (fun x => match x with
              | db_port => 5432
              | skew_threshold_ms => 5000
              | backpressure_threshold_ms => 1000
              | release_sync_seconds => 3600
              end)%Z.

(** [std::stoi] or [std::stoll] of a value; an exception ends the program. *)
Definition parse_int (x : int_var) (v : string) : outcome Z :=
  match (match x with db_port => stoi v | _ => stoll v end) with
  | Some n => Returns n
  | None => Throws (match x with db_port => "stoi" | _ => "stoll" end)
  end.

Definition get_env (getenv : string -> option string) (name def : string) : string := default def (getenv name).

(** The overrides from the environment, in the order of the source. *)
Definition from_env (getenv : string -> option string) (o : options) : outcome options :=
  let put name x o := set_str x (get_env getenv name (str o x)) o in
  let put_int name x o :=
    let! n := parse_int x (get_env getenv name (of_Z (int o x))) in Returns (set_int x n o) in
  let o := put "PUDIM_DB_HOST" db_host o in
  let! o := put_int "PUDIM_DB_PORT" db_port o in
  let o := put "PUDIM_DB_NAME" db_name o in
  let o := put "PUDIM_DB_USER" db_user o in
  let o := put "PUDIM_DB_PASSWORD" db_password o in
  let o := put "PUDIM_GITHUB_OWNER" github_owner o in
  let o := put "PUDIM_GITHUB_REPO" github_repo o in
  let o := put "PUDIM_GITHUB_TOKEN" github_token o in
  let o := put "PUDIM_GITHUB_API_BASE" github_api_base o in
  put_int "PUDIM_RELEASE_SYNC_SECONDS" release_sync_seconds o.

(** The lambda [opt] is the function of the same text in the consumers. *)
Definition opt (arg flag : string) (rest : list string) : string * list string := StorageConsumer.Opt arg flag rest.

(** The flags in the order of the chain, and the variable each one sets. *)
Definition flags : list (string * (str_var + int_var)) :=
  [("--grpc-addr", inl grpc_addr); ("--http-addr", inl http_addr); ("--db-host", inl db_host);
   ("--db-port", inr db_port); ("--db-name", inl db_name); ("--db-user", inl db_user);
   ("--db-password", inl db_password); ("--alert-rules-path", inl alert_rules_path);
   ("--kafka-brokers", inl kafka_brokers); ("--kafka-topic", inl kafka_topic);
   ("--skew-threshold-ms", inr skew_threshold_ms);
   ("--backpressure-threshold-ms", inr backpressure_threshold_ms);
   ("--tls-ca", inl tls_ca); ("--tls-cert", inl tls_cert); ("--tls-key", inl tls_key);
   ("--agent-dist-dir", inl agent_dist_dir); ("--installer-dist-dir", inl installer_dist_dir);
   ("--github-owner", inl github_owner); ("--github-repo", inl github_repo);
   ("--github-api-base", inl github_api_base); ("--github-token", inl github_token);
   ("--release-sync-seconds", inr release_sync_seconds)].

Definition set (x : str_var + int_var) (v : string) (o : options) : outcome options :=
  match x with
  | inl x => Returns (set_str x v o)
  | inr x => let! n := parse_int x v in Returns (set_int x n o)
  end.

(** The chain of [else if ((v = opt(...)) != "")]; [None]: no flag of it. *)
Fixpoint try_flags (arg : string) (l : list (string * (str_var + int_var))) (rest : list string) (o : options)
    : option (outcome options) * list string :=
  match l with
  | [] => (None, rest)
  | (flag, x) :: l =>
      let '(v, rest) := opt arg flag rest in
      if negb (is_empty v) then (Some (set x v o), rest) else try_flags arg l rest o
  end.

(** The argument loop; [None]: the help text, and the program ends.  The fuel
    is the number of arguments, of which every iteration takes at least one. *)
Fixpoint parse_loop (fuel : nat) (args : list string) (o : options) : outcome (option options) :=
  match fuel, args with
  | S fuel, arg :: rest =>
      match try_flags arg flags rest o with
      | (Some r, rest) => let! o := r in parse_loop fuel rest o
      | (None, rest) => if String.eqb arg "--help" then Returns None else parse_loop fuel rest o
      end
  | _, _ => Returns (Some o)
  end.
Definition parse_args (args : list string) (o : options) : outcome (option options) :=
  parse_loop (length args) args o.

(** Everything before the first component is started. *)
Definition settings (getenv : string -> option string) (argv : list string) : outcome (option options) :=
  let! o := from_env getenv defaults in parse_args (drop 1 argv) o.

(** ** What the settings are *)

(** A flag with its value as it can be written: in one argument or two. *)
Record setting : Type := mkSetting { s_flag : string; s_var : str_var + int_var; s_value : string; s_joined : bool }.
Definition written (s : setting) : list string :=
  if s_joined s then [s_flag s +:+ "=" +:+ s_value s] else [s_flag s; s_value s].
Definition readable (s : setting) : Prop :=
  (s_flag s, s_var s) ∈ flags /\ s_value s <> "" /\
  match s_var s with inl _ => True | inr x => exists n, parse_int x (s_value s) = Returns n end.
Definition apply (o : options) (s : setting) : options :=
  match set (s_var s) (s_value s) o with Returns o => o | Throws _ => o end.

Definition eq_sign : Ascii.ascii := c_of 61.
Lemma flags_plain : Forall (fun f => has_char eq_sign (fst f) = false) flags.
Proof. repeat constructor. Qed.
Lemma flags_distinct : NoDup (map fst flags).
Proof. apply (bool_decide_unpack _). by vm_compute. Qed.

Lemma prefix_needs_sign f f' : has_char eq_sign f' = false -> has_prefix (f +:+ "=") f' = false.
Proof.
  intros H. apply not_true_is_false. intros [x ->]%sprefix_spec. rewrite sapp_assoc, has_char_app in H.
  apply orb_false_iff in H as [_ H]. discriminate H.
Qed.
Lemma prefix_of_other f f' v :
  has_char eq_sign f = false -> has_char eq_sign f' = false -> f <> f' ->
  has_prefix (f' +:+ "=") (f +:+ "=" +:+ v) = false.
Proof.
  intros H H' Hne. apply not_true_is_false. intros [x E]%sprefix_spec. rewrite sapp_assoc in E.
  by apply (sep_inj eq_sign f v f' x) in E as [? _].
Qed.

(** A written setting is taken by its own flag and by no other. *)
Lemma opt_written s f rest arg more :
  readable s -> has_char eq_sign f = false -> written s = arg :: more ->
  opt arg f (more ++ rest) = if bool_decide (f = s_flag s) then (s_value s, rest) else ("", more ++ rest).
Proof.
  intros [Hin _] Hf. pose proof flags_plain as Hp. rewrite Forall_forall in Hp. specialize (Hp _ Hin). cbn [fst] in Hp.
  unfold opt, StorageConsumer.Opt, written. destruct (s_joined s); intros [= <- <-];
    try change (String _ (s_value s)) with ("=" +:+ s_value s); case_bool_decide as E.
  - subst f. rewrite <- sapp_assoc. rewrite (sprefix_app _ _ : has_prefix _ _ = true). by rewrite sdrop_app.
  - rewrite prefix_of_other by congruence. destruct (String.eqb_spec (s_flag s +:+ "=" +:+ s_value s) f) as [<-|]; [|done].
    rewrite has_char_app in Hf. apply orb_false_iff in Hf as [_ Hf]. discriminate Hf.
  - subst f. rewrite prefix_needs_sign, String.eqb_refl by done. done.
  - rewrite prefix_needs_sign by done. by rewrite (proj2 (String.eqb_neq _ _)) by congruence.
Qed.

Lemma try_written s l rest o arg more :
  readable s -> written s = arg :: more -> Forall (fun f => has_char eq_sign (fst f) = false) l ->
  NoDup (map fst l) -> (s_flag s, s_var s) ∈ l ->
  try_flags arg l (more ++ rest) o = (Some (Returns (apply o s)), rest).
Proof.
  intros Hr Hw Hl Hd Hin. induction Hl as [|[f x] l Hf _ IH]; [by apply elem_of_nil in Hin|].
  apply NoDup_cons in Hd as [Hnot Hd]. cbn [try_flags fst] in *. rewrite (opt_written s) by done.
  apply elem_of_cons in Hin as [[= <- <-]|Hin].
  - rewrite bool_decide_true by done. destruct Hr as (_ & Hv & Hp). rewrite (proj2 (is_empty_false _) Hv). cbn [negb].
    unfold apply, set in *. destruct (s_var s) as [y|y]; [done|]. destruct Hp as [n ->]. done.
  - rewrite bool_decide_false; [by apply IH|]. intros ->. apply Hnot. apply list_elem_of_fmap. by exists (s_flag s, s_var s).
Qed.

(** The collector's settings are those of its command line.  A
    command line that writes any list of settings, each as "--flag=value" or as
    "--flag value", with values that are not empty and, where a number is
    wanted, start with one, is read to its end as exactly those settings: they
    are applied in order to what the environment left, so the last one of a
    flag wins and every other variable keeps its value. *)
Theorem parse_args_reads_settings (l : list setting) (o : options) :
  Forall readable l -> parse_args (concat (map written l)) o = Returns (Some (fold_left apply l o)).
Proof.
  intros H. unfold parse_args. enough (forall fuel o, length (concat (map written l)) <= fuel ->
    parse_loop fuel (concat (map written l)) o = Returns (Some (fold_left apply l o))) as Hl by by apply Hl.
  clear o. induction H as [|s l Hs _ IH]; intros fuel o Hfuel; [by destruct fuel|].
  cbn [map concat fold_left]. destruct (written s) as [|arg more] eqn:Ew; [by unfold written in Ew; destruct (s_joined s)|].
  cbn [map concat] in Hfuel. rewrite Ew in Hfuel. cbn [app length] in Hfuel. rewrite length_app in Hfuel.
  destruct fuel as [|fuel]; [lia|]. cbn [app parse_loop].
  rewrite (try_written s flags _ o arg more) by (done || apply flags_plain || apply flags_distinct || apply Hs).
  cbn [obind]. apply IH. lia.
Qed.

Lemma parse_args_reads_settings_witness :
  parse_args ["--db-port=5433"; "--kafka-brokers"; "a:9092"; "--db-port"; "5434"] defaults =
  Returns (Some (set_int db_port 5434 (set_str kafka_brokers "a:9092" (set_int db_port 5433 defaults)))).
Proof.
  apply (parse_args_reads_settings
    [mkSetting "--db-port" (inr db_port) "5433" true; mkSetting "--kafka-brokers" (inl kafka_brokers) "a:9092" false;
     mkSetting "--db-port" (inr db_port) "5434" false] defaults).
  repeat constructor; try discriminate; try (apply (bool_decide_unpack _); vm_compute; exact I); by eexists.
Defined.

(** An argument that is no flag, or a flag without a value, is passed over
    without a word; a number that cannot be read ends the program. *)
Example unknown_argument : parse_args ["--db-prot=1"; "--tls-ca="; "--db-host"] defaults = Returns (Some defaults).
Proof. reflexivity. Qed.
Example bad_number : parse_args ["--db-port=x"] defaults = Throws "stoi".
Proof. reflexivity. Qed.
End Options.

Module Run.
Import Options.

Inductive action : Type :=
  | ConnectStorage | ConnectProducer (brokers topic : string) | LoadRules (path : string)
  | StartGrpc (addr : string) | ScanAgents (dir : string) | ScanInstallers (dir : string)
  | StartHttp (addr : string) | StartScheduler | SyncMirror
  | StopGrpc | StopHttp | StopScheduler.

(** One turn of the waiting loop: the clock at the test and, when the mirror
    synchronised, its outcome and the clock after it. *)
Record turn : Type := mkTurn { at_ns : Z; sync_ok : bool; after_ns : Z }.

Definition sync (o : options) (ok : bool) : list action :=
  SyncMirror :: (if ok then [ScanInstallers (str o installer_dist_dir)] else []).
Definition has_mirror (o : options) : bool := negb (is_empty (str o github_owner)) && negb (is_empty (str o github_repo)).

(** The loop until the signal, with the time of the last synchronisation. *)
Fixpoint wait (o : options) (last_sync : Z) (turns : list turn) : list action :=
  match turns with
  | [] => []
  | t :: turns =>
      if has_mirror o && (0 <? int o release_sync_seconds)%Z &&
         (int o release_sync_seconds <=? Z.quot (at_ns t - last_sync) 1000000000)%Z
      then sync o (sync_ok t) ++ wait o (after_ns t) turns
      else wait o last_sync turns
  end.

(** [main] with its settings: the exit code and what was done.  [producer_ok]
    and [grpc_ok] are the outcomes that end the program. *)
Definition run (o : options) (producer_ok grpc_ok first_sync_ok : bool) (now : Z) (turns : list turn) : Z * list action :=
  let kafka := negb (is_empty (str o kafka_brokers)) in
  let connect := ConnectStorage ::
    (if kafka then [ConnectProducer (str o kafka_brokers) (str o kafka_topic)] else []) in
  if kafka && negb producer_ok then (1%Z, connect)
  else
    let rules := if is_empty (str o alert_rules_path) then [] else [LoadRules (str o alert_rules_path)] in
    let begun := connect ++ rules ++ [StartGrpc (str o grpc_addr)] in
    if negb grpc_ok then (1%Z, begun)
    else
      (0%Z, begun ++
        [ScanAgents (str o agent_dist_dir); ScanInstallers (str o installer_dist_dir);
         StartHttp (str o http_addr); StartScheduler] ++
        (if has_mirror o then sync o first_sync_ok else []) ++
        wait o now turns ++ [StopGrpc; StopHttp; StopScheduler]).

(** The synchronisations of the loop. *)
Fixpoint syncs (o : options) (last_sync : Z) (turns : list turn) : list (Z * Z) :=
  match turns with
  | [] => []
  | t :: turns =>
      if has_mirror o && (0 <? int o release_sync_seconds)%Z &&
         (int o release_sync_seconds <=? Z.quot (at_ns t - last_sync) 1000000000)%Z
      then (at_ns t, after_ns t) :: syncs o (after_ns t) turns
      else syncs o last_sync turns
  end.

(** Between the end of one synchronisation and the start of the next one at
    least the configured interval passes. *)
Lemma syncs_apart o now turns :
  let d := (int o release_sync_seconds * 1000000000)%Z in
  Forall2 (fun a b => (a + d <= b)%Z) (now :: removelast (map snd (syncs o now turns))) (map fst (syncs o now turns)) \/
  syncs o now turns = [].
Proof.
  intros d. revert now. induction turns as [|t turns IH]; intros now; cbn [syncs]; [by right|].
  destruct (_ && _ && _) eqn:E; [|apply IH]. left. bool_hyps. cbn [map fst snd].
  assert (now + d <= at_ns t)%Z as Hd.
  { unfold d in *. pose proof (Z.quot_rem' (at_ns t - now) 1000000000).
    destruct (Z.le_gt_cases 0 (at_ns t - now)).
    - pose proof (Z.rem_bound_pos (at_ns t - now) 1000000000). lia.
    - pose proof (Z.quot_opp_l (now - at_ns t) 1000000000 ltac:(lia)) as Hq. replace (- (now - at_ns t))%Z with (at_ns t - now)%Z in Hq by lia.
      pose proof (Z.quot_pos (now - at_ns t) 1000000000 ltac:(lia) ltac:(lia)). lia. }
  destruct (IH (after_ns t)) as [H'| ->]; [|repeat constructor; done].
  destruct (syncs o (after_ns t) turns) as [|[a b] l]; [by apply Forall2_cons_nil_inv in H'|]. by constructor.
Qed.
End Run.
