(* ===== verification/JsonRead.v ===== *)
(** * JsonRead: a reference reader of JSON, for the texts built by hand

    Both programs write JSON by concatenating strings.  [read] is a reader of
    RFC 8259 text (strict: no white space between tokens, no [\u] escapes, which
    none of the writers produces; a number is kept as its literal).  [gives t o]
    says what the reader makes of the text [t] wherever it occurs: [Some v], or
    [None] when it is not JSON.  The lemmas follow the shapes the writers
    use: strings, numbers, objects, arrays. *)
From stdpp Require Import base strings list.
From Stdlib Require Import ZArith Lia Ascii SpecFloat DecimalString DecimalFacts DecimalN DecimalZ DecimalPos.
From S2P Require Import Prelude Double Text.
Import Str Text.
#[local] Open Scope string_scope.
#[local] Open Scope list_scope.

#[local] Set Warnings "-register-all".

Module JsonRead.
Inductive json : Type :=
  | JNull
  | JBool (b : bool)
  | JNumber (literal : string)
  | JString (s : string)
  | JArray (l : list json)
  | JObject (l : list (string * json)).

(** The rest of a string literal, after its opening quote. *)
Fixpoint read_body (s : string) : option (string * string) :=
  match s with
  | "" => None
  | String c s' =>
      if Ascii.eqb c dquote then Some ("", s')
      else if Ascii.eqb c bslash then
        match s' with
        | "" => None
        | String d s'' => x ← unescape_code d; r ← read_body s''; Some (String x (fst r), snd r)
        end
      else if is_control c then None
      else r ← read_body s'; Some (String c (fst r), snd r)
  end.

Definition expect (c : ascii) (s : string) : option string :=
  match s with String d r => if Ascii.eqb c d then Some r else None | "" => None end.
Definition read_key (s : string) : option (string * string) :=
  s ← expect dquote s; k ← read_body s; r ← expect ":"%char (snd k); Some (fst k, r).

(** The number grammar: an optional minus sign, an integer part without
    leading zeros, an optional fraction and an optional exponent. *)
Definition number_char (c : ascii) : bool :=
  is_digit c || existsb (Ascii.eqb c) ["-"; "+"; "."; "e"; "E"]%char.
Definition digits1 (s : string) : bool := negb (is_empty s) && sall is_digit s.
Definition exponent_ok (s : string) : bool :=
  match s with
  | "" => true
  | String c r =>
      (Ascii.eqb c "e" || Ascii.eqb c "E") &&
      match r with
      | String d r' => if Ascii.eqb d "+" || Ascii.eqb d "-" then digits1 r' else digits1 r
      | "" => false
      end
  end.
Definition fraction_ok (s : string) : bool :=
  match expect "."%char s with
  | Some r => negb (is_empty (take_while is_digit r)) && exponent_ok (drop_while is_digit r)
  | None => exponent_ok s
  end.
Definition unsigned_ok (s : string) : bool :=
  match expect "0"%char s with
  | Some r => fraction_ok r
  | None => negb (is_empty (take_while is_digit s)) && fraction_ok (drop_while is_digit s)
  end.
Definition number_ok (s : string) : bool :=
  match expect "-"%char s with Some r => unsigned_ok r | None => unsigned_ok s end.

(** A value and what follows it.  The fuel need not exceed the text's length:
    every call reads at least a character. *)
Fixpoint read_value (fuel : nat) (s : string) : option (json * string) :=
  match fuel with
  | O => None
  | S fuel =>
      match s with
      | "" => None
      | String c r =>
          if Ascii.eqb c dquote then b ← read_body r; Some (JString (fst b), snd b)
          else if Ascii.eqb c "{" then
            match expect "}"%char r with
            | Some r => Some (JObject [], r)
            | None => m ← read_members fuel r; Some (JObject (fst m), snd m)
            end
          else if Ascii.eqb c "[" then
            match expect "]"%char r with
            | Some r => Some (JArray [], r)
            | None => m ← read_elements fuel r; Some (JArray (fst m), snd m)
            end
          else if has_prefix "true" s then Some (JBool true, sdrop 4 s)
          else if has_prefix "false" s then Some (JBool false, sdrop 5 s)
          else if has_prefix "null" s then Some (JNull, sdrop 4 s)
          else
            let lit := take_while number_char s in
            if number_ok lit then Some (JNumber lit, drop_while number_char s) else None
      end
  end
with read_members (fuel : nat) (s : string) : option (list (string * json) * string) :=
  match fuel with
  | O => None
  | S fuel =>
      k ← read_key s; v ← read_value fuel (snd k);
      match expect ","%char (snd v) with
      | Some r => m ← read_members fuel r; Some ((fst k, fst v) :: fst m, snd m)
      | None => r ← expect "}"%char (snd v); Some ([(fst k, fst v)], r)
      end
  end
with read_elements (fuel : nat) (s : string) : option (list json * string) :=
  match fuel with
  | O => None
  | S fuel =>
      v ← read_value fuel s;
      match expect ","%char (snd v) with
      | Some r => m ← read_elements fuel r; Some (fst v :: fst m, snd m)
      | None => r ← expect "]"%char (snd v); Some ([fst v], r)
      end
  end.

Definition read (s : string) : option json :=
  r ← read_value (String.length s) s; if is_empty (snd r) then Some (fst r) else None.

(** ** The shapes the writers use *)
Definition jstr (body : string) : string := dq +:+ body +:+ dq.
Definition member (kt : string * string) : string := jstr (fst kt) +:+ ":" +:+ snd kt.
Definition jobject (l : list (string * string)) : string := "{" +:+ sjoin "," (map member l) +:+ "}".
Definition jlist (l : list string) : string := "[" +:+ sjoin "," l +:+ "]".

(** Nothing that would continue a number. *)
Definition clean (rest : string) : Prop :=
  match rest with String c _ => number_char c = false | "" => True end.
Definition gives (t : string) (o : option json) : Prop :=
  forall fuel rest, clean rest -> String.length t <= fuel ->
  read_value fuel (t +:+ rest) = (fun v => (v, rest)) <$> o.

Lemma read_gives t o : gives t o -> read t = o.
Proof.
  intros H. unfold read. specialize (H (String.length t) "" I ltac:(done)). rewrite sapp_nil_r in H. rewrite H.
  by destruct o.
Qed.

(** *** Strings *)
Lemma read_body_EscapeJson_char c r :
  read_body (EscapeJson_char c +:+ r) = if json_safe c then r ← read_body r; Some (String c (fst r), snd r) else None.
Proof. destruct c as [[] [] [] [] [] [] [] []]; cbn -[read_body]; reflexivity. Qed.
Lemma read_body_escape_char c r :
  read_body (escape_char c +:+ r) = if log_safe c then r ← read_body r; Some (String c (fst r), snd r) else None.
Proof. destruct c as [[] [] [] [] [] [] [] []]; cbn -[read_body]; reflexivity. Qed.

Lemma read_body_EscapeJson s rest :
  read_body (EscapeJson s +:+ String dquote rest) = if sall json_safe s then Some (s, rest) else None.
Proof.
  induction s as [|c s IH]; [done|]. cbn [EscapeJson sall]. rewrite sapp_assoc, read_body_EscapeJson_char, IH.
  by destruct (json_safe c), (sall json_safe s).
Qed.
Lemma read_body_escape s rest :
  read_body (escape s +:+ String dquote rest) = if sall log_safe s then Some (s, rest) else None.
Proof.
  induction s as [|c s IH]; [done|]. cbn [escape sall]. rewrite sapp_assoc, read_body_escape_char, IH.
  by destruct (log_safe c), (sall log_safe s).
Qed.

Lemma gives_EscapeJson s :
  gives (jstr (EscapeJson s)) (if sall json_safe s then Some (JString s) else None).
Proof.
  intros [|fuel] rest _ Hf; [cbn in Hf; lia|]. unfold jstr. rewrite !sapp_assoc. cbn -[read_body].
  rewrite read_body_EscapeJson. by destruct (sall json_safe s).
Qed.
Lemma gives_escape s : gives (jstr (escape s)) (if sall log_safe s then Some (JString s) else None).
Proof.
  intros [|fuel] rest _ Hf; [cbn in Hf; lia|]. unfold jstr. rewrite !sapp_assoc. cbn -[read_body].
  rewrite read_body_escape. by destruct (sall log_safe s).
Qed.
(** A string of the source, with nothing to escape. *)
Lemma gives_plain s : EscapeJson s = s -> sall json_safe s = true -> gives (jstr s) (Some (JString s)).
Proof. intros E H. rewrite <- E at 1. pose proof (gives_EscapeJson s) as G. by rewrite H in G. Qed.

(** *** Numbers *)

(** The integer part of a number: digits, and no leading zero. *)
Definition int_ok (t : string) : bool :=
  digits1 t && (String.eqb t "0" || match expect "0"%char t with Some _ => false | None => true end).

Lemma norm_int_ok (d : Decimal.uint) : Decimal.unorm d = d -> int_ok (NilZero.string_of_uint d) = true.
Proof.
  intros H. destruct (nilzero_digits d) as (H1 & H2 & _). unfold int_ok, digits1. rewrite H1, H2. cbn [negb andb].
  destruct d as [|d|d|d|d|d|d|d|d|d|d]; try done. cbn [Decimal.unorm] in H. rewrite unorm_D0 in H.
  unfold Decimal.unorm in H. destruct (Decimal.nzhead d) as [|e|e|e|e|e|e|e|e|e|e] eqn:E; try done;
    [by injection H as <-|by apply nzhead_nonzero in E].
Qed.
Lemma to_uint_int_ok p : int_ok (NilZero.string_of_uint (Pos.to_uint p)) = true.
Proof.
  apply norm_int_ok. change (Pos.to_uint p) with (N.to_uint (Npos p)).
  rewrite <- DecimalN.Unsigned.to_of. by rewrite DecimalN.Unsigned.of_to.
Qed.
Lemma of_Z_int z : exists t, int_ok t = true /\ of_Z z = (if (z <? 0)%Z then "-" else "") +:+ t.
Proof.
  destruct z as [|p|p]; [by exists "0"|exists (NilZero.string_of_uint (Pos.to_uint p))..];
    (split; [apply to_uint_int_ok|done]).
Qed.

Definition stops (p : ascii -> bool) (s : string) : Prop :=
  match s with String c _ => p c = false | "" => True end.
Lemma take_while_app p a b : sall p a = true -> stops p b -> take_while p (a +:+ b) = a.
Proof.
  intros Ha Hb. induction a as [|c a IH].
  - destruct b as [|c b]; [done|]. cbn in *. by rewrite Hb.
  - cbn in *. apply andb_true_iff in Ha as [-> Ha]. by rewrite IH.
Qed.
Lemma drop_while_stop p a b : sall p a = true -> stops p b -> drop_while p (a +:+ b) = b.
Proof. intros Ha Hb. rewrite drop_while_app_blank by done. destruct b as [|c b]; [done|]. cbn in *. by rewrite Hb. Qed.

Lemma unsigned_ok_app t tail :
  int_ok t = true -> stops is_digit tail -> unsigned_ok (t +:+ tail) = fraction_ok tail.
Proof.
  unfold int_ok, digits1. intros [[Hne Hd]%andb_true_iff Hz]%andb_true_iff Hs. unfold unsigned_ok.
  destruct (String.eqb_spec t "0") as [->|H0]; [reflexivity|]. destruct (expect "0" t) eqn:E; [discriminate Hz|].
  assert (expect "0" (t +:+ tail) = None) as ->.
  { destruct t as [|c t]; [done|]. cbn [expect String.app] in *. destruct (Ascii.eqb "0" c); congruence. }
  rewrite take_while_app, drop_while_stop by done. by rewrite Hne.
Qed.
Lemma int_ok_first t tail : int_ok t = true -> expect "-"%char (t +:+ tail) = None.
Proof.
  unfold int_ok, digits1. intros [[Hne Hd]%andb_true_iff _]%andb_true_iff. destruct t as [|c t]; [done|].
  cbn [sall expect String.app] in *. apply andb_true_iff in Hd as [Hc _]. by destruct (Ascii.eqb_spec "-" c) as [<-|].
Qed.
(** A sign, an integer part and a fraction. *)
Lemma number_ok_parts (neg : bool) t tail :
  int_ok t = true -> stops is_digit tail -> number_ok ((if neg then "-" else "") +:+ t +:+ tail) = fraction_ok tail.
Proof.
  intros Ht Hs. unfold number_ok. destruct neg.
  - change (expect "-" ("-" +:+ t +:+ tail)) with (Some (t +:+ tail)). by apply unsigned_ok_app.
  - change ("" +:+ t +:+ tail) with (t +:+ tail). rewrite int_ok_first by done. by apply unsigned_ok_app.
Qed.

Lemma sall_number_digits t : sall is_digit t = true -> sall number_char t = true.
Proof. apply sall_impl. intros c Hc. unfold number_char. by rewrite Hc. Qed.
Lemma int_ok_digits t : int_ok t = true -> sall is_digit t = true /\ t <> "".
Proof. unfold int_ok, digits1. intros [[Hne Hd]%andb_true_iff _]%andb_true_iff. split; [done|]. by intros ->. Qed.

Definition number_text (t : string) : Prop := number_ok t = true /\ sall number_char t = true /\ t <> "".
Lemma number_text_parts (neg : bool) t tail :
  int_ok t = true -> stops is_digit tail -> fraction_ok tail = true -> sall number_char tail = true ->
  number_text ((if neg then "-" else "") +:+ t +:+ tail).
Proof.
  intros Ht Hs Hf Hn. destruct (int_ok_digits t Ht) as [Hd Hne]. split; [by rewrite number_ok_parts|]. split.
  - rewrite !sall_app, (sall_number_digits t) by done. destruct neg; cbn; by rewrite Hn.
  - destruct neg, t; done.
Qed.
Lemma number_text_of_Z z : number_text (of_Z z).
Proof.
  destruct (of_Z_int z) as (t & Ht & ->). rewrite <- (sapp_nil_r t). by apply number_text_parts.
Qed.

Lemma sall_drop_while_end p q s : sall p s = true -> sall p (drop_while_end q s) = true.
Proof.
  induction s as [|c s IH]; [done|]. cbn. intros [Hc Hs]%andb_true_iff. specialize (IH Hs).
  destruct (drop_while_end q s) as [|d r]; [destruct (q c); cbn; by rewrite ?Hc|]. cbn in *. by rewrite Hc, IH.
Qed.
Lemma last_char_tail a b : b <> "" -> last_char (a +:+ b) = last_char b.
Proof.
  intros Hb. induction a as [|c a IH]; [done|]. change (String c a +:+ b) with (String c (a +:+ b)).
  cbn [last_char]. rewrite <- IH. destruct (a +:+ b) eqn:E; [|done]. by destruct a, b.
Qed.
Lemma last_char_some c s : last_char (String c s) = None -> False.
Proof. revert c. induction s as [|d s IH]; intros c; [done|]. apply (IH d). Qed.
Lemma last_char_all p s c : sall p s = true -> last_char s = Some c -> p c = true.
Proof.
  induction s as [|d s IH]; [done|]. cbn. intros [Hd Hs]%andb_true_iff. destruct s; [by intros [= <-]|by apply IH].
Qed.

Lemma pad_left_digits n s : sall is_digit s = true -> s <> "" ->
  sall is_digit (Double.pad_left n s) = true /\ Double.pad_left n s <> "".
Proof.
  intros Hd Hne. induction n as [|n [IH1 IH2]]; [done|]. cbn [Double.pad_left]. by destruct (Nat.ltb _ _).
Qed.

Definition finite (v : double) : bool := match v with S754_zero _ | S754_finite _ _ _ => true | _ => false end.

(** The text of a finite number after the compaction of [FormatDouble]. *)
Lemma compact_number (neg : bool) t fr :
  int_ok t = true -> sall is_digit fr = true ->
  let s := drop_while_end (fun c => Ascii.eqb c "0"%char) ((if neg then "-" else "") +:+ t +:+ String "." fr) in
  number_text (match last_char s with
               | Some c => if Ascii.eqb c "."%char then pop_back s else s
               | None => s
               end).
Proof.
  intros Ht Hf. cbv zeta. rewrite <- sapp_assoc, drop_while_end_app by done.
  set (fr' := drop_while_end _ fr). assert (sall is_digit fr' = true) as Hf' by by apply sall_drop_while_end.
  set (a := _ +:+ t). destruct fr' as [|c r] eqn:E.
  - change (String "." "") with (chr "."). rewrite (last_char_app a "."%char). cbn [Ascii.eqb Bool.eqb].
    pose proof (pop_last (a +:+ chr ".") "." (last_char_app a "."%char)) as Hp. apply sapp_inj_r in Hp. rewrite <- Hp.
    unfold a. rewrite <- (sapp_nil_r t). by apply number_text_parts.
  - change (String "." (String c r)) with ("." +:+ String c r). rewrite <- sapp_assoc, last_char_tail by done.
    destruct (last_char (String c r)) as [d|] eqn:El; [|by apply last_char_some in El]. apply (last_char_all is_digit) in El; [|done].
    destruct (Ascii.eqb_spec d ".") as [->|]; [done|]. unfold a. rewrite !sapp_assoc. apply number_text_parts; try done.
    + change (fraction_ok ("." +:+ String c r)) with
        (negb (is_empty (take_while is_digit (String c r))) && exponent_ok (drop_while is_digit (String c r))).
      by rewrite take_while_all, drop_while_blank.
    + exact (sall_number_digits _ Hf').
Qed.

Lemma FormatDouble_number v : finite v = true -> number_text (FormatDouble v).
Proof.
  intros Hv. unfold FormatDouble. destruct (Double.eq v _) eqn:Eq; [apply number_text_of_Z|].
  destruct v as [b| | |neg m e]; try done.
  unfold Double.to_string, Double.fixed, Double.fixed_pos.
  set (n := if (0 <=? e)%Z then _ else _). set (ip := (n / _)%Z). set (fp := (n mod _)%Z).
  assert (0 <= n)%Z as Hn.
  { unfold n. destruct (Z.leb_spec 0 e); [nia|]. unfold Double.round_half_even.
    assert (0 <= Z.pos m * 10 ^ Z.of_nat 6 / 2 ^ (- e))%Z by (apply Z.div_pos; lia).
    repeat case_match; lia. }
  assert (0 <= ip)%Z as Hip by (apply Z.div_pos; lia).
  destruct (of_Z_int ip) as (t & Ht & ->). rewrite (proj2 (Z.ltb_ge ip 0)) by lia.
  change ("" +:+ t) with t. change ("." +:+ ?x) with (String "." x).
  apply compact_number; [done|]. destruct (of_Z_int fp) as (u & Hu & ->).
  pose proof (Z.mod_pos_bound n (10 ^ Z.of_nat 6) ltac:(done)). rewrite (proj2 (Z.ltb_ge fp 0)) by (unfold fp; lia).
  apply int_ok_digits in Hu as [Hu1 Hu2]. by apply pad_left_digits.
Qed.

Lemma read_number fuel c r :
  number_char c = true ->
  read_value (S fuel) (String c r) =
  let lit := take_while number_char (String c r) in
  if number_ok lit then Some (JNumber lit, drop_while number_char (String c r)) else None.
Proof. intros H. destruct c as [[] [] [] [] [] [] [] []]; try discriminate H; reflexivity. Qed.

Lemma gives_number t : number_text t -> gives t (Some (JNumber t)).
Proof.
  intros (Hok & Hall & Hne) [|fuel] rest Hc Hf; [destruct t; [done|cbn in Hf; lia]|]. destruct t as [|c t]; [done|].
  change (String c t +:+ rest) with (String c (t +:+ rest)).
  rewrite read_number by by apply andb_true_iff in Hall as [-> _]. cbv zeta.
  change (String c (t +:+ rest)) with (String c t +:+ rest).
  assert (stops number_char rest) as Hs by by destruct rest.
  rewrite take_while_app, drop_while_stop by done. by rewrite Hok.
Qed.
Lemma gives_of_Z z : gives (of_Z z) (Some (JNumber (of_Z z))).
Proof. apply gives_number, number_text_of_Z. Qed.
Lemma gives_bool b : gives (of_bool b) (Some (JBool b)).
Proof. intros [|fuel] rest _ Hf; [destruct b; cbn in Hf; lia|]. by destruct b, rest. Qed.

(** [FormatDouble] writes JSON exactly for finite numbers. *)
Lemma gives_FormatDouble v : gives (FormatDouble v) (if finite v then Some (JNumber (FormatDouble v)) else None).
Proof.
  destruct (finite v) eqn:E; [by apply gives_number, FormatDouble_number|].
  destruct v as [b|b| |b m e]; try discriminate E; [destruct b|];
    (intros [|fuel] rest Hc Hf; [vm_compute in Hf; lia|]); [|done..].
  change (FormatDouble (S754_infinity true)) with "-inf". cbn.
  destruct (number_ok _) eqn:En; [discriminate En|done].
Qed.

(** *** Objects and arrays *)
Lemma expect_same c r : expect c (String c r) = Some r.
Proof. cbn. by rewrite Ascii.eqb_refl. Qed.

(** What a key reads as: itself when there is nothing to escape in it. *)
Definition key_reads (k : string) (o : option string) : Prop :=
  forall rest, read_body (k +:+ String dquote rest) = (fun x => (x, rest)) <$> o.
Definition plain (k : string) : Prop := EscapeJson k = k /\ sall json_safe k = true.
Lemma key_EscapeJson s : key_reads (EscapeJson s) (if sall json_safe s then Some s else None).
Proof. intros rest. rewrite read_body_EscapeJson. by destruct (sall json_safe s). Qed.
Lemma key_plain k : plain k -> key_reads k (Some k).
Proof. intros [E H]. pose proof (key_EscapeJson k) as G. by rewrite E, H in G. Qed.

Lemma read_key_member k o t rest :
  key_reads k o -> read_key (member (k, t) +:+ rest) = (fun x => (x, t +:+ rest)) <$> o.
Proof.
  intros Hk. unfold read_key, member, jstr. cbn [fst snd]. rewrite !sapp_assoc.
  change (dq +:+ ":" +:+ t +:+ rest) with (String dquote (":" +:+ t +:+ rest)).
  change (dq +:+ k +:+ String dquote (":" +:+ t +:+ rest)) with (String dquote (k +:+ String dquote (":" +:+ t +:+ rest))).
  rewrite expect_same. cbn [mbind option_bind]. rewrite Hk. by destruct o.
Qed.

Lemma sjoin_cons (sep x y : string) l : sjoin sep (x :: y :: l) = x +:+ sep +:+ sjoin sep (y :: l).
Proof. done. Qed.

(** A field of an object: the text of its key and of its value, and what the
    two read as. *)
Definition field : Type := string * string * option (string * json).
Definition text_of (m : field) : string * string := fst m.
Definition field_ok (m : field) : Prop :=
  exists k v, key_reads (fst (fst m)) k /\ gives (snd (fst m)) v /\ snd m = (k ← k; v ← v; Some (k, v)).

Lemma read_members_gives (l : list field) fuel rest :
  l <> [] -> Forall field_ok l -> String.length (sjoin "," (map member (map text_of l))) < fuel ->
  read_members fuel (sjoin "," (map member (map text_of l)) +:+ "}" +:+ rest) =
  (fun ms => (ms, rest)) <$> mapM snd l.
Proof.
  intros Hne H. revert fuel. induction H as [|[[k t] o] l (ko & vo & Hk & Ht & E) Hl IH]; intros [|fuel]; [done| |lia|]; [done|].
  cbn [snd] in E. subst o. cbn [map fst snd text_of] in *. clear Hne. destruct l as [|m l].
  - cbn [sjoin String.concat map]. intros Hf. cbn [read_members]. rewrite (read_key_member k ko) by done.
    destruct ko as [x|]; [|done]. cbn [fmap option_fmap option_map mbind option_bind snd fst].
    unfold member in Hf. cbn [fst snd] in Hf. rewrite !slength_app in Hf.
    rewrite (Ht fuel ("}" +:+ rest)) by (done || cbn in Hf |- *; lia). by destruct vo.
  - cbn [map]. rewrite sjoin_cons. intros Hf. rewrite !sapp_assoc. cbn [read_members].
    rewrite (read_key_member k ko) by done. destruct ko as [x|]; [|done].
    cbn [fmap option_fmap option_map mbind option_bind snd fst].
    unfold member at 1 in Hf. cbn [fst snd] in Hf. rewrite !slength_app in Hf. cbn [String.length] in Hf.
    rewrite (Ht fuel) by (done || lia). destruct vo as [v|]; [|done].
    cbn [fmap option_fmap option_map mbind option_bind snd fst]. change ("," +:+ ?x) with (String "," x).
    rewrite expect_same. cbn [map] in IH. rewrite IH by (done || lia).
    destruct (mapM snd (m :: l)) as [ms|] eqn:E; cbn [mapM fst snd] in *; by rewrite ?E.
Qed.

Lemma read_open_brace fuel r :
  read_value (S fuel) ("{" +:+ r) =
  match expect "}"%char r with
  | Some r => Some (JObject [], r)
  | None => m ← read_members fuel r; Some (JObject (fst m), snd m)
  end.
Proof. done. Qed.
Lemma read_open_bracket fuel r :
  read_value (S fuel) ("[" +:+ r) =
  match expect "]"%char r with
  | Some r => Some (JArray [], r)
  | None => m ← read_elements fuel r; Some (JArray (fst m), snd m)
  end.
Proof. done. Qed.

Lemma gives_object (l : list field) :
  Forall field_ok l -> gives (jobject (map text_of l)) (JObject <$> mapM snd l).
Proof.
  intros H [|fuel] rest _ Hf; [cbn in Hf; lia|]. unfold jobject in *. rewrite !sapp_assoc. rewrite !slength_app in Hf.
  cbn [String.length] in Hf. destruct l as [|[[k t] o] l]; [done|].
  rewrite read_open_brace.
  match goal with |- context [expect ?c ?x] => assert (expect c x = None) as -> by by destruct l end.
  rewrite read_members_gives by (done || lia). by destruct (mapM snd _).
Qed.

Lemma read_elements_gives (l : list (string * option json)) fuel rest :
  l <> [] -> Forall (fun m => gives (fst m) (snd m)) l -> String.length (sjoin "," (map fst l)) < fuel ->
  read_elements fuel (sjoin "," (map fst l) +:+ "]" +:+ rest) = (fun vs => (vs, rest)) <$> mapM snd l.
Proof.
  intros Hne H. revert fuel. induction H as [|[t o] l Ht Hl IH]; intros [|fuel]; [done| |lia|]; [done|].
  cbn [map fst snd] in *. clear Hne. destruct l as [|m l].
  - cbn [sjoin String.concat map]. intros Hf. cbn [read_elements].
    rewrite (Ht fuel ("]" +:+ rest)) by (done || lia). by destruct o.
  - cbn [map]. rewrite sjoin_cons. intros Hf. rewrite !sapp_assoc. cbn [read_elements].
    rewrite !slength_app in Hf. cbn [String.length] in Hf.
    rewrite (Ht fuel) by (done || lia). cbn [mapM fst snd]. destruct o as [v|]; [|done].
    cbn [fmap option_fmap option_map mbind option_bind snd fst]. change ("," +:+ ?x) with (String "," x).
    rewrite expect_same. cbn [map] in IH. rewrite IH by (done || lia).
    destruct (mapM snd (m :: l)) as [ms|] eqn:E; cbn [mapM fst snd] in *; by rewrite ?E.
Qed.
Lemma gives_list (l : list (string * option json)) :
  Forall (fun m => gives (fst m) (snd m) /\ expect "]"%char (fst m) = None /\ fst m <> "") l ->
  gives (jlist (map fst l)) (JArray <$> mapM snd l).
Proof.
  intros H [|fuel] rest _ Hf; [cbn in Hf; lia|]. unfold jlist in *. rewrite !sapp_assoc. rewrite !slength_app in Hf.
  cbn [String.length] in Hf. destruct l as [|[t o] l]; [done|].
  rewrite read_open_bracket.
  match goal with |- context [expect ?c ?x] => assert (expect c x = None) as -> end.
  { apply Forall_cons in H as [(_ & H & Hne) _]. destruct t as [|c t]; [done|].
    cbn [expect fst] in H. destruct (Ascii.eqb "]" c) eqn:E; [discriminate H|].
    destruct l; cbn -[Ascii.eqb]; by rewrite E. }
  rewrite read_elements_gives; [by destruct (mapM snd _)|done| |lia].
  eapply Forall_impl; [exact H|]. by intros m [? _].
Qed.
Lemma jobject_first l : expect "]"%char (jobject l) = None /\ jobject l <> "".
Proof. done. Qed.
End JsonRead.
