(* ===== verification/JsonSpec.v ===== *)
(** * JsonSpec: the JSON texts of the collector, read back

    The collector writes the list of agents ([AgentRegistry::DumpAgents]), the
    alert history, the active alerts and the notifications sent to a webhook
    by concatenating strings.  For each of them the theorem says exactly what a
    JSON reader makes of it: all its data, or nothing when a text holds a
    control character that is not escaped or a number is not finite. *)
From stdpp Require Import base gmap strings list.
From Stdlib Require Import ZArith Lia.
From S2P Require Import Prelude Double Proto Text Json AgentRegistry AlertRule AlertManager Schedules Storage JsonRead.
Import Str Text JsonRead.
#[local] Open Scope string_scope.
#[local] Open Scope list_scope.

(** ** Objects by their fields

    A field as the code writes it: its key, the text of its value, whether that
    text is JSON, and the value it then stands for. *)
Record written : Type := mkWritten { w_key : string; w_text : string; w_ok : bool; w_value : json }.

Definition log_field (k s : string) : written := mkWritten k (jstr (escape s)) (sall log_safe s) (JString s).
Definition data_field (k s : string) : written := mkWritten k (jstr (EscapeJson s)) (sall json_safe s) (JString s).
Definition int_field (k : string) (z : Z) : written := mkWritten k (of_Z z) true (JNumber (of_Z z)).
Definition real_field (k : string) (v : double) : written :=
  mkWritten k (FormatDouble v) (finite v) (JNumber (FormatDouble v)).
Definition bool_field (k : string) (b : bool) : written := mkWritten k (of_bool b) true (JBool b).
Definition value_field (k : string) (t : string) (ok : bool) (v : json) : written := mkWritten k t ok v.

Definition reads_as (t : string) (ok : bool) (v : json) : Prop := gives t (if ok then Some v else None).
Definition written_ok (w : written) : Prop := plain (w_key w) /\ reads_as (w_text w) (w_ok w) (w_value w).
Lemma log_field_ok k s : plain k -> written_ok (log_field k s).
Proof. intros H. split; [done|]. apply gives_escape. Qed.
Lemma data_field_ok k s : plain k -> written_ok (data_field k s).
Proof. intros H. split; [done|]. apply gives_EscapeJson. Qed.
Lemma int_field_ok k z : plain k -> written_ok (int_field k z).
Proof. intros H. split; [done|]. apply gives_of_Z. Qed.
Lemma real_field_ok k v : plain k -> written_ok (real_field k v).
Proof. intros H. split; [done|]. apply gives_FormatDouble. Qed.
Lemma bool_field_ok k b : plain k -> written_ok (bool_field k b).
Proof. intros H. split; [done|]. apply gives_bool. Qed.
Create HintDb json.
#[export] Hint Resolve log_field_ok data_field_ok int_field_ok real_field_ok bool_field_ok : json.
#[export] Hint Extern 1 (plain _) => split; reflexivity : json.
#[export] Hint Extern 2 (Forall written_ok _) => repeat (apply Forall_cons; split); [.. | apply Forall_nil_2] : json.

(** An object: its text, whether all of it is JSON, and its value. *)
Definition text (l : list written) : string := jobject (map (fun w => (w_key w, w_text w)) l).
Definition ok (l : list written) : bool := forallb w_ok l.
Definition value (l : list written) : json := JObject (map (fun w => (w_key w, w_value w)) l).

Lemma mapM_if {A B C} (f : B -> option C) (h : A -> B) (p : A -> bool) (g : A -> C) l :
  (forall x, f (h x) = if p x then Some (g x) else None) ->
  mapM f (map h l) = if forallb p l then Some (map g l) else None.
Proof.
  intros H. induction l as [|x l IH]; [done|]. cbn [mapM forallb map]. rewrite H, IH.
  by destruct (p x), (forallb p l).
Qed.

Lemma forallb_permutation {A} (p : A -> bool) (l k : list A) : l ≡ₚ k -> forallb p l = forallb p k.
Proof.
  intros H. apply eq_true_iff_eq. rewrite !forallb_forall.
  split; intros Hp x Hx%list_elem_of_In; apply Hp, list_elem_of_In; [by rewrite H|by rewrite <- H].
Qed.

Definition field_of (w : written) : field := (w_key w, w_text w, if w_ok w then Some (w_key w, w_value w) else None).
Lemma reads_text l : Forall written_ok l -> reads_as (text l) (ok l) (value l).
Proof.
  intros H. pose proof (gives_object (map field_of l)) as G. rewrite map_map in G.
  unfold reads_as, text, ok, value. rewrite (mapM_if _ _ w_ok (fun w => (w_key w, w_value w))) in G.
  - assert (Forall field_ok (map field_of l)) as F; [|specialize (G F); by destruct (forallb w_ok l)].
    apply Forall_map. eapply Forall_impl; [exact H|]. intros w [Hk Ht]. do 2 eexists.
    split; [by apply key_plain|]. split; [exact Ht|]. cbn. by destruct (w_ok w).
  - done.
Qed.
Lemma reads_texts (ls : list (list written)) :
  Forall (Forall written_ok) ls -> reads_as (jlist (map text ls)) (forallb ok ls) (JArray (map value ls)).
Proof.
  intros H. pose proof (gives_list (map (fun l => (text l, if ok l then Some (value l) else None)) ls)) as G.
  rewrite map_map in G. cbn [fst] in G. rewrite (mapM_if _ _ ok value) in G by (intros l; by destruct (ok l)).
  unfold reads_as. destruct (forallb ok ls); apply G, Forall_map; (eapply Forall_impl; [exact H|]); intros l Hl;
    (split; [by apply reads_text|apply jobject_first]).
Qed.
Lemma reads_read t b v : reads_as t b v -> read t = if b then Some v else None.
Proof. intros H. by apply read_gives. Qed.

(** An object written by hand is the text of its fields. *)
Ltac hand_written :=
  unfold text, jobject, jlist, log_field, data_field, int_field, real_field, bool_field;
  cbn [map w_key w_text fst snd sjoin String.concat]; unfold member, jstr; cbn [fst snd];
  repeat rewrite sapp_assoc; reflexivity.

(** ** The list of agents *)
Module Agents.
Import AgentRegistry.AgentRegistry.

Definition agent_fields (now : Z) (e : AgentEntry) : list written :=
  [log_field "agent_id" (agent_id e); int_field "last_seen_unix_ms" (last_seen_unix_ms e);
   int_field "interval_ms" (interval_ms e); log_field "version" (version e);
   log_field "diagnostic_endpoint" (diagnostic_endpoint e); int_field "first_seen_unix_ms" (first_seen_unix_ms e);
   bool_field "alive" (fresh now 30000 e)].
Lemma agent_json_text now e : agent_json now e = text (agent_fields now e).
Proof. unfold agent_json, agent_fields. hand_written. Qed.
Lemma agent_fields_ok now e : Forall written_ok (agent_fields now e).
Proof. auto with json. Qed.

(** No control character that [escape] leaves as it is. *)
Definition presentable (e : AgentEntry) : bool :=
  sall log_safe (agent_id e) && sall log_safe (version e) && sall log_safe (diagnostic_endpoint e).
Definition agent_value (now : Z) (e : AgentEntry) : json :=
  JObject [("agent_id", JString (agent_id e)); ("last_seen_unix_ms", JNumber (of_Z (last_seen_unix_ms e)));
           ("interval_ms", JNumber (of_Z (interval_ms e))); ("version", JString (version e));
           ("diagnostic_endpoint", JString (diagnostic_endpoint e));
           ("first_seen_unix_ms", JNumber (of_Z (first_seen_unix_ms e))); ("alive", JBool (fresh now 30000 e))].
Lemma agent_ok now e : ok (agent_fields now e) = presentable e.
Proof. unfold ok, presentable. cbn. by rewrite !andb_true_r, andb_assoc. Qed.

Section Iteration.
Variable iter : gmap string AgentEntry -> list (string * AgentEntry).
Hypothesis iter_ok : forall m, Lists.iteration_of m (iter m).

Lemma DumpAgents_text now s :
  DumpAgents iter now s =
  text [value_field "agents" (jlist (map text (map (fun p => agent_fields now (snd p)) (iter (m_agents s))))) true JNull].
Proof.
  unfold DumpAgents. rewrite map_map.
  rewrite (map_ext (fun p => agent_json now (snd p)) (fun p => text (agent_fields now (snd p)))
             (fun p => agent_json_text now (snd p))).
  set (l := map _ _). rewrite sep_loop_join. destruct l as [|x l]; [hand_written|].
  unfold jlist, value_field. generalize (sjoin "," (x :: l)). intros body. hand_written.
Qed.

(** Claim C33: what the list of agents is.  The text [DumpAgents] writes is
    read back by a JSON reader as exactly one object per registered agent, with
    all its fields, as long as no agent sent a control character other than
    newline and tab in its id, version or diagnostic endpoint; a single agent
    that did so makes the whole list unreadable, and with it the list of agents
    the dashboard shows. *)
Theorem DumpAgents_reads_back (now : Z) (s : state) :
  read (DumpAgents iter now s) =
  if forallb (fun p => presentable (snd p)) (map_to_list (m_agents s))
  then Some (JObject [("agents", JArray (map (fun p => agent_value now (snd p)) (iter (m_agents s))))])
  else None.
Proof.
  rewrite DumpAgents_text. set (l := iter (m_agents s)).
  assert (forallb (fun p => presentable (snd p)) (map_to_list (m_agents s)) = forallb (fun p => presentable (snd p)) l) as ->.
  { apply forallb_permutation. symmetry. apply (iter_ok (m_agents s)). }
  set (ls := map (fun p => agent_fields now (snd p)) l).
  assert (Forall (Forall written_ok) ls) as Hls by (apply Forall_map, Forall_true; intros; apply agent_fields_ok).
  pose proof (reads_text [value_field "agents" (jlist (map text ls)) (forallb ok ls) (JArray (map value ls))]) as G.
  erewrite reads_read; [|apply G, Forall_cons; split; [|apply Forall_nil_2]; split; [split; reflexivity|by apply reads_texts]].
  assert (ok [value_field "agents" (jlist (map text ls)) (forallb ok ls) (JArray (map value ls))] =
          forallb (fun p => presentable (snd p)) l) as ->.
  { unfold ok at 1. cbn [forallb value_field w_ok]. rewrite andb_true_r. unfold ls.
    generalize l as k. clear. induction k as [|p k IH]; [done|]. cbn [map forallb]. rewrite agent_ok. by f_equal. }
  unfold ls. by rewrite !map_map.
Qed.
End Iteration.

Lemma DumpAgents_reads_back_witness :
  read (DumpAgents map_to_list 5000
          (mkState {[ "a" := mkEntry "a" 1000 2000 "v1" 1000 "10.0.0.1:50052" ]} 1)) =
  Some (JObject [("agents", JArray
    [agent_value 5000 (mkEntry "a" 1000 2000 "v1" 1000 "10.0.0.1:50052")])]).
Proof. rewrite (DumpAgents_reads_back map_to_list (fun m => reflexivity _)). vm_compute. reflexivity. Defined.
End Agents.

(** ** Alerts *)
Module Alerts.
Import AlertRule.AlertRule AlertManager.AlertManager.

Definition record_fields (r : AlertRecord) : list written :=
  [data_field "rule_id" (rec_rule_id r); data_field "rule_name" (rec_rule_name r);
   data_field "agent_id" (rec_agent_id r); data_field "check_type" (rec_check_type r);
   data_field "target" (rec_target r); data_field "severity" (rec_severity r); data_field "status" (rec_status r);
   real_field "value" (rec_value r); real_field "threshold" (rec_threshold r); data_field "detail" (rec_detail r);
   int_field "time_ms" (rec_time_ms r)].
Definition notification_fields (n : AlertNotification) : list written :=
  [data_field "rule_id" (n_rule_id n); data_field "rule_name" (n_rule_name n); data_field "severity" (n_severity n);
   data_field "agent_id" (n_agent_id n); data_field "check_type" (n_check_type n); data_field "target" (n_target n);
   data_field "status" (n_status n); data_field "detail" (n_detail n); real_field "value" (n_value n);
   real_field "threshold" (n_threshold n); int_field "time_ms" (n_time_ms n)].
Lemma ToJson_text r : ToJson r = text (record_fields r).
Proof. unfold ToJson, record_fields. hand_written. Qed.
Lemma NotificationToJson_text n : NotificationToJson n = text (notification_fields n).
Proof. unfold NotificationToJson, WriteField, notification_fields. hand_written. Qed.
Lemma record_fields_ok r : Forall written_ok (record_fields r).
Proof. auto with json. Qed.
Lemma notification_fields_ok n : Forall written_ok (notification_fields n).
Proof. auto with json. Qed.

(** What each text stands for, and when it is JSON. *)
Definition record_value (r : AlertRecord) : json :=
  JObject [("rule_id", JString (rec_rule_id r)); ("rule_name", JString (rec_rule_name r));
           ("agent_id", JString (rec_agent_id r)); ("check_type", JString (rec_check_type r));
           ("target", JString (rec_target r)); ("severity", JString (rec_severity r));
           ("status", JString (rec_status r)); ("value", JNumber (FormatDouble (rec_value r)));
           ("threshold", JNumber (FormatDouble (rec_threshold r))); ("detail", JString (rec_detail r));
           ("time_ms", JNumber (of_Z (rec_time_ms r)))].
Definition record_ok (r : AlertRecord) : bool :=
  forallb (sall json_safe)
    [rec_rule_id r; rec_rule_name r; rec_agent_id r; rec_check_type r; rec_target r; rec_severity r; rec_status r;
     rec_detail r] && finite (rec_value r) && finite (rec_threshold r).
Lemma record_fields_value r : ok (record_fields r) = record_ok r /\ value (record_fields r) = record_value r.
Proof. split; [|done]. unfold ok, record_ok. cbn. destruct (sall json_safe (rec_detail r)); by rewrite ?andb_true_r, ?andb_false_r, <- ?andb_assoc. Qed.

Definition notification_value (n : AlertNotification) : json :=
  JObject [("rule_id", JString (n_rule_id n)); ("rule_name", JString (n_rule_name n));
           ("severity", JString (n_severity n)); ("agent_id", JString (n_agent_id n));
           ("check_type", JString (n_check_type n)); ("target", JString (n_target n));
           ("status", JString (n_status n)); ("detail", JString (n_detail n));
           ("value", JNumber (FormatDouble (n_value n))); ("threshold", JNumber (FormatDouble (n_threshold n)));
           ("time_ms", JNumber (of_Z (n_time_ms n)))].
Definition notification_ok (n : AlertNotification) : bool :=
  forallb (sall json_safe)
    [n_rule_id n; n_rule_name n; n_severity n; n_agent_id n; n_check_type n; n_target n; n_status n; n_detail n] &&
  finite (n_value n) && finite (n_threshold n).
Lemma notification_reads_as n : reads_as (NotificationToJson n) (notification_ok n) (notification_value n).
Proof.
  rewrite NotificationToJson_text. assert (notification_ok n = ok (notification_fields n)) as ->.
  { unfold ok, notification_ok. cbn. by rewrite !andb_true_r, <- !andb_assoc. }
  apply reads_text, notification_fields_ok.
Qed.

(** An active alert, with the rule that may be gone by now. *)
Definition active_fields (rules : list AlertRule) (rule_id agent target : string) (st : FiringState) : list written :=
  let rule := FindRule rules rule_id in
  [data_field "rule_id" rule_id;
   data_field "rule_name" (match rule with Some r => name r | None => rule_id end);
   data_field "severity" (match rule with Some r => severity r | None => "unknown" end);
   data_field "agent_id" agent; data_field "target" target; real_field "value" (last_value st);
   match rule with Some r => real_field "threshold" (threshold r) | None => int_field "threshold" 0 end;
   bool_field "acknowledged" (acknowledged st); int_field "fired_ms" (first_fired_ms st)].
Lemma active_text rules rid agent t st : active_alert_json rules rid agent t st = text (active_fields rules rid agent t st).
Proof. unfold active_alert_json, active_fields. destruct (FindRule rules rid); hand_written. Qed.
Lemma active_fields_ok rules rid agent t st : Forall written_ok (active_fields rules rid agent t st).
Proof. unfold active_fields. destruct (FindRule rules rid); auto with json. Qed.

(** The firing states with their keys split. *)
Definition active (s : state) (e : string * FiringState) : option (list written) :=
  if firing (snd e) then
    match split_key (fst e) with
    | Some (rid, agent, t) => Some (active_fields (m_rules s) rid agent t (snd e))
    | None => None
    end
  else None.

Lemma ActiveAlertsJson_text entries s : ActiveAlertsJson entries s = jlist (map text (omap (active s) entries)).
Proof.
  unfold ActiveAlertsJson, jlist. do 3 f_equal. induction entries as [|[k st] l IH]; [done|].
  assert (active s (k, st) = (if AlertManager.firing st
          then '(rid, agent, t) ← split_key k; Some (active_fields (m_rules s) rid agent t st) else None)) as E.
  { unfold active. cbn [fst snd]. destruct (AlertManager.firing st); [|done]. by destruct (split_key k) as [[[? ?] ?]|]. }
  cbn [omap list_omap fst snd]. rewrite E, IH. destruct (AlertManager.firing st); [|done].
  destruct (split_key k) as [[[rid agent] t]|]; [|done]. cbn [mbind option_bind map]. by rewrite active_text.
Qed.
Lemma active_all_ok entries s : Forall (Forall written_ok) (omap (active s) entries).
Proof.
  apply Forall_forall. intros l (e & _ & H)%list_elem_of_omap. unfold active in H.
  destruct (AlertManager.firing _); [|done]. destruct (split_key _) as [[[rid agent] t]|]; [|done].
  injection H as <-. apply active_fields_ok.
Qed.

Definition recent (max_events : nat) (s : state) : list AlertRecord := take max_events (reverse (m_history s)).
Definition active_now (entries : list (string * FiringState)) (s : state) : list (list written) := omap (active s) entries.

(** The alert pages are JSON exactly when their data is.  The alert
    history is read back as its latest records, newest first and at most as
    many as asked for, and the active alerts as exactly the firing states with
    their rule's name, severity and threshold, provided that no text of them
    holds an unescaped control character and every number is finite; otherwise
    the whole page is unreadable. *)
Theorem alert_pages_read_back (max_events : nat) (entries : list (string * FiringState)) (s : state) :
  read (AlertHistoryJson max_events s) =
    (if forallb record_ok (recent max_events s) then Some (JArray (map record_value (recent max_events s))) else None) /\
  read (ActiveAlertsJson entries s) =
    (if forallb ok (active_now entries s) then Some (JArray (map value (active_now entries s))) else None).
Proof.
  split.
  - assert (AlertHistoryJson max_events s = jlist (map text (map record_fields (recent max_events s)))) as ->.
    { unfold AlertHistoryJson, jlist. rewrite map_map. fold (recent max_events s). do 3 f_equal. apply map_ext, ToJson_text. }
    erewrite reads_read; [|apply reads_texts, Forall_map, Forall_true; intros; apply record_fields_ok].
    generalize (recent max_events s). clear. intros l. assert (forallb ok (map record_fields l) = forallb record_ok l) as ->.
    { induction l as [|r l IH]; [done|]. cbn [map forallb]. by rewrite (proj1 (record_fields_value r)), IH. }
    rewrite map_map. by rewrite (map_ext _ _ (fun r => proj2 (record_fields_value r))).
  - rewrite ActiveAlertsJson_text. apply reads_read, reads_texts, active_all_ok.
Qed.
End Alerts.

(** ** The attributes of a metric *)
Module Attributes.
Section Iteration.
Variable iter : gmap string string -> list (string * string).
Hypothesis iter_ok : forall m, Lists.iteration_of m (iter m).

(** No control character that [JsonEscape] leaves as it is. *)
Definition readable (kv : string * string) : bool := sall json_safe kv.1 && sall json_safe kv.2.
Definition storable (m : Metric) : bool := forallb readable (map_to_list (attributes m)).

Definition attribute (kv : string * string) : field :=
  (EscapeJson kv.1, jstr (EscapeJson kv.2), if readable kv then Some (kv.1, JString kv.2) else None).
Lemma attribute_ok kv : field_ok (attribute kv).
Proof.
  do 2 eexists. split; [apply key_EscapeJson|]. split; [apply gives_EscapeJson|].
  unfold attribute, readable. by destruct (sall json_safe kv.1), (sall json_safe kv.2).
Qed.
Lemma attributes_body_text m :
  Timescale.attributes_body iter m = jobject (map text_of (map attribute (iter (attributes m)))).
Proof. unfold Timescale.attributes_body, jobject. rewrite !map_map. do 3 f_equal. apply map_ext. intros kv. hand_written. Qed.

(** What the database is given for the attributes of a metric.  The
    body of the JSONB literal of an INSERT reads back as exactly the attributes
    of the metric, one member each, when none of them holds a control character
    other than newline, carriage return and tab.  With one such character it is
    no JSON, so that the statement, and with it the whole batch, is refused. *)
Theorem attributes_read_back (m : Metric) :
  read (Timescale.attributes_body iter m) =
  if storable m then Some (JObject (map (fun kv => (kv.1, JString kv.2)) (iter (attributes m)))) else None.
Proof.
  rewrite attributes_body_text. erewrite read_gives; [|apply gives_object, Forall_map, Forall_true, attribute_ok].
  rewrite (mapM_if _ _ readable (fun kv => (kv.1, JString kv.2))) by done.
  assert (storable m = forallb readable (iter (attributes m))) as ->.
  { unfold storable. apply forallb_permutation. symmetry. apply iter_ok. }
  by destruct (forallb readable _).
Qed.
End Iteration.

Lemma attributes_read_back_witness :
  read (Timescale.attributes_body map_to_list
          (mkMetric CHECK_TYPE_DNS_RECORD "h" true "" VALUE_NOT_SET None {[ "CNAME" := "a" ]} 0 0)) =
  Some (JObject [("CNAME", JString "a")]).
Proof. rewrite (attributes_read_back map_to_list (fun m => reflexivity _)). vm_compute. reflexivity. Defined.
End Attributes.
