(* ===== verification/Logger.v ===== *)
(** * Logger: the agent's log

    [agent/src/logger.h]: the level, the two context fields of every line, and
    the macros [LOG_DEBUG] to [LOG_ERROR] as one function; standard output is
    the text written so far.  A call holds the mutex while it prints. *)
From stdpp Require Import base strings list.
From Stdlib Require Import ZArith Lia.
From S2P Require Import Prelude Text AgentConfig JsonRead JsonSpec.
Import Str Text JsonRead AgentConfig.AgentConfig.
#[local] Open Scope string_scope.
#[local] Open Scope list_scope.

Module Logger.
Record state : Type := mkState {
  s_level : LogLevel;
  s_node_id : string;
  s_trace_id : string;
  out : string;
}.
Definition initial : state := mkState Info "" "" "".
Definition SetLevel (level : LogLevel) (s : state) : state := mkState level (s_node_id s) (s_trace_id s) (out s).
Definition SetNodeId (id : string) (s : state) : state := mkState (s_level s) id (s_trace_id s) (out s).
Definition SetTraceId (id : string) (s : state) : state := mkState (s_level s) (s_node_id s) id (out s).

Definition number (level : LogLevel) : Z := match level with Debug => 0 | Info => 1 | Warn => 2 | Error => 3 end.
Definition enabled (level : LogLevel) (s : state) : bool := (number (s_level s) <=? number level)%Z.
Definition Name (level : LogLevel) : string :=
  match level with Debug => "debug" | Info => "info" | Warn => "warn" | Error => "error" end.

Definition write (now : Z) (level : LogLevel) (message : string) (s : state) : state :=
  mkState (s_level s) (s_node_id s) (s_trace_id s)
    (out s +:+ write_line (Name level) (s_node_id s) (s_trace_id s) message now).
(** The four macros. *)
Definition LOG (level : LogLevel) (now : Z) (message : string) (s : state) : state :=
  if enabled level s then write now level message s else s.

(** ** What a line says *)
Definition fields (now : Z) (level : LogLevel) (message : string) (s : state) : list written :=
  [int_field "timestamp" now; data_field "level" (Name level); data_field "component" "agent"; log_field "message" message]
  ++ (if is_empty (s_node_id s) then [] else [log_field "agent_id" (s_node_id s)])
  ++ (if is_empty (s_trace_id s) then [] else [log_field "trace_id" (s_trace_id s)]).
Definition body (now : Z) (level : LogLevel) (message : string) (s : state) : string := text (fields now level message s).

Lemma write_line_body now level message s :
  write_line (Name level) (s_node_id s) (s_trace_id s) message now = body now level message s +:+ chr nl.
Proof.
  unfold write_line, body, fields.
  destruct (is_empty (s_node_id s)), (is_empty (s_trace_id s)), level; cbn [app Name]; hand_written.
Qed.
Lemma fields_ok now level message s : Forall written_ok (fields now level message s).
Proof.
  unfold fields. repeat apply Forall_app_2; [|destruct (is_empty _)..]; try apply Forall_nil_2; auto with json.
Qed.

(** *** One line each *)
Lemma escape_one_line s : has_char nl (escape s) = false.
Proof.
  induction s as [|c s IH]; [done|]. cbn [escape]. rewrite has_char_app, IH, orb_false_r.
  destruct c as [[] [] [] [] [] [] [] []]; reflexivity.
Qed.
Lemma of_Z_one_line z : has_char nl (of_Z z) = false.
Proof.
  unfold has_char. rewrite of_Z_chars; [done| |done]. intros c Hc. by destruct (Ascii.eqb_spec nl c) as [<-|].
Qed.
Lemma body_one_line now level message s : has_char nl (body now level message s) = false.
Proof.
  unfold body, fields, text, jobject.
  destruct (is_empty (s_node_id s)), (is_empty (s_trace_id s)), level; cbn [app map w_key w_text int_field data_field log_field sjoin String.concat Name];
    unfold member, jstr; cbn [fst snd]; rewrite !has_char_app, ?escape_one_line, of_Z_one_line; reflexivity.
Qed.

Lemma sjoin_nothing x l : sjoin "" (x :: l) = x +:+ sjoin "" l.
Proof. destruct l; [symmetry; apply sapp_nil_r|done]. Qed.

Definition call : Type := LogLevel * Z * string.
Definition run (calls : list call) (s : state) : state := fold_left (fun s c => LOG c.1.1 c.1.2 c.2 s) calls s.
Definition printed (calls : list call) (s : state) : list call := filter (fun c => enabled c.1.1 s = true) calls.

(** The log is one JSON object per line: exactly the messages of an enabled
    level, in order, each with its level, its time and the context, as a JSON
    reader reads it.  A message with a control character other than newline and
    tab is a line that is no JSON, but never more than one line. *)
Theorem log_lines_read_back (calls : list call) (s : state) :
  let lines := map (fun c => body c.1.2 c.1.1 c.2 s) (printed calls s) in
  out (run calls s) = out s +:+ sjoin "" (map (fun b => b +:+ chr nl) lines) /\
  Forall (fun b => has_char nl b = false) lines /\
  Forall (fun c => let l := fields c.1.2 c.1.1 c.2 s in
    read (body c.1.2 c.1.1 c.2 s) = if ok l then Some (value l) else None) (printed calls s).
Proof.
  cbv zeta. split; [|split].
  - unfold run, printed. revert s. induction calls as [|[[level now] message] calls IH]; intros s; [cbn; by rewrite sapp_nil_r|].
    cbn [fold_left fst snd]. rewrite filter_cons. unfold LOG at 2. cbn [fst snd]. destruct (enabled level s) eqn:E.
    + rewrite decide_True by done. rewrite IH. change (enabled ?l (write _ _ _ s)) with (enabled l s).
      cbn [map fst snd]. unfold write at 1. cbn [out]. rewrite write_line_body, sapp_assoc. f_equal.
      symmetry. apply sjoin_nothing.
    + rewrite decide_False by done. apply IH.
  - apply Forall_map, Forall_true. intros c. apply body_one_line.
  - apply Forall_true. intros c. apply reads_read, reads_text, fields_ok.
Qed.
End Logger.
