(* ===== verification/Notifier.v ===== *)
(** * Notifier: how alerts leave the collector

    Models [collector/src/alerting/notifier.cpp]: the log line of
    [LogNotifier], the request of [WebhookNotifier] and what it complains
    about, and the delivery of everything [AlertManager::Evaluate] raises.  The
    HTTP client and the clock are the interface [Outside]. *)
From stdpp Require Import base gmap strings list.
From Stdlib Require Import ZArith Lia.
From S2P Require Import Prelude Double Proto Text AlertRule AlertManager JsonRead JsonSpec.
Import Str Text JsonRead AlertManager.AlertManager AlertManager.AlertManager.Demo JsonSpec.Alerts.
#[local] Open Scope string_scope.
#[local] Open Scope list_scope.

Module Delivery.

(** The arguments of the [httplib::Client] and of its [Post]. *)
Record post : Type := mkPost {
  p_host : string;
  p_timeout_sec : Z;
  p_path : string;
  p_headers : list (string * string);
  p_body : string;
  p_content_type : string;
}.

Class Outside (W : Type) : Type := {
  now_ms : W -> Z * W;
  (* the error text, or the status of the answer *)
  http_post : post -> W -> (string + Z) * W;
}.

Definition slash : Ascii.ascii := c_of 47.
(** Scheme, host and path of a URL. *)
Definition split_url (m_url : string) : string * string * string :=
  let '(scheme, host_and_path) :=
    match sfind_str "://" m_url with
    | Some scheme_pos => (stake scheme_pos m_url, sdrop (scheme_pos + 3) m_url)
    | None => ("http", m_url)
    end in
  match sfind slash host_and_path with
  | Some p => (scheme, stake p host_and_path, sdrop p host_and_path)
  | None => (scheme, host_and_path, "/")
  end.

Definition kTimeoutSec : Z := 5.
(** Both branches on the scheme post the same way. *)
Definition request (m_url : string) (alert : AlertNotification) : post :=
  let '(scheme, host, path) := split_url m_url in
  let headers := [("Content-Type", "application/json"); ("User-Agent", "pudim-collector/0.1")] in
  let send := mkPost host kTimeoutSec path headers (NotificationToJson alert) "application/json" in
  if String.eqb scheme "https" then send else send.

(** What is written to the error output. *)
Definition complaint (m_url : string) (res : string + Z) : option string :=
  match res with
  | inl e => Some ("Webhook notify failed for " +:+ m_url +:+ ": " +:+ e +:+ chr nl)
  | inr status =>
      if (status <? 200)%Z || (300 <=? status)%Z then
        Some ("Webhook notify returned HTTP " +:+ of_Z status +:+ " for " +:+ m_url +:+ chr nl)
      else None
  end.

(** The line of [LogNotifier], without its end. *)
Definition log_line (now : Z) (alert : AlertNotification) : string :=
  "{" +:+ dq +:+ "timestamp" +:+ dq +:+ ":" +:+ of_Z now +:+
  "," +:+ dq +:+ "level" +:+ dq +:+ ":" +:+ dq +:+ "alert" +:+ dq +:+
  "," +:+ dq +:+ "component" +:+ dq +:+ ":" +:+ dq +:+ "collector" +:+ dq +:+
  "," +:+ dq +:+ "message" +:+ dq +:+ ":" +:+ dq +:+ "alert notification" +:+ dq +:+
  "," +:+ dq +:+ "payload" +:+ dq +:+ ":" +:+ NotificationToJson alert +:+ "}".

Inductive effect : Type :=
  | Printed (line : string)
  | Posted (p : post) (res : string + Z) (stderr : option string).

Section World.
Context {W : Type} `{!Outside W}.

Definition Notify (n : Notifier) (alert : AlertNotification) (w : W) : effect * W :=
  match n with
  | LogNotifier => let '(now, w) := now_ms w in (Printed (log_line now alert +:+ chr nl), w)
  | WebhookNotifier url =>
      let '(res, w) := http_post (request url alert) w in
      (Posted (request url alert) res (complaint url res), w)
  end.

(** The notification loop of [Evaluate], on what the evaluation raised. *)
Fixpoint deliver (l : list (Notifier * AlertNotification)) (w : W) : list effect * W :=
  match l with
  | [] => ([], w)
  | (n, alert) :: l =>
      let '(e, w) := Notify n alert w in
      let '(es, w) := deliver l w in (e :: es, w)
  end.

(** ** What arrives *)

Definition line_value (now : Z) (alert : AlertNotification) : json :=
  JObject [("timestamp", JNumber (of_Z now)); ("level", JString "alert"); ("component", JString "collector");
           ("message", JString "alert notification"); ("payload", notification_value alert)].

Lemma log_line_reads now alert :
  read (log_line now alert) = if notification_ok alert then Some (line_value now alert) else None.
Proof.
  set (l := [int_field "timestamp" now; data_field "level" "alert"; data_field "component" "collector";
             data_field "message" "alert notification";
             value_field "payload" (NotificationToJson alert) (notification_ok alert) (notification_value alert)]).
  assert (log_line now alert = text l) as -> by (unfold log_line, l, value_field; hand_written).
  erewrite reads_read; [|apply reads_text].
  - assert (ok l = notification_ok alert && true) as -> by reflexivity. by rewrite andb_true_r.
  - unfold l. repeat (apply Forall_cons; split); [auto with json..| |apply Forall_nil_2].
    split; [split; reflexivity|]. apply notification_reads_as.
Qed.

Lemma deliver_app l k w :
  deliver (l ++ k) w =
  let '(e1, w1) := deliver l w in let '(e2, w2) := deliver k w1 in (e1 ++ e2, w2).
Proof.
  revert w. induction l as [|[n a] l IH]; intros w; cbn [deliver app]; [by destruct (deliver k w)|].
  destruct (Notify n a w) as [e w1]. rewrite IH. destruct (deliver l w1) as [e1 w2]. by destruct (deliver k w2).
Qed.

Definition posted (e : effect) : option post := match e with Posted p _ _ => Some p | Printed _ => None end.
Definition printed (e : effect) : option string := match e with Printed l => Some l | Posted _ _ _ => None end.
Definition remote (url : string) : bool := negb (is_empty url) && negb (String.eqb url "log").

Lemma deliver_all url alerts w :
  let effects := fst (deliver (notify_all (notifiers_for url) alerts) w) in
  omap posted effects = (if remote url then map (request url) alerts else []) /\
  exists times, length times = length alerts /\
    omap printed effects = zip_with (fun t a => log_line t a +:+ chr nl) times alerts.
Proof.
  revert w. induction alerts as [|a alerts IH]; intros w; [split; [by destruct (remote url)|by exists []]|].
  unfold notify_all. cbn [flat_map]. fold (notify_all (notifiers_for url) alerts). rewrite deliver_app.
  destruct (deliver (map _ _) w) as [e1 w1] eqn:E1. destruct (IH w1) as (Hp & times & Hl & Ht). clear IH.
  destruct (deliver (notify_all _ alerts) w1) as [e2 w2]. cbn [fst] in *. rewrite !omap_app, Hp, Ht.
  unfold notifiers_for in E1. fold (remote url) in E1. cbn [map deliver Notify] in E1. destruct (now_ms w) as [t w3].
  destruct (remote url); cbn [map deliver Notify] in E1; [destruct (http_post _ w3) as [res w4]|];
    injection E1 as <- <-; (split; [done|]); exists (t :: times); (split; [cbn; by rewrite Hl|done]).
Qed.

Definition raised (now : Z) (agent : string) (metrics : list Metric) (s : state) : list AlertNotification :=
  snd (Evaluate_locked now agent metrics s).
Definition effects (now : Z) (agent : string) (metrics : list Metric) (s : state) (w : W) : list effect :=
  fst (deliver (snd (Evaluate now agent metrics s)) w).

(** *** The scheme of a webhook *)
Lemma sfind_scheme (scheme rest : string) :
  has_char (c_of 58) scheme = false -> sfind_str "://" (scheme +:+ "://" +:+ rest) = Some (String.length scheme).
Proof.
  intros Hs. change "://" with (String (c_of 58) "//") at 1. rewrite sfind_str_skip_char by done.
  change (String (c_of 58) "//") with "://". rewrite sfind_str_here. cbn. by rewrite Nat.add_0_r.
Qed.

Lemma split_url_scheme scheme rest :
  has_char (c_of 58) scheme = false ->
  split_url (scheme +:+ "://" +:+ rest) =
    match sfind slash rest with
    | Some p => (scheme, stake p rest, sdrop p rest)
    | None => (scheme, rest, "/")
    end.
Proof.
  intros Hs. unfold split_url. rewrite sfind_scheme by done.
  replace (sdrop (String.length scheme + 3) (scheme +:+ "://" +:+ rest)) with rest.
  - rewrite stake_app. by destruct (sfind slash rest).
  - rewrite <- sapp_assoc. replace (String.length scheme + 3) with (String.length (scheme +:+ "://")) by by rewrite slength_app.
    by rewrite sdrop_app.
Qed.

(** A webhook URL names a host (with a port or not) and a path: with a scheme
    or without, and / where it gives no path. *)
Inductive names : string -> string -> string -> Prop :=
  | with_scheme scheme rest host path :
      has_char (c_of 58) scheme = false -> without_scheme rest host path ->
      names (scheme +:+ "://" +:+ rest) host path
  | no_scheme rest host path :
      sfind_str "://" rest = None -> without_scheme rest host path -> names rest host path
with without_scheme : string -> string -> string -> Prop :=
  | no_path host : has_char slash host = false -> without_scheme host host "/"
  | a_path host path : has_char slash host = false -> without_scheme (host +:+ String slash path) host (String slash path).

Lemma without_scheme_found rest host path :
  without_scheme rest host path ->
  match sfind slash rest with Some p => (stake p rest, sdrop p rest) | None => (rest, "/") end = (host, path).
Proof.
  intros H. destruct H as [host H|host path H]; [by rewrite sfind_none|].
  by rewrite sfind_app_sep, stake_app, sdrop_app.
Qed.
Lemma request_names url host path alert :
  names url host path ->
  request url alert =
    mkPost host 5 path [("Content-Type", "application/json"); ("User-Agent", "pudim-collector/0.1")]
      (NotificationToJson alert) "application/json".
Proof.
  intros H. unfold request. assert (exists sch, split_url url = (sch, host, path)) as [sch ->]; [|by destruct (String.eqb sch _)].
  destruct H as [sch rest host path Hs Hr|rest host path Hs Hr]; apply without_scheme_found in Hr.
  - exists sch. rewrite split_url_scheme by done. destruct (sfind slash rest); by injection Hr as <- <-.
  - exists "http". unfold split_url. rewrite Hs. destruct (sfind slash rest); by injection Hr as <- <-.
Qed.

(** Claim C31: every alert is delivered, once per channel.  Of an evaluation
    by a manager set up for a webhook URL, each alert raised is printed once as a
    log line and, when the URL is neither empty nor the word log, posted once,
    in the order they were raised and whatever the webhook answers.  The
    request goes to the host that the URL names, with a time-out of five
    seconds, and to its path, / when it has none; it is handed to the HTTP
    client without the scheme, so that an https URL too is posted over plain
    http, to port 80 unless the host names another.  Its body, and the payload
    of the log line, are read back as the data of the alert: the texts and the
    time exactly, value and threshold as FormatDouble writes them, without a
    fraction or rounded to six places; unless one of the texts has an unescaped
    control character or a number is not finite, and then neither of them is
    JSON. *)
Theorem alerts_delivered (now : Z) (agent : string) (metrics : list Metric) (s : state) (url : string) (w : W) :
  m_notifiers s = notifiers_for url ->
  let alerts := raised now agent metrics s in
  (exists bodies times, length bodies = length alerts /\ length times = length alerts /\
    omap printed (effects now agent metrics s w) = zip_with (fun t a => log_line t a +:+ chr nl) times alerts /\
    (url = "" \/ url = "log" -> omap posted (effects now agent metrics s w) = []) /\
    (forall host path, url <> "" -> url <> "log" -> names url host path ->
      omap posted (effects now agent metrics s w) =
        map (fun body => mkPost host 5 path
               [("Content-Type", "application/json"); ("User-Agent", "pudim-collector/0.1")] body "application/json") bodies) /\
    map read bodies = map (fun a => if notification_ok a then Some (notification_value a) else None) alerts) /\
  (forall a t, read (log_line t a) = if notification_ok a then Some (line_value t a) else None).
Proof.
  intros Hn. unfold effects, raised, Evaluate. rewrite Hn.
  destruct (Evaluate_locked now agent metrics s) as [s' l]. cbn [snd]. cbv zeta.
  destruct (deliver_all url l w) as [Hp (times & Hl & Ht)]. split; [|intros a t; apply log_line_reads].
  exists (map NotificationToJson l), times. split_and!.
  - by rewrite length_map.
  - exact Hl.
  - exact Ht.
  - rewrite Hp. by intros [-> | ->].
  - intros host path Hne Hlog Hname. rewrite Hp, map_map. unfold remote.
    rewrite (proj2 (is_empty_false url) Hne), (proj2 (String.eqb_neq url "log") Hlog). cbn [negb andb].
    apply map_ext. intros a. by apply request_names.
  - rewrite map_map. apply map_ext. intros a. apply reads_read, notification_reads_as.
Qed.
(** The scheme of the webhook URL makes no difference.  Whatever
    scheme is written before "://", the alert is posted to the same host, the
    same path and with the same body, and the host handed to the HTTP client
    names no scheme: an https webhook gets the request that http would. *)
Theorem webhook_scheme_ignored (scheme rest : string) (alert : AlertNotification) :
  has_char (c_of 58) scheme = false ->
  request (scheme +:+ "://" +:+ rest) alert = request ("http://" +:+ rest) alert /\
  p_host (request (scheme +:+ "://" +:+ rest) alert) = match sfind slash rest with Some p => stake p rest | None => rest end.
Proof.
  intros Hs. assert (forall sch, has_char (c_of 58) sch = false ->
    request (sch +:+ "://" +:+ rest) alert =
    mkPost (match sfind slash rest with Some p => stake p rest | None => rest end) kTimeoutSec
      (match sfind slash rest with Some p => sdrop p rest | None => "/" end)
      [("Content-Type", "application/json"); ("User-Agent", "pudim-collector/0.1")]
      (NotificationToJson alert) "application/json") as H.
  { intros sch Hsch. unfold request, split_url. rewrite sfind_scheme by done.
    replace (sdrop (String.length sch + 3) (sch +:+ "://" +:+ rest)) with rest.
    - destruct (sfind slash rest); by destruct (String.eqb _ "https").
    - rewrite <- sapp_assoc. replace (String.length sch + 3) with (String.length (sch +:+ "://")) by by rewrite slength_app.
      by rewrite sdrop_app. }
  rewrite (H scheme Hs). split; [|done]. by rewrite <- (H "http" ltac:(reflexivity)).
Qed.
End World.

(** *** Witnesses *)

(** A webhook that does not answer, and a clock counting from zero. *)
#[local] Instance silent : Outside Z := {
  now_ms := fun w => (w, (w + 1)%Z);
  http_post := fun _ w => (inl "Could not establish connection", w);
}.
Definition watched : state :=
  mkState [rule1] ∅ (notifiers_for "https://hooks.example/pudim") [] 0 "" "https://hooks.example/pudim".
Definition one_alert : AlertNotification :=
  mkNotification "r1" "high" "warning" "a1" "tcp" "h:1" "firing" (Double.of_Z 150) (Double.of_Z 100) "" 1000.

Lemma alerts_delivered_witness :
  map n_target (raised 1000 "a1" [metric "h:1" 150; metric "h:1" 50] watched) = ["h:1"; "h:1"] /\
  map p_host (omap posted (effects 1000 "a1" [metric "h:1" 150; metric "h:1" 50] watched 0%Z)) =
    ["hooks.example"; "hooks.example"].
Proof.
  split; [vm_compute; reflexivity|].
  destruct (alerts_delivered 1000 "a1" [metric "h:1" 150; metric "h:1" 50] watched "https://hooks.example/pudim" 0%Z eq_refl)
    as [(bodies & times & Hb & _ & _ & _ & Hp & _) _].
  rewrite (Hp "hooks.example" "/pudim"); [|discriminate|discriminate|].
  - assert (length bodies = 2) as Hb2 by (rewrite Hb; vm_compute; reflexivity).
    destruct bodies as [|b1 [|b2 [|b3 bodies]]]; try discriminate Hb2. reflexivity.
  - apply (with_scheme "https" "hooks.example/pudim"); [reflexivity|]. apply (a_path "hooks.example" "pudim"). reflexivity.
Defined.

Lemma webhook_scheme_ignored_witness :
  request "https://hooks.example/pudim" one_alert = request "http://hooks.example/pudim" one_alert /\
  p_host (request "https://hooks.example/pudim" one_alert) = "hooks.example".
Proof. exact (webhook_scheme_ignored "https" "hooks.example/pudim" one_alert eq_refl). Defined.
End Delivery.
