(* ===== verification/Journey.v ===== *)
(** * Journey: the metrics on their way from the probes to the database

    The composition of the agent's main loop (file AgentMain), its clients
    ([agent/src/metrics/metrics_client.cpp] and [heartbeat_client.cpp]), a
    network that may lose requests and replies or cut streams short, and the
    handlers of any number of collectors (files MetricsService and
    AgentRegistry) over their storage. *)
From stdpp Require Import base gmap strings list.
From Stdlib Require Import ZArith Lia.
From S2P Require Import Prelude Proto Storage MetricsService AgentRegistry DiskBuffer AgentMain Kafka AlertManager.
Import Str MetricsService.Endpoints.
#[local] Open Scope string_scope.
#[local] Open Scope list_scope.

(** ** Sinks that keep what they accept

    [keeps k l]: the metrics [l] are safely stored by [k]. *)
Class SinkLaws (S : Type) `{Sink S} : Type := {
  keeps : S -> list Metric -> Prop;
  keeps_weaken k l l' : l ⊆+ l' -> keeps k l' -> keeps k l;
  ingest_keeps b traceparent k l :
    keeps k l ->
    let '(ok, _, k') := ingest b traceparent k in keeps k' (if ok then l ++ b_metrics b else l);
}.

Section Handlers.
Context {S : Type} `{SinkLaws S}.

Lemma keeps_prefix k l l' : keeps k (l ++ l') -> keeps k l.
Proof. apply keeps_weaken, submseteq_inserts_r. reflexivity. Qed.

Definition acks (resp : option MetricsResponse) : bool := match resp with Some r => r_ack r | None => false end.

Lemma SendMetrics_keeps now_ms md request (s : service S) l :
  keeps (sink s) l ->
  let '(_, resp, _, s') := SendMetrics now_ms md (Some request) s in
  keeps (sink s') (if acks resp then l ++ b_metrics request else l).
Proof.
  intros Hl. unfold SendMetrics. destruct (is_empty _); [done|].
  destruct (Z.eqb_spec (size_of request) 0) as [E|_].
  - cbn. unfold size_of in E. destruct (b_metrics request); [by rewrite app_nil_r|cbn in E; lia].
  - set (s1 := bump (size_of request) _ _ _ _ _ _).
    rewrite (proj1 (note_skew_same now_ms request s1)).
    pose proof (ingest_keeps request (metadata_value "traceparent" md) (sink s1) l Hl) as K.
    destruct (ingest request _ (sink s1)) as [[[] el] k]; exact K.
Qed.

Lemma flush_keeps agent tp ts v k l :
  keeps k l -> let '(ok, v', k') := flush agent tp ts v k in
  keeps k' (if ok then l ++ batch v else l) /\ batch v' = [].
Proof.
  intros Hl. unfold flush. destruct (batch v) as [|m b] eqn:E; [by rewrite app_nil_r|].
  pose proof (ingest_keeps (mkBatch agent ts (m :: b)) tp k l Hl) as K.
  destruct (ingest _ _ k) as [[[] el] k']; (split; [exact K|done]).
Qed.

Lemma read_loop_keeps agent tp ts reader v (s : service S) l :
  keeps (sink s) l -> let '(ok, v', s') := read_loop agent tp ts reader v s in
  exists done, keeps (sink s') (l ++ done) /\ (ok = true -> done ++ batch v' = batch v ++ reader).
Proof.
  revert v s l. induction reader as [|m reader IH]; intros v s l Hl; cbn [read_loop].
  - exists []. by rewrite !app_nil_r.
  - set (v1 := mkStream _ _ _). set (s1 := bump 1 _ _ _ _ _ _). destruct (Nat.leb _ _).
    + pose proof (flush_keeps agent tp ts v1 (sink s1) l Hl) as K.
      destruct (flush agent tp ts v1 (sink s1)) as [[[] v2] k]; destruct K as [K Eb].
      * specialize (IH v2 (bump 0 0 0 0 0 k s1) (l ++ batch v1) K).
        destruct (read_loop agent tp ts reader v2 _) as [[ok v'] s'].
        destruct IH as (read & K' & Er). exists (batch v1 ++ read). rewrite app_assoc. split; [done|].
        intros Hok. rewrite <- app_assoc, Er, Eb by done. cbn. by rewrite <- app_assoc.
      * exists []. rewrite app_nil_r. split; [exact K|done].
    + specialize (IH v1 s1 l Hl). destruct (read_loop agent tp ts reader v1 s1) as [[ok v'] s'].
      destruct IH as (read & K' & Er). exists read. split; [done|].
      intros Hok. rewrite Er by done. cbn. by rewrite <- app_assoc.
Qed.

Lemma StreamMetrics_keeps now_ms md reader (s : service S) l :
  keeps (sink s) l ->
  let '(_, resp, s') := StreamMetrics now_ms md reader s in
  keeps (sink s') (if r_ack resp then l ++ reader else l).
Proof.
  intros Hl. unfold StreamMetrics. destruct (is_empty _); [done|].
  set (agent := metadata_value "x-agent-id" md). set (tp := metadata_value "traceparent" md).
  set (s1 := bump 0 0 1 0 0 (sink s) s).
  pose proof (read_loop_keeps agent tp now_ms reader (mkStream [] 0 0) s1 l Hl) as K.
  destruct (read_loop agent tp now_ms reader _ s1) as [[[] v] s2]; destruct K as (read & K & Er);
    [|exact (keeps_prefix _ _ _ K)]. specialize (Er eq_refl).
  pose proof (flush_keeps agent tp now_ms v (sink s2) _ K) as F.
  destruct (flush agent tp now_ms v (sink s2)) as [[[] v2] k]; destruct F as [F _]; cbn.
  - by rewrite <- app_assoc, Er in F.
  - exact (keeps_prefix _ _ _ F).
Qed.
End Handlers.

(** ** The clients over the network *)
Module Wire.

(** What becomes of a call: it never gets there, the connection breaks after
    [n] messages were read (the handler finishes, its answer is lost), or the
    answer arrives.  [deadline] tells whether the ten seconds ran out first. *)
Inductive fate : Type :=
  | Unreachable (deadline : bool)
  | Cut (n : nat) (deadline : bool)
  | Arrives.
Definition broken (deadline : bool) : Status :=
  mkStatus (if deadline then DEADLINE_EXCEEDED else UNAVAILABLE) "call failed".

(** One call: the network, the collector's clock, the trace of the caller and
    the address the collector sees. *)
Record circumstances : Type := mkCircumstances {
  on_the_way : fate;
  clock : Z;
  traceparent : string;
  peer : string;
}.

(** What the clients of an agent are constructed with. *)
Record identity : Type := mkIdentity {
  m_node_id : string;
  m_version : string;
  m_interval_ms : Z;
  m_diagnostic_endpoint : string -> string;   (* for the collector's endpoint *)
}.

Section Wire.
Context {S : Type} `{Sink S}.

Record collector : Type := mkCollector { metrics : service S; registry : AgentRegistry.state }.
Definition set_metrics (m : service S) (c : collector) : collector := mkCollector m (registry c).
Definition set_registry (r : AgentRegistry.state) (c : collector) : collector := mkCollector (metrics c) r.

(** The collectors by endpoint, the circumstances of the calls to come, and
    what was acknowledged, by whom. *)
Record world : Type := mkWorld {
  collectors : gmap string collector;
  script : nat -> circumstances;
  calls : nat;
  acked : list (string * list Metric);
}.
Definition called (w : world) : world := mkWorld (collectors w) (script w) (Datatypes.S (calls w)) (acked w).
Definition put (ep : string) (c : collector) (w : world) : world :=
  mkWorld (<[ep := c]> (collectors w)) (script w) (calls w) (acked w).
Definition note (ep : string) (ms : list Metric) (ack : bool) (w : world) : world :=
  mkWorld (collectors w) (script w) (calls w) (if ack then acked w ++ [(ep, ms)] else acked w).

(** A call to the server at [ep]: [whole] is its handler, [part n] the handler
    when the connection breaks after [n] messages. *)
Definition rpc {R : Type} (ep : string) (nothing : R)
    (whole : circumstances -> collector -> Status * R * list (string * string) * collector)
    (part : nat -> circumstances -> collector -> collector) (w : world)
    : Status * R * list (string * string) * world :=
  let x := script w (calls w) in
  let w := called w in
  match on_the_way x, collectors w !! ep with
  | Unreachable d, _ => (broken d, nothing, [], w)
  | _, None => (broken false, nothing, [], w)
  | Cut n d, Some c => (broken d, nothing, [], put ep (part n x c) w)
  | Arrives, Some c =>
      let '(status, resp, trailing, c) := whole x c in (status, resp, trailing, put ep c w)
  end.

Definition no_response : MetricsResponse := mkMetricsResponse false 0 0 "".
Definition with_trace (traceparent : string) : list (string * string) :=
  if is_empty traceparent then [] else [("traceparent", traceparent)].
Definition trailing_metadata (overloaded : bool) : list (string * string) :=
  if overloaded then [("x-overloaded", "true")] else [].

(** The server's side of the two metric calls. *)
Definition serve_batch (b : MetricsBatch) (x : circumstances) (c : collector)
    : Status * MetricsResponse * list (string * string) * collector :=
  let '(status, resp, overloaded, m) := SendMetrics (clock x) (with_trace (traceparent x)) (Some b) (metrics c) in
  (status, default no_response resp, trailing_metadata overloaded, set_metrics m c).
Definition serve_stream (agent_id : string) (ms : list Metric) (x : circumstances) (c : collector)
    : Status * MetricsResponse * list (string * string) * collector :=
  let '(status, resp, m) := StreamMetrics (clock x) (("x-agent-id", agent_id) :: with_trace (traceparent x))
                              ms (metrics c) in
  (status, resp, [], set_metrics m c).
Definition serve_heartbeat (q : HeartbeatRequest) (x : circumstances) (c : collector)
    : Status * HeartbeatResponse * list (string * string) * collector :=
  let '(status, resp, r) := AgentService.SendHeartbeat (clock x) (Some (peer x)) q (registry c) in
  (status, resp, [], set_registry r c).

(** [MetricsClient::SendBatch]: the result and [m_backpressure]. *)
Definition SendBatch (ep : string) (b : MetricsBatch) (w : world) : bool * bool * world :=
  let '(status, resp, trailing, w) :=
    rpc ep no_response (serve_batch b) (fun _ x c => snd (serve_batch b x c)) w in
  let '(ok, backpressure) := Client.SendResult status resp trailing in
  (ok, backpressure, note ep (b_metrics b) ok w).

(** [MetricsClient::StreamMetrics]: the writes stop at the first that fails,
    the server reads what was written before. *)
Definition StreamMetrics (ep agent_id : string) (ms : list Metric) (w : world) : bool * bool * world :=
  let '(status, resp, trailing, w) :=
    rpc ep no_response (serve_stream agent_id ms) (fun n x c => snd (serve_stream agent_id (take n ms) x c)) w in
  let '(ok, backpressure) := Client.SendResult status resp trailing in
  (ok, backpressure, note ep ms ok w).

Variable who : identity.

(** [HeartbeatClient::SendHeartbeat]; [now] is the agent's own clock. *)
Definition SendHeartbeat (now : Z) (ep : string) (w : world) : bool * world :=
  let q := Client.heartbeat_request now (m_node_id who) (m_version who) (m_diagnostic_endpoint who ep)
             (m_interval_ms who) in
  let '(status, _, _, w) :=
    rpc ep (mkHeartbeatResponse false 0 "") (serve_heartbeat q) (fun _ x c => snd (serve_heartbeat q x c)) w in
  (Client.SendHeartbeat status, w).

#[global] Instance wire_uplink : Uplink world := {|
  heartbeat := fun ep w => SendHeartbeat (clock (script w (calls w))) ep w;
  send_batch := SendBatch;
  stream_metrics := StreamMetrics;
|}.

(** *** What is acknowledged is kept *)
Lemma rpc_acked {R} ep (nothing : R) whole part w :
  acked (snd (rpc ep nothing whole part w)) = acked w.
Proof.
  unfold rpc. destruct (on_the_way _), (collectors (called w) !! ep); try done.
  by destruct (whole _ _) as [[[? ?] ?] ?].
Qed.
#[global] Instance wire_uplink_laws : UplinkLaws world.
Proof.
  refine {| received := fun w => (acked w).*2 |}; intros; cbn;
    unfold SendHeartbeat, SendBatch, StreamMetrics;
    match goal with |- context [rpc ?e ?n ?h ?p ?v] =>
      pose proof (rpc_acked e n h p v) as E; destruct (rpc e n h p v) as [[[? ?] ?] ?]; cbn in E end;
    [by rewrite <- E|..]; destruct (Client.SendResult _ _ _) as [[] ?]; cbn; rewrite E; by rewrite ?fmap_app.
Defined.
End Wire.
#[global] Arguments world S : clear implicits.
#[global] Arguments collector S : clear implicits.

(** *** Acknowledged means kept *)
Section Kept.
Context {S : Type} `{SinkLaws S}.
Variable who : identity.
#[local] Existing Instance wire_uplink.

Definition acked_by (ep : string) (log : list (string * list Metric)) : list Metric :=
  concat (map snd (filter (fun e => e.1 = ep) log)).

(** Everything a collector acknowledged since the log was [base] is stored by
    it. *)
Definition safe (base : list (string * list Metric)) (w : world S) : Prop :=
  exists log, acked w = base ++ log /\ (forall e, e ∈ log -> is_Some (collectors w !! e.1)) /\
    (forall ep c, collectors w !! ep = Some c -> keeps (sink (metrics c)) (acked_by ep log)).

Lemma acked_by_more ep ep' ms (ack : bool) log :
  acked_by ep' (if ack then log ++ [(ep, ms)] else log) =
  if decide (ep' = ep) then if ack then acked_by ep log ++ ms else acked_by ep log else acked_by ep' log.
Proof.
  unfold acked_by. destruct ack; cbn; [|by destruct (decide _) as [->|]].
  rewrite filter_app, map_app, concat_app, filter_cons, filter_nil. cbn [fst].
  destruct (decide (ep = ep')) as [->|Hn].
  - rewrite decide_True by done. cbn. by rewrite app_nil_r.
  - rewrite decide_False by congruence. cbn. by rewrite app_nil_r.
Qed.

(** A collector that answered: it keeps what it acknowledged. *)
Lemma safe_put base ep c c' ms ack (w : world S) :
  safe base w -> collectors w !! ep = Some c ->
  (forall l, keeps (sink (metrics c)) l -> keeps (sink (metrics c')) (if ack : bool then l ++ ms else l)) ->
  safe base (note ep ms ack (put ep c' (called w))).
Proof.
  intros (log & El & Hk & Hs) Hc Hstep. exists (if ack then log ++ [(ep, ms)] else log). split_and!.
  - cbn. rewrite El. destruct ack; [by rewrite app_assoc|done].
  - intros e He. cbn in *. destruct (decide (e.1 = ep)) as [->|Hn]; [rewrite lookup_insert_eq; eauto|].
    rewrite lookup_insert_ne by done. apply Hk. destruct ack; [|done].
    apply elem_of_app in He as [He|He%list_elem_of_singleton]; [done|by subst].
  - intros ep' c0 E. rewrite acked_by_more. cbn in E. destruct (decide (ep' = ep)) as [->|Hn].
    + rewrite lookup_insert_eq in E. injection E as <-. pose proof (Hstep _ (Hs _ _ Hc)) as K. by destruct ack.
    + rewrite lookup_insert_ne in E by done. by apply (Hs _ _ E).
Qed.
Lemma safe_called base (w : world S) : safe base w -> safe base (called w).
Proof. done. Qed.
Lemma note_false ep ms (w : world S) : note ep ms false w = w.
Proof. by destruct w. Qed.

(** A call is safe when its handler is, and acknowledges only what it kept. *)
Lemma rpc_safe {R} base ep (nothing : R) whole part (ack : Status -> R -> bool) ms (w : world S) :
  (forall d, ack (broken d) nothing = false) ->
  (forall x c l, keeps (sink (metrics c)) l ->
    let '(status, resp, _, c') := whole x c in keeps (sink (metrics c')) (if ack status resp then l ++ ms else l)) ->
  (forall n x c l, keeps (sink (metrics c)) l -> keeps (sink (metrics (part n x c))) l) ->
  safe base w ->
  let '(status, resp, _, w') := rpc ep nothing whole part w in safe base (note ep ms (ack status resp) w').
Proof.
  intros Hb Hw Hp Hs. unfold rpc. change (collectors (called w)) with (collectors w).
  destruct (collectors w !! ep) as [c|] eqn:Ec.
  - set (x := script w (calls w)). destruct (on_the_way x) as [d|n d|].
    + rewrite Hb, note_false. by apply safe_called.
    + rewrite Hb. apply (safe_put base ep c); [done..|]. apply Hp.
    + pose proof (Hw x c) as K. destruct (whole x c) as [[[status resp] trailing] c'].
      by apply (safe_put base ep c).
  - destruct (on_the_way _); rewrite Hb, note_false; by apply safe_called.
Qed.

Lemma serve_batch_keeps b x (c : collector S) l :
  keeps (sink (metrics c)) l -> let '(_, resp, _, c') := serve_batch b x c in
  keeps (sink (metrics c')) (if r_ack resp then l ++ b_metrics b else l).
Proof.
  intros Hl. unfold serve_batch.
  pose proof (SendMetrics_keeps (clock x) (with_trace (traceparent x)) b (metrics c) l Hl) as K.
  destruct (SendMetrics _ _ _ _) as [[[status [r|]] ov] m]; exact K.
Qed.
Lemma serve_stream_keeps agent ms x (c : collector S) l :
  keeps (sink (metrics c)) l -> let '(_, resp, _, c') := serve_stream agent ms x c in
  keeps (sink (metrics c')) (if r_ack resp then l ++ ms else l).
Proof.
  intros Hl. unfold serve_stream.
  pose proof (StreamMetrics_keeps (clock x) (("x-agent-id", agent) :: with_trace (traceparent x)) ms (metrics c) l Hl) as K.
  destruct (Endpoints.StreamMetrics _ _ _ _) as [[status r] m]; exact K.
Qed.

(** What [SendResult] makes of an answer. *)
Definition result (status : Status) (resp : MetricsResponse) : bool :=
  bool_decide (st_code status = OK) && r_ack resp.
Lemma SendResult_result status resp trailing : fst (Client.SendResult status resp trailing) = result status resp.
Proof. unfold Client.SendResult, result. by destruct (bool_decide _). Qed.
Lemma keeps_result k status resp l ms :
  keeps k (if r_ack resp then l ++ ms else l) -> keeps k (if result status resp then l ++ ms else l).
Proof. unfold result. destruct (bool_decide _), (r_ack resp); try done. apply keeps_prefix. Qed.
Lemma keeps_less k (b : bool) l ms : keeps k (if b then l ++ ms else l) -> keeps k l.
Proof. destruct b; [apply keeps_prefix|done]. Qed.

Lemma SendBatch_safe base ep b (w : world S) : safe base w -> safe base (snd (SendBatch ep b w)).
Proof.
  intros Hs. unfold SendBatch.
  pose proof (rpc_safe base ep no_response (serve_batch b) (fun _ x c => snd (serve_batch b x c)) result (b_metrics b) w) as R.
  destruct (rpc _ _ _ _ w) as [[[status resp] trailing] w'] eqn:E.
  rewrite (surjective_pairing (Client.SendResult _ _ _)), SendResult_result. apply R; [by intros []| | |done].
  - intros x c l Hl. pose proof (serve_batch_keeps b x c l Hl) as K.
    destruct (serve_batch b x c) as [[[? ?] ?] ?]. by apply keeps_result.
  - intros n x c l Hl. pose proof (serve_batch_keeps b x c l Hl) as K.
    destruct (serve_batch b x c) as [[[? ?] ?] ?]. by eapply keeps_less.
Qed.

Lemma StreamMetrics_safe base ep agent ms (w : world S) : safe base w -> safe base (snd (StreamMetrics ep agent ms w)).
Proof.
  intros Hs. unfold StreamMetrics.
  pose proof (rpc_safe base ep no_response (serve_stream agent ms)
    (fun n x c => snd (serve_stream agent (take n ms) x c)) result ms w) as R.
  destruct (rpc _ _ _ _ w) as [[[status resp] trailing] w'] eqn:E.
  rewrite (surjective_pairing (Client.SendResult _ _ _)), SendResult_result. apply R; [by intros []| | |done].
  - intros x c l Hl. pose proof (serve_stream_keeps agent ms x c l Hl) as K.
    destruct (serve_stream agent ms x c) as [[[? ?] ?] ?]. by apply keeps_result.
  - intros n x c l Hl. pose proof (serve_stream_keeps agent (take n ms) x c l Hl) as K.
    destruct (serve_stream agent (take n ms) x c) as [[[? ?] ?] ?]. by eapply keeps_less.
Qed.

Lemma SendHeartbeat_safe base now ep (w : world S) : safe base w -> safe base (snd (SendHeartbeat who now ep w)).
Proof.
  intros Hs. unfold SendHeartbeat. set (q := Client.heartbeat_request _ _ _ _ _).
  pose proof (rpc_safe base ep (mkHeartbeatResponse false 0 "") (serve_heartbeat q)
    (fun _ x c => snd (serve_heartbeat q x c)) (fun _ _ => false) [] w) as R.
  destruct (rpc _ _ _ _ w) as [[[status resp] trailing] w'] eqn:E. rewrite note_false in R. by apply R.
Qed.
End Kept.
End Wire.

(** ** An agent and its collectors *)
Module Agent.
Section Agent.
Context {S : Type} `{SinkLaws S}.
Context {D : Type} `{SpillStoreLaws D}.
Variable serialize_batch : MetricsBatch -> option string.
Variable parse_batch : string -> option MetricsBatch.
Hypothesis parse_serialize : forall b x, serialize_batch b = Some x -> parse_batch x = Some b.
Variable cfg : MainLoop.config.
Variable who : Wire.identity.
#[local] Instance agent_uplink : Uplink (Wire.world S) := Wire.wire_uplink who.
#[local] Instance agent_uplink_laws : UplinkLaws (Wire.world S) := Wire.wire_uplink_laws who.

Abbreviation run := (MainLoop.run serialize_batch parse_batch cfg).
Abbreviation start := (MainLoop.start cfg).

(** What each collector acknowledged is kept by its sink. *)
Definition delivered (w : Wire.world S) (log : list (string * list Metric)) : Prop :=
  forall ep ms, (ep, ms) ∈ log -> exists c, Wire.collectors w !! ep = Some c /\
    keeps (sink (Wire.metrics c)) (concat (map snd (filter (fun e => e.1 = ep) log))).

Lemma run_safe base inputs s : Wire.safe base (MainLoop.collector s) -> Wire.safe base (MainLoop.collector (run inputs s)).
Proof.
  apply MainLoop.run_preserves; intros;
    [by refine (Wire.SendHeartbeat_safe who _ _ _ _ _)|by apply Wire.SendBatch_safe|by apply Wire.StreamMetrics_safe].
Qed.
Lemma safe_start (w : Wire.world S) :
  (forall ep c, Wire.collectors w !! ep = Some c -> keeps (sink (Wire.metrics c)) []) -> Wire.safe (Wire.acked w) w.
Proof.
  intros Hc. exists []. rewrite app_nil_r. split_and!; [done|by intros e He%elem_of_nil|].
  intros ep c Ec. by apply (Hc ep c).
Qed.
Lemma safe_delivered base (w : Wire.world S) :
  Wire.safe base w -> exists log, Wire.acked w = base ++ log /\ delivered w log.
Proof.
  intros (log & El & Hk & Hs). exists log. split; [done|]. intros ep ms He. destruct (Hk _ He) as [c Hc].
  exists c. split; [exact Hc|]. apply (Hs ep c Hc).
Qed.

(** Whatever the collectors keep their metrics in, every batch of the probes
    and of the disk queue is acknowledged and kept, held, counted as
    dropped, or deleted by an oversized disk queue. *)
Lemma conserved (now : Z) (d : D) (f : Failover.client) (w : Wire.world S) (inputs : list (Z * list MetricsBatch)) :
  (forall ep c, Wire.collectors w !! ep = Some c -> keeps (sink (Wire.metrics c)) []) ->
  let s := run inputs (start now d f w) in
  exists (log : list (string * list Metric)) (again lost trimmed : list (list Metric)),
    Wire.acked (MainLoop.collector s) = Wire.acked w ++ log /\ again ⊆+ log.*2 /\
    MainLoop.stored_metrics parse_batch (contents d) ++ map b_metrics (mjoin inputs.*2) ++ again
      ≡ₚ log.*2 ++ map b_metrics (MainLoop.buffer s) ++
         MainLoop.stored_metrics parse_batch (contents (MainLoop.disk_buffer s)) ++ lost ++ trimmed /\
    MainLoop.buffer_drops s = Int.u64 (Z.of_nat (length lost)) /\ (roomy d -> trimmed = []) /\
    delivered (MainLoop.collector s) log.
Proof.
  intros Hc s.
  destruct (MainLoop.run_conserves serialize_batch parse_batch cfg parse_serialize inputs (start now d f w))
    as (g & a & l & t & R & A & P & Dr & T); [done|]. fold s in R, P, Dr, T.
  destruct (safe_delivered (Wire.acked w) (MainLoop.collector s)) as (log & El & Hdel); [by apply run_safe, safe_start|].
  cbn in R. rewrite El, fmap_app in R. apply app_inv_head in R as <-.
  exists log, a, l, t. split_and!; [exact El|exact A| |exact Dr|apply T|exact Hdel].
  unfold MainLoop.held in P. cbn in P. rewrite El, fmap_app in P. perm.
Qed.
(** *** A batch no collector takes *)
Definition refused (b : MetricsBatch) : Prop :=
  forall tp p l, keeps p l -> b_metrics b <> [] /\ fst (fst (ingest b tp p)) = false.

Lemma SendMetrics_refused now_ms md b (s : service S) l :
  refused b -> keeps (sink s) l ->
  let '(_, resp, _, _) := SendMetrics now_ms md (Some b) s in acks resp = false.
Proof.
  intros Hr Hk. specialize (Hr (metadata_value "traceparent" md) (sink s) l Hk) as [Hne Hr].
  unfold SendMetrics. destruct (is_empty _); [done|].
  destruct (Z.eqb_spec (size_of b) 0) as [E|_]; [unfold size_of in E; by destruct (b_metrics b)|].
  set (s1 := bump (size_of b) _ _ _ _ _ _). rewrite (proj1 (note_skew_same now_ms b s1)).
  change (sink s1) with (sink s).
  destruct (ingest b _ (sink s)) as [[ok el] p']. cbn in Hr. by subst ok.
Qed.
Lemma SendBatch_refused base ep b (w : Wire.world S) :
  refused b -> Wire.safe base w -> fst (fst (Wire.SendBatch ep b w)) = false.
Proof.
  intros Hr (log & _ & _ & Hs). unfold Wire.SendBatch, Wire.rpc. change (Wire.collectors (Wire.called w)) with (Wire.collectors w).
  destruct (Wire.on_the_way _) as [d|k d|]; [by destruct d|destruct (Wire.collectors w !! ep); by destruct d|].
  destruct (Wire.collectors w !! ep) as [c|] eqn:Ec; [|done].
  pose proof (SendMetrics_refused (Wire.clock (Wire.script w (Wire.calls w)))
    (Wire.with_trace (Wire.traceparent (Wire.script w (Wire.calls w)))) b (Wire.metrics c) _ Hr (Hs ep c Ec)) as O.
  unfold Wire.serve_batch. destruct (SendMetrics _ _ _ _) as [[[status [r|]] ov] m]; cbn in *;
    unfold Client.SendResult; destruct (bool_decide _); cbn; by rewrite ?O.
Qed.

(** It stays at the head of the buffer for ever, and with it all behind it. *)
Lemma refused_blocks base (b : MetricsBatch) (rest : list MetricsBatch) (times : list Z) (s : MainLoop.state) :
  refused b -> MainLoop.use_stream_metrics cfg = false -> MainLoop.buffer s = b :: rest ->
  Wire.safe base (MainLoop.collector s) -> MainLoop.buffer (run (map (fun t => (t, [])) times) s) = b :: rest.
Proof.
  intros Hr Hu. revert s. induction times as [|t times IH]; intros s Hb Hs; [done|]. cbn [map].
  set (s' := MainLoop.iterate serialize_batch parse_batch cfg t [] s).
  change (MainLoop.buffer (run (map (fun t => (t, [])) times) s') = b :: rest).
  apply IH; [|apply (run_safe base [(t, [])] s Hs)].
  pose proof (MainLoop.beat_preserves (Wire.safe base) (fun ep w Hw => Wire.SendHeartbeat_safe who base _ ep w Hw) t s Hs) as Hbeat.
  unfold s', MainLoop.iterate. cbv zeta. change (MainLoop.absorb _ _ [] ?x) with x. set (s1 := MainLoop.beat t s) in *.
  assert (MainLoop.buffer s1 = b :: rest) as E1 by (unfold s1; by rewrite MainLoop.beat_buffer).
  assert (forall m, MainLoop.buffer (MainLoop.send_loop parse_batch cfg t m s1) = b :: rest) as Hsend.
  { intros [|m]; [done|]. cbn [MainLoop.send_loop]. rewrite E1. unfold MainLoop.send. rewrite Hu.
    match goal with |- context [send_batch ?ep ?b ?w] => pose proof (SendBatch_refused base ep b w Hr Hbeat) as O;
      change (send_batch ep b w) with (Wire.SendBatch ep b w); destruct (Wire.SendBatch ep b w) as [[ok ov] w'] end.
    cbn in O. by subst ok. }
  unfold MainLoop.pace. destruct (MainLoop.backpressure _), (MainLoop.should_send _ _ _); cbn; by rewrite ?Hsend.
Qed.
End Agent.
End Agent.

(** ** A collector that writes to TimescaleDB itself *)
Module Database.
Import MetricsService.Pipeline.

(** The statements a database server completed, as its client sees them: an
    answer [PGRES_COMMAND_OK] means the statement ran; text that starts with a
    parenthesis is no statement that can be answered so. *)
Class LibpqLaws (W : Type) `{Libpq W} : Type := {
  executed : W -> list string;
  executed_exec sql w :
    executed (snd (PQexec sql w)) = executed w ++ (if command_ok (fst (PQexec sql w)) then [sql] else []);
  executed_connect info w : executed (PQconnectdb info w) = executed w;
  bare_tuple_refused text w : command_ok (fst (PQexec ("(to_timestamp(" +:+ text) w)) = false;
}.

Section Database.
Context {W Q : Type} `{LibpqLaws W}.
Variable iter : gmap string string -> list (string * string).
Variable serialize : MetricsBatch -> option string.
Variable rd_produce : Producer.message -> Q -> bool * Q.

(** An INSERT statement: the connection its texts are escaped by, the agent,
    the time of the batch, and the metrics, one tuple each. *)
Record inserted : Type := mkInserted { i_conn : W; i_agent : string; i_time : Z; i_metrics : list Metric }.
Definition statement (i : inserted) : string :=
  Timescale.insert_statement iter (i_conn i) (i_agent i) (i_time i) (i_metrics i).

(** The metrics [l] are among the tuples of completed INSERT statements. *)
Definition in_database (w : W) (l : list Metric) : Prop :=
  exists rows : list inserted, map statement rows ⊆+ executed w /\ l ⊆+ concat (map i_metrics rows).

Lemma in_database_more w w' more l :
  executed w' = executed w ++ more -> in_database w l -> in_database w' l.
Proof.
  intros E (rows & Hr & Hl). exists rows. split; [|done]. rewrite E. by apply submseteq_inserts_r.
Qed.
Lemma in_database_insert w w' i l :
  executed w' = executed w ++ [statement i] -> in_database w l -> in_database w' (l ++ i_metrics i).
Proof.
  intros E (rows & Hr & Hl). exists (rows ++ [i]). rewrite E, !map_app, concat_app. cbn.
  rewrite app_nil_r. split; by apply submseteq_app.
Qed.

Lemma EnsureConnected_executed (s : @Timescale.impl W) :
  executed (Timescale.world (Timescale.EnsureConnected s)) = executed (Timescale.world s).
Proof.
  unfold Timescale.EnsureConnected. destruct (Timescale.conn s && _); [done|]. apply executed_connect.
Qed.
Lemma exec_executed sql (s : @Timescale.impl W) :
  executed (Timescale.world (snd (Timescale.exec sql s))) =
  executed (Timescale.world s) ++ (if command_ok (fst (Timescale.exec sql s)) then [sql] else []).
Proof.
  unfold Timescale.exec. pose proof (executed_exec sql (Timescale.world s)) as E.
  by destruct (PQexec sql (Timescale.world s)).
Qed.

(** More statements never take metrics away. *)
Definition grows (a b : @Timescale.impl W) : Prop :=
  Timescale.config b = Timescale.config a /\
  exists more, executed (Timescale.world b) = executed (Timescale.world a) ++ more.
#[local] Instance grows_preorder : PreOrder grows.
Proof.
  split; [intros a; split; [done|exists []; by rewrite app_nil_r]|].
  intros a b c [C1 [m1 E1]] [C2 [m2 E2]]. split; [congruence|]. exists (m1 ++ m2). by rewrite E2, E1, app_assoc.
Qed.

Lemma EnsureConnected_grows s : grows s (Timescale.EnsureConnected s).
Proof.
  split; [apply Timescale.EnsureConnected_config|]. exists []. by rewrite EnsureConnected_executed, app_nil_r.
Qed.
Lemma flush_grows v s : grows s (snd (Timescale.flush v s)).
Proof.
  unfold Timescale.flush. destruct (_ =? _)%Z; [done|]. set (stmt := Timescale.sql v +:+ _).
  pose proof (exec_executed stmt s) as E. pose proof (Timescale.exec_config stmt s) as C.
  destruct (Timescale.exec stmt s) as [res s']. cbn in E, C. destruct (command_ok res); (split; [exact C|eexists; exact E]).
Qed.
Lemma insert_loop_grows agent ts ms v s : grows s (snd (Timescale.insert_loop iter agent ts ms v s)).
Proof.
  revert v s. induction ms as [|m ms IH]; intros v s; [done|]. cbn [Timescale.insert_loop].
  set (v1 := Timescale.mkInsert _ _ _ _). destruct (_ <=? _)%Z; [|apply IH].
  pose proof (flush_grows v1 s) as F. destruct (Timescale.flush v1 s) as [[[] v2] s2]; [|exact F].
  etransitivity; [exact F|apply IH].
Qed.
Lemma InsertMetrics_grows agent ts ms el s : grows s (snd (Timescale.InsertMetrics iter agent ts ms el s)).
Proof.
  unfold Timescale.InsertMetrics. pose proof (EnsureConnected_grows s) as E0. set (s1 := Timescale.EnsureConnected s) in *.
  destruct (negb _); [exact E0|].
  pose proof (insert_loop_grows agent ts ms (Timescale.mkInsert 0 0 Timescale.insert_header true) s1) as L.
  destruct (Timescale.insert_loop _ _ _ _ _ _) as [[[] v] s2]; cbn [negb]; [|by etransitivity].
  pose proof (flush_grows v s2) as F. destruct (Timescale.flush v s2) as [[[] v2] s3]; cbn;
    exact (transitivity E0 (transitivity L F)).
Qed.

(** A batch larger than the database's batch size is never accepted. *)
Lemma InsertMetrics_oversized agent ts ms el (s : @Timescale.impl W) :
  (0 < batch_size (Timescale.config s) < Z.of_nat (length ms))%Z ->
  fst (Timescale.InsertMetrics iter agent ts ms el s) = false.
Proof.
  intros Hb. set (bs := batch_size (Timescale.config s)) in *.
  destruct (Timescale.usable (Timescale.EnsureConnected s)) eqn:Hu; [|unfold Timescale.InsertMetrics; by rewrite Hu].
  set (l1 := take (Z.to_nat bs) ms). set (l2 := drop (Z.to_nat bs) ms).
  assert (length l1 = Z.to_nat bs) as H1 by (unfold l1; rewrite length_take; lia).
  assert (length l2 = length ms - Z.to_nat bs) as H2 by apply length_drop.
  assert (l1 <> []) as N1 by (intros ->; cbn in H1; lia). assert (l2 <> []) as N2 by (intros E; rewrite E in H2; cbn in H2; lia).
  assert (ms = l1 ++ l2) as Hms by (symmetry; apply take_drop). clearbody l1 l2. subst ms.
  set (s1 := Timescale.EnsureConnected s).
  destruct (command_ok (fst (Timescale.exec (Timescale.insert_statement iter (Timescale.world s1) agent ts l1) s1))) eqn:Ec.
  - apply (Timescale.InsertMetrics_second_statement_has_no_header iter bare_tuple_refused agent ts l1 l2 el s); try done. lia.
  - rewrite Timescale.InsertMetrics_conclude by done. fold s1.
    pose proof (Timescale.insert_group iter agent ts el l1 l2 Timescale.insert_header 0 s1 N1) as G.
    unfold s1 in G at 1 2 3. rewrite Timescale.EnsureConnected_config in G. fold bs in G.
    rewrite Z.add_0_r in G. rewrite G by lia. unfold Timescale.send. fold (Timescale.insert_statement iter (Timescale.world s1) agent ts l1).
    destruct (Timescale.exec _ s1) as [res s2]. cbn in Ec. by rewrite Ec.
Qed.

(** A batch that is accepted is in the database. *)
Lemma InsertMetrics_keeps agent ts ms el (s : @Timescale.impl W) l :
  (0 < batch_size (Timescale.config s))%Z -> in_database (Timescale.world s) l ->
  let '(ok, s') := Timescale.InsertMetrics iter agent ts ms el s in
  in_database (Timescale.world s') (if ok then l ++ ms else l).
Proof.
  intros Hb Hl. destruct (InsertMetrics_grows agent ts ms el s) as [_ [more Em]].
  pose proof (in_database_more _ _ _ _ Em Hl) as Hmore.
  destruct (decide (ms = [])) as [->|Hne].
  { destruct (Timescale.InsertMetrics _ _ _ _ _ _) as [[] s']; by rewrite ?app_nil_r. }
  destruct (decide (Z.of_nat (length ms) <= batch_size (Timescale.config s))%Z) as [Hle|Hgt].
  - revert Hmore. rewrite Timescale.InsertMetrics_one_statement by done. cbv zeta.
    set (s1 := Timescale.EnsureConnected s). destruct (Timescale.usable s1); [|done].
    pose proof (exec_executed (Timescale.insert_statement iter (Timescale.world s1) agent ts ms) s1) as E.
    destruct (Timescale.exec _ s1) as [res s2]. cbn in E. destruct (command_ok res); [|done].
    intros _. cbn. apply (in_database_insert (Timescale.world s1) _ (mkInserted (Timescale.world s1) agent ts ms)); [done|].
    eapply in_database_more; [|exact Hl]. unfold s1. by rewrite EnsureConnected_executed, app_nil_r.
  - pose proof (InsertMetrics_oversized agent ts ms el s) as O.
    destruct (Timescale.InsertMetrics _ _ _ _ _ _) as [ok s']. cbn in *. by rewrite O by lia.
Qed.

(** Written directly, with a batch size of this kind. *)
Definition direct (sized : Z -> Prop) (p : @pipeline W Q) : Prop :=
  m_mode p = Direct /\ sized (batch_size (Timescale.config (m_storage p))).
Definition stored (p : @pipeline W Q) (l : list Metric) : Prop := in_database (Timescale.world (m_storage p)) l.

#[local] Instance the_sink : Sink (@pipeline W Q) := pipeline_sink iter serialize rd_produce.

Lemma IngestBatch_direct b tp p :
  m_mode p = Direct ->
  let '(ok, _, p') := IngestBatch iter serialize rd_produce b tp p in
  m_mode p' = Direct /\ exists now_ms insert_ms,
  (ok, m_storage p') = Timescale.InsertMetrics iter (b_agent_id b) now_ms (b_metrics b) insert_ms (m_storage p).
Proof.
  intros Hm. unfold IngestBatch, persist. rewrite Hm.
  destruct (m_clock p (m_calls p)) as [[[now_ms alert_ms] insert_ms] el].
  destruct (Timescale.InsertMetrics _ _ _ _ _ _) as [ok st] eqn:E.
  destruct (m_alerts p) as [a|]; [destruct (AlertManager.Evaluate _ _ _ a)|]; (split; [done|by exists now_ms, insert_ms]).
Qed.

Definition the_sink_laws (sized : Z -> Prop) (pos : forall z, sized z -> (0 < z)%Z) : SinkLaws (@pipeline W Q).
Proof.
  refine {| keeps p l := direct sized p /\ stored p l |}.
  - intros p l l' Hl [D (rows & Hr & Hl')]. split; [done|]. exists rows. split; [done|]. by etransitivity.
  - intros b tp p l [[Hm Hb] Hl]. cbn. pose proof (IngestBatch_direct b tp p Hm) as I.
    destruct (IngestBatch _ _ _ b tp p) as [[ok el] p']. destruct I as (Hm' & now_ms & insert_ms & E).
    pose proof (InsertMetrics_keeps (b_agent_id b) now_ms (b_metrics b) insert_ms (m_storage p) l (pos _ Hb) Hl) as K.
    destruct (InsertMetrics_grows (b_agent_id b) now_ms (b_metrics b) insert_ms (m_storage p)) as [C _].
    rewrite <- E in K, C. cbn in C. split; [split; [done|by rewrite C]|exact K].
Defined.

(** *** The journey *)
Context {D : Type} `{SpillStoreLaws D}.
Variable serialize_batch : MetricsBatch -> option string.
Variable parse_batch : string -> option MetricsBatch.
Hypothesis parse_serialize : forall b x, serialize_batch b = Some x -> parse_batch x = Some b.
Variable cfg : MainLoop.config.
Variable who : Wire.identity.
#[local] Instance the_uplink : Uplink (Wire.world (@pipeline W Q)) := Wire.wire_uplink who.
#[local] Instance the_uplink_laws : UplinkLaws (Wire.world (@pipeline W Q)) := Wire.wire_uplink_laws who.

Abbreviation run := (MainLoop.run serialize_batch parse_batch cfg).
Abbreviation start := (MainLoop.start cfg).

(** What each collector acknowledged is in its database. *)
Definition delivered (w : Wire.world (@pipeline W Q)) (log : list (string * list Metric)) : Prop :=
  forall ep ms, (ep, ms) ∈ log -> exists c, Wire.collectors w !! ep = Some c /\
    stored (sink (Wire.metrics c)) (concat (map snd (filter (fun e => e.1 = ep) log))).

Lemma direct_keeps sized pos (p : @pipeline W Q) : direct sized p -> keeps (SinkLaws := the_sink_laws sized pos) p [].
Proof. intros Hp. split; [exact Hp|]. exists []. split; apply submseteq_nil_l. Qed.


(** *** Batches the database refuses *)
Lemma refused_direct sized pos (b : MetricsBatch) :
  (forall t ms (s : @Timescale.impl W), sized (batch_size (Timescale.config s)) ->
    b_metrics b <> [] /\ fst (Timescale.InsertMetrics iter (b_agent_id b) t (b_metrics b) ms s) = false) ->
  Agent.refused (H0 := the_sink_laws sized pos) b.
Proof.
  intros Hf tp p l [[Hm Hb] _]. pose proof (IngestBatch_direct b tp p Hm) as I.
  cbn [ingest the_sink pipeline_sink]. destruct (IngestBatch _ _ _ b tp p) as [[ok el] p'].
  destruct I as (_ & t & ms & E). specialize (Hf t ms (m_storage p) Hb) as [Hne Hf]. split; [exact Hne|]. by rewrite <- E in Hf.
Qed.

(** Claim C13: a batch that is too large stops the agent.  When an agent that sends
    unary calls (no streams) has as its oldest batch in memory one with more
    metrics than the batch size of every collector, and the collectors write to
    TimescaleDB themselves, it never gets past it: whatever the network and the
    databases do and however often the agent tries, the buffer stays as it is for as long as
    no fresh batch pushes it out. *)
Theorem oversized_batch_blocks (n : Z) (s : MainLoop.state) (b : MetricsBatch) (rest : list MetricsBatch)
    (times : list Z) :
  MainLoop.use_stream_metrics cfg = false -> MainLoop.buffer s = b :: rest ->
  (n <= Z.of_nat (length (b_metrics b)))%Z ->
  (forall ep c, Wire.collectors (MainLoop.collector s) !! ep = Some c ->
    direct (fun z => 0 < z < n)%Z (sink (Wire.metrics c))) ->
  MainLoop.buffer (run (map (fun t => (t, [])) times) s) = b :: rest.
Proof.
  intros Hu Hb Hn Hc. pose (pos := fun (z : Z) (H : (0 < z < n)%Z) => proj1 H).
  apply (Agent.refused_blocks (H0 := the_sink_laws _ pos) serialize_batch parse_batch cfg who
    (Wire.acked (MainLoop.collector s)) b rest times s); [|done..|].
  - apply refused_direct. intros t ms st Hst. split; [intros E; rewrite E in Hn; cbn in Hn; lia|].
    apply InsertMetrics_oversized. lia.
  - apply Agent.safe_start. intros ep c Ec. by apply direct_keeps, (Hc ep c).
Qed.
End Database.

(** *** A concrete journey *)
#[local] Instance recorder_laws : LibpqLaws Timescale.recorder.
Proof.
  refine {| executed w := filter (fun sql => has_prefix "INSERT" sql = true) (Timescale.sent w) |}; [|done|done].
  intros sql w. cbn. rewrite filter_app, filter_cons, filter_nil.
  by destruct (has_prefix "INSERT" sql) eqn:E.
Defined.

Abbreviation demo_sink := (@pipeline Timescale.recorder unit).
Definition demo_pipeline (bs : Z) : demo_sink :=
  mkPipeline (Timescale.demo_impl bs) None None Direct (fun _ => (1000, 1000, 2, 5)%Z) 0 [].
Definition demo_collector (bs : Z) : Wire.collector demo_sink :=
  Wire.mkCollector (mkService 0 0 0 0 0 5000 1000 Direct (demo_pipeline bs)) AgentRegistry.empty.
(** The reply to the first batch is lost. *)
Definition demo_world (bs : Z) : Wire.world demo_sink :=
  Wire.mkWorld {[ "localhost:50051" := demo_collector bs ]}
    (fun n => Wire.mkCircumstances (match n with 1 => Wire.Cut 0 true | _ => Wire.Arrives end) 1000 "" "ipv4:10.0.0.7:4242")
    0 [].
Definition demo_who : Wire.identity := Wire.mkIdentity "agent" "1.0" 1000 (fun _ => "").
Definition demo_inputs : list (Z * list MetricsBatch) :=
  [(0, [MainLoop.demo_batch "x"]); (2000, [MainLoop.demo_batch "y"])]%Z.
Definition demo_produce (m : Producer.message) (q : unit) : bool * unit := (true, q).

#[local] Existing Instance the_sink.
#[local] Instance demo_uplink : Uplink (Wire.world demo_sink) :=
  the_uplink map_to_list (fun _ => None) demo_produce demo_who.
Abbreviation demo_start bs :=
  (MainLoop.start MainLoop.demo_cfg 0 MainLoop.demo_disk (Failover.FailoverClient []) (demo_world bs)).
Abbreviation demo_run bs := (MainLoop.run MainLoop.demo_serialize MainLoop.demo_parse MainLoop.demo_cfg demo_inputs (demo_start bs)).

Lemma demo_direct (bs : Z) (sized : Z -> Prop) :
  sized bs -> forall ep c, Wire.collectors (demo_world bs) !! ep = Some c -> direct sized (sink (Wire.metrics c)).
Proof. intros Hs ep c E. cbn in E. apply lookup_singleton_Some in E as [_ <-]. by split. Qed.


Definition big_batch : MetricsBatch := mkBatch "agent" 0 [MainLoop.demo_metric "x"; MainLoop.demo_metric "y"].
Abbreviation stuck := (MainLoop.set_buffer [big_batch] (demo_start 1)).
Abbreviation retry times := (MainLoop.run MainLoop.demo_serialize MainLoop.demo_parse MainLoop.demo_cfg (map (fun t => (t, [])) times) stuck).

(** Three attempts, and the first metric was stored by each of them. *)
Lemma oversized_batch_blocks_witness :
  MainLoop.buffer (retry [0; 2000; 4000]%Z) = [big_batch] /\
  exists c, Wire.collectors (MainLoop.collector (retry [0; 2000; 4000]%Z)) !! "localhost:50051" = Some c /\
    length (executed (Timescale.world (m_storage (sink (Wire.metrics c))))) = 3.
Proof.
  split; [|eexists; split; vm_compute; reflexivity].
  refine (oversized_batch_blocks map_to_list (fun _ => None) demo_produce MainLoop.demo_serialize MainLoop.demo_parse
    MainLoop.demo_cfg demo_who 2 stuck big_batch [] [0; 2000; 4000]%Z _ _ _ _); [reflexivity..|vm_compute; congruence|].
  by apply (demo_direct 1 (fun z => 0 < z < 2)%Z).
Defined.
End Database.
