(* ===== verification/AgentStart.v ===== *)
(** * AgentStart: how the agent starts, is signalled and is watched

    Models [agent/src/tls_credentials.cpp], [agent/src/systemd_notify.cpp] and
    the parts of [agent/src/main.cpp] before and around the main loop: the
    signal handler, the diagnostic server, the choice of endpoints, the
    clients and the advertised endpoint, the default targets, and what the loop
    of file AgentMain is started with. *)
From stdpp Require Import base gmap strings list.
From Stdlib Require Import ZArith Lia.
From S2P Require Import Prelude Proto DiskBuffer AgentMain ProbeRunner AgentConfig Resolver Net Probes ProbesSpec Platform.
Import Str Net Resources.
#[local] Open Scope string_scope.
#[local] Open Scope list_scope.
#[local] Open Scope net_scope.

(** ** TLS credentials *)
Module Credentials.

(** What gRPC is given: [GRPC_SSL_REQUEST_AND_REQUIRE_CLIENT_CERTIFICATE_AND_VERIFY]
    is the only client certificate request the server side uses. *)
Inductive channel_credentials : Type :=
  | InsecureChannelCredentials
  | SslCredentials (pem_root_certs pem_private_key pem_cert_chain : string).
Inductive server_credentials : Type :=
  | InsecureServerCredentials
  | SslServerCredentials (pem_root_certs pem_private_key pem_cert_chain : string).

Section Credentials.
(** The content of the files that can be read. *)
Variable contents : string -> option string.

Definition ReadFile (path : string) : string := if is_empty path then "" else default "" (contents path).

Definition MakeChannelCredentials (ca_path cert_path key_path : string) : channel_credentials :=
  if is_empty ca_path && is_empty cert_path && is_empty key_path then InsecureChannelCredentials
  else if is_empty (ReadFile ca_path) then InsecureChannelCredentials
  else SslCredentials (ReadFile ca_path) (ReadFile key_path) (ReadFile cert_path).

Definition MakeServerCredentials (ca_path cert_path key_path : string) : server_credentials :=
  if is_empty ca_path && is_empty cert_path && is_empty key_path then InsecureServerCredentials
  else if is_empty (ReadFile ca_path) then InsecureServerCredentials
  else SslServerCredentials (ReadFile ca_path) (ReadFile key_path) (ReadFile cert_path).

(** The line [RunAgent] logs about the transport. *)
Definition transport_line (tls_ca tls_cert : string) : string :=
  if is_empty tls_ca then "gRPC transport: insecure (no --tls-*)"
  else "gRPC transport: mTLS (client cert " +:+ tls_cert +:+ ")".

Lemma ReadFile_empty path : is_empty path = true -> ReadFile path = "".
Proof. unfold ReadFile. by intros ->. Qed.

(** Mutual TLS depends on one file.  The channel to the collectors and the
    agent's own diagnostic server use mutual TLS together, exactly when the CA
    file can be read and is not empty; when it cannot, both are in the clear,
    so that anyone may run commands on the agent, while the log announces
    mutual TLS for every agent with a CA path. *)
Theorem announced_but_insecure (ca cert key : string) :
  (MakeChannelCredentials ca cert key = InsecureChannelCredentials <-> ReadFile ca = "") /\
  (MakeServerCredentials ca cert key = InsecureServerCredentials <-> ReadFile ca = "") /\
  (transport_line ca cert = "gRPC transport: mTLS (client cert " +:+ cert +:+ ")" <-> ca <> "") /\
  (ReadFile ca <> "" ->
   MakeChannelCredentials ca cert key = SslCredentials (ReadFile ca) (ReadFile key) (ReadFile cert) /\
   MakeServerCredentials ca cert key = SslServerCredentials (ReadFile ca) (ReadFile key) (ReadFile cert)).
Proof.
  unfold MakeChannelCredentials, MakeServerCredentials, transport_line.
  destruct (is_empty ca) eqn:Ec; cbn [andb].
  - rewrite (ReadFile_empty ca) by done. destruct (is_empty cert && is_empty key); cbn;
      (split_and!; [done..| |done]); (split; [intros E|intros H]); try discriminate; by destruct ca.
  - assert (ca <> "") as Hca by by destruct ca. destruct (ReadFile ca); cbn; by split_and!.
Qed.
End Credentials.
End Credentials.

(** ** Signals *)
Module Signals.
Inductive signal : Type := SIGTERM | SIGINT | SIGHUP.

Definition hup_line : string :=
  "{" +:+ dq +:+ "level" +:+ dq +:+ ":" +:+ dq +:+ "info" +:+ dq +:+ "," +:+ dq +:+ "component" +:+ dq +:+ ":" +:+ dq
  +:+ "agent" +:+ dq +:+ "," +:+ dq +:+ "message" +:+ dq +:+ ":" +:+ dq
  +:+ "SIGHUP received: config reload not yet implemented (config is passed via CLI flags); ignoring"
  +:+ dq +:+ "}" +:+ chr nl.
Definition stop_line : string :=
  "{" +:+ dq +:+ "level" +:+ dq +:+ ":" +:+ dq +:+ "info" +:+ dq +:+ "," +:+ dq +:+ "component" +:+ dq +:+ ":" +:+ dq
  +:+ "agent" +:+ dq +:+ "," +:+ dq +:+ "message" +:+ dq +:+ ":" +:+ dq +:+ "Received signal, shutting down..." +:+ dq
  +:+ "}" +:+ chr nl.

Section Signals.
(** The result of the [i]-th [write] of that many bytes. *)
Variable write : nat -> nat -> Z.

(** What reaches the standard output; every round writes a byte or ends. *)
Fixpoint safe_write (fuel i : nat) (s : string) : string :=
  match fuel, s with
  | S fuel, String _ _ =>
      let w := write i (String.length s) in
      if (w <=? 0)%Z then "" else stake (Z.to_nat w) s +:+ safe_write fuel (S i) (sdrop (Z.to_nat w) s)
  | _, _ => ""
  end.
Definition SafeWriteStr (s : string) : string := safe_write (String.length s) 0 s.

(** The line printed and the new value of [s_running]. *)
Definition handle_signal (sig : signal) (s_running : bool) : string * bool :=
  match sig with
  | SIGHUP => (SafeWriteStr hup_line, s_running)
  | _ => (SafeWriteStr stop_line, false)
  end.

Lemma safe_write_all fuel i s :
  String.length s <= fuel -> (forall j n, 0 < n -> (0 < write j n)%Z) -> safe_write fuel i s = s.
Proof.
  revert i s. induction fuel as [|fuel IH]; intros i s Hl Hw; destruct s as [|c s]; try done; [cbn in Hl; lia|].
  cbn [safe_write]. set (n := write i _).
  assert (0 < n)%Z as Hn by (apply Hw; cbn; lia). rewrite (proj2 (Z.leb_gt _ _)) by done.
  rewrite IH; [apply stake_sdrop| |done].
  rewrite slength_sdrop. cbn [String.length] in *. lia.
Qed.
Lemma SafeWriteStr_whole s : (forall j n, 0 < n -> (0 < write j n)%Z) -> SafeWriteStr s = s.
Proof. intros H. by apply safe_write_all. Qed.
End Signals.
End Signals.

(** ** The systemd watchdog *)
Module Watchdog.
(** Where the thread is in its loop. *)
Inductive point : Type := Test | Asleep | Retest | Exited.
Record state : Type := mkState {
  flag : option bool;      (* [watchdog_stop], while [RunAgent] has not returned *)
  thread : point;
  pings : nat;             (* calls of [NotifyWatchdog] *)
  wild : bool;             (* the thread has read the flag after its end *)
}.
Inductive actor : Type := Main | Thread.
Inductive step : actor -> state -> state -> Prop :=
  | main_stops b p n x : step Main (mkState (Some b) p n x) (mkState (Some true) p n x)
  | main_returns p n x : step Main (mkState (Some true) p n x) (mkState None p n x)
  | thread_tests b n x : step Thread (mkState (Some b) Test n x) (mkState (Some b) (if b then Exited else Asleep) n x)
  | thread_wakes f n x : step Thread (mkState f Asleep n x) (mkState f Retest n x)
  | thread_pings b n x :
      step Thread (mkState (Some b) Retest n x)
        (if b then mkState (Some b) Exited n x else mkState (Some b) Test (S n) x)
  | thread_reads_wild p q n x : p = Test \/ p = Retest -> step Thread (mkState None p n x) (mkState None q n true).
Definition start : state := mkState (Some false) Test 0 false.
Definition any_step (s s' : state) : Prop := exists a, step a s s'.
Definition reached (s : state) : Prop := rtc any_step start s.

(** While the agent runs, the thread is in its loop; a wild read needs the
    flag to be gone. *)
Definition good (s : state) : Prop :=
  (wild s = true -> flag s = None) /\ (flag s = Some false -> thread s <> Exited).
Lemma watch_good_step a s s' : good s -> step a s s' -> good s'.
Proof.
  intros [H1 H2] H. destruct H; split; cbn in *; try destruct b; cbn in *; try done;
    intros E; first [discriminate (H1 E) | by intros [=] | by discriminate E | apply H1, E].
Qed.
Lemma watch_reached_good s : reached s -> good s.
Proof.
  intros H. revert s H. apply rtc_ind_r; [by split|]. intros y z _ [a Hs] G. by apply (watch_good_step a y z).
Qed.

(** The watchdog watches itself.  As long as [RunAgent] has not set the flag,
    whatever its main loop does or fails to do, the thread alone reaches its
    next ping: systemd never learns that the main loop hangs.  After
    [RunAgent] has returned the thread may read the flag, a local variable of
    that call, once more; before that it never does. *)
Theorem watchdog_ignores_the_loop (s : state) :
  reached s ->
  (flag s = Some false ->
   exists s', rtc (step Thread) s s' /\ pings s' = S (pings s) /\ flag s' = Some false) /\
  (wild s = true -> flag s = None) /\
  exists s', reached s' /\ wild s' = true.
Proof.
  intros Hr. destruct (watch_reached_good s Hr) as [G1 G2]. split; [|split; [exact G1|]].
  - intros Hf. specialize (G2 Hf). destruct s as [f p n x]. cbn in *. subst f.
    exists (mkState (Some false) Test (S n) x). split; [|done].
    destruct p; [eapply rtc_l; [apply thread_tests|]| | |done];
      (try (eapply rtc_l; [apply thread_wakes|])); eapply rtc_l; (apply (thread_pings false) || apply rtc_refl).
  - exists (mkState None Test 0 true). split; [|done]. unfold reached.
    eapply rtc_l; [exists Thread; apply thread_tests|]. eapply rtc_l; [exists Main; apply main_stops|].
    eapply rtc_l; [exists Main; apply main_returns|]. eapply rtc_l; [exists Thread; apply thread_wakes|].
    eapply rtc_l; [exists Thread; apply (thread_reads_wild Retest Test); by right|]. apply rtc_refl.
Qed.

Lemma watchdog_ignores_the_loop_witness :
  exists s', rtc (step Thread) start s' /\ pings s' = 1 /\ flag s' = Some false.
Proof. exact (proj1 (watchdog_ignores_the_loop start (rtc_refl _ _)) eq_refl). Defined.
End Watchdog.

(** ** RunAgent up to its loop *)
Module Startup.
Import AgentConfig.AgentConfig Cycle Credentials.

Abbreviation line := (LogLevel * string)%type.

(** The endpoints in the order they are tried. *)
Definition endpoints_of (cfg : AgentConfig) : list string :=
  match a_collector_endpoints cfg with [] => [a_collector_endpoint cfg] | l => l end.

Definition probe_targets (c : ProbeConfig) : list string :=
  dns_targets c ++ tcp_targets c ++ tls_targets c ++ http_targets c ++ ping_targets c.

(** Default targets, so that an agent without a configuration reports something. *)
Definition with_demo_targets (c : ProbeConfig) : ProbeConfig :=
  match probe_targets c with
  | [] =>
      mkProbeConfig ["example.com"] ["example.com:443"] ["example.com:443"] ["https://example.com"] ["1.1.1.1"]
        (ping_count c) (ping_gap_ms c) (tls_cert_check c) (tcp_retransmit_check c) (tcp_handshake_capture c)
        (http_protocols c) (dns_expected c) (ntp_check c)
  | _ => c
  end.

(** [static_cast<uint64_t>(disk_buffer_max_mb) * 1024 * 1024]. *)
Definition disk_buffer_bytes (cfg : AgentConfig) : Z :=
  Int.u64 (Int.u64 (Int.u64 (a_disk_buffer_max_mb cfg) * 1024) * 1024).

(** The probe runner as it is started at time [now]. *)
Definition probe_runner (cfg : AgentConfig) (now : Z) : Runner.state :=
  let r := Runner.SetIntervalMs (a_interval_ms cfg) Runner.fresh in
  let r := if (0 <? a_tcp_handshake_interval_ms cfg)%Z
           then Runner.SetHandshakeIntervalMs (a_tcp_handshake_interval_ms cfg) r else r in
  Runner.Start (a_node_id cfg) now r.

Definition loop_config (cfg : AgentConfig) : MainLoop.config :=
  MainLoop.mkConfig (a_node_id cfg) (a_interval_ms cfg) (a_max_buffer_size cfg) (a_use_stream_metrics cfg).

Definition NtpServer (server g_ntp_server : string) : string := if is_empty server then g_ntp_server else server.

(** What the log says first. *)
Definition opening_lines (cfg : AgentConfig) : list line :=
  [(Info, "Agent starting up");
   (Info, if a_cfg_loaded cfg then "Loaded config file: " +:+ a_config_path cfg
          else "No config file at " +:+ a_config_path cfg +:+ "; using built-in defaults and CLI flags")] ++
  LogConfigAudit cfg ++
  [(Info, "Collector endpoint: " +:+ a_collector_endpoint cfg); (Info, "Node ID: " +:+ a_node_id cfg);
   (Info, "Interval: " +:+ of_Z (a_interval_ms cfg) +:+ "ms"); (Info, "Version: " +:+ a_version cfg)].

(** The diagnostic server thread, given the port gRPC bound (0 when it could
    not). *)
Definition diagnostic_line (port : string) (bound_port : Z) : line :=
  if (bound_port =? 0)%Z then
    (Error, "Failed to start the diagnostic gRPC server on port " +:+ port +:+
       " (port already in use?); pre-set commands and deep diagnostics for this agent will not work. Change diagnostic-port or free the port, then restart the agent.")
  else (Info, "Diagnostic gRPC server listening on 0.0.0.0:" +:+ of_Z bound_port).

Definition disk_line (path : string) (opened : string + Z) : line :=
  match opened with
  | inl db_err => (Warn, "Disk buffer unavailable: " +:+ db_err +:+ " (in-memory buffering only)")
  | inr pending => (Info, "Disk buffer ready at " +:+ path +:+ " (pending=" +:+ of_Z pending +:+ ")")
  end.

(** The line about itself every 60 seconds, and the last two lines. *)
Definition self_line (st : Runner.CycleStats) (pending : nat) : line :=
  (Info, "self: cycle=" +:+ of_Z (Runner.cycle_duration_ms st) +:+ "ms probes=" +:+ of_Z (Runner.probe_duration_ms st) +:+
   "ms metrics=" +:+ of_Z (Runner.metric_count st) +:+ " queued=" +:+ of_nat pending +:+
   " handshake_runs=" +:+ of_Z (Runner.handshake_probe_count st)).
(** The last self report is at [last]; the new one and its line, if it is due. *)
Definition self_report (now last : Z) (st : Runner.CycleStats) (pending : nat) : Z * list line :=
  if (60000 <=? now - last)%Z then (now, [self_line st pending]) else (last, []).
Definition closing_lines (on_disk : Z) : list line :=
  (if (0 <? on_disk)%Z
   then [(Warn, of_Z on_disk +:+ " batches remain in disk buffer; will be retried on next start")] else []) ++
  [(Info, "Agent shut down gracefully")].

(** What the clients are made with: endpoint, credentials, node and the
    endpoint the heartbeat advertises. *)
Record clients : Type := mkClients {
  k_endpoint : string;
  k_creds : channel_credentials;
  k_node_id : string;
  k_advertised : string;
}.

Record setup : Type := mkSetup {
  u_server : string * server_credentials;
  u_failover : Failover.client;
  u_clients : clients;
  u_probe_cfg : ProbeConfig;
  u_disk : string * Z;
  u_loop : MainLoop.config;
  u_runner : Runner.state;
  u_log : list line;
}.

Section Startup.
Context {W : Type} `{!Net W}.
Variable files : string -> option string.

Definition reconnect (cfg : AgentConfig) (creds : channel_credentials) (f : Failover.client)
    : M W (clients * list line) :=
  let ep := default "" (Failover.CurrentEndpoint f) in
  let* advertised :=
    if is_empty (a_diagnostic_address cfg) then AdvertisedDiagnosticEndpoint ep (a_diagnostic_port cfg)
    else ret (a_diagnostic_address cfg) in
  ret (mkClients ep creds (a_node_id cfg) advertised,
       [(Info, "Connecting to collector endpoint: " +:+ ep);
        if is_empty advertised then
          (Warn, "No diagnostic endpoint advertised; the collector will fall back to the address it sees for this agent (set diagnostic-address if commands cannot reach it)")
        else (Info, "Advertised diagnostic endpoint: " +:+ advertised)]).

(** The log leaves out the two lines whose moment or content is the
    environment's: [diagnostic_line] and [disk_line]. *)
Definition prepare (cfg : AgentConfig) (now : Z) : M W setup :=
  let server := ("0.0.0.0:" +:+ a_diagnostic_port cfg,
                 MakeServerCredentials files (a_tls_ca cfg) (a_tls_cert cfg) (a_tls_key cfg)) in
  let failover := Failover.FailoverClient (endpoints_of cfg) in
  let creds := MakeChannelCredentials files (a_tls_ca cfg) (a_tls_cert cfg) (a_tls_key cfg) in
  let* connected := reconnect cfg creds failover in
  ret (mkSetup server failover (fst connected) (with_demo_targets (a_probe_cfg cfg))
         (a_disk_buffer_path cfg, disk_buffer_bytes cfg) (loop_config cfg) (probe_runner cfg now)
         (opening_lines cfg ++ [(Info, transport_line (a_tls_ca cfg) (a_tls_cert cfg))] ++ snd connected ++
          [(Info, "Running metrics probes every " +:+ of_Z (a_interval_ms cfg) +:+ "ms")])).

(** [RunAgent]: an exit code, or what the loop is started with. *)
Definition RunAgent (loaded : outcome (ConfigResult * AgentConfig)) (now : Z) : outcome (Z + M W setup) :=
  let! r := loaded in
  match fst r with
  | Ok => Returns (inr (prepare (snd r) now))
  | Help => Returns (inl 0%Z)
  | ErrorResult => Returns (inl 1%Z)
  end.

(** *** What the configuration becomes *)
Lemma balanced_reconnect cfg creds f : balanced (W := W) (reconnect cfg creds f).
Proof.
  unfold reconnect. apply balanced_bind; [|intros a; apply balanced_quiet; auto with quiet].
  destruct (is_empty _); [apply balanced_AdvertisedDiagnosticEndpoint|apply balanced_quiet; auto with quiet].
Qed.
Lemma reconnect_made cfg creds f h :
  let c := fst (fst (reconnect cfg creds f h)) in
  k_endpoint c = default "" (Failover.CurrentEndpoint f) /\ k_creds c = creds /\ k_node_id c = a_node_id cfg /\
  if is_empty (a_diagnostic_address cfg)
  then endpoint_of_this_machine (k_endpoint c) (a_diagnostic_port cfg) h (k_advertised c)
  else k_advertised c = a_diagnostic_address cfg.
Proof.
  unfold reconnect. cbv zeta. destruct (is_empty _) eqn:E; unfold bind; [|done].
  pose proof (AdvertisedDiagnosticEndpoint_answer (default "" (Failover.CurrentEndpoint f)) (a_diagnostic_port cfg) h) as Ha.
  destruct (AdvertisedDiagnosticEndpoint _ _ h) as [a h']. done.
Qed.

Lemma with_demo_targets_some c :
  probe_targets (with_demo_targets c) <> [] /\ (probe_targets c <> [] -> with_demo_targets c = c).
Proof. unfold with_demo_targets. destruct (probe_targets c) eqn:E; [done|]. by rewrite E. Qed.

Lemma endpoints_of_some cfg : match endpoints_of cfg with [] => ["localhost:50051"] | _ => endpoints_of cfg end = endpoints_of cfg.
Proof. unfold endpoints_of. by destruct (a_collector_endpoints cfg). Qed.

(** The sane part of a configuration, which the parser does not check. *)
Record sane (cfg : AgentConfig) : Prop := {
  sane_interval : (0 < a_interval_ms cfg)%Z /\ (a_interval_ms cfg * 20 < 2 ^ 31)%Z;
  sane_buffer : (0 <= a_max_buffer_size cfg)%Z;
}.

End Startup.

(** An agent with two collectors, no targets and an advertised address. *)
Definition demo_cfg : AgentConfig :=
  mkAgentConfig "" false ∅ ∅ "" ["c1:50051"; "c2:50051"] "agent" "1.0" "" 1000 "" "" "" "50052" "agent.example:50052" ""
    Info default_ProbeConfig 0 false 2 "" 100.
Abbreviation demo_prepare :=
  (prepare (Net0 := ProbesSpec.Demo.demo_net []) (fun _ => None) demo_cfg 0 ProbesSpec.Demo.demo_host).
Abbreviation demo_loop :=
  (MainLoop.run MainLoop.demo_serialize MainLoop.demo_parse (u_loop (fst demo_prepare)) MainLoop.demo_inputs
     (MainLoop.start (u_loop (fst demo_prepare)) 0 MainLoop.demo_disk (u_failover (fst demo_prepare)) MainLoop.demo_wire)).

End Startup.
