(* ===== verification/WinService.v ===== *)
(** * WinService: the agent as a Windows service

    Models [agent/src/platform/win_service.cpp] (Windows build) and [main] of
    [agent/src/main.cpp]: [ServiceMain], the control handler and the thread that
    runs the agent, as the steps of three threads and of the service control
    manager.  The manager delivers a control only when the status last reported
    accepts it, as its documentation says. *)
From stdpp Require Import base gmap strings list relations.
From Stdlib Require Import ZArith Lia.
From S2P Require Import Prelude.
Import Str.
#[local] Open Scope string_scope.
#[local] Open Scope list_scope.

Module WinService.

(** ** What is reported *)
Inductive service_state : Type :=
  | SERVICE_START_PENDING | SERVICE_RUNNING | SERVICE_STOP_PENDING | SERVICE_STOPPED.
#[global] Instance service_state_eq_dec : EqDecision service_state.
Proof. solve_decision. Defined.

Record SERVICE_STATUS : Type := mkStatus {
  dwCurrentState : service_state;
  accepts_stop : bool;            (* SERVICE_ACCEPT_STOP and SERVICE_ACCEPT_SHUTDOWN *)
  dwWin32ExitCode : Z;
  dwWaitHint : Z;
}.
(** [ReportStatus]: nothing without a status handle. *)
Definition ReportStatus (g_status_handle : bool) (state : service_state) (wait_hint : Z)
    (reported : list SERVICE_STATUS) : list SERVICE_STATUS :=
  if g_status_handle then
    reported ++ [mkStatus state (bool_decide (state = SERVICE_RUNNING)) 0 wait_hint]
  else reported.

Inductive control : Type :=
  | SERVICE_CONTROL_STOP | SERVICE_CONTROL_SHUTDOWN | SERVICE_CONTROL_INTERROGATE | OTHER_CONTROL.
Definition NO_ERROR : Z := 0.
Definition ERROR_CALL_NOT_IMPLEMENTED : Z := 120.

(** ** The threads *)

(** [ServiceMain]: before the call of that name. *)
Inductive main_point : Type :=
  | Register | CreateEvent | Spawn | ReportRunning | WaitForStop | Join | ReportStopped | CloseEvent | Returned.
(** The agent's thread, [RunAgent]: it reads its configuration, which may end it
    with 0 (help) or 1 (error), and then stays in the loop that is headed by
    [while (s_running)].  The iterations are no steps here.  A service has no
    console that could send it a signal. *)
Inductive worker_point : Type := NotStarted | Configuring | Looping | Finished (code : Z).
(** The control handler, in a stop or shutdown. *)
Inductive handler_point : Type := Idle | ReportPending | CallOnStop | SignalEvent.

Record state : Type := mkState {
  at_main : main_point;
  at_worker : worker_point;
  at_handler : handler_point;
  reported : list SERVICE_STATUS;
  g_status_handle : bool;
  g_stop_event : option bool;      (* the event, and whether it is set *)
  s_running : bool;                (* the flag of the agent's main loop *)
}.
Definition start : state := mkState Register NotStarted Idle [] false None true.

Inductive actor : Type := Main | Worker | Handler | Manager.

(** What the last report accepts. *)
Definition accepting (s : state) : bool :=
  match list.last (reported s) with Some r => accepts_stop r | None => false end.

Inductive step : actor -> state -> state -> Prop :=
  | registers w k l f e r :
      step Main (mkState Register w k l f e r)
        (mkState CreateEvent w k (ReportStatus true SERVICE_START_PENDING 5000 l) true e r)
  | cannot_register w k l f e r : step Main (mkState Register w k l f e r) (mkState Returned w k l false e r)
  | creates_event w k l f e r : step Main (mkState CreateEvent w k l f e r) (mkState Spawn w k l f (Some false) r)
  | cannot_create_event w k l f e r : step Main (mkState CreateEvent w k l f e r) (mkState Returned w k l f None r)
  | spawns w k l f e r : step Main (mkState Spawn w k l f e r) (mkState ReportRunning Configuring k l f e r)
  | reports_running w k l f e r :
      step Main (mkState ReportRunning w k l f e r)
        (mkState WaitForStop w k (ReportStatus f SERVICE_RUNNING 0 l) f e r)
  | wakes w k l f r : step Main (mkState WaitForStop w k l f (Some true) r) (mkState Join w k l f (Some true) r)
  | joins c k l f e r :
      step Main (mkState Join (Finished c) k l f e r) (mkState ReportStopped (Finished c) k l f e r)
  | reports_stopped w k l f e r :
      step Main (mkState ReportStopped w k l f e r)
        (mkState CloseEvent w k (ReportStatus f SERVICE_STOPPED 0 l) f e r)
  | closes_event w k l f e r : step Main (mkState CloseEvent w k l f e r) (mkState Returned w k l f None r)
  | agent_gives_up m k l f e r c :
      c = 0%Z \/ c = 1%Z -> step Worker (mkState m Configuring k l f e r) (mkState m (Finished c) k l f e r)
  | agent_enters_loop m k l f e r : step Worker (mkState m Configuring k l f e r) (mkState m Looping k l f e r)
  (* the head of the loop finds the flag down *)
  | agent_returns m k l f e : step Worker (mkState m Looping k l f e false) (mkState m (Finished 0) k l f e false)
  | control_arrives m w l f e r c :
      c = SERVICE_CONTROL_STOP \/ c = SERVICE_CONTROL_SHUTDOWN ->
      accepting (mkState m w Idle l f e r) = true ->
      step Manager (mkState m w Idle l f e r) (mkState m w ReportPending l f e r)
  | handler_reports m w l f e r :
      step Handler (mkState m w ReportPending l f e r)
        (mkState m w CallOnStop (ReportStatus f SERVICE_STOP_PENDING 30000 l) f e r)
  | handler_stops m w l f e r :
      step Handler (mkState m w CallOnStop l f e r) (mkState m w SignalEvent l f e false)
  | handler_signals m w l f e r :
      step Handler (mkState m w SignalEvent l f e r)
        (mkState m w Idle l f (match e with Some _ => Some true | None => None end) r).

Definition any_step (s s' : state) : Prop := exists a, step a s s'.
Definition reached (s : state) : Prop := rtc any_step start s.

(** The result of the control handler. *)
Definition ControlHandler (c : control) : Z :=
  match c with
  | SERVICE_CONTROL_STOP | SERVICE_CONTROL_SHUTDOWN | SERVICE_CONTROL_INTERROGATE => NO_ERROR
  | OTHER_CONTROL => ERROR_CALL_NOT_IMPLEMENTED
  end.

(** ** The program *)
Inductive action : Type := WSAStartup | TheService | TheAgent | WSACleanup | Complaint (text : string).

Definition InitNetwork (rc : Z) : string + unit :=
  if (rc =? 0)%Z then inr tt else inl ("WSAStartup failed with code " +:+ of_Z rc).
(** [main] on Windows: what [WSAStartup], [StartServiceCtrlDispatcher] and the
    agent return, to the exit code and what was done. *)
Definition main (rc : Z) (dispatched : bool) (agent_rc : Z) : Z * list action :=
  match InitNetwork rc with
  | inl net_err => (1%Z, [WSAStartup; Complaint net_err])
  | inr _ =>
      if dispatched then (0%Z, [WSAStartup; TheService; WSACleanup])
      else (agent_rc, [WSAStartup; TheAgent; WSACleanup])
  end.

(** ** The life of the service *)
Definition start_pending : SERVICE_STATUS := mkStatus SERVICE_START_PENDING false 0 5000.
Definition running : SERVICE_STATUS := mkStatus SERVICE_RUNNING true 0 0.
Definition stop_pending : SERVICE_STATUS := mkStatus SERVICE_STOP_PENDING false 0 30000.
Definition stopped : SERVICE_STATUS := mkStatus SERVICE_STOPPED false 0 0.
Definition life : list SERVICE_STATUS := [start_pending; running; stop_pending; stopped].

Definition started (w : worker_point) : Prop := w <> NotStarted.
Definition finished (w : worker_point) : Prop := exists c, w = Finished c.

(** How far a stop has come while [ServiceMain] waits. *)
Inductive stopping : handler_point -> list SERVICE_STATUS -> option bool -> bool -> Prop :=
  | not_stopping : stopping Idle (take 2 life) (Some false) true
  | stop_arrived : stopping ReportPending (take 2 life) (Some false) true
  | stop_reported : stopping CallOnStop (take 3 life) (Some false) true
  | stop_told : stopping SignalEvent (take 3 life) (Some false) false
  | stop_signalled : stopping Idle (take 3 life) (Some true) false.

Inductive good : state -> Prop :=
  | good_register : good start
  | good_create : good (mkState CreateEvent NotStarted Idle (take 1 life) true None true)
  | good_spawn : good (mkState Spawn NotStarted Idle (take 1 life) true (Some false) true)
  | good_report w : started w -> good (mkState ReportRunning w Idle (take 1 life) true (Some false) true)
  | good_wait w k l e r : started w -> stopping k l e r -> good (mkState WaitForStop w k l true e r)
  | good_join w : started w -> good (mkState Join w Idle (take 3 life) true (Some true) false)
  | good_report_stopped w : finished w -> good (mkState ReportStopped w Idle (take 3 life) true (Some true) false)
  | good_close w : finished w -> good (mkState CloseEvent w Idle life true (Some true) false)
  | good_unregistered : good (mkState Returned NotStarted Idle [] false None true)
  | good_no_event : good (mkState Returned NotStarted Idle (take 1 life) true None true)
  | good_returned w : finished w -> good (mkState Returned w Idle life true None false).

Ltac step_cases :=
  match goal with H : step _ _ _ |- _ => inversion H; subst; clear H end;
  repeat match goal with H : stopping _ _ _ _ |- _ => inversion H; subst; clear H end;
  try discriminate; cbn in *.
Lemma service_good_step a s s' : good s -> step a s s' -> good s'.
Proof.
  intros G H. destruct G; step_cases;
    try (constructor; unfold started, finished in *; (discriminate || congruence || eauto || constructor)).
  all: try (unfold accepting in *; cbn in *; discriminate).
  all: unfold finished in *; match goal with H : exists _, _ = _ |- _ => by destruct H end.
Qed.
Lemma service_reached_good s : reached s -> good s.
Proof. revert s. apply rtc_ind_r; [constructor|]. intros y z _ [a Hs] G. by apply (service_good_step a y z). Qed.

(** *** Order, and a graceful end *)
Lemma good_reported s : good s -> reported s `prefix_of` life.
Proof. intros G. destruct G; try match goal with H : stopping _ _ _ _ |- _ => destruct H end; cbn; by eexists. Qed.

(** What the service control manager is told.  Under every
    interleaving of the agent, [ServiceMain], the control handler and the
    manager's requests, the reported statuses are a beginning of
    START_PENDING, RUNNING, STOP_PENDING, STOPPED; STOPPED is reported only
    after the agent has returned, the stop flag is put down only for a stop
    that was reported as pending, and, as every report carries the exit code
    0, the manager never learns the agent's. *)
Theorem service_life (s : state) :
  reached s ->
  reported s `prefix_of` life /\
  (stopped ∈ reported s -> finished (at_worker s)) /\
  (s_running s = false -> stop_pending ∈ reported s) /\
  (forall r, r ∈ reported s -> dwWin32ExitCode r = 0%Z).
Proof.
  intros Hr. pose proof (service_reached_good s Hr) as G. split; [by apply good_reported|]. split; [|split].
  - destruct G; cbn; rewrite ?list_elem_of_In; cbn; try tauto;
      try match goal with H : stopping _ _ _ _ |- _ => destruct H end; cbn; intuition discriminate.
  - destruct G; try match goal with H : stopping _ _ _ _ |- _ => destruct H end; cbn; try discriminate;
      intros _; rewrite list_elem_of_In; cbn; tauto.
  - intros r Hin. assert (r ∈ life) as Hl.
    { destruct (good_reported s G) as [l E]. rewrite E. apply elem_of_app. by left. }
    rewrite list_elem_of_In in Hl. cbn in Hl. intuition (subst; done).
Qed.

(** *** A stop comes to its end *)

(** The steps the program takes by itself. *)
Definition own_step (s s' : state) : Prop := exists a, a <> Manager /\ step a s s'.
Definition main_rank (m : main_point) : nat :=
  match m with
  | Register => 8 | CreateEvent => 7 | Spawn => 6 | ReportRunning => 5 | WaitForStop => 4 | Join => 3
  | ReportStopped => 2 | CloseEvent => 1 | Returned => 0
  end.
Definition worker_rank (w : worker_point) : nat :=
  match w with NotStarted => 3 | Configuring => 2 | Looping => 1 | Finished _ => 0 end.
Definition handler_rank (k : handler_point) : nat :=
  match k with ReportPending => 3 | CallOnStop => 2 | SignalEvent => 1 | Idle => 0 end.
Definition rank (s : state) : nat := main_rank (at_main s) + worker_rank (at_worker s) + handler_rank (at_handler s).

Lemma own_step_rank s s' : good s -> own_step s s' -> rank s' < rank s.
Proof. intros G (a & Ha & H). destruct G; step_cases; unfold rank; cbn; try lia; congruence. Qed.
Lemma own_steps_good s s' : good s -> rtc own_step s s' -> good s'.
Proof. intros G H. induction H as [|x y z (a & _ & H) _ IH]; [done|]. apply IH. by apply (service_good_step a x). Qed.
Lemma own_steps_rank n s s' : good s -> nsteps own_step n s s' -> n + rank s' <= rank s.
Proof.
  intros G H. revert G. induction H as [|n x y z H _ IH]; intros G; [lia|].
  assert (good y) as Gy by (destruct H as (a & _ & H); by apply (service_good_step a x)).
  pose proof (own_step_rank x y G H). specialize (IH Gy). lia.
Qed.

(** A stop was asked for. *)
Definition asked (s : state) : Prop := at_handler s <> Idle \/ stop_pending ∈ reported s.
Lemma asked_step s s' : good s -> asked s -> own_step s s' -> asked s'.
Proof.
  intros G Ha (a & Hm & H). unfold asked in *. rewrite list_elem_of_In in *.
  destruct G; step_cases; try congruence; intuition (try discriminate; eauto 10).
Qed.
Lemma asked_steps s s' : good s -> asked s -> rtc own_step s s' -> asked s'.
Proof.
  intros G Ha H. revert G Ha. induction H as [|x y z H Hz IH]; intros G Ha; [done|].
  apply IH; [|by apply (asked_step x)]. destruct H as (a & _ & H). by apply (service_good_step a x).
Qed.

(** Before the end, a service that was asked to stop can always go on. *)
Lemma asked_progress s : good s -> asked s -> at_main s = Returned \/ exists s', own_step s s'.
Proof.
  intros G Ha. unfold asked in Ha. rewrite list_elem_of_In in Ha.
  assert (Hgo : forall a s', a <> Manager -> step a s s' -> at_main s = Returned \/ exists s', own_step s s')
    by (intros a s' Hn Hs; right; by exists s', a).
  destruct G as [| | |w Hw|w k l e r Hw Hk|w Hw|w Hw|w Hw| | |w Hw]; try (by left); cbn in Ha; try intuition (congruence || discriminate).
  - destruct Hk; cbn in Ha.
    + intuition (congruence || discriminate).
    + eapply (Hgo Handler); [done|constructor].
    + eapply (Hgo Handler); [done|constructor].
    + eapply (Hgo Handler); [done|constructor].
    + eapply (Hgo Main); [done|constructor].
  - destruct w as [| | |c]; [done|eapply (Hgo Worker); [done|apply agent_enters_loop]|eapply (Hgo Worker); [done|apply agent_returns]|].
    eapply (Hgo Main); [done|constructor].
  - eapply (Hgo Main); [done|constructor].
  - eapply (Hgo Main); [done|constructor].
Qed.


(** The manager is not told that the agent has ended by itself, with whatever
    exit code: without a stop the service never reports STOPPED, and it comes
    to rest waiting for one, as RUNNING. *)
Theorem dead_agent_stays_running (s : state) :
  reached s -> ~ asked s ->
  (forall s', rtc own_step s s' -> stopped ∉ reported s') /\
  (forall c, at_worker s = Finished c ->
    exists s', rtc own_step s s' /\ reported s' = [start_pending; running] /\ forall s'', ~ own_step s' s'').
Proof.
  intros Hr Ha. pose proof (service_reached_good s Hr) as G.
  assert (Hkeep : forall x y, good x -> ~ asked x -> own_step x y -> ~ asked y).
  { unfold asked. intros x y Gx Hx (a & Hm & H). rewrite list_elem_of_In in *.
    destruct Gx; step_cases; try congruence; intuition (try discriminate; eauto 10). }
  split.
  - intros s' H. assert (~ asked s' /\ good s') as [A' G'].
    { clear Hr. revert Ha G. induction H as [|x y z H Hz IH]; intros Ha G; [done|].
      apply IH; [by apply (Hkeep x)|]. destruct H as (a & _ & H). by apply (service_good_step a x). }
    unfold asked in A'. rewrite list_elem_of_In in *. destruct G'; cbn in *; try tauto;
      try match goal with H : stopping _ _ _ _ |- _ => destruct H end; cbn in *; intuition discriminate.
  - intros c Hc. assert (forall r, forall s'', ~ own_step (mkState WaitForStop (Finished c) Idle (take 2 life) true (Some false) r) s'') as Hrest.
    { intros r s'' (a & Hm & H). inversion H; subst; congruence. }
    unfold asked in Ha. rewrite list_elem_of_In in Ha.
    destruct G as [| | |w Hw|w k l e r Hw Hk|w Hw|w Hw|w Hw| | |w Hw]; cbn in Hc, Ha; try discriminate; subst; try tauto.
    + eexists. split; [eapply rtc_l; [exists Main; split; [done|constructor]|apply rtc_refl]|]. split; [done|apply Hrest].
    + destruct Hk; cbn in Ha; try (exfalso; intuition (congruence || discriminate)); try tauto.
      eexists. split; [apply rtc_refl|]. split; [done|apply Hrest].
Qed.

(** *** Witnesses *)
Lemma service_reached_step a s s' : reached s -> step a s s' -> reached s'.
Proof. intros H Hs. eapply rtc_r; [exact H|by exists a]. Defined.

(** The configuration is refused and the agent ends with exit code 1; later a
    stop arrives. *)
Definition demo_dead : state := mkState WaitForStop (Finished 1) Idle (take 2 life) true (Some false) true.
Lemma demo_dead_reached : reached demo_dead.
Proof.
  eapply (service_reached_step Worker); [|apply agent_gives_up; by right].
  eapply (service_reached_step Main); [|apply (reports_running _ _ (take 1 life) true)].
  eapply (service_reached_step Main); [|apply (spawns NotStarted)].
  eapply (service_reached_step Main); [|apply creates_event].
  eapply (service_reached_step Main); [|apply (registers _ _ [] false)]. apply rtc_refl.
Defined.
Definition demo_asked : state := mkState WaitForStop (Finished 1) ReportPending (take 2 life) true (Some false) true.
Lemma demo_asked_reached : reached demo_asked.
Proof.
  eapply (service_reached_step Manager); [apply demo_dead_reached|]. apply (control_arrives _ _ _ _ _ _ SERVICE_CONTROL_STOP); [by left|reflexivity].
Defined.

Lemma service_life_witness : reported demo_dead `prefix_of` life /\ s_running demo_dead = true.
Proof. split; [exact (proj1 (service_life demo_dead demo_dead_reached))|reflexivity]. Defined.
Lemma demo_dead_not_asked : ~ asked demo_dead.
Proof. intros [H|H%list_elem_of_In]; [by apply H|]. cbn in H. intuition discriminate. Defined.
Lemma dead_agent_stays_running_witness :
  exists s', rtc own_step demo_dead s' /\ reported s' = [start_pending; running].
Proof.
  destruct (proj2 (dead_agent_stays_running demo_dead demo_dead_reached demo_dead_not_asked) 1%Z eq_refl)
    as (s' & H1 & H2 & _).
  by exists s'.
Defined.
End WinService.
