(* ===== verification/Sntp.v ===== *)
(** * Sntp: the clock offset on Windows

    Models the Windows build of [agent/src/metrics/ntp_probe.cpp]: the system
    clock as an NTP time stamp, the SNTP request byte by byte, the exchange over
    a socket ([Winsock], the interface to the system), the offset computed from
    the reply, and the metric.  The theorems: the time stamp is exact up to its
    resolution until the NTP era ends, the request carries it, the socket is
    closed on every path, and what makes a reply acceptable. *)
From stdpp Require Import base gmap strings list.
From Stdlib Require Import ZArith Lia SpecFloat.
From S2P Require Import Prelude Double Proto Resolver Net Probes.
Import Str Chain Resolver Net Fields.
#[local] Open Scope string_scope.
#[local] Open Scope list_scope.
#[local] Open Scope Z_scope.

Module Sntp.

(** ** Time stamps *)

(** [NtpNow] for a FILETIME: 100 ns units since 1601, in 64 bits. *)
Definition NtpNow (ft100ns : Z) : Z :=
  let ntp_secs := Int.u64 (Int.u64 (ft100ns / 10000000 - 11644473600) + 2208988800) in
  let fraction := (Int.u64 (Z.shiftl (ft100ns mod 10000000) 32) / 10000000) mod 2 ^ 32 in
  Z.lor (Int.u64 (Z.shiftl ntp_secs 32)) fraction.

(** Four bytes, the most significant first. *)
Definition be32_value (p : list Z) : Z := fold_left (fun hi b => Z.lor (Z.shiftl hi 8 mod 2 ^ 32) b) p 0.
Definition two32 : double := Double.of_Z (2 ^ 32).
Definition NtpSecondsFromPacket (p : list Z) : double :=
  let hi := be32_value (take 4 p) in
  let lo := be32_value (take 4 (drop 4 p)) in
  Double.add (Double.of_Z hi) (Double.div (Double.of_Z lo) two32).

(** The request: LI 0, version 3, mode 3, and the transmit time stamp. *)
Definition be64 (t : Z) : list Z := map (fun sh => Z.land (Z.shiftr t sh) 255) [56; 48; 40; 32; 24; 16; 8; 0].
Definition request (t1 : Z) : list Z := [27] ++ repeat 0 39 ++ be64 t1.

(** The offset in milliseconds from the four times. *)
Definition offset_ms (t1 : Z) (reply : list Z) (now : Z) : double :=
  let t2 := NtpSecondsFromPacket (drop 32 reply) in
  let t3 := NtpSecondsFromPacket (drop 40 reply) in
  let t4 := Double.div (Double.of_Z now) two32 in
  let t1_sec := Double.div (Double.of_Z t1) two32 in
  let offset_sec := Double.div (Double.add (Double.sub t2 t1_sec) (Double.sub t3 t4)) (Double.of_Z 2) in
  Double.mul offset_sec (Double.of_Z 1000).

(** ** The exchange *)
Class Winsock (W : Type) : Type := {
  file_time : W -> Z * W;
  resolve : string -> string -> hints -> Z -> W -> LookupResult * W;
  udp_socket : W -> option Z * W;
  udp_sendto : Z -> list Z -> addrinfo -> W -> bool * W;
  (* the next datagram from anyone within the time limit *)
  next_datagram : Z -> Z -> W -> option (list Z) * W;
}.

(** A computation: the world and the sockets that are open. *)
Record host {W : Type} : Type := mkHost { world : W; open_sockets : list Z }.
#[global] Arguments host : clear implicits.
#[global] Arguments mkHost {W} _ _.

Section Exchange.
Context {W : Type} `{!Winsock W}.
Definition M (A : Type) : Type := host W -> A * host W.
Definition ret {A} (a : A) : M A := fun h => (a, h).
Definition bind {A B} (m : M A) (k : A -> M B) : M B := fun h => let '(a, h) := m h in k a h.
#[local] Notation "'let*' x ':=' m 'in' k" := (bind m (fun x => k)) (at level 10, x pattern, m at level 100, k at level 200).
#[local] Notation "m ';;;' k" := (bind m (fun _ => k)) (at level 100, k at level 200, right associativity).
Definition ask {A} (f : W -> A * W) : M A := fun h => let '(a, w) := f (world h) in (a, mkHost w (open_sockets h)).

(** [INVALID_SOCKET] is [None]. *)
Definition socket : M (option Z) := fun h =>
  let '(s, w) := udp_socket (world h) in
  (s, mkHost w (match s with Some s => s :: open_sockets h | None => open_sockets h end)).
Definition closesocket (s : Z) : M unit := fun h => (tt, mkHost (world h) (remove_one s (open_sockets h))).

(** [recv] into 48 bytes: [SOCKET_ERROR] after the time limit, and for a
    longer datagram (WSAEMSGSIZE). *)
Definition recv (s timeout_ms : Z) : M (option (list Z)) :=
  let* d := ask (next_datagram s timeout_ms) in
  ret (match d with Some bytes => if (48 <? Z.of_nat (length bytes)) then None else Some bytes | None => None end).

Definition ipv4 (l : list addrinfo) : option addrinfo := List.find (fun ai => ai_family ai =? AF_INET) l.

(** The error text, or the offset. *)
Definition RunSntpOffset (g_ntp_server : string) : M (string + double) :=
  let* s := socket in
  match s with
  | None => ret (inl "socket failed")
  | Some s =>
      let* lr := ask (resolve g_ntp_server "123" (mkHints AF_INET SOCK_DGRAM 0 0) 3000) in
      if negb (ok lr) || match addrs lr with [] => true | _ => false end then
        closesocket s ;;;
        ret (inl (if ok lr then "no IPv4 address for " +:+ g_ntp_server else "resolution failed for " +:+ g_ntp_server))
      else
        match ipv4 (addrs lr) with
        | None => closesocket s ;;; ret (inl ("no IPv4 address for " +:+ g_ntp_server))
        | Some addr =>
            let* ft := ask file_time in
            let t1 := NtpNow ft in
            let* sent := ask (udp_sendto s (request t1) addr) in
            if negb sent then closesocket s ;;; ret (inl "sendto failed")
            else
              let* reply := recv s 5000 in
              closesocket s ;;;
              match reply with
              | None => ret (inl "timeout waiting for NTP reply")
              | Some bytes =>
                  if (Z.of_nat (length bytes) <? 48) then ret (inl "short NTP reply")
                  else let* ft := ask file_time in ret (inr (offset_ms t1 bytes (NtpNow ft)))
              end
        end
  end.

(** [ProbeNtpOffset] on Windows, at monotonic time [us]. *)
Definition ProbeNtpOffset (g_ntp_server : string) (us : Z) (metric : Metric) : M Metric :=
  let metric := set_monotonic_us us (set_target "localhost" (set_check_type CHECK_TYPE_NTP_OFFSET metric)) in
  let* r := RunSntpOffset g_ntp_server in
  ret (match r with
       | inl detail => set_detail detail (set_success false metric)
       | inr offset =>
           set_success true (set_attribute "ntp_synchronised" "true"
             (set_attribute "ntp_server" g_ntp_server (set_value (kLatencyMs offset) metric)))
       end).
End Exchange.

(** ** The time stamp *)

(** Seconds from 1601 to 1900, the start of NTP era 0. *)
Definition era0 : Z := 9435484800.

Lemma shift_or a b : 0 <= b < 2 ^ 32 -> Z.lor (Z.shiftl a 32) b = a * 2 ^ 32 + b.
Proof.
  intros Hb. rewrite <- Z.shiftl_mul_pow2 by lia. symmetry. apply Z.add_nocarry_lor.
  apply Z.bits_inj'. intros n Hn. rewrite Z.land_spec, Z.bits_0.
  destruct (Z.lt_ge_cases n 32) as [Hlt|Hge].
  - by rewrite Z.shiftl_spec_low.
  - rewrite (Z.bits_above_log2 b n), andb_false_r; [done|lia|].
    destruct (Z.eq_dec b 0) as [->|]; [cbn; lia|]. apply Z.log2_lt_pow2; [lia|].
    apply Z.lt_le_trans with (2 ^ 32); [lia|]. by apply Z.pow_le_mono_r.
Qed.

(** Claim C32: the NTP time stamp is exact to its resolution, modulo an era.  For
    every clock reading after 1900, [NtpNow] is the number of 2^-32 seconds
    since 1900 rounded down, reduced modulo 2^64: exact until February 2036,
    when it starts again from zero while the clock goes on. *)
Theorem NtpNow_exact (ft : Z) :
  era0 * 10000000 <= ft < 2 ^ 64 ->
  NtpNow ft = ((ft - era0 * 10000000) * 2 ^ 32 / 10000000) mod 2 ^ 64 /\
  (ft < (era0 + 2 ^ 32) * 10000000 -> NtpNow ft = (ft - era0 * 10000000) * 2 ^ 32 / 10000000).
Proof.
  intros Hft. unfold era0 in *. set (q := ft / 10000000). set (r := ft mod 10000000).
  pose proof (Z.mod_pos_bound ft 10000000 ltac:(lia)) as Hr. fold r in Hr.
  pose proof (Z.div_mod ft 10000000 ltac:(lia)) as Hq. fold q r in Hq.
  set (f := r * 2 ^ 32 / 10000000).
  assert (0 <= f < 2 ^ 32) as Hf by (unfold f; split; [apply Z.div_pos; lia|apply Z.div_lt_upper_bound; lia]).
  assert ((ft - 9435484800 * 10000000) * 2 ^ 32 / 10000000 = (q - 9435484800) * 2 ^ 32 + f) as E.
  { rewrite Hq. replace ((10000000 * q + r - 9435484800 * 10000000) * 2 ^ 32) with
      (((q - 9435484800) * 2 ^ 32) * 10000000 + r * 2 ^ 32) by ring. by rewrite Z.div_add_l by lia. }
  assert (NtpNow ft = ((q - 9435484800) mod 2 ^ 32) * 2 ^ 32 + f) as En.
  { unfold NtpNow. fold q r. rewrite (Z.shiftl_mul_pow2 r) by lia.
    rewrite (Int.u64_small (r * 2 ^ 32)) by (unfold Int.in_uint64; lia). fold f. rewrite (Z.mod_small f) by done.
    unfold Int.u64 at 2 3. rewrite Zplus_mod_idemp_l.
    replace (q - 11644473600 + 2208988800) with (q - 9435484800) by ring.
    assert (0 <= q - 9435484800 < 2 ^ 64) as Hs by lia. rewrite (Z.mod_small (q - 9435484800)) by done.
    rewrite Z.shiftl_mul_pow2 by lia. unfold Int.u64. change (2 ^ 64) with (2 ^ 32 * 2 ^ 32).
    rewrite Z.mul_mod_distr_r by lia. rewrite <- (shift_or _ f Hf). by rewrite Z.shiftl_mul_pow2 by lia. }
  assert (((q - 9435484800) * 2 ^ 32 + f) mod 2 ^ 64 = ((q - 9435484800) mod 2 ^ 32) * 2 ^ 32 + f) as Em.
  { pose proof (Z.mod_pos_bound (q - 9435484800) (2 ^ 32) ltac:(lia)).
    symmetry. apply (Z.mod_unique _ _ ((q - 9435484800) / 2 ^ 32)); [lia|].
    pose proof (Z.div_mod (q - 9435484800) (2 ^ 32) ltac:(lia)). lia. }
  split; [by rewrite E, Em|]. intros Hera. rewrite E, En, Z.mod_small; [done|]. lia.
Qed.

(** ** The request *)
Lemma be32_step hi b : 0 <= hi < 2 ^ 24 -> 0 <= b < 256 -> Z.lor (Z.shiftl hi 8 mod 2 ^ 32) b = hi * 256 + b.
Proof.
  intros Hh Hb. rewrite Z.shiftl_mul_pow2, Z.mod_small by lia. change (2 ^ 8) with 256.
  change 256 with (2 ^ 8) at 1. rewrite <- Z.shiftl_mul_pow2 by lia.
  symmetry. change 256 with (2 ^ 8). rewrite <- Z.shiftl_mul_pow2 by lia. apply Z.add_nocarry_lor.
  apply Z.bits_inj'. intros n Hn. rewrite Z.land_spec, Z.bits_0.
  destruct (Z.lt_ge_cases n 8) as [Hlt|Hge]; [by rewrite Z.shiftl_spec_low|].
  rewrite (Z.bits_above_log2 b n), andb_false_r; [done|lia|].
  destruct (Z.eq_dec b 0) as [->|]; [cbn; lia|]. apply Z.log2_lt_pow2; [lia|].
  apply Z.lt_le_trans with (2 ^ 8); [lia|]. by apply Z.pow_le_mono_r.
Qed.
Lemma be32_value_bytes a b c d :
  0 <= a < 256 -> 0 <= b < 256 -> 0 <= c < 256 -> 0 <= d < 256 ->
  be32_value [a; b; c; d] = ((a * 256 + b) * 256 + c) * 256 + d.
Proof.
  intros Ha Hb Hc Hd. unfold be32_value. cbn [fold_left].
  rewrite (be32_step 0 a) by lia. rewrite (be32_step _ b) by lia.
  rewrite (be32_step _ c) by lia. rewrite (be32_step _ d) by lia. lia.
Qed.
Lemma byte_of t k : 0 <= k -> Z.land (Z.shiftr t k) 255 = (t / 2 ^ k) mod 256.
Proof. intros H. rewrite Z.shiftr_div_pow2 by done. change 255 with (Z.ones 8). by rewrite Z.land_ones. Qed.
Lemma base256 u : 0 <= u < 2 ^ 32 ->
  (((u / 2 ^ 24 mod 256) * 256 + u / 2 ^ 16 mod 256) * 256 + u / 2 ^ 8 mod 256) * 256 + u mod 256 = u.
Proof. intros H. Z.to_euclidean_division_equations. lia. Qed.

Lemma be64_value t : 0 <= t < 2 ^ 64 ->
  be32_value (take 4 (be64 t)) = t / 2 ^ 32 /\ be32_value (take 4 (drop 4 (be64 t))) = t mod 2 ^ 32.
Proof.
  intros Ht. unfold be64. cbn [map take drop]. rewrite !byte_of by lia.
  split; rewrite be32_value_bytes by (apply Z.mod_pos_bound; lia).
  - etransitivity; [|apply (base256 (t / 2 ^ 32)); split; [apply Z.div_pos; lia|apply Z.div_lt_upper_bound; lia]].
    by rewrite !Z.div_div by lia.
  - etransitivity; [|apply (base256 (t mod 2 ^ 32)), Z.mod_pos_bound; lia].
    assert (forall k, 0 <= k <= 24 -> (t mod 2 ^ 32) / 2 ^ k mod 256 = t / 2 ^ k mod 256) as E.
    { intros k Hk. change 256 with (2 ^ 8). rewrite <- !Z.shiftr_div_pow2, <- !Z.land_ones by lia.
      apply Z.bits_inj'. intros n Hn. rewrite !Z.land_spec, !Z.shiftr_spec, Z.land_spec by lia.
      destruct (Z.lt_ge_cases n 8) as [Hlt|Hge].
      - rewrite (Z.ones_spec_low 32) by lia. by rewrite andb_true_r.
      - rewrite (Z.ones_spec_high 8) by lia. by rewrite !andb_false_r. }
    rewrite (E 24), (E 16), (E 8) by lia. pose proof (E 0 ltac:(lia)) as E0. rewrite !Z.div_1_r in E0. rewrite E0.
    by rewrite Z.div_1_r.
Qed.

(** The server reads the client's clock out of the request. *)
Lemma request_time t1 : 0 <= t1 < 2 ^ 64 ->
  length (request t1) = 48%nat /\
  NtpSecondsFromPacket (drop 40 (request t1)) =
  Double.add (Double.of_Z (t1 / 2 ^ 32)) (Double.div (Double.of_Z (t1 mod 2 ^ 32)) two32).
Proof.
  intros H. split; [done|]. change (drop 40 (request t1)) with (be64 t1). unfold NtpSecondsFromPacket.
  destruct (be64_value t1 H) as [-> ->]. done.
Qed.

Lemma offset_ms_last bytes t1 now : offset_ms t1 (repeat 0 32 ++ drop 32 bytes) now = offset_ms t1 bytes now.
Proof.
  unfold offset_ms. change (drop 32 (repeat 0 32 ++ drop 32 bytes)) with (drop 32 bytes).
  change (drop 40 (repeat 0 32 ++ drop 32 bytes)) with (drop 8 (drop 32 bytes)). by rewrite drop_drop.
Qed.

(** ** The exchange *)
Section Exchange.
Context {W : Type} `{!Winsock W}.

Lemma remove_one_head (s : Z) l : remove_one s (s :: l) = l.
Proof. unfold remove_one. cbn. by rewrite decide_True by done. Qed.

Lemma RunSntpOffset_closes server (h : host W) : open_sockets (snd (RunSntpOffset server h)) = open_sockets h.
Proof.
  unfold RunSntpOffset, bind, socket, ask. destruct (udp_socket (world h)) as [[s|] w1]; [|done]. cbn [world open_sockets].
  destruct (resolve _ _ _ _ w1) as [lr w2]. cbn [world open_sockets].
  destruct (_ || _); [cbn; apply remove_one_head|].
  destruct (ipv4 (addrs lr)) as [addr|]; [|cbn; apply remove_one_head]. cbn [world open_sockets].
  destruct (file_time w2) as [ft w3]. cbn [world open_sockets]. destruct (udp_sendto _ _ _ w3) as [sent w4]. cbn [world open_sockets].
  destruct sent; cbn [negb]; [|cbn; apply remove_one_head].
  unfold recv, bind, ask. cbn [world open_sockets]. destruct (next_datagram _ _ w4) as [d w5]. cbn.
  destruct (match d with Some _ => _ | None => None end) as [bytes|]; [|cbn; apply remove_one_head].
  destruct (_ <? 48); [cbn; apply remove_one_head|]. cbn. destruct (file_time w5). cbn. apply remove_one_head.
Qed.

(** What the Windows clock probe believes.  On every path the socket
    is closed again.  When the server's name resolves to an IPv4 address and
    the request is sent, the outcome depends on the first datagram that arrives
    on the socket, from whomever: any datagram of exactly 48 bytes is taken as
    the answer and gives an offset computed from its bytes 32 to 47 alone (not
    the mode, the stratum, the echoed time stamp or the sender are looked at),
    a shorter one is an error, and a longer one counts as silence. *)
Theorem RunSntpOffset_accepts_any_reply (server : string) (h : host W) :
  open_sockets (snd (RunSntpOffset server h)) = open_sockets h /\
  forall s lr addr ft ft' reply w1 w2 w3 w4 w5 w6,
    udp_socket (world h) = (Some s, w1) ->
    resolve server "123" (mkHints AF_INET SOCK_DGRAM 0 0) 3000 w1 = (lr, w2) ->
    ok lr = true -> ipv4 (addrs lr) = Some addr ->
    file_time w2 = (ft, w3) -> udp_sendto s (request (NtpNow ft)) addr w3 = (true, w4) ->
    next_datagram s 5000 w4 = (reply, w5) -> file_time w5 = (ft', w6) ->
    fst (RunSntpOffset server h) =
    match reply with
    | None => inl "timeout waiting for NTP reply"
    | Some bytes =>
        if (48 <? Z.of_nat (length bytes)) then inl "timeout waiting for NTP reply"
        else if (Z.of_nat (length bytes) <? 48) then inl "short NTP reply"
        else inr (offset_ms (NtpNow ft) (repeat 0 32 ++ drop 32 bytes) (NtpNow ft'))
    end.
Proof.
  split; [apply RunSntpOffset_closes|]. intros s lr addr ft ft' reply w1 w2 w3 w4 w5 w6 E1 E2 Hok Ha E3 E4 E5 E6.
  unfold RunSntpOffset, bind, socket, ask. rewrite E1. cbn [world open_sockets]. rewrite E2, Hok.
  assert (addrs lr <> []) as Hne by (intros E; by rewrite E in Ha).
  destruct (addrs lr) as [|x l]; [done|]. cbn [negb orb]. rewrite Ha. cbn [world open_sockets].
  rewrite E3. cbn [world open_sockets]. rewrite E4. cbn [negb]. unfold recv, bind, ask. cbn [world open_sockets]. rewrite E5.
  destruct reply as [bytes|]; [|done]. cbn. destruct (48 <? _); [done|]. destruct (_ <? 48); [done|].
  cbn -[offset_ms drop repeat NtpNow]. rewrite E6. cbn -[offset_ms drop repeat NtpNow]. by rewrite (offset_ms_last bytes).
Qed.
End Exchange.

(** A server whose clock is one second ahead answers at once; the world is the
    time in 100 ns units and what arrives. *)
Definition demo_ft : Z := 133500000000000000.
#[local] Instance demo_winsock (reply : list Z) : Winsock Z := {|
  file_time w := (w, w);
  resolve _ _ _ _ w := (mkLookupResult true "" [mkAddrinfo 0 2 2 0 4 (Some [1; 2; 3; 4]) None] "", w);
  udp_socket w := (Some 5, w);
  udp_sendto _ _ _ w := (true, w);
  next_datagram _ _ w := (Some reply, w);
|}.
Definition demo_reply (t : Z) : list Z := repeat 0 32 ++ be64 t ++ be64 t.

(** The offset is positive for a local clock that is behind. *)
Example offset_when_behind :
  fst (RunSntpOffset (Winsock0 := demo_winsock (demo_reply (NtpNow demo_ft + 2 ^ 32))) "pool.ntp.org" (mkHost demo_ft []))
  = inr (Double.of_Z 1000).
Proof. vm_compute. reflexivity. Qed.

Lemma RunSntpOffset_accepts_any_reply_witness :
  fst (RunSntpOffset (Winsock0 := demo_winsock (repeat 0 48)) "pool.ntp.org" (mkHost demo_ft [])) =
  inr (offset_ms (NtpNow demo_ft) (repeat 0 48) (NtpNow demo_ft)) /\
  Double.lt (offset_ms (NtpNow demo_ft) (repeat 0 48) (NtpNow demo_ft)) (Double.of_Z (-1000000000000)) = true.
Proof.
  split; [|vm_compute; reflexivity].
  exact (proj2 (RunSntpOffset_accepts_any_reply (Winsock0 := demo_winsock (repeat 0 48)) "pool.ntp.org" (mkHost demo_ft []))
    _ _ _ _ _ _ _ _ _ _ _ _ eq_refl eq_refl eq_refl eq_refl eq_refl eq_refl eq_refl eq_refl).
Defined.

Lemma NtpNow_exact_witness :
  NtpNow demo_ft = (demo_ft - era0 * 10000000) * 2 ^ 32 / 10000000.
Proof. apply (NtpNow_exact demo_ft); unfold demo_ft, era0; lia. Defined.
End Sntp.
