(* ===== verification/Server.v ===== *)
(** * Server: the collector's HTTP server as a whole

    Models the constructor of [HttpServer] in [collector/src/http_server.cpp]:
    the routing table, the components the server is built from and the
    dispatch of a request to the handlers of the files Http and Exporter.
    cpp-httplib chooses the first registered handler whose pattern is the
    whole path, answers 404 when there is none and 500 when a handler throws.
    The theorems say which requests may change what, and that no sequence of
    requests breaks the invariants of the tables behind the server. *)
From stdpp Require Import base gmap strings list.
From Stdlib Require Import ZArith Lia.
From S2P Require Import Prelude Proto Json AlertRule AlertManager AgentRegistry Schedules Scheduler Storage.
From S2P Require Import Kafka MetricsService Dists CommandStore Http HttpSpec Exporter.
Import Str.
#[local] Open Scope string_scope.
#[local] Open Scope list_scope.

(** ** The routing table *)
Module Routing.

Inductive method : Type := GET | POST.
#[global] Instance method_eq_dec : EqDecision method.
Proof. solve_decision. Defined.

Inductive handler : Type :=
  | Health | Agents | DeleteAgent | Scrape | QueryMetrics
  | Alerts | AlertHistory | AlertRules | UpsertRule | DeleteRule | AckAlert
  | RunDiagnostic | SetConfig | GetConfig | AgentCommands | RunCommand
  | ListSchedules | CreateSchedule | DeleteSchedule | EnableSchedule | CommandRuns
  | AgentVersions | AgentDownload | InstallerVersions | InstallerDownload.
#[global] Instance handler_eq_dec : EqDecision handler.
Proof. solve_decision. Defined.

Definition api (path : string) : string := "/api" +:+ path.
(** A handler registered under its path and under /api. *)
Definition both (m : method) (path : string) (h : handler) : list (method * string * handler) :=
  [(m, path, h); (m, api path, h)].

(** The registrations, one definition each, in their order. *)
Abbreviation registered := (list (method * string * handler)).
Definition health_routes : registered := both GET "/health" Health.
Definition agents_routes : registered := both GET "/agents" Agents.
Definition delete_agent_routes : registered := both POST "/agents/delete" DeleteAgent.
Definition scrape_routes : registered := [(GET, "/metrics", Scrape)].
Definition query_routes : registered := [(GET, "/api/metrics", QueryMetrics)].
Definition alerts_routes : registered := both GET "/alerts" Alerts.
Definition history_routes : registered := both GET "/alert-history" AlertHistory.
Definition rules_routes : registered := both GET "/alert-rules" AlertRules.
Definition upsert_rule_routes : registered := both POST "/alert-rules" UpsertRule.
Definition delete_rule_routes : registered := both POST "/alert-rules/delete" DeleteRule.
Definition diagnostic_routes : registered := both POST "/diagnostic" RunDiagnostic.
Definition ack_routes : registered := [(POST, "/api/alerts/ack", AckAlert)].
Definition set_config_routes : registered := [(POST, "/api/agents/config", SetConfig)].
Definition get_config_routes : registered := [(GET, "/api/agents/config", GetConfig)].
Definition agent_commands_routes : registered := [(GET, "/api/agents/commands", AgentCommands)].
Definition run_command_routes : registered := [(POST, "/api/agents/command", RunCommand)].
Definition list_schedules_routes : registered := both GET "/command-schedules" ListSchedules.
Definition create_schedule_routes : registered := both POST "/command-schedules" CreateSchedule.
Definition delete_schedule_routes : registered := both POST "/command-schedules/delete" DeleteSchedule.
Definition enable_schedule_routes : registered := both POST "/command-schedules/enable" EnableSchedule.
Definition runs_routes : registered := both GET "/command-runs" CommandRuns.
Definition agent_versions_routes : registered :=
  [(GET, "/api/agent/versions", AgentVersions); (GET, "/agent/versions", AgentVersions)].
Definition agent_download_routes : registered :=
  [(GET, "/api/agent/download", AgentDownload); (GET, "/agent/download", AgentDownload)].
Definition installer_versions_routes : registered :=
  [(GET, "/api/installers/versions", InstallerVersions); (GET, "/installers/versions", InstallerVersions)].
Definition installer_download_routes : registered :=
  [(GET, "/api/installers/download", InstallerDownload); (GET, "/installers/download", InstallerDownload)].
Definition routes : registered :=
  health_routes ++ agents_routes ++ delete_agent_routes ++ scrape_routes ++ query_routes ++
  alerts_routes ++ history_routes ++ rules_routes ++ upsert_rule_routes ++ delete_rule_routes ++
  diagnostic_routes ++ ack_routes ++ set_config_routes ++ get_config_routes ++ agent_commands_routes ++
  run_command_routes ++ list_schedules_routes ++ create_schedule_routes ++ delete_schedule_routes ++
  enable_schedule_routes ++ runs_routes ++ agent_versions_routes ++ agent_download_routes ++
  installer_versions_routes ++ installer_download_routes.

(** The first registered handler of the method for exactly this path. *)
Definition route (m : method) (path : string) : option handler :=
  match list_find (fun e => fst e = (m, path)) routes with
  | Some (_, (_, h)) => Some h
  | None => None
  end.

Lemma route_in m p h : route m p = Some h -> (m, p, h) ∈ routes.
Proof.
  unfold route. destruct (list_find _ routes) as [[i [[m' p'] h']]|] eqn:E; [|done].
  apply list_find_Some in E as (Hi & [= -> ->] & _). intros [= ->].
  by eapply list_elem_of_lookup_2.
Qed.

(** A check of every entry of the table holds of every route. *)
Lemma route_forall (f : method * string * handler -> bool) m p h :
  forallb f routes = true -> route m p = Some h -> f (m, p, h) = true.
Proof.
  intros Hall Hr%route_in. rewrite forallb_forall in Hall. by apply Hall, list_elem_of_In.
Qed.

(** The routes that exist only under /api. *)
Definition api_only : list (method * string) :=
  [(GET, "/metrics"); (POST, "/alerts/ack"); (POST, "/agents/config"); (GET, "/agents/config");
   (GET, "/agents/commands"); (POST, "/agents/command")].

Definition strip (path : string) : string := sdrop 4 path.

(** What a proxy that adds or strips the prefix /api meets.  No
    method and path are registered twice.  A route outside /api is served by
    the same handler under /api, except the Prometheus text.  A route under
    /api is served by the same handler without the prefix, except for six:
    five of them are then unknown, and the metrics query of the dashboard is
    answered with the Prometheus text. *)
Theorem prefix_aliases :
  NoDup (map fst routes) /\
  (forall m p h, route m p = Some h -> has_prefix "/api" p = false -> h <> Scrape -> route m (api p) = Some h) /\
  (forall m p h, route m (api p) = Some h -> (m, p) ∉ api_only -> route m p = Some h) /\
  (forall m p, (m, p) ∈ api_only ->
     is_Some (route m (api p)) /\ route m p = (if decide ((m, p) = (GET, "/metrics")) then Some Scrape else None)).
Proof.
  split_and!.
  - apply (bool_decide_unpack _). vm_compute. exact I.
  - intros m p h Hr Ho Hs.
    eapply (route_forall (fun e => has_prefix "/api" e.1.2 || bool_decide (e.2 = Scrape) ||
      bool_decide (route e.1.1 (api e.1.2) = Some e.2))) in Hr; [|vm_compute; reflexivity].
    cbn [fst snd] in Hr. rewrite Ho, (bool_decide_false (h = Scrape)) in Hr by done. by apply bool_decide_eq_true in Hr.
  - intros m p h Hr Hn.
    eapply (route_forall (fun e => bool_decide ((e.1.1, strip e.1.2) ∈ api_only) ||
      bool_decide (has_prefix "/api" e.1.2 = true -> route e.1.1 (strip e.1.2) = Some e.2))) in Hr;
      [|vm_compute; reflexivity].
    cbn [fst snd] in Hr. change (strip (api p)) with p in Hr.
    rewrite (bool_decide_false (_ ∈ api_only)) in Hr by done. apply bool_decide_eq_true in Hr.
    apply Hr. unfold api. by destruct p.
  - intros m p Hin. pose proof (proj1 (Forall_forall (fun e => is_Some (route e.1 (api e.2)) /\
      route e.1 e.2 = (if decide (e = (GET, "/metrics")) then Some Scrape else None)) api_only)) as Hf.
    refine (Hf _ (m, p) Hin). apply (bool_decide_unpack _). vm_compute. exact I.
Qed.
End Routing.

(** ** The storage as the server uses it *)

(** The command tables of the class [CommandStore], the query behind the
    dashboard's charts and the counters. *)
Class ServerStore (S : Type) : Type := {
  server_commands :: CommandStore S;
  query_metrics : string -> string -> Z -> S -> string * S;
  get_stats : S -> StorageStats;
}.

Class ServerStoreLaws (S : Type) `{!ServerStore S} : Type := {
  server_command_laws :: CommandStoreLaws S;
  query_metrics_tables agent check window s :
    schedules (snd (query_metrics agent check window s)) = schedules s /\
    runs (snd (query_metrics agent check window s)) = runs s;
}.

#[global] Instance timescale_server_store {W} `{Libpq W} : ServerStore (@Timescale.impl W) := {|
  query_metrics := Timescale.QueryMetricsJson;
  get_stats := Timescale.GetStats;
|}.

#[global] Instance memory_server_store : ServerStore Memory.memory := {|
  query_metrics := fun _ _ _ s => ("[]", snd (Memory.tick s));
  get_stats := fun _ => mkStats 0 0 0 0;
|}.
#[global] Instance memory_server_laws : ServerStoreLaws Memory.memory.
Proof. refine {| server_command_laws := Memory.memory_laws |}. intros. apply Memory.tick_tables. Defined.

(** ** The server *)
Module HttpServer.
Import Routing.
Section Server.
Context {J : Type} `{JsonOps J, JsonText J}.
Context {S : Type} `{!ServerStore S}.
(** The types of the metric service's sink and of the Kafka producer's world. *)
Context {K W : Type}.
Variable agents_order : gmap string AgentRegistry.AgentEntry -> list (string * AgentRegistry.AgentEntry).
Variable alerts_order : AlertManager.state -> list (string * AlertManager.FiringState).
Variable fields_order : gmap string string -> list (string * string).
Variable agent : agent_api.

(** The components the server is built from; [files] is where the staged
    binaries are read, the rules file is part of [alerting]. *)
Record state : Type := mkState {
  m_registry : AgentRegistry.state;
  m_storage : option S;
  m_metrics_service : option (Endpoints.service K);
  m_alerting : alerting;
  m_kafka_producer : option (@Producer.state W);
  m_agent_dist : AgentDist.state;
  m_installer_dist : InstallerDist.state;
  files : Files.disk;
}.

(** What a request finds: the clock at its start and after an agent call, and
    the counter of [NewScheduleId]. *)
Record moment : Type := mkMoment { now : Z; now_finish : Z; counter : Z }.

Definition set_registry (r : AgentRegistry.state) (s : state) : state :=
  mkState r (m_storage s) (m_metrics_service s) (m_alerting s) (m_kafka_producer s)
    (m_agent_dist s) (m_installer_dist s) (files s).
Definition set_storage (t : option S) (s : state) : state :=
  mkState (m_registry s) t (m_metrics_service s) (m_alerting s) (m_kafka_producer s)
    (m_agent_dist s) (m_installer_dist s) (files s).
Definition set_alerting (a : alerting) (s : state) : state :=
  mkState (m_registry s) (m_storage s) (m_metrics_service s) a (m_kafka_producer s)
    (m_agent_dist s) (m_installer_dist s) (files s).

(** The answer of a handler that changes nothing. *)
Definition answer (r : response) (s : state) : outcome response * state := (Returns r, s).
(** Handlers over one component. *)
Definition on_registry (res : outcome response * AgentRegistry.state) (s : state) : outcome response * state :=
  (fst res, set_registry (snd res) s).
Definition on_storage (res : outcome response * option S) (s : state) : outcome response * state :=
  (fst res, set_storage (snd res) s).
Definition on_alerting (res : outcome response * alerting) (s : state) : outcome response * state :=
  (fst res, set_alerting (snd res) s).

(** The scrape reads the counters and asks the storage for its health. *)
Definition scrape_handler (now : Z) (s : state) : outcome response * state :=
  let text st := FormatPrometheusMetrics agents_order now
    (mkSources (m_registry s) (m_metrics_service s) (fst (m_alerting s)) (m_kafka_producer s) st) in
  let reply st := mkResponse None [] (text st) "text/plain; version=0.0.4" in
  match m_storage s with
  | None => answer (reply None) s
  | Some t => let '(ok, t') := is_healthy t in answer (reply (Some (get_stats t, ok))) (set_storage (Some t') s)
  end.

Definition health (s : state) : outcome response * state :=
  match m_storage s with
  | None => answer (health_handler false) s
  | Some t => let '(ok, t) := is_healthy t in answer (health_handler ok) (set_storage (Some t) s)
  end.

Definition query_handler (req : request) (s : state) : outcome response * state :=
  match m_storage s with
  | None => answer (fst (metrics_handler None req tt)) s
  | Some t => let '(r, t) := metrics_handler (Some query_metrics) req t in answer r (set_storage (Some t) s)
  end.

Definition handle (c : moment) (h : handler) (req : request) (s : state) : outcome response * state :=
  match h with
  | Health => health s
  | Agents => answer (agents_handler agents_order (now c) (m_registry s)) s
  | DeleteAgent => on_registry (delete_agent_handler agents_order (now c) req (m_registry s)) s
  | Scrape => scrape_handler (now c) s
  | QueryMetrics => query_handler req s
  | Alerts => answer (alerts_handler alerts_order (m_alerting s)) s
  | AlertHistory => answer (alert_history_handler req (m_alerting s)) s
  | AlertRules => answer (alert_rules_handler (m_alerting s)) s
  | UpsertRule => on_alerting (upsert_rule_handler req (m_alerting s)) s
  | DeleteRule => on_alerting (delete_rule_handler req (m_alerting s)) s
  | AckAlert => on_alerting (ack_handler alerts_order req (m_alerting s)) s
  | RunDiagnostic => answer (diagnostic_handler agent (m_registry s) req) s
  | SetConfig => (set_config_handler agent (m_registry s) req, s)
  | GetConfig => answer (get_config_handler agent (m_registry s) req) s
  | AgentCommands => answer (agent_commands_handler agent (m_registry s) req) s
  | RunCommand =>
      on_storage (run_command_handler agent fields_order (now c) (now_finish c) (m_registry s) req (m_storage s)) s
  | ListSchedules => on_storage (list_schedules_handler (now c) (m_storage s)) s
  | CreateSchedule => on_storage (create_schedule_handler (now c) (counter c) req (m_storage s)) s
  | DeleteSchedule => on_storage (delete_schedule_handler req (m_storage s)) s
  | EnableSchedule => on_storage (enable_schedule_handler (now c) req (m_storage s)) s
  | CommandRuns => on_storage (runs_handler req (m_storage s)) s
  | AgentVersions => answer (agent_versions_handler (m_agent_dist s)) s
  | AgentDownload => answer (agent_download_handler (files s) req (m_agent_dist s)) s
  | InstallerVersions => answer (installer_versions_handler (m_installer_dist s)) s
  | InstallerDownload => answer (installer_download_handler (files s) req (m_installer_dist s)) s
  end.

(** [None] stands for the 404 of the library. *)
Definition serve (c : moment) (m : method) (path : string) (req : request) (s : state)
    : option (outcome response) * state :=
  match route m path with
  | None => (None, s)
  | Some h => let '(out, s) := handle c h req s in (Some out, s)
  end.

(** A sequence of requests, served one after the other. *)
Definition visit : Type := moment * method * string * request.
Definition serve_all (l : list visit) (s : state) : state :=
  fold_left (fun s '(c, m, path, req) => snd (serve c m path req s)) l s.
End Server.
End HttpServer.

(** ** What a request may change *)
Module Frame.
Import Routing HttpServer.

(** The serials of the history are fresh and positive. *)
Definition serials_ok (t : Tables.runs_table) : Prop := Tables.serials_fresh t /\ (0 < Tables.next_serial t)%Z.

Lemma serials_ok_insert r t : serials_ok t -> serials_ok (snd (Tables.InsertCommandRun r t)).
Proof. intros [Hf Hn]. split; [by apply Tables.InsertCommandRun_fresh|]. cbn. lia. Qed.
Lemma serials_ok_finish r t : serials_ok t -> serials_ok (Tables.FinishCommandRun r t).
Proof. intros [Hf Hn]. split; [by apply Tables.FinishCommandRun_fresh|done]. Qed.

Definition writes_registry (h : handler) : bool := bool_decide (h = DeleteAgent).
Definition writes_alerting (h : handler) : bool := bool_decide (h ∈ [UpsertRule; DeleteRule; AckAlert]).
Definition writes_schedules (h : handler) : bool := bool_decide (h ∈ [CreateSchedule; DeleteSchedule; EnableSchedule]).
Definition writes_runs (h : handler) : bool := bool_decide (h = RunCommand).

Section Frame.
Context {J : Type} `{JsonOps J, JsonText J}.
Context {S : Type} `{!ServerStore S, !ServerStoreLaws S}.
Context {K W : Type}.
Variable agents_order : gmap string AgentRegistry.AgentEntry -> list (string * AgentRegistry.AgentEntry).
Variable alerts_order : AlertManager.state -> list (string * AlertManager.FiringState).
Variable fields_order : gmap string string -> list (string * string).
Variable agent : agent_api.
Abbreviation state := (@HttpServer.state S K W).
Abbreviation handle := (handle (K := K) (W := W) agents_order alerts_order fields_order agent).
Abbreviation serve := (serve (K := K) (W := W) agents_order alerts_order fields_order agent).
Abbreviation serve_all := (serve_all (K := K) (W := W) agents_order alerts_order fields_order agent).

(** What handler [h] may do to the two command tables. *)
Record tables_step (h : handler) (t t' : S) : Prop := {
  ts_schedules : writes_schedules h = false -> schedules t' = schedules t;
  ts_runs : writes_runs h = false -> runs t' = runs t;
  ts_table_ok : Api.table_ok (schedules t) -> Api.table_ok (schedules t');
  ts_serials_ok : serials_ok (runs t) -> serials_ok (runs t');
}.

Lemma tables_step_same h t t' : schedules t' = schedules t -> runs t' = runs t -> tables_step h t t'.
Proof. intros Es Er. split; rewrite ?Es, ?Er; tauto. Qed.

(** The result of a handler over a present storage. *)
Definition stored (h : handler) (t : S) (res : outcome response * option S) : Prop :=
  exists t', snd res = Some t' /\ tables_step h t t'.

Lemma stored_same h t out t' : Api.same t t' -> stored h t (out, Some t').
Proof. intros [Es Er]. exists t'. split; [done|by apply tables_step_same]. Qed.

Lemma list_stored now t : stored ListSchedules t (list_schedules_handler now (Some t)).
Proof.
  unfold list_schedules_handler. apply Api.storage_ready_spec; [intros; by apply stored_same|]. intros t1 [Es Er].
  pose proof (list_schedules_tables t1) as [Es2 Er2]. destruct (list_schedules t1) as [rows t2]. cbn in Es2, Er2.
  apply Api.or_throw_spec; intros; apply stored_same; split; congruence.
Qed.

Lemma runs_stored req t : stored CommandRuns t (runs_handler req (Some t)).
Proof.
  unfold runs_handler. apply Api.storage_ready_spec; [intros; by apply stored_same|]. intros t1 [Es Er].
  set (n := if has_param req "limit" then _ else _). cbv zeta.
  set (rows := list_runs _ _ _ _ t1).
  pose proof (list_runs_tables (get_param_value req "agent_id") (get_param_value req "command_id")
                (get_param_value req "schedule_id") n t1) as [Es2 Er2]. fold rows in Es2, Er2.
  destruct rows as [l t2]. cbn in Es2, Er2. apply Api.or_throw_spec; intros; apply stored_same; split; congruence.
Qed.

Lemma create_stored now counter req t : stored CreateSchedule t (create_schedule_handler now counter req (Some t)).
Proof.
  pose proof (Api.create_keeps now counter req t) as Hk.
  destruct (Api.create_schedule_creates now counter req t) as (t' & E & Er & _). exists t'. split; [done|].
  split; rewrite ?Er; [done|done|by apply Hk|done].
Qed.

(** A handler that keeps the runs and the well-formedness of the schedules. *)
Lemma stored_keeps h t res :
  writes_schedules h = true -> Api.keeps t res -> (exists t', snd res = Some t' /\ runs t' = runs t) -> stored h t res.
Proof.
  intros Hh Hk (t' & E & Er). exists t'. split; [done|]. split; rewrite ?Er, ?Hh; try done. by apply Hk.
Qed.

Lemma delete_stored req t : stored DeleteSchedule t (delete_schedule_handler req (Some t)).
Proof.
  apply stored_keeps; [done|apply Api.delete_keeps|]. unfold delete_schedule_handler.
  apply Api.storage_ready_spec; [intros t1 ? []; by exists t1|]. intros t1 [_ Er].
  apply Api.with_body_spec; [by eauto|]. intros body _. apply Api.or_throw_spec; [by eauto|]. intros id _.
  destruct (is_empty id); [by eauto|].
  pose proof (delete_schedule_tables id t1) as Hd. destruct (delete_schedule id t1) as [[ok err] t2].
  exists t2. split; [done|]. destruct Hd as [[E _]|(_ & _ & E)]; congruence.
Qed.

Lemma enable_stored now req t : stored EnableSchedule t (enable_schedule_handler now req (Some t)).
Proof.
  apply stored_keeps; [done|apply Api.enable_keeps|]. unfold enable_schedule_handler.
  apply Api.storage_ready_spec; [intros t1 ? []; by exists t1|]. intros t1 [_ Er].
  apply Api.with_body_spec; [by eauto|]. intros body _. apply Api.or_throw_spec; [by eauto|]. intros id _.
  destruct (if is_empty id then None else _) as [v|]; [|by eauto].
  apply Api.or_throw_spec; [by eauto|]. intros b _.
  pose proof (enable_schedule_tables id b t1) as He. destruct (enable_schedule id b t1) as [[ok err] t2].
  pose proof (list_schedules_tables t2) as [_ Er2]. destruct (list_schedules t2) as [rows t3]. cbn in Er2.
  assert (runs t3 = runs t) as E by (destruct He as [[E _]|(_ & _ & E)]; congruence).
  apply Api.or_throw_spec; intros; exists t3; by split.
Qed.

Lemma record_adhoc_tables now_insert now_finish agent_id command_id c (t : S) :
  let t' := snd (record_adhoc fields_order now_insert now_finish agent_id command_id c t) in
  schedules t' = schedules t /\ (serials_ok (runs t) -> serials_ok (runs t')).
Proof.
  cbv zeta. unfold record_adhoc. set (run := adhoc_run now_insert agent_id command_id c).
  pose proof (insert_run_tables run t) as Hi. destruct (insert_run run t) as [[[i|w] err] t1].
  - assert (schedules t1 = schedules t /\ (serials_ok (runs t) -> serials_ok (runs t1))) as [Es Hs].
    { destruct Hi as [Es [[_ ->]|(j & _ & E)]]; [done|]. split; [done|]. apply (f_equal snd) in E. cbn [snd] in E.
      rewrite E. apply serials_ok_insert. }
    destruct (0 <? i)%Z; [|done]. set (fin := Execute.set_result _ _ _ _ _ _ _ _ _).
    pose proof (finish_run_tables fin t1) as Hf. destruct (finish_run fin t1) as [[ok e] t2]. cbn [snd].
    destruct Hf as [Es2 [[_ ->]|[_ ->]]]; (split; [congruence|]); intros; [apply serials_ok_finish|]; auto.
  - destruct Hi as [Es [[_ E]|(j & ? & _)]]; [|done]. cbn [snd]. split; [done|]. by rewrite E.
Qed.

Lemma run_command_stored now_insert now_finish r req t :
  stored RunCommand t (run_command_handler agent fields_order now_insert now_finish r req (Some t)).
Proof.
  assert (forall out, stored RunCommand t (out, Some t)) as Hsame by (intros; by apply stored_same).
  unfold run_command_handler. apply Api.with_body_spec; [done|]. intros body _.
  apply Api.or_throw_spec; [done|]. intros agent_id _. apply Api.or_throw_spec; [done|]. intros command_id _.
  destruct (_ || _); [done|]. destruct (PrepareAgentCall r _) as [resp|ep]; [done|].
  apply Api.or_throw_spec; [done|]. intros params _.
  destruct (Http.RunCommand _ _ _) as [status c]. destruct (bool_decide _); [|done].
  pose proof (record_adhoc_tables now_insert now_finish agent_id command_id c t) as [Es Hs].
  destruct (record_adhoc fields_order now_insert now_finish agent_id command_id c t) as [done_ t'].
  cbn [snd] in Es, Hs.
  apply Api.or_throw_spec; intros; exists t'; (split; [done|]); split; rewrite ?Es; done || tauto.
Qed.

(** Unique rule ids stay unique. *)
Definition rules_ok (a : alerting) : Prop :=
  match fst a with Some m => NoDup (AlertRule.id <$> AlertManager.m_rules m) | None => True end.

Lemma rule_answer_state err a : snd (rule_answer err a) = a.
Proof. unfold rule_answer. apply Api.or_throw_spec; done. Qed.

Lemma upsert_rules_ok req a : rules_ok a -> rules_ok (snd (upsert_rule_handler req a)).
Proof.
  destruct a as [[m|] d]; [|done]. unfold upsert_rule_handler. intros Hok.
  apply Api.with_body_spec; [done|]. intros body _. cbv zeta. destruct (jis_object body); [|done]. cbn [negb].
  destruct (jlookup body "rule") as [rule|]; [|done]. destruct (_ || _); [done|].
  apply Api.or_throw_spec; [done|]. intros [[m' d'] err] Hu. rewrite rule_answer_state.
  apply AlertManager.UpsertRule_spec in Hu. destruct err as [e|]; [by subst m'|].
  destruct Hu as (_ & _ & _ & _ & _ & _ & Hnd & _). by apply Hnd.
Qed.

Lemma delete_rules_ok req a : rules_ok a -> rules_ok (snd (delete_rule_handler req a)).
Proof.
  destruct a as [[m|] d]; [|done]. unfold delete_rule_handler. intros Hok.
  apply Api.with_body_spec; [done|]. intros body _. cbv zeta. destruct (jis_object body); [|done]. cbn [negb].
  apply Api.or_throw_spec; [done|]. intros rid _. destruct (is_empty rid) eqn:Ee; [done|].
  unfold AlertManager.DeleteRule. rewrite Ee. destruct (Nat.eqb _ _); [by rewrite rule_answer_state|].
  destruct (AlertManager.persist _ m d) as [d' [e|]]; rewrite rule_answer_state; [done|].
  unfold rules_ok in *. cbn in *. refine (sublist_NoDup _ _ Hok _). apply fmap_sublist, sublist_filter.
Qed.

Lemma ack_rules_ok req a : rules_ok a -> rules_ok (snd (ack_handler alerts_order req a)).
Proof.
  destruct a as [[m|] d]; [|done]. unfold ack_handler. intros Hok.
  destruct (match jparse (rq_body req) with inl _ => _ | inr _ => _ end) as [[[rid aid] tgt]|w]; [|done].
  destruct (_ || _); [done|]. unfold AlertManager.Ack. by repeat case_match; simplify_eq.
Qed.

Definition storage_step (h : handler) (o o' : option S) : Prop :=
  match o, o' with
  | Some t, Some t' => tables_step h t t'
  | None, None => True
  | _, _ => False
  end.

(** What handler [h] may do to the server. *)
Record frame (h : handler) (s s' : state) : Prop := {
  fr_registry : writes_registry h = false -> m_registry s' = m_registry s;
  fr_alerting : writes_alerting h = false -> m_alerting s' = m_alerting s;
  fr_rules_ok : rules_ok (m_alerting s) -> rules_ok (m_alerting s');
  fr_storage : storage_step h (m_storage s) (m_storage s');
  fr_others : m_metrics_service s' = m_metrics_service s /\ m_kafka_producer s' = m_kafka_producer s /\
    m_agent_dist s' = m_agent_dist s /\ m_installer_dist s' = m_installer_dist s /\ files s' = files s;
}.

Lemma storage_refl h o : storage_step h o o.
Proof. destruct o; [by apply tables_step_same|done]. Qed.

Ltac framed := split; cbn; auto; try congruence; try apply storage_refl; try by split_and!.

Lemma frame_refl h s : frame h s s.
Proof. framed. Qed.

Lemma frame_registry h s r : writes_registry h = true -> frame h s (set_registry r s).
Proof. intros E. framed. Qed.

Lemma frame_alerting h s a :
  writes_alerting h = true -> (rules_ok (m_alerting s) -> rules_ok a) -> frame h s (set_alerting a s).
Proof. intros E Ha. framed. Qed.

Lemma frame_storage h s o :
  (forall t, m_storage s = Some t -> exists t', o = Some t' /\ tables_step h t t') ->
  (m_storage s = None -> o = None) -> frame h s (set_storage o s).
Proof.
  intros Hs Hn. framed. unfold storage_step. destruct (m_storage s) as [t|].
  - by destruct (Hs t eq_refl) as (t' & -> & ?).
  - by rewrite Hn.
Qed.

(** A handler over the storage, which answers without it too. *)
Lemma frame_on_storage h (k : option S -> outcome response * option S) s :
  (forall t, stored h t (k (Some t))) -> snd (k None) = None -> frame h s (snd (on_storage (k (m_storage s)) s)).
Proof.
  intros Hs Hn. apply frame_storage; [|by intros ->]. intros t ->. apply Hs.
Qed.

Lemma run_command_none now_insert now_finish r req :
  snd (run_command_handler agent fields_order now_insert now_finish r req (@None S)) = None.
Proof.
  unfold run_command_handler. apply Api.with_body_spec; [done|]. intros body _.
  do 2 (apply Api.or_throw_spec; [done|]; intros ? _). destruct (_ || _); [done|].
  destruct (PrepareAgentCall r _); [done|]. apply Api.or_throw_spec; [done|]. intros params _.
  destruct (Http.RunCommand _ _ _). by destruct (bool_decide _).
Qed.

(** Reading the health or the charts moves the storage, not its tables. *)
Lemma health_frame s : frame Health s (snd (health s)).
Proof.
  unfold health. destruct (m_storage s) as [t|] eqn:E; [|apply frame_refl].
  pose proof (is_healthy_tables t) as [Es Er]. destruct (is_healthy t) as [ok t']. apply frame_storage; rewrite E; [|done].
  intros ? [= <-]. exists t'. split; [done|by apply tables_step_same].
Qed.

Lemma scrape_frame now s : frame Scrape s (snd (scrape_handler agents_order now s)).
Proof.
  unfold scrape_handler. cbv zeta. destruct (m_storage s) as [t|] eqn:E; [|apply frame_refl].
  pose proof (is_healthy_tables t) as [Es Er]. destruct (is_healthy t) as [ok t']. apply frame_storage; rewrite E; [|done].
  intros ? [= <-]. exists t'. split; [done|by apply tables_step_same].
Qed.

Lemma query_frame req s : frame QueryMetrics s (snd (query_handler req s)).
Proof.
  unfold query_handler, metrics_handler. destruct (m_storage s) as [t|] eqn:E; [|apply frame_refl].
  set (a := if has_param req "agent_id" then _ else _). set (c := if has_param req "check_type" then _ else _).
  set (n := if has_param req "window_seconds" then _ else _). cbv zeta.
  pose proof (query_metrics_tables a c n t) as [Es Er]. destruct (query_metrics a c n t) as [text t'].
  apply frame_storage; rewrite E; [|done].
  intros ? [= <-]. exists t'. split; [done|by apply tables_step_same].
Qed.

Lemma handle_frame c h req s : frame h s (snd (handle c h req s)).
Proof.
  destruct h; cbn [HttpServer.handle]; try exact (frame_refl _ s).
  - apply health_frame.
  - by apply frame_registry.
  - apply scrape_frame.
  - apply query_frame.
  - apply frame_alerting; [done|apply upsert_rules_ok].
  - apply frame_alerting; [done|apply delete_rules_ok].
  - apply frame_alerting; [done|apply ack_rules_ok].
  - apply (frame_on_storage _ (run_command_handler agent fields_order _ _ _ req));
      [apply run_command_stored|apply run_command_none].
  - apply (frame_on_storage _ (list_schedules_handler _)); [apply list_stored|done].
  - apply (frame_on_storage _ (create_schedule_handler _ _ req)); [apply create_stored|done].
  - apply (frame_on_storage _ (delete_schedule_handler req)); [apply delete_stored|done].
  - apply (frame_on_storage _ (enable_schedule_handler _ req)); [apply enable_stored|done].
  - apply (frame_on_storage _ (runs_handler req)); [apply runs_stored|done].
Qed.

(** Nothing but the connection of the storage differs. *)
Definition unchanged (s s' : state) : Prop :=
  m_registry s' = m_registry s /\ m_alerting s' = m_alerting s /\
  option_map (fun t => (schedules t, runs t)) (m_storage s') =
    option_map (fun t => (schedules t, runs t)) (m_storage s) /\
  m_metrics_service s' = m_metrics_service s /\ m_kafka_producer s' = m_kafka_producer s /\
  m_agent_dist s' = m_agent_dist s /\ m_installer_dist s' = m_installer_dist s /\ files s' = files s.

Definition writes (h : handler) : bool :=
  writes_registry h || writes_alerting h || writes_schedules h || writes_runs h.

Lemma frame_unchanged h s s' : frame h s s' -> writes h = false -> unchanged s s'.
Proof.
  intros [Hr Ha _ Hs Ho] Hw. unfold writes in Hw.
  apply orb_false_iff in Hw as [[[Er Ea]%orb_false_iff Es]%orb_false_iff Eu].
  split_and!; [by auto|by auto| |by apply Ho..].
  unfold storage_step in Hs. destruct (m_storage s), (m_storage s'); try done. destruct Hs as [Hs1 Hs2 _ _]. cbn. by rewrite Hs1, Hs2.
Qed.

Lemma get_only_reads p h : route GET p = Some h -> writes h = false.
Proof.
  intros Hr. eapply (route_forall (fun e => bool_decide (e.1.1 = POST) || negb (writes e.2))) in Hr;
    [|vm_compute; reflexivity].
  cbn [fst snd] in Hr. rewrite (bool_decide_false (GET = POST)) in Hr by done. by apply negb_true_iff in Hr.
Qed.

(** Claim C9: what a request may change.  Whatever its path, parameters, body
    and moment, and whether or not the storage and the alerting are there, a
    request changes the registry only on the route that deletes an agent, the
    rules, firing states and rules file only on the three rule and
    acknowledgement routes, the schedule table only on the routes that create,
    delete and enable a schedule, and the run history only on the route that
    runs a command; the other components are never changed.  A GET request,
    and one to an unknown path, changes nothing but the database connection. *)
Theorem requests_change_what_they_name c m path req s :
  let s' := snd (serve c m path req s) in
  (forall h, route m path = Some h -> frame h s s') /\
  (m = GET \/ route m path = None -> unchanged s s').
Proof.
  cbv zeta. unfold HttpServer.serve. destruct (route m path) as [h|] eqn:Er.
  - pose proof (handle_frame c h req s) as Hf. destruct (handle c h req s) as [out s']. cbn [snd] in *.
    split; [by intros ? [= <-]|]. intros [->|?]; [|done].
    by eapply frame_unchanged, get_only_reads.
  - split; [done|]. intros _. by apply (frame_unchanged Health), eq_refl; apply frame_refl.
Qed.

(** What the server keeps true of its tables and rules. *)
Definition well_formed (s : state) : Prop :=
  rules_ok (m_alerting s) /\
  forall t, m_storage s = Some t -> Api.table_ok (schedules t) /\ serials_ok (runs t).

Lemma frame_well_formed h s s' : frame h s s' -> well_formed s -> well_formed s'.
Proof.
  intros [_ _ Hr Hs _] [Hok Ht]. split; [auto|]. unfold storage_step in Hs. intros t' E. rewrite E in Hs.
  destruct (m_storage s) as [t|]; [|done]. destruct Hs as [_ _ H1 H2]. destruct (Ht t eq_refl). auto.
Qed.

(** Any sequence of requests, to known and unknown paths, well formed
    or not, keeps the rule ids distinct, the schedules well formed and the
    serials of the run history fresh. *)
Theorem requests_keep_well_formed l s : well_formed s -> well_formed (serve_all l s).
Proof.
  revert s. induction l as [|[[[c m] path] req] l IH]; intros s Hs; [done|]. apply IH.
  unfold HttpServer.serve. destruct (route m path) as [h|]; [|done].
  pose proof (handle_frame c h req s) as Hf. destruct (handle c h req s). by eapply frame_well_formed.
Qed.

(** The answers of a collector without storage and without alerting. *)
Definition degraded_answer (h : handler) : option response :=
  match h with
  | Health => Some (health_handler false)
  | QueryMetrics => Some (json_error 503 "storage not available")
  | Alerts => Some (json_response (Some 200%Z) "[]")
  | AlertHistory => Some (json_response None "[]")
  | AlertRules => Some (json_response None (js "{`rules`:[]}"))
  | UpsertRule | DeleteRule => Some (json_error 503 "alerting unavailable")
  | AckAlert => Some (json_error 503 "alerting disabled")
  | ListSchedules | CreateSchedule | DeleteSchedule | EnableSchedule | CommandRuns =>
      Some (json_error 503 "scheduled commands require TimescaleDB storage")
  | _ => None
  end.

(** The collector without its optional components.  When it
    runs without a database and without alerting, every route that needs one of
    them gives a fixed answer whatever the request holds: the health says
    degraded, the lists are empty, the others are answered 503; no handler
    throws and the server is as before. *)
Theorem degraded_mode c h req s r :
  m_storage s = None -> fst (m_alerting s) = None -> degraded_answer h = Some r ->
  handle c h req s = (Returns r, s).
Proof.
  destruct s as [reg store svc [al d] prod ad idist fs]. cbn. intros -> -> Hr.
  destruct h; first [discriminate Hr|injection Hr as <-; reflexivity].
Qed.
End Frame.

Import Reference Memory.

(** A server over tables in memory, with and without its components. *)
Definition demo_server (store : option memory) (a : alerting) : @HttpServer.state memory unit unit :=
  HttpServer.mkState AgentRegistry.demo store None a None (AgentDist.mkState "" "" [])
    (InstallerDist.mkState "" "" []) (Files.mkDisk ∅ (fun _ => []) ∅).
Definition demo_full : @HttpServer.state memory unit unit :=
  demo_server (Some (mkMemory [] [] (Tables.mkRuns 1 []))) (Some AlertManager.Demo.manager, AlertManager.Demo.disk1).
Definition demo_moment : moment := HttpServer.mkMoment 5000 5100 0.
Definition demo_serve := serve (J := jval) (S := memory) (K := unit) (W := unit) map_to_list
  (fun m => map_to_list (AlertManager.m_states m)) map_to_list Runs.demo_api demo_moment.

(** The same request under both prefixes stores a schedule; a GET on its path
    only lists. *)
Example demo_paths :
  map (fun p => option_map (fun t => length (schedules t)) (m_storage (snd (demo_serve (fst p) (snd p) Api.demo_req demo_full))))
    [(POST, "/api/command-schedules"); (POST, "/command-schedules"); (GET, "/command-schedules"); (POST, "/metrics")] =
  [Some 1%nat; Some 1%nat; Some 0%nat; Some 0%nat].
Proof. vm_compute. reflexivity. Qed.

Lemma requests_change_what_they_name_witness :
  route GET "/api/command-schedules" = Some ListSchedules /\
  unchanged demo_full (snd (demo_serve GET "/api/command-schedules" Api.demo_req demo_full)).
Proof.
  split; [reflexivity|].
  pose proof (requests_change_what_they_name (J := jval) (K := unit) (W := unit) map_to_list
    (fun m => map_to_list (AlertManager.m_states m)) map_to_list Runs.demo_api demo_moment GET
    "/api/command-schedules" Api.demo_req demo_full) as [_ Hu].
  exact (Hu (or_introl eq_refl)).
Defined.

Lemma degraded_mode_witness :
  let s := demo_server None (None, AlertManager.Demo.disk1) in
  m_storage s = None /\ fst (m_alerting s) = None /\
  fst (demo_serve POST "/alert-rules" Api.demo_req s) = Some (Returns (json_error 503 "alerting unavailable")).
Proof.
  split; [reflexivity|]. split; [reflexivity|].
  pose proof (degraded_mode (J := jval) (S := memory) (K := unit) (W := unit) map_to_list
    (fun m => map_to_list (AlertManager.m_states m)) map_to_list Runs.demo_api demo_moment UpsertRule Api.demo_req
    (demo_server None (None, AlertManager.Demo.disk1)) (json_error 503 "alerting unavailable")
    eq_refl eq_refl eq_refl) as E.
  unfold demo_serve, HttpServer.serve. change (route POST "/alert-rules") with (Some UpsertRule). cbv iota.
  by rewrite E.
Defined.
End Frame.
