(* ===== verification/ConsumerMain.v ===== *)
(** * ConsumerMain: the process of the storage consumer

    Models what [collector/src/kafka/storage_consumer.cpp] and
    [consumer_common.cpp] do around the consume loop of the file Kafka:
    [CreateConsumer], [main] up to the loop, the signal handler, and the life of
    the process as a step relation of its two threads, the consume loop and the
    Prometheus endpoint.  librdkafka and the database are parameters; the
    [listen] of cpp-httplib returns only when it cannot bind its port or when
    [stop] is called. *)
From stdpp Require Import base gmap strings list relations.
From Stdlib Require Import ZArith Lia.
From S2P Require Import Prelude Proto Schedules Storage Kafka Http.
Import Str.
#[local] Open Scope string_scope.
#[local] Open Scope list_scope.

Module Setup.
Import StorageConsumer.

(** ** The consumer *)

(** librdkafka as [CreateConsumer] uses it: [Conf::create], [Conf::set] ([None]
    for CONF_OK), [KafkaConsumer::create] on the settings made (an error text or
    a consumer) and [subscribe] (an error text, [None] for success). *)
Record rdkafka {C : Type} : Type := mkRdkafka {
  conf_created : bool;
  conf_set : string -> string -> option string;
  consumer_create : list (string * string) -> string + C;
  subscribe : C -> string -> option string;
}.
#[global] Arguments rdkafka : clear implicits.

Definition consumer_settings (brokers group : string) (earliest : bool) : list (string * string) :=
  [("bootstrap.servers", brokers); ("group.id", group);
   ("enable.auto.commit", "false"); ("enable.auto.offset.store", "false");
   ("auto.offset.reset", if earliest then "earliest" else "largest");
   ("max.partition.fetch.bytes", "4194304")].

(** The error text, or a subscribed consumer. *)
Definition CreateConsumer {C} (rd : rdkafka C) (brokers topic group : string) (earliest : bool) : string + C :=
  if negb (conf_created rd) then inl "failed to create RdKafka global conf"
  else
    let settings := consumer_settings brokers group earliest in
    match set_confs (conf_set rd) settings with
    | Some err => inl err
    | None =>
        match consumer_create rd settings with
        | inl err => inl ("failed to create Kafka consumer: " +:+ err)
        | inr c =>
            match subscribe rd c topic with
            | Some err => inl ("failed to subscribe to '" +:+ topic +:+ "': " +:+ err)
            | None => inr c
            end
        end
    end.

Lemma set_confs_ok set l : set_confs set l = None <-> Forall (fun kv => set (fst kv) (snd kv) = None) l.
Proof.
  induction l as [|[k v] l IH]; cbn; [by split|]. rewrite Forall_cons, <- IH. cbn.
  destruct (set k v); [split; [done|by intros []]|tauto].
Qed.

(** A consumer comes back exactly when every setting was accepted, it could be
    made from them and it is subscribed to the topic; then offsets are only
    ever committed by the consume loop. *)
Theorem CreateConsumer_inr {C} (rd : rdkafka C) brokers topic group earliest c :
  CreateConsumer rd brokers topic group earliest = inr c <->
  conf_created rd = true /\
  Forall (fun kv => conf_set rd (fst kv) (snd kv) = None) (consumer_settings brokers group earliest) /\
  consumer_create rd (consumer_settings brokers group earliest) = inr c /\ subscribe rd c topic = None.
Proof.
  unfold CreateConsumer. rewrite <- set_confs_ok. cbv zeta.
  destruct (conf_created rd); [|by split; [|intros []]]. cbn [negb].
  destruct (set_confs _ _); [by split; [|intros (_ & ? & _)]|].
  destruct (consumer_create rd _) as [e|c0]; [by split; [|intros (_ & _ & ? & _)]|].
  destruct (subscribe rd c0 topic) eqn:Es; split; [done| |by intros [= <-]|by intros (_ & _ & [= ->] & _)].
  intros (_ & _ & [= ->] & E). congruence.
Qed.

(** ** [main] up to the loop *)
Inductive line : Type := Log (level message : string) | Stderr (text : string) | Usage.

Definition log_line (now_ms level msg : string) : string :=
  js "{`timestamp`:" +:+ now_ms +:+ js ",`level`:`" +:+ level +:+ js "`,`component`:`consumer-storage`,`message`:`" +:+
  msg +:+ js "`}".

(** The exit code, or the consumer and the options it runs with. *)
Definition prepare {C} (rd : rdkafka C) (connected : bool) (args : list string) : outcome ((Z + C * options) * list line) :=
  let! parsed := parse_args (length args) args defaults in
  match parsed with
  | None => Returns (inl 0%Z, [Usage])
  | Some o =>
      if is_empty (brokers o) then Returns (inl 1%Z, [Stderr "FATAL: --kafka-brokers is required"])
      else
        let begun := Log "info" "starting storage consumer" ::
          (if connected then [] else
             [Log "error" "TimescaleDB connection failed; will keep consuming and retry inserts (uncommitted offsets)"]) in
        match CreateConsumer rd (brokers o) (topic o) (group o) false with
        | inl err => Returns (inl 1%Z, begun ++ [Stderr ("FATAL: " +:+ err)])
        | inr c =>
            Returns (inr (c, o), begun ++ [Log "info" ("subscribed to " +:+ topic o +:+ " (group=" +:+ group o +:+ ")")])
        end
  end.

Definition closing_line (s : Consumer.ConsumerStats) : line :=
  Log "info" ("storage consumer stopped (processed=" +:+ of_Z (Consumer.batches_processed s) +:+ ")").

Inductive signal : Type := SIGTERM | SIGINT.
Definition HandleSignal (sig : signal) (g_keep_running : bool) : string * bool :=
  (js "{`level`:`info`,`component`:`consumer`,`message`:`Received " +:+
   (match sig with SIGTERM => "SIGTERM" | SIGINT => "SIGINT" end) +:+ js ", shutting down`}", false).

(** Only brokers are required: with them, whatever the database does, the
    process fails only where librdkafka does. *)
Theorem prepare_needs_kafka_only {C} (rd : rdkafka C) connected args o :
  parse_args (length args) args defaults = Returns (Some o) -> brokers o <> "" ->
  exists lines, prepare rd connected args =
    Returns (match CreateConsumer rd (brokers o) (topic o) (group o) false with inl _ => inl 1%Z | inr c => inr (c, o) end, lines).
Proof.
  intros E Hb. unfold prepare. rewrite E. cbn [obind]. destruct (is_empty (brokers o)) eqn:Eb; [by bool_hyps|].
  destruct (CreateConsumer _ _ _ _ _); eauto.
Qed.

Definition demo_rd : rdkafka unit := mkRdkafka unit true (fun _ _ => None) (fun _ => inr tt) (fun _ _ => None).
Lemma prepare_needs_kafka_only_witness :
  parse_args 1 ["--kafka-brokers=k:9092"] defaults = Returns (Some (mkOptions "k:9092" "network.metrics" "storage" "0.0.0.0:9091" (db defaults))) /\
  exists lines, prepare demo_rd false ["--kafka-brokers=k:9092"] =
    Returns (inr (tt, mkOptions "k:9092" "network.metrics" "storage" "0.0.0.0:9091" (db defaults)), lines).
Proof.
  split; [reflexivity|].
  exact (prepare_needs_kafka_only demo_rd false ["--kafka-brokers=k:9092"]
    (mkOptions "k:9092" "network.metrics" "storage" "0.0.0.0:9091" (db defaults)) eq_refl ltac:(discriminate)).
Defined.

(** A group with no committed offset starts at the end of the topic. *)
Example starts_at_the_end : ("auto.offset.reset", "largest") ∈ consumer_settings "k:9092" "storage" false.
Proof. apply (bool_decide_unpack _). vm_compute. exact I. Qed.
End Setup.

(** ** The life of the process *)
Module Life.
Section Life.
Context {W : Type}.
Variable parse : string -> option MetricsBatch.
Variable handler : MetricsBatch -> W -> bool * W.
(** The port of the Prometheus endpoint, as [std::stoi] reads it. *)
Variable port : option Z.

(** [main] from the consume loop on: before [consume], in the body of the loop
    with what was polled, and before the call of that name. *)
Inductive main_point : Type := Test | Handling (r : Consumer.poll_result) | Close | Join | Exited.
(** The thread of [StartPrometheusEndpoint]. *)
Inductive http_point : Type := Starting | Listening | Ended.

Record state : Type := mkState {
  at_main : main_point;
  at_http : http_point;
  consumer : @Consumer.state W;
  g_keep_running : bool;
  closed : bool;
  aborted : bool;     (* an exception left the thread: std::terminate *)
}.
Definition start (w : W) : state := mkState Test Starting (Consumer.init w) true false false.

Inductive actor : Type := Main | Http | Signal.
Inductive step : actor -> state -> state -> Prop :=
  | polls r h c d :
      step Main (mkState Test h c true d false) (mkState (Handling r) h c true d false)
  | handles r h c g d :
      step Main (mkState (Handling r) h c g d false) (mkState Test h (Consumer.consume_one parse handler r c) g d false)
  | leaves h c d : step Main (mkState Test h c false d false) (mkState Close h c false d false)
  | closes h c g d : step Main (mkState Close h c g d false) (mkState Join h c g true false)
  | joins c g d : step Main (mkState Join Ended c g d false) (mkState Exited Ended c g d false)
  | listens m c g d p : port = Some p -> step Http (mkState m Starting c g d false) (mkState m Listening c g d false)
  | cannot_bind m c g d p : port = Some p -> step Http (mkState m Starting c g d false) (mkState m Ended c g d false)
  | bad_port m c g d : port = None -> step Http (mkState m Starting c g d false) (mkState m Starting c g d true)
  | signalled m h c g d : step Signal (mkState m h c g d false) (mkState m h c false d false).

Definition any_step (s s' : state) : Prop := exists a, step a s s'.
Definition own_step (s s' : state) : Prop := exists a, a <> Signal /\ step a s s'.
Definition reached (w : W) (s : state) : Prop := rtc any_step (start w) s.

(** The consumer after a run is that of the consume loop on what was polled,
    and nothing is consumed once it is closed. *)
Definition consumed (w : W) (s : state) : Prop :=
  (exists polls, consumer s = Consumer.ConsumeLoop parse handler polls (Consumer.init w)) /\
  (closed s = true -> at_main s = Join \/ at_main s = Exited).

Lemma consumed_step w a s s' : consumed w s -> step a s s' -> consumed w s'.
Proof.
  intros [[polls Hc] Hd] H. destruct H; cbn in *; (split; [|cbn; intuition congruence]); try (exists polls; exact Hc).
  exists (polls ++ [r]). by rewrite Consumer.loop_snoc, Hc.
Qed.

(** Whatever the interleaving, the offsets committed are those of a consume
    loop on the messages polled, and none is polled once the consumer is
    closed. *)
Lemma reached_consumed w s : reached w s -> consumed w s.
Proof.
  revert s. apply (rtc_ind_r (consumed w)); [split; [by exists []|done]|]. intros y z _ [a H] Hy. by eapply consumed_step.
Qed.

Lemma listening_step a s s' : at_http s = Listening -> at_main s <> Exited -> step a s s' ->
  at_http s' = Listening /\ at_main s' <> Exited.
Proof. intros Hh Hm H. destruct H; cbn in *; by simplify_eq. Qed.

Lemma reached_listening w s : reached w s -> at_http s = Listening -> at_main s <> Exited.
Proof.
  intros Hr. assert (at_http s <> Ended -> at_main s <> Exited) as He; [|intros E; apply He; by rewrite E].
  revert s Hr. apply (rtc_ind_r (fun s => at_http s <> Ended -> at_main s <> Exited)); [done|]. intros y z _ [a H] IH. destruct H; cbn in *; try done; auto.
Qed.

(** At [join] the consumer is closed. *)
Lemma reached_closed w s : reached w s -> at_main s = Join -> closed s = true.
Proof.
  revert s. apply (rtc_ind_r (fun s => at_main s = Join -> closed s = true)); [done|].
  intros y z _ [a H] IH. destruct H; cbn in *; try done; auto.
Qed.

(** A process that was told to stop while the endpoint listens. *)
Definition stopping (s : state) : Prop :=
  at_http s = Listening /\ g_keep_running s = false /\ aborted s = false /\ at_main s <> Exited.
(** Own steps it has left. *)
Definition left_to_do (s : state) : nat :=
  match at_main s with Handling _ => 3 | Test => 2 | Close => 1 | Join | Exited => 0 end.
(** What was polled before is still handled, and nothing else. *)
Definition last_message (s s' : state) : Prop :=
  consumer s' = consumer s \/
  exists r, at_main s = Handling r /\ consumer s' = Consumer.consume_one parse handler r (consumer s).

Lemma stopping_step s s' : stopping s -> own_step s s' ->
  stopping s' /\ left_to_do s = Datatypes.S (left_to_do s') /\
  (forall t, last_message s' t -> last_message s t).
Proof.
  intros (Hh & Hg & Hb & Hm) (a & Ha & H). destruct H; cbn in *; simplify_eq; (split; [by split_and!|]); (split; [done|]).
  all: intros t; unfold last_message; cbn; intros [E|(r' & E & _)]; try done; eauto.
Qed.
Lemma stopping_signal s s' : stopping s -> step Signal s s' -> s' = s.
Proof. intros (Hh & Hg & Hb & Hm) H. inversion H; subst; cbn in *; by subst. Qed.
Lemma stopping_rests s : stopping s -> (forall s', ~ own_step s s') -> at_main s = Join.
Proof.
  intros (Hh & Hg & Hb & Hm) Hn. destruct s as [m h c g d b]. cbn in *. subst.
  destruct m as [|r| | |]; [exfalso; eapply Hn..|done|done]; exists Main; (split; [done|constructor]).
Qed.
Lemma stopping_steps n s s' : stopping s -> nsteps own_step n s s' ->
  stopping s' /\ left_to_do s = n + left_to_do s' /\ last_message s s'.
Proof.
  intros Hs H. induction H as [s|n x y z H _ IH]; [split; [done|]; split; [done|by left]|].
  destruct (stopping_step x y Hs H) as (Hy & E & L). destruct (IH Hy) as (Hz & E' & L').
  split; [done|]. split; [lia|by apply L].
Qed.

(** Claim C20: a stopped consumer never exits.  Once the Prometheus endpoint
    listens, no interleaving of the threads, of messages and of signals ends
    the process, for nothing stops the endpoint's server.  After a signal every
    run of the process takes at most three more steps, which more signals do not change: [main] handles at most the message it
    had polled before (no other is handled or committed), and where the process can take no step of
    its own, [main] has closed the consumer and waits for the endpoint's
    thread. *)
Theorem stopped_consumer_never_exits (w : W) (s : state) :
  reached w s -> at_http s = Listening ->
  (forall s', rtc any_step s s' -> at_main s' <> Exited) /\
  (g_keep_running s = false -> aborted s = false ->
   forall n s', nsteps own_step n s s' ->
     (n <= 3)%nat /\
     (consumer s' = consumer s \/
      exists r, at_main s = Handling r /\ consumer s' = Consumer.consume_one parse handler r (consumer s)) /\
     (forall s'', step Signal s' s'' -> s'' = s') /\
     ((forall s'', ~ own_step s' s'') -> at_main s' = Join /\ closed s' = true)).
Proof.
  intros Hr Hl. pose proof (reached_listening w s Hr Hl) as Hm. split.
  - intros s' H. enough (at_http s' = Listening /\ at_main s' <> Exited) by tauto.
    revert Hl Hm. clear Hr. induction H as [|x y z [a H] _ IH]; intros Hl Hm; [done|].
    destruct (listening_step a x y Hl Hm H). by apply IH.
  - intros Hg Hb n s' H. destruct (stopping_steps n s s') as (Hs & E & L); [by split_and!|exact H|].
    split; [unfold left_to_do in E; destruct (at_main s), (at_main s'); lia|].
    split; [exact L|]. split; [intros s''; by apply stopping_signal|]. intros Hn.
    pose proof (stopping_rests s' Hs Hn) as Ej. split; [exact Ej|]. apply (reached_closed w); [|exact Ej].
    unfold reached in *. etrans; [exact Hr|]. apply rtc_nsteps_2 in H. eapply rtc_subrel; [|exact H]. intros x y (a & _ & Ha). by exists a.
Qed.
End Life.

(** An address without a readable port ends the process while it consumes. *)
Example bad_address : snd (split_address "0.0.0.0:metrics") = None.
Proof. vm_compute. reflexivity. Qed.

(** The endpoint listens, a signal arrives. *)
Definition demo_parse (s : string) : option MetricsBatch := Some (mkBatch s 0 []).
Definition demo_handler (_ : MetricsBatch) (n : nat) : bool * nat := (true, S n).
Definition demo_stopped : @state nat := mkState Test Listening (Consumer.init 0) false false false.
Lemma demo_stopped_reached : reached demo_parse demo_handler (Some 9091%Z) 0 demo_stopped.
Proof.
  eapply rtc_l; [exists Http; by econstructor|]. apply rtc_once. exists Signal. constructor.
Defined.
Definition demo_end : @state nat := mkState Join Listening (Consumer.init 0) false true false.
Lemma demo_end_rests s : ~ own_step demo_parse demo_handler (Some 9091%Z) demo_end s.
Proof. intros (a & Ha & H). inversion H; by subst. Defined.
Lemma demo_run : nsteps (own_step demo_parse demo_handler (Some 9091%Z)) 2 demo_stopped demo_end.
Proof. eapply nsteps_l; [exists Main; split; [done|constructor]|]. apply nsteps_once. exists Main. split; [done|constructor]. Defined.
Lemma stopped_consumer_never_exits_witness :
  at_http demo_stopped = Listening /\ nsteps (own_step demo_parse demo_handler (Some 9091%Z)) 2 demo_stopped demo_end /\
  at_main demo_end = Join /\ closed demo_end = true.
Proof.
  split; [reflexivity|]. split; [exact demo_run|].
  exact (proj2 (proj2 (proj2 (proj2 (stopped_consumer_never_exits demo_parse demo_handler (Some 9091%Z) 0 demo_stopped
    demo_stopped_reached eq_refl) eq_refl eq_refl 2 demo_end demo_run))) demo_end_rests).
Defined.
End Life.
