(* ===== verification/KafkaJourney.v ===== *)
(** * KafkaJourney: metrics through Kafka into the database

    [MetricsTable] is what the INSERT statements of
    [collector/src/storage/timescale_storage.cpp] mean for the table
    network_metrics: rows under its primary key, of which a second one is
    skipped (ON CONFLICT DO NOTHING).  [Redelivery] runs the storage consumer
    of the file Kafka on everything a broker may deliver, again and in any
    order, over a database that fails and comes back.  [Queue] composes the
    agents and the collectors in Kafka mode with them. *)
From stdpp Require Import base gmap strings list.
From Stdlib Require Import ZArith Lia.
From S2P Require Import Prelude Double Proto AlertRule AlertManager AgentRegistry Schedules Storage.
From S2P Require Import Kafka MetricsService DiskBuffer AgentMain Journey.
Import Str.
#[local] Open Scope string_scope.
#[local] Open Scope list_scope.

(** ** The table *)
Module MetricsTable.

(** The primary key: time, agent_id, check_type, target and seq. *)
Definition row_key : Type := Z * string * string * string * Z.
#[global] Instance row_key_eq_dec : EqDecision row_key := _.
#[global] Instance row_key_countable : Countable row_key := _.
Definition key_of (agent_id : string) (time : Z) (m : Metric) : row_key :=
  (time, agent_id, AlertRule.SqlCheckTypeToString (check_type m), target m, seq m).
Definition key_time (k : row_key) : Z := k.1.1.1.1.

(** What one completed INSERT was given: agent, batch time and metrics. *)
Record written : Type := mkWritten { w_agent : string; w_time : Z; w_metrics : list Metric }.
Abbreviation row := (row_key * Metric)%type.
(** Metric [i] is stored at the batch time plus [i] ms. *)
Definition rows_of (b : written) : list row :=
  imap (fun i m => (key_of (w_agent b) (w_time b + Z.of_nat i)%Z m, m)) (w_metrics b).

Abbreviation table := (gmap row_key Metric).
Definition insert_row (t : table) (r : row) : table :=
  match t !! r.1 with Some _ => t | None => <[r.1 := r.2]> t end.
Definition insert_batch (t : table) (b : written) : table := foldl insert_row t (rows_of b).
Definition table_of (l : list written) : table := foldl insert_batch ∅ l.

(** *** What the literals of a connection say

    [EscapeLiteral] writes '' for a text the connection [c] cannot escape, and
    [AttributesJsonLiteral] '{}': the INSERT succeeds without the text. *)
Section Literals.
Context {W : Type} `{Libpq W}.
Variable iter : gmap string string -> list (string * string).

Definition literal_text (c : W) (s : string) : string :=
  if is_empty s then s else match PQescapeLiteral c s with Some _ => s | None => "" end.
Definition literal_attributes (c : W) (m : Metric) : gmap string string :=
  match PQescapeLiteral c (Timescale.attributes_body iter m) with Some _ => attributes m | None => ∅ end.
Definition literal_metric (c : W) (m : Metric) : Metric :=
  mkMetric (check_type m) (literal_text c (target m)) (success m) (literal_text c (detail m)) (value m) (status_code m)
    (literal_attributes c m) (seq m) (monotonic_us m).
End Literals.

(** *** First come, first kept *)
Lemma insert_rows_union rs (t : table) : foldl insert_row t rs = t ∪ list_to_map rs.
Proof.
  revert t. induction rs as [|[k m] rs IH]; intros t; [symmetry; apply (right_id_L ∅ (∪))|].
  cbn [foldl]. rewrite IH. unfold insert_row. cbn [fst snd].
  rewrite list_to_map_cons. apply map_eq. intros k'. rewrite !lookup_union.
  destruct (decide (k' = k)) as [->|Hk].
  - rewrite lookup_insert_eq. destruct (t !! k) as [m'|] eqn:E; rewrite ?E, ?lookup_insert_eq;
      by destruct (list_to_map rs !! k).
  - rewrite (lookup_insert_ne (list_to_map rs)) by done. destruct (t !! k) eqn:E; [done|]. by rewrite lookup_insert_ne.
Qed.

Lemma table_of_rows l : table_of l = list_to_map (l ≫= rows_of).
Proof.
  enough (forall t, foldl insert_batch t l = t ∪ list_to_map (l ≫= rows_of)) as H
    by (unfold table_of; by rewrite H, map_empty_union).
  induction l as [|b l IH]; intros t; [symmetry; apply (right_id_L ∅ (∪))|].
  cbn [foldl]. rewrite IH. unfold insert_batch. by rewrite insert_rows_union, bind_cons, list_to_map_app, (assoc_L (∪)).
Qed.

Lemma table_of_sound l k m : table_of l !! k = Some m -> exists b, b ∈ l /\ (k, m) ∈ rows_of b.
Proof.
  rewrite table_of_rows. intros H%elem_of_list_to_map_2. apply list_elem_of_bind in H as (b & H & Hb). eauto.
Qed.

Lemma table_of_covers l b k m : b ∈ l -> (k, m) ∈ rows_of b -> is_Some (table_of l !! k).
Proof.
  intros Hb Hr. rewrite table_of_rows. apply not_eq_None_Some. rewrite <- not_elem_of_list_to_map.
  intros Hn. apply Hn. apply list_elem_of_fmap. exists (k, m). split; [done|]. apply list_elem_of_bind. eauto.
Qed.

(** No two metrics of these batches claim one key. *)
Definition consistent (l : list written) : Prop :=
  forall b b' k m m', b ∈ l -> b' ∈ l -> (k, m) ∈ rows_of b -> (k, m') ∈ rows_of b' -> m = m'.

Lemma table_of_exact l k m :
  consistent l -> table_of l !! k = Some m <-> exists b, b ∈ l /\ (k, m) ∈ rows_of b.
Proof.
  intros Hc. split; [apply table_of_sound|]. intros (b & Hb & Hr).
  destruct (table_of_covers l b k m Hb Hr) as [m' E]. rewrite E.
  destruct (table_of_sound l k m' E) as (b' & Hb' & Hr'). f_equal. by apply (Hc b' b k).
Qed.

(** Batches written again change nothing. *)
Lemma table_of_again l l' : l' ⊆ l -> table_of (l ++ l') = table_of l.
Proof.
  intros Hs. apply map_eq. intros k. rewrite !table_of_rows, bind_app, list_to_map_app, <- !table_of_rows.
  rewrite lookup_union. destruct (table_of l !! k) as [m|] eqn:E; [by destruct (table_of l' !! k)|].
  destruct (table_of l' !! k) as [m|] eqn:E'; [|done].
  destruct (table_of_sound l' k m E') as (b & Hb & Hr).
  destruct (table_of_covers l b k m (Hs b Hb) Hr). congruence.
Qed.

(** *** How many rows *)
Lemma rows_of_spec b k m : (k, m) ∈ rows_of b <->
  exists i, w_metrics b !! i = Some m /\ k = key_of (w_agent b) (w_time b + Z.of_nat i) m.
Proof.
  unfold rows_of. rewrite list_elem_of_lookup. split.
  - intros [i H]. rewrite list_lookup_imap in H. destruct (w_metrics b !! i) as [m'|] eqn:E; [|done].
    cbn in H. simplify_eq. eauto.
  - intros (i & E & ->). exists i. by rewrite list_lookup_imap, E.
Qed.

Lemma rows_of_NoDup b : NoDup (rows_of b).*1.
Proof.
  apply NoDup_alt. intros i j k Hi Hj. unfold rows_of in *.
  rewrite list_lookup_fmap, list_lookup_imap in Hi, Hj.
  destruct (w_metrics b !! i) as [mi|], (w_metrics b !! j) as [mj|]; cbn in *; try done.
  rewrite <- Hj in Hi. injection Hi as Hi. lia.
Qed.

Lemma table_of_size l : NoDup (l ≫= rows_of).*1 -> size (table_of l) = sum_list_with (fun b => length (w_metrics b)) l.
Proof.
  intros Hn. rewrite table_of_rows, map_size_list_to_map by done. clear Hn.
  induction l as [|b l IH]; [done|]. rewrite bind_cons, length_app, IH. unfold rows_of at 1. by rewrite length_imap.
Qed.

(** A batch sent again under the same time stays one set of rows; sent again
    under another time it is stored twice. *)
Theorem retry_rows agent t t' ms :
  NoDup (map seq ms) ->
  size (table_of [mkWritten agent t ms; mkWritten agent t' ms]) =
    (if decide (t = t') then length ms else 2 * length ms).
Proof.
  intros Hs. destruct (decide (t = t')) as [->|Ht].
  - change (table_of [?b; ?b']) with (table_of ([b] ++ [b'])). rewrite table_of_again by done.
    rewrite table_of_size; cbn; [lia|]. rewrite app_nil_r. apply (rows_of_NoDup (mkWritten agent t' ms)).
  - rewrite table_of_size; cbn [sum_list_with w_metrics]; [lia|].
    rewrite !bind_cons, app_nil_r, fmap_app. apply NoDup_app.
    split_and!; [apply rows_of_NoDup| |apply rows_of_NoDup].
    intros k [[k1 m1] [-> H1]]%list_elem_of_fmap [[k2 m2] [E H2]]%list_elem_of_fmap. cbn in E. subst k2.
    apply rows_of_spec in H1 as (i & Ei & ->), H2 as (j & Ej & E). cbn in *. injection E as Et _ _ Eseq.
    assert (i = j) as ->; [|lia].
    apply (NoDup_lookup _ i j (seq m1) Hs); rewrite list_lookup_fmap; [by rewrite Ei|by rewrite Ej, Eseq].
Qed.
End MetricsTable.

(** ** The consumer and everything it is sent again *)
Module Redelivery.
Import MetricsTable Database.

Section Redelivery.
Context {W : Type} `{LibpqLaws W}.
Variable iter : gmap string string -> list (string * string).
Variable parse : string -> option MetricsBatch.
Variable elapsed_ms : Z.

Abbreviation database := (@Timescale.impl W).
Abbreviation consumer := (@Consumer.state database).
Abbreviation handler := (StorageConsumer.handler iter elapsed_ms).
Abbreviation ConsumeLoop := (Consumer.ConsumeLoop parse handler).
Abbreviation consume_one := (Consumer.consume_one parse handler).

(** The rows of an INSERT, with the texts as its connection wrote them. *)
Definition written_of (i : @inserted W) : written :=
  mkWritten (literal_text (i_conn i) (i_agent i)) (i_time i) (map (literal_metric iter (i_conn i)) (i_metrics i)).
Definition written_batch (b : MetricsBatch) : written :=
  mkWritten (b_agent_id b) (b_timestamp_unix_ms b) (b_metrics b).

(** Every connection can escape the texts of the batch: they are valid in the
    encoding of the client. *)
Definition escapable (b : MetricsBatch) : Prop :=
  forall (c : W) (s : string),
    s = b_agent_id b \/ (exists m, m ∈ b_metrics b /\ (s = target m \/ s = detail m \/ s = Timescale.attributes_body iter m)) ->
    is_empty s = true \/ is_Some (PQescapeLiteral c s).

Lemma literal_text_same (c : W) s : is_empty s = true \/ is_Some (PQescapeLiteral c s) -> literal_text c s = s.
Proof. unfold literal_text. intros [->|[e ->]]; [done|by destruct (is_empty s)]. Qed.
Lemma written_escapable (c : W) b :
  escapable b -> written_of (mkInserted c (b_agent_id b) (b_timestamp_unix_ms b) (b_metrics b)) = written_batch b.
Proof.
  intros He. unfold written_of, written_batch. cbn.
  rewrite literal_text_same by (apply He; by left). f_equal.
  rewrite <- (map_id (b_metrics b)) at 2. apply map_ext_in. intros m Hm%list_elem_of_In.
  assert (forall s, s = target m \/ s = detail m \/ s = Timescale.attributes_body iter m ->
    is_empty s = true \/ is_Some (PQescapeLiteral c s)) as Hs by (intros s Hs; apply He; right; by exists m).
  unfold literal_metric, literal_attributes. rewrite !literal_text_same by auto.
  destruct (Hs _ (or_intror (or_intror eq_refl))) as [E|[e ->]]; [done|by destruct m].
Qed.

(** The statements [l] were completed between the two states of the server. *)
Definition wrote (s s' : database) (l : list (@inserted W)) : Prop :=
  executed (Timescale.world s') = executed (Timescale.world s) ++ map (statement iter) l.

(** The handler writes the whole batch, or nothing. *)
Lemma handler_writes (b : MetricsBatch) (s : database) :
  escapable b -> (0 < batch_size (Timescale.config s))%Z -> (Z.of_nat (length (b_metrics b)) <= batch_size (Timescale.config s))%Z ->
  let '(ok, s') := handler b s in
  Timescale.config s' = Timescale.config s /\
  exists l, wrote s s' l /\
    map written_of l = if ok then match b_metrics b with [] => [] | _ => [written_batch b] end else [].
Proof.
  intros He Hb Hle. unfold StorageConsumer.handler.
  destruct (InsertMetrics_grows iter (b_agent_id b) (b_timestamp_unix_ms b) (b_metrics b) elapsed_ms s) as [C _].
  assert (forall (s' : database), executed (Timescale.world s') = executed (Timescale.world (Timescale.EnsureConnected s)) ->
    wrote s s' []) as Hsame by (intros s' E; unfold wrote; by rewrite app_nil_r, E, EnsureConnected_executed).
  destruct (decide (b_metrics b = [])) as [E|Hne].
  { rewrite E in *. unfold Timescale.InsertMetrics in *. cbn [Timescale.insert_loop] in *.
    destruct (negb _); (split; [exact C|]); exists []; (split; [by apply Hsame|done]). }
  revert C. rewrite Timescale.InsertMetrics_one_statement by done. cbv zeta.
  set (s1 := Timescale.EnsureConnected s) in *. destruct (Timescale.usable s1); [|].
  - pose proof (exec_executed (Timescale.insert_statement iter (Timescale.world s1) (b_agent_id b) (b_timestamp_unix_ms b) (b_metrics b)) s1) as E.
    destruct (Timescale.exec _ s1) as [res s2]. cbn in E. destruct (command_ok res); cbn [snd]; intros C; (split; [exact C|]).
    + exists [mkInserted (Timescale.world s1) (b_agent_id b) (b_timestamp_unix_ms b) (b_metrics b)].
      split; [|cbn [map]; rewrite written_escapable by done; by destruct (b_metrics b)]. unfold wrote. cbn. rewrite E. unfold s1. by rewrite EnsureConnected_executed.
    + exists []. split; [|done]. apply Hsame. cbn. rewrite E. by rewrite app_nil_r.
  - intros C. split; [exact C|]. exists []. split; [by apply Hsame|done].
Qed.

(** The topic: the payload at each partition and offset. *)
Definition topic : Type := gmap (Z * Z) string.
Definition delivered_from (log : topic) (r : Consumer.poll_result) : Prop :=
  match r with Consumer.Message p o x _ => log !! (p, o) = Some x | _ => True end.
(** The readable batch at a position. *)
Definition batch_at (log : topic) (po : Z * Z) (b : MetricsBatch) : Prop :=
  exists x, log !! po = Some x /\ is_empty x = false /\ parse x = Some b.

Record fits (log : topic) (s : database) : Prop := {
  fits_size : (0 < batch_size (Timescale.config s))%Z;
  fits_batch po b : batch_at log po b -> (Z.of_nat (length (b_metrics b)) <= batch_size (Timescale.config s))%Z;
  fits_text po b : batch_at log po b -> escapable b;
}.

(** What was written is what was committed. *)
Record accounts (log : topic) (db : database) (s : consumer) : Prop := {
  ac_config : Timescale.config (Consumer.world s) = Timescale.config db;
  ac_written : exists l, wrote db (Consumer.world s) l /\
    (forall w, w ∈ map written_of l ->
       exists po b, po ∈ Consumer.commits s /\ batch_at log po b /\ w = written_batch b) /\
    (forall po b, po ∈ Consumer.commits s -> batch_at log po b -> b_metrics b <> [] ->
       written_batch b ∈ map written_of l);
}.

Lemma accounts_more log db s (t : consumer) l po b ok :
  accounts log db s -> Timescale.config (Consumer.world t) = Timescale.config (Consumer.world s) ->
  wrote (Consumer.world s) (Consumer.world t) l -> batch_at log po b ->
  map written_of l = (if ok : bool then match b_metrics b with [] => [] | _ => [written_batch b] end else []) ->
  Consumer.commits t = (if ok then Consumer.commits s ++ [po] else Consumer.commits s) ->
  accounts log db t.
Proof.
  intros [C (l0 & Hw0 & Hin & Hout)] Ct Hl Hb El Ec. split; [by rewrite Ct|].
  exists (l0 ++ l). unfold wrote in *. split; [by rewrite map_app, app_assoc, <- Hw0|]. rewrite map_app, El, Ec.
  split.
  - intros w [Hw|Hw]%elem_of_app.
    + destruct (Hin w Hw) as (po' & b' & Hpo & ?). exists po', b'. split; [|done]. destruct ok; [apply elem_of_app; by left|done].
    + destruct ok; [|by apply elem_of_nil in Hw]. exists po, b. split; [apply elem_of_app; right; by apply list_elem_of_singleton|].
      split; [done|]. destruct (b_metrics b); [by apply elem_of_nil in Hw|by apply list_elem_of_singleton in Hw].
  - intros po' b' Hpo Hb' Hne. apply elem_of_app. destruct ok; [|left; by apply (Hout po')].
    apply elem_of_app in Hpo as [Hpo|Epo%list_elem_of_singleton]; [left; by apply (Hout po')|subst po'; right].
    destruct Hb as (x & E1 & _ & E2), Hb' as (x' & E1' & _ & E2').
    assert (b' = b) as -> by congruence. destruct (b_metrics b); [done|by apply list_elem_of_singleton].
Qed.

(** A position without a readable batch may be committed freely. *)
Lemma accounts_poison log db (s t : consumer) po :
  accounts log db s -> Consumer.world t = Consumer.world s -> Consumer.commits t = Consumer.commits s ++ [po] ->
  (forall b, ~ batch_at log po b) -> accounts log db t.
Proof.
  intros [C (l & Hw0 & Hin & Hout)] Ew Ec Hn. split; [by rewrite Ew|]. exists l. rewrite Ew, Ec. split; [done|]. split.
  - intros w Hw. destruct (Hin w Hw) as (po' & b & Hpo & ?). exists po', b. split; [apply elem_of_app; by left|done].
  - intros po' b [Hpo|Epo%list_elem_of_singleton]%elem_of_app Hb Hne; [by apply (Hout po')|subst po'; by apply Hn in Hb].
Qed.

Lemma consume_one_accounts log db s r :
  fits log db -> accounts log db s -> delivered_from log r -> accounts log db (consume_one r s).
Proof.
  intros [Hs Hf Ht] Ha Hr. destruct r as [|p o x hs| |e]; cbn [Consumer.consume_one delivered_from] in *; [done| |done|by destruct Ha].
  destruct (is_empty x) eqn:Ex.
  { apply (accounts_poison log db s _ (p, o)); [done..|]. intros b (x' & E & ? & _). congruence. }
  destruct (parse x) as [b|] eqn:Ep.
  - assert (batch_at log (p, o) b) as Hb by (by exists x). pose proof (ac_config _ _ _ Ha) as C.
    pose proof (handler_writes b (Consumer.world s)) as Hw. rewrite C in Hw. specialize (Hw (Ht _ _ Hb) Hs (Hf _ _ Hb)).
    destruct (handler b (Consumer.world s)) as [ok s']. destruct Hw as (C' & l & Hl & El).
    apply (accounts_more log db s _ l (p, o) b ok); try done; destruct ok; cbn; congruence.
  - apply (accounts_poison log db s _ (p, o)); [done..|]. intros b (x' & E & _ & E'). congruence.
Qed.

Lemma loop_accounts log db polls :
  fits log db -> Forall (delivered_from log) polls -> accounts log db (ConsumeLoop polls (Consumer.init db)).
Proof.
  intros Hf. induction polls as [|r polls IH] using rev_ind; intros Hp.
  - split; [done|]. exists []. split; [symmetry; apply app_nil_r|]. split; [intros w []%elem_of_nil|intros ?? []%elem_of_nil].
  - apply Forall_app in Hp as [Hp Hr]. rewrite Forall_singleton in Hr. rewrite Consumer.loop_snoc.
    apply consume_one_accounts; auto.
Qed.

(** No two metrics of the topic claim one key. *)
Definition keyed (log : topic) : Prop := forall po po' b b' k m m',
  batch_at log po b -> batch_at log po' b' ->
  (k, m) ∈ rows_of (written_batch b) -> (k, m') ∈ rows_of (written_batch b') -> m = m'.

Lemma loop_exact (log : topic) (db : database) (polls : list Consumer.poll_result) :
  Forall (delivered_from log) polls -> fits log db -> keyed log ->
  let s := ConsumeLoop polls (Consumer.init db) in
  exists l, wrote db (Consumer.world s) l /\
    forall k m, table_of (map written_of l) !! k = Some m <->
      exists po b, po ∈ Consumer.commits s /\ batch_at log po b /\ (k, m) ∈ rows_of (written_batch b).
Proof.
  intros Hp Hf Hk s. destruct (loop_accounts log db polls Hf Hp) as [_ (l & Hl & Hin & Hout)]. fold s in Hl, Hin, Hout.
  exists l. split; [exact Hl|]. intros k m. rewrite table_of_exact.
  - split.
    + intros (w & Hw & Hr). destruct (Hin w Hw) as (po & b & Hpo & Hb & ->). eauto.
    + intros (po & b & Hpo & Hb & Hr). exists (written_batch b). split; [|exact Hr]. apply (Hout po b Hpo Hb).
      intros E. apply rows_of_spec in Hr as (i & Ei & _). cbn in Ei. by rewrite E in Ei.
  - intros w w' k' m1 m2 Hw Hw' R1 R2. destruct (Hin w Hw) as (po & b & _ & Hb & ->), (Hin w' Hw') as (po' & b' & _ & Hb' & ->).
    by apply (Hk po po' b b' k').
Qed.

(** Claim C11: redelivery is harmless.  A broker delivers the messages of a
    topic to the storage consumer in any order, any number of times, with
    garbage and errors in between, while the database fails and comes back:
    if the batches fit the batch size, their texts can be escaped (a text that
    cannot is stored empty) and no two metrics claim one primary
    key, the table holds exactly the metrics of the messages whose offset was
    committed, each once, at the time of its own batch. *)
Theorem redelivery_harmless (log : topic) (db : database) (polls : list Consumer.poll_result) :
  Forall (delivered_from log) polls -> fits log db -> keyed log ->
  let s := ConsumeLoop polls (Consumer.init db) in
  exists l, wrote db (Consumer.world s) l /\
    forall k m, table_of (map written_of l) !! k = Some m <->
      exists po b, po ∈ Consumer.commits s /\ batch_at log po b /\ (k, m) ∈ rows_of (written_batch b).
Proof. apply loop_exact. Qed.
End Redelivery.
End Redelivery.

(** ** Collectors in Kafka mode *)
Module Queue.
Import MetricsTable MetricsService.Pipeline.

(** What librdkafka promises: a produced message is in its queue. *)
Class ProducerLaws {Q : Type} (rd_produce : Producer.message -> Q -> bool * Q) : Type := {
  queued : Q -> list Producer.message;
  queued_produce m q :
    queued (snd (rd_produce m q)) = queued q ++ (if fst (rd_produce m q) then [m] else []);
}.

Section Queue.
Context {W Q : Type} `{Libpq W}.
Variable iter : gmap string string -> list (string * string).
Variable serialize : MetricsBatch -> option string.
Variable parse : string -> option MetricsBatch.
(** Protobuf: a serialised batch is read back, and is not empty unless the
    batch is. *)
Hypothesis parse_serialize : forall b x, serialize b = Some x -> parse x = Some b.
Hypothesis serialize_nonempty : forall b x, serialize b = Some x -> b_metrics b <> [] -> is_empty x = false.
Variable rd_produce : Producer.message -> Q -> bool * Q.
Context `{!ProducerLaws rd_produce}.

Definition queue_of (p : @pipeline W Q) : list Producer.message :=
  match m_producer p with Some k => queued (Producer.queue k) | None => [] end.
(** The batches a consumer of the queue reads. *)
Definition batches_in (p : @pipeline W Q) : list MetricsBatch :=
  omap (fun m => if is_empty (Producer.m_payload m) then None else parse (Producer.m_payload m)) (queue_of p).
Definition published (p : @pipeline W Q) (l : list Metric) : Prop := l ⊆+ concat (map b_metrics (batches_in p)).

#[local] Instance kafka_sink : Sink (@pipeline W Q) := pipeline_sink iter serialize rd_produce.

Lemma Produce_queued b tp (k : @Producer.state Q) :
  let '(ok, k') := Producer.Produce serialize rd_produce b tp k in
  exists more, queued (Producer.queue k') = queued (Producer.queue k) ++ more /\
    (ok = true -> exists x, serialize b = Some x /\ more = [Producer.message_of k b x tp]).
Proof.
  unfold Producer.Produce. destruct (negb _); [exists []; by rewrite app_nil_r|].
  destruct (serialize b) as [x|]; [|exists []; by rewrite app_nil_r].
  pose proof (queued_produce (Producer.message_of k b x tp) (Producer.queue k)) as E.
  destruct (rd_produce _ _) as [[] q]; cbn in *; eexists; (split; [exact E|]); [by eexists|done].
Qed.

Definition in_kafka_mode (p : @pipeline W Q) : Prop := m_mode p = MetricsService.Kafka.

Lemma IngestBatch_published b tp p l :
  in_kafka_mode p -> published p l ->
  let '(ok, _, p') := IngestBatch iter serialize rd_produce b tp p in
  in_kafka_mode p' /\ published p' (if ok then l ++ b_metrics b else l).
Proof.
  intros Hm Hl. unfold IngestBatch, persist. rewrite Hm. destruct (m_clock p _) as [[[now_ms alert_ms] insert_ms] el].
  set (alerts := match m_alerts p with Some _ => _ | None => _ end).
  unfold published, batches_in, queue_of in *. destruct (m_producer p) as [k|].
  - pose proof (Produce_queued b tp k) as P. destruct (Producer.Produce _ _ b tp k) as [ok k'].
    destruct P as (more & E & Hok). destruct alerts as [a out]. cbn. split; [done|]. rewrite E, omap_app, map_app, concat_app.
    destruct ok; [|by apply submseteq_inserts_r]. destruct (Hok eq_refl) as (x & Ex & ->). apply submseteq_app; [done|].
    cbn. destruct (decide (b_metrics b = [])) as [->|Hne]; [apply submseteq_nil_l|].
    rewrite (serialize_nonempty b x Ex Hne), (parse_serialize b x Ex). cbn. by rewrite app_nil_r.
  - destruct alerts as [a out]. cbn. by split.
Qed.

Definition kafka_sink_laws : SinkLaws (@pipeline W Q).
Proof.
  refine {| keeps p l := in_kafka_mode p /\ published p l |}.
  - intros p l l' Hl [Hm Hp]. split; [done|]. unfold published in *. by etransitivity.
  - intros b tp p l [Hm Hp]. cbn. by apply IngestBatch_published.
Defined.

Lemma published_in p l m :
  published p l -> m ∈ l -> exists msg b, msg ∈ queue_of p /\ is_empty (Producer.m_payload msg) = false /\
    parse (Producer.m_payload msg) = Some b /\ m ∈ b_metrics b.
Proof.
  intros Hp Hm. apply (elem_of_submseteq _ _ _ Hm) in Hp. apply list_elem_of_In, in_concat in Hp as (ms & Hms & Hin).
  apply list_elem_of_In, list_elem_of_fmap in Hms as (b & -> & Hb).
  apply list_elem_of_omap in Hb as (msg & Hmsg & E). exists msg, b.
  destruct (is_empty (Producer.m_payload msg)); [done|]. split_and!; [done..|by apply list_elem_of_In].
Qed.
End Queue.
End Queue.

(** ** From the probes to the table *)
Module Whole.
Import MetricsTable Database Redelivery Queue MetricsService.Pipeline MetricsService.Endpoints.

Section Whole.
Context {W Q D : Type} `{LibpqLaws W, SpillStoreLaws D}.
Variable iter : gmap string string -> list (string * string).
Variable serialize : MetricsBatch -> option string.
Variable parse : string -> option MetricsBatch.
Hypothesis parse_serialize : forall b x, serialize b = Some x -> parse x = Some b.
Hypothesis serialize_nonempty : forall b x, serialize b = Some x -> b_metrics b <> [] -> is_empty x = false.
Variable rd_produce : Producer.message -> Q -> bool * Q.
Context `{!ProducerLaws rd_produce}.
Variable elapsed_ms : Z.
Variable cfg : MainLoop.config.
Variable who : Wire.identity.
#[local] Existing Instance kafka_sink.
#[local] Instance kafka_uplink : Uplink (Wire.world (@pipeline W Q)) :=
  @Wire.wire_uplink _ (kafka_sink iter serialize rd_produce) who.

Abbreviation run := (MainLoop.run serialize parse cfg).
Abbreviation start := (MainLoop.start cfg).

(** Every message in the queue of a collector was published to the topic and
    its offset was committed by the consumer. *)
Definition consumed (log : topic) (w : Wire.world (@pipeline W Q)) (commits : list (Z * Z)) : Prop :=
  forall ep c msg, Wire.collectors w !! ep = Some c -> msg ∈ queue_of rd_produce (sink (Wire.metrics c)) ->
    exists po, po ∈ commits /\ log !! po = Some (Producer.m_payload msg).

End Whole.
End Whole.

(** ** A concrete journey

    Two batches; the reply to the first is lost, so the agent sends it twice;
    the broker delivers the three messages in a mixed order, one of them after
    a restart again, with a poison pill in between. *)
Module Demo.
Import MetricsTable Database Redelivery Queue Whole MetricsService.Pipeline MetricsService.Endpoints.
#[local] Existing Instance recorder_laws.

Definition serialize (b : MetricsBatch) : option string :=
  match b_metrics b with
  | [m] => if decide (b = MainLoop.demo_batch (target m)) then Some ("b" +:+ target m) else None
  | _ => None
  end.
Definition parse (x : string) : option MetricsBatch :=
  if has_prefix "b" x then Some (MainLoop.demo_batch (sdrop 1 x)) else None.

Lemma parse_serialize b x : serialize b = Some x -> parse x = Some b.
Proof.
  unfold serialize, parse. destruct (b_metrics b) as [|m [|]]; [done| |done].
  destruct (decide _) as [E|]; [|done]. intros [= <-]. rewrite E.
  by destruct (target m).
Qed.
Lemma serialize_nonempty b x : serialize b = Some x -> b_metrics b <> [] -> is_empty x = false.
Proof. unfold serialize. destruct (b_metrics b) as [|m [|]]; [done| |done]. destruct (decide _); [|done]. by intros [= <-]. Qed.

Definition produce (m : Producer.message) (q : list Producer.message) : bool * list Producer.message := (true, q ++ [m]).
#[local] Instance produce_laws : ProducerLaws produce.
Proof. refine {| queued q := q |}. done. Defined.

Abbreviation kafka_pipeline := (@pipeline Timescale.recorder (list Producer.message)).
Definition demo_pipeline : kafka_pipeline :=
  mkPipeline (Timescale.demo_impl 500) None (Some (Producer.mkState true "network.metrics" 0 0 0 [])) MetricsService.Kafka
    (fun _ => (1000, 1000, 2, 5)%Z) 0 [].
Definition demo_world : Wire.world kafka_pipeline :=
  Wire.mkWorld {[ "localhost:50051" :=
      Wire.mkCollector (mkService 0 0 0 0 0 5000 1000 MetricsService.Kafka demo_pipeline) AgentRegistry.empty ]}
    (fun n => Wire.mkCircumstances (match n with 1 => Wire.Cut 0 true | _ => Wire.Arrives end) 1000 "" "ipv4:10.0.0.7:4242")
    0 [].
#[local] Instance demo_uplink : Uplink (Wire.world kafka_pipeline) :=
  kafka_uplink map_to_list serialize produce Database.demo_who.
Abbreviation demo_run :=
  (MainLoop.run serialize parse MainLoop.demo_cfg Database.demo_inputs
     (MainLoop.start MainLoop.demo_cfg 0 MainLoop.demo_disk (Failover.FailoverClient []) demo_world)).

Definition demo_topic : topic := {[ (0, 0) := "bx"; (0, 1) := "?"; (0, 2) := "bx"; (1, 0) := "by" ]}%Z.
Definition demo_polls : list Consumer.poll_result :=
  [Consumer.Message 0 0 "bx" []; Consumer.Message 1 0 "by" []; Consumer.Message 0 1 "?" []; Consumer.NoData;
   Consumer.Message 0 0 "bx" []; Consumer.ConsumeError "broker down"; Consumer.Message 0 2 "bx" []].
Definition demo_db : @Timescale.impl Timescale.recorder := Timescale.demo_impl 500.

Lemma demo_delivered : Forall (delivered_from demo_topic) demo_polls.
Proof. repeat constructor. Qed.
Lemma demo_batch_at po b : batch_at parse demo_topic po b -> exists t, b = MainLoop.demo_batch t.
Proof. intros (x & _ & _ & E). unfold parse in E. destruct (has_prefix _ _); [|done]. injection E as <-. by eexists. Qed.
Lemma demo_fits : fits map_to_list parse demo_topic demo_db.
Proof.
  split; [done|intros po b Hb; by destruct (demo_batch_at po b Hb) as [t ->]|].
  intros po b _ c x _. right. by eexists.
Qed.
Lemma demo_keyed : keyed parse demo_topic.
Proof.
  intros po po' b b' k m m' Hb Hb' Hm Hm'. destruct (demo_batch_at po b Hb) as [t ->], (demo_batch_at po' b' Hb') as [t' ->].
  cbn in Hm, Hm'. apply list_elem_of_singleton in Hm, Hm'. by simplify_eq.
Qed.

Abbreviation demo_consumer := (Consumer.ConsumeLoop parse (StorageConsumer.handler map_to_list 2) demo_polls (Consumer.init demo_db)).

(** Four statements were completed; two rows are in the table. *)
Lemma redelivery_harmless_witness :
  exists l, wrote map_to_list demo_db (Consumer.world demo_consumer) l /\ length l = 4 /\
    table_of (map (written_of map_to_list) l) !! key_of "agent" 0 (MainLoop.demo_metric "x") = Some (MainLoop.demo_metric "x").
Proof.
  destruct (redelivery_harmless map_to_list parse 2 demo_topic demo_db demo_polls demo_delivered demo_fits demo_keyed)
    as (l & Hl & Ht).
  exists l. split; [exact Hl|]. split.
  - apply (f_equal length) in Hl. rewrite length_app, length_map in Hl. vm_compute in Hl. symmetry. exact Hl.
  - apply Ht. exists (0, 0)%Z, (MainLoop.demo_batch "x"). split; [apply (bool_decide_unpack _); vm_compute; exact I|].
    split; [by exists "bx"|]. by apply list_elem_of_singleton.
Defined.

Lemma demo_commits : Consumer.commits demo_consumer = [(0, 0); (1, 0); (0, 1); (0, 0); (0, 2)]%Z.
Proof. vm_compute. reflexivity. Qed.
Lemma demo_committed x :
  x ∈ ["bx"; "bx"; "by"] -> exists po, po ∈ Consumer.commits demo_consumer /\ demo_topic !! po = Some x.
Proof.
  rewrite demo_commits, !elem_of_cons. intros [->|[->|[->|[]%elem_of_nil]]]; [exists (0, 0)%Z|exists (0, 0)%Z|exists (1, 0)%Z];
    (split; [set_solver|reflexivity]).
Qed.
Lemma demo_queue : exists c0,
  Wire.collectors (MainLoop.collector demo_run) = {[ "localhost:50051" := c0 ]} /\
  map Producer.m_payload (queue_of produce (sink (Wire.metrics c0))) = ["bx"; "bx"; "by"].
Proof. eexists. split; vm_compute; reflexivity. Qed.
Lemma demo_consumed : consumed produce demo_topic (MainLoop.collector demo_run) (Consumer.commits demo_consumer).
Proof.
  intros ep c msg Ec Hmsg. destruct demo_queue as (c0 & E & Hq).
  rewrite E in Ec. apply lookup_singleton_Some in Ec as [_ <-].
  apply demo_committed. rewrite <- Hq. by apply list_elem_of_fmap_2.
Qed.

End Demo.
