(* ===== verification/Unreadable.v ===== *)
(** * Unreadable: metrics the database cannot take

    [AttributesJsonLiteral] of [collector/src/storage/timescale_storage.cpp]
    writes the attributes of a metric as JSON by concatenation (file JsonSpec,
    [attributes_read_back]).  A database refuses an INSERT with a literal that
    is no JSON; this file says what that does to the agent that sent the
    metric, on top of the composition in the file Journey. *)
From stdpp Require Import base gmap strings list.
From Stdlib Require Import ZArith Lia.
From S2P Require Import Prelude Text Proto Storage MetricsService AgentRegistry DiskBuffer AgentMain Kafka JsonRead JsonSpec Journey.
Import Str MetricsService.Endpoints MetricsService.Pipeline JsonRead.JsonRead JsonSpec.Attributes Journey.Database.
#[local] Open Scope string_scope.
#[local] Open Scope list_scope.

Module Unreadable.
Section Unreadable.
Context {W Q : Type} `{LibpqLaws W}.
Variable iter : gmap string string -> list (string * string).
Hypothesis iter_ok : forall m, Lists.iteration_of m (iter m).
Variable serialize : MetricsBatch -> option string.
Variable rd_produce : Producer.message -> Q -> bool * Q.
(** The server refuses a statement with a JSONB literal that is no JSON.  A
    text the connection cannot escape is not in the statement: '{}' is. *)
Hypothesis jsonb_checked : forall (i : @inserted W) m w,
  m ∈ i_metrics i -> is_Some (PQescapeLiteral (i_conn i) (Timescale.attributes_body iter m)) ->
  read (Timescale.attributes_body iter m) = None -> command_ok (fst (PQexec (statement iter i) w)) = false.

(** Every connection can escape the attributes of the metric: their text is
    valid in its encoding. *)
Definition escapable (m : Metric) : Prop := forall w : W, is_Some (PQescapeLiteral w (Timescale.attributes_body iter m)).

Lemma InsertMetrics_unreadable agent ts ms el (s : @Timescale.impl W) m :
  m ∈ ms -> escapable m -> storable m = false -> (0 < batch_size (Timescale.config s))%Z ->
  fst (Timescale.InsertMetrics iter agent ts ms el s) = false.
Proof.
  intros Hm He Hs Hb. destruct (decide (Z.of_nat (length ms) <= batch_size (Timescale.config s))%Z) as [Hle|Hgt];
    [|apply InsertMetrics_oversized; lia].
  rewrite Timescale.InsertMetrics_one_statement; [|by intros ->; apply elem_of_nil in Hm|done]. cbv zeta.
  set (s1 := Timescale.EnsureConnected s). destruct (Timescale.usable s1); [|done].
  assert (command_ok (fst (PQexec (statement iter (mkInserted (Timescale.world s1) agent ts ms)) (Timescale.world s1))) = false) as R
    by (apply (jsonb_checked _ m); [exact Hm|apply He|]; by rewrite attributes_read_back, Hs).
  unfold Timescale.exec. change (Timescale.insert_statement iter (Timescale.world s1) agent ts ms)
    with (statement iter (mkInserted (Timescale.world s1) agent ts ms)).
  destruct (PQexec _ _) as [res w]. cbn in R. by rewrite R.
Qed.

Context {D : Type} `{SpillStoreLaws D}.
Variable serialize_batch : MetricsBatch -> option string.
Variable parse_batch : string -> option MetricsBatch.
Variable cfg : MainLoop.config.
Variable who : Wire.identity.
#[local] Existing Instance the_sink.
#[local] Instance unreadable_uplink : Uplink (Wire.world (@pipeline W Q)) := the_uplink iter serialize rd_produce who.

(** Claim C14: one metric can stop an agent for good.  Take an agent that sends
    unary calls (no streams) to collectors that write to TimescaleDB themselves
    with a positive batch size.  When the oldest batch in
    memory has a metric with an attribute that holds a control character other
    than newline, carriage return and tab, in a text libpq can escape, no collector ever
    acknowledges it: [JsonEscape] leaves the character as it is, the JSONB literal
    is no JSON, the INSERT of the whole batch fails, and the agent keeps the batch and all
    behind it, however often it tries, for as long as no fresh batch pushes it out. *)
Theorem unreadable_batch_blocks (s : MainLoop.state) (b : MetricsBatch) (m : Metric) (rest : list MetricsBatch)
    (times : list Z) :
  MainLoop.use_stream_metrics cfg = false -> MainLoop.buffer s = b :: rest ->
  m ∈ b_metrics b -> storable m = false -> escapable m ->
  (forall ep c, Wire.collectors (MainLoop.collector s) !! ep = Some c -> direct (Z.lt 0) (sink (Wire.metrics c))) ->
  MainLoop.buffer (MainLoop.run serialize_batch parse_batch cfg (map (fun t => (t, [])) times) s) = b :: rest.
Proof.
  intros Hu Hb Hm Hs He Hc. pose (pos := fun (z : Z) (H : (0 < z)%Z) => H).
  apply (Agent.refused_blocks (H0 := the_sink_laws iter serialize rd_produce (Z.lt 0) pos)
    serialize_batch parse_batch cfg who (Wire.acked (MainLoop.collector s)) b rest times s); [|done..|].
  - apply refused_direct. intros t ms st Hst. split; [by intros E; rewrite E in Hm; apply elem_of_nil in Hm|].
    by apply (InsertMetrics_unreadable _ _ _ _ _ m).
  - apply Agent.safe_start. intros ep c Ec. by apply direct_keeps, (Hc ep c).
Qed.
End Unreadable.
End Unreadable.

(** ** A server that refuses control characters *)
Module Demo.
Import Unreadable Text.Text.

Record strict : Type := mkStrict { log : list string }.
Definition taken (sql : string) : bool := has_prefix "INSERT" sql && sall json_safe sql.
#[local] Instance strict_libpq : Libpq strict := {|
  PQconnectdb _ w := w;
  PQstatus _ := true;
  PQexec sql w := (if taken sql then PGRES_COMMAND_OK "1" else PGRES_FATAL_ERROR, mkStrict (log w ++ [sql]));
  PQerrorMessage _ := "invalid input syntax for type json";
  PQescapeLiteral _ s := Some ("'" +:+ s +:+ "'");
|}.
#[local] Instance strict_laws : LibpqLaws strict.
Proof.
  refine {| executed w := filter (fun sql => taken sql = true) (log w) |}; [|done|done].
  intros sql w. cbn. rewrite filter_app, filter_cons, filter_nil. by destruct (taken sql) eqn:E.
Defined.

(** A control character stays one all the way into the statement. *)
Lemma EscapeJson_safe s : sall json_safe (EscapeJson s) = sall json_safe s.
Proof.
  induction s as [|c s IH]; [done|]. cbn [EscapeJson sall]. rewrite sall_app, IH. f_equal.
  destruct c as [[] [] [] [] [] [] [] []]; reflexivity.
Qed.
Lemma unsafe_join p sep x l : x ∈ l -> sall p x = false -> sall p (sjoin sep l) = false.
Proof.
  intros Hx E. induction l as [|y l IH]; [by apply elem_of_nil in Hx|].
  destruct l as [|z l]; [by apply list_elem_of_singleton in Hx as <-|].
  rewrite sjoin_cons, !sall_app. apply elem_of_cons in Hx as [<-|Hx]; [by rewrite E|]. by rewrite IH, !andb_false_r.
Qed.
Lemma unreadable_body iter (iter_ok : forall m, Lists.iteration_of m (iter m)) m :
  read (Timescale.attributes_body iter m) = None -> sall json_safe (Timescale.attributes_body iter m) = false.
Proof.
  rewrite attributes_read_back by done. destruct (storable m) eqn:Es; [done|]. intros _.
  unfold storable in Es. rewrite (forallb_permutation readable _ (iter (attributes m))) in Es by (symmetry; apply iter_ok).
  unfold Timescale.attributes_body. rewrite !sall_app.
  assert (exists kv, kv ∈ iter (attributes m) /\ readable kv = false) as (kv & Hkv & Hs).
  { induction (iter (attributes m)) as [|kv l IH]; [done|]. cbn in Es. apply andb_false_iff in Es as [E|E];
      [exists kv; split; [left|done]|destruct (IH E) as (kv' & ? & ?); exists kv'; split; [by right|done]]. }
  erewrite unsafe_join; [by rewrite andb_false_r|by apply list_elem_of_fmap_2|].
  cbv beta. rewrite !sall_app, !EscapeJson_safe. unfold readable in Hs. destruct (sall json_safe kv.1); [|by rewrite !andb_false_r].
  cbn in Hs. by rewrite Hs, !andb_false_r.
Qed.
Lemma strict_checks (i : @inserted strict) m w :
  m ∈ i_metrics i -> is_Some (PQescapeLiteral (i_conn i) (Timescale.attributes_body map_to_list m)) ->
  read (Timescale.attributes_body map_to_list m) = None ->
  command_ok (fst (PQexec (statement map_to_list i) w)) = false.
Proof.
  intros Hm _ Hr. enough (taken (statement map_to_list i) = false) as E by (change (command_ok (if taken (statement map_to_list i) then PGRES_COMMAND_OK "1" else PGRES_FATAL_ERROR) = false); by rewrite E).
  unfold taken. apply andb_false_iff. right.
  unfold statement, Timescale.insert_statement. rewrite !sall_app. apply list_elem_of_lookup in Hm as [k Hk].
  erewrite unsafe_join; [by rewrite andb_false_r| |].
  - unfold Timescale.tuples. apply list_elem_of_lookup. exists k. rewrite list_lookup_imap, Hk. reflexivity.
  - unfold Timescale.value_tuple, Timescale.AttributesJsonLiteral. cbn [PQescapeLiteral strict_libpq].
    rewrite !sall_app, (unreadable_body map_to_list (fun m => reflexivity _) m Hr). by rewrite !andb_false_r.
Qed.

Definition bad_metric : Metric :=
  mkMetric CHECK_TYPE_DNS_RECORD "h" true "" VALUE_NOT_SET None {[ "CNAME" := chr (c_of 27) ]} 0 0.
Definition bad_batch : MetricsBatch := mkBatch "agent" 0 [MainLoop.demo_metric "x"; bad_metric].

Abbreviation strict_sink := (@pipeline strict unit).
Definition demo_pipeline : strict_sink :=
  mkPipeline (Timescale.mkImpl true (mkConfig "localhost" 5432 "pudimnetmon" "pudim" "pudim" 500) (mkStats 0 0 0 0) (mkStrict []))
    None None Direct (fun _ => (1000, 1000, 2, 5)%Z) 0 [].
Definition demo_world : Wire.world strict_sink :=
  Wire.mkWorld {[ "localhost:50051" :=
      Wire.mkCollector (mkService 0 0 0 0 0 5000 1000 Direct demo_pipeline) AgentRegistry.empty ]}
    (fun _ => Wire.mkCircumstances Wire.Arrives 1000 "" "ipv4:10.0.0.7:4242") 0 [].
#[local] Instance demo_uplink : Uplink (Wire.world strict_sink) :=
  unreadable_uplink map_to_list (fun _ => None) demo_produce demo_who.
Definition demo_start :=
  MainLoop.set_buffer [bad_batch; MainLoop.demo_batch "y"]
    (MainLoop.start MainLoop.demo_cfg 0 MainLoop.demo_disk (Failover.FailoverClient []) demo_world).

(** Three attempts, all refused. *)
Lemma unreadable_batch_blocks_witness :
  let s := MainLoop.run MainLoop.demo_serialize MainLoop.demo_parse MainLoop.demo_cfg [(0, []); (2000, []); (4000, [])]%Z demo_start in
  MainLoop.buffer s = [bad_batch; MainLoop.demo_batch "y"] /\
  exists c, Wire.collectors (MainLoop.collector s) !! "localhost:50051" = Some c /\
    length (log (Timescale.world (m_storage (sink (Wire.metrics c))))) = 3.
Proof.
  cbv zeta. split; [|eexists; split; vm_compute; reflexivity].
  apply (unreadable_batch_blocks map_to_list (fun m => reflexivity _) (fun _ => None) demo_produce strict_checks
    MainLoop.demo_serialize MainLoop.demo_parse MainLoop.demo_cfg demo_who demo_start bad_batch bad_metric
    [MainLoop.demo_batch "y"] [0; 2000; 4000]%Z); [reflexivity..| |vm_compute; reflexivity| |].
  - right. left.
  - intros w. by eexists.
  - intros ep c Ec. cbn in Ec. by apply lookup_singleton_Some in Ec as [_ <-].
Defined.
End Demo.
